(* ===== verification/_CoqProject ===== *)
-Q . S2P
Prelude.v
PyStr.v
PyText.v
Host.v
Dirs.v
Regex.v
PyDict.v
PySort.v
PyCsv.v
PyFloat.v
Percent.v
PyNum.v
PyDecimal.v
PyJson.v
PyArgs.v
PyRandom.v
SrtDivide.v
SrtSqrt.v
SrtVectors.v
Encoding.v
Isa.v
RegFile.v
Memory.v
Program.v
Patterns.v
ScenarioBase.v
IntHazards.v
MuldivInterleave.v
MemOrdering.v
RawStress.v
FpArith.v
FdivFsqrt.v
Traps.v
TrapRun.v
BranchPred.v
Generator.v
TraceEvents.v
TraceDiff.v
SailNormalize.v
TracePipeline.v
Coverage.v
RtlRules.v
DocsLint.v
Mutator.v
CrvRunner.v
CosimRunner.v
CycleDiff.v
RetireCsv.v
Profiles.v
SynthWns.v
TestFloat.v
CommandLine.v
