(* ===== verification/Prelude.v ===== *)
(** * Verification of the Kronos RISC-V verification tools

    The repository holds a RISC-V core in SystemVerilog and the Python tools
    that test it: reference models and vector generators for its floating-point
    unit, a constrained-random generator of assembly programs, and scripts that
    compare and gate what the simulations print.  A wrong tool hides a wrong
    core, so the tools are what is modelled here; the RTL, the C++ simulators
    and the assembly tests are not.

    ** Foundations

    - [Prelude] (this file): Python exceptions and the result type [res], in
      which an exception is a value; lemmas on bit operations; tactics.
    - [PyStr]: Python strings as [string]: [str] and [int] of an integer, hex
      and binary formats, slices, [split], and lines of text.  A character
      stands for a code point below 256.
    - [PyText]: white space, [strip], [splitlines], substrings, [int] of text
      and its round trip with [str].
    - [Regex]: the part of [re] the tools use, as a backtracking matcher that
      lists every match in Python's order; search, substitution with the escapes
      of replacement texts, [finditer]; lemmas that turn a pattern into a
      statement on texts; [findall_leftmost]: what [finditer] returns are the
      texts of a grammar, left to right.  No pattern here needs fuel: repetitions are of single
      characters, and the matcher is structural in pattern and subject.
    - [PyDict]: dictionaries, in insertion order.  [PySort]: [sort] by a key,
      largest first, with its laws: a permutation, sorted, stable.
    - [PyCsv]: [csv.reader] as the state machine of CPython, and [DictReader];
      tables of plain fields are read back.
    - [PyFloat]: binary64, on the standard library's [SpecFloat]; [Percent]:
      the percentages of the coverage tools and their printing, with the proof
      that rounding never moves one across a whole threshold.
    - [PyNum]: [int(s, 16)], [float(s)], the quotient of two integers, and bars:
      rounding never makes one longer than its chart.  [PyDecimal]: reading,
      comparing and printing the floats of three-place decimals is reading,
      comparing and printing the decimals.
    - [PyRandom]: [random.Random].  The class [PyRandom] is the part of the
      generator the tools draw from, [PyRandomLaws] the documented ranges of the
      draws; every theorem about a generated file is proved for every instance.
      [Mt19937] is CPython's Mersenne Twister with its seeding, an instance, so
      the witnesses run on the seeds the tools run on.
    - [PyJson]: [json.loads] as CPython's scanner, with its errors and their
      places.  [loads_total]: it returns a value or that error, so its fuel is
      enough; [loads_spells]: every text of the grammar [spells] is read as the
      value it spells.
    - [PyArgs]: [argparse], for parsers with long options and any positionals:
      abbreviations, values after a space or an equals sign, the interleaving of
      options and positionals, conversions, choices, what is required.
      [parse_args_settled]: it returns a namespace or exits with 0 or 2, so its
      fuel is enough; [parse_help]: with 0 only if an argument asks for help;
      [parse_typed]: every field holds a value of its type, a
      default only where the option is not required; [parse_order]: the order of
      the options does not matter.
    - [Host]: files, directories, what is printed and the processes started, as
      the state of a monad in which an exception keeps what was done; the
      programs that are started are a parameter, [program].
    - [Dirs]: the form of paths, suffixes, and the listings [glob] and [rglob].
      The order of a listing is the class [Scandir]; [ScandirLaws] says it is an
      order of the entries, and [elem_of_rglob] that the walk finds what is below.

    ** Reference models (tb/stage5/ref)

    [SrtDivide] is srt_divide.py and [SrtSqrt] is srt_sqrt.py: the loops with
    the assertions in front of them, proved to return the truncated quotient
    and root and the exact sticky bit.  [SrtVectors] is gen_fdiv_vectors.py and
    gen_fsqrt_vectors.py, from the case lists to the text of the files, proved
    to hold only lines that read back as cases the unit must satisfy.

    ** Constrained-random programs (tools/crv)

    - [Encoding] is encoding.py, one definition per encoder in the module
      [enc], Python's untyped register arguments as values of [arg].  [Isa] is
      its specification: an abstract syntax of instructions, [encode_insn] which
      calls the encoders, and [decode_insn], a reader of assembly lines.
    - [RegFile] is regfile.py, [Memory] is memory.py.
    - [Program] says what a program promises: registers read and written,
      definition before use in textual order, registers left alone, and, by a
      step relation on register contents, where the loads and stores land.
      [Patterns] has shapes of instruction sequences.
    - [ScenarioBase] is the monad of the scenarios (generator and register
      states passed along, an exception ends the run), its rules of total
      correctness, and the code several scenarios repeat.
    - One file per scenario of tools/crv/scenarios, [generate] in a module
      named after the Python module: [IntHazards], [MuldivInterleave],
      [MemOrdering], [RawStress], [FpArith], [FdivFsqrt], [Traps],
      [BranchPred].
    - [TrapRun] runs the programs of [Traps]: its lines laid out in memory, a
      machine that fetches them, takes traps and returns from them, and
      [traps_run]: each line of the body is executed once and in order, the
      handler after every trap, and the end is reached.
    - [Generator] is generator.py with the registry: the text of a program, a
      reader of that text, and the theorem that holds for every registered
      scenario, seed and length.  A body reads no register it has not written
      but x0, sp and, in traps, x5 and x6.

    - [CrvRunner] is runner.py: generate, build, run on the core and on Sail,
      compare, clean up.  [crv_run_agrees] composes it with the generator and
      the trace tools: its verdict is the agreement of the two traces.

    ** Traces (tools)

    - [TraceEvents] is the specification: a retire event and its line.
    - [TraceDiff] is trace_diff.py: what is compared, where the two traces are
      synchronised, the verdict.
    - [SailNormalize] is sail_trace_normalize.py, from Sail's log to lines.
    - [TracePipeline] is the two together.
    - [RetireCsv] is tools/trace/diff_retire.py and trace_to_text.py, on the CSV
      trace of sim_main.cpp, whose rows are its specification.
    - [Profiles] is tools/trace/profile_pc.py and stall_taxonomy.py, the bar
      charts of the CSV files the simulator writes at its end.

    ** Co-simulation of mutated programs (tools/cosim_fuzz)

    [Mutator] is mutator.py: the headers, proved to be read as the declarations
    that stand in the text, the draws, and the substitution, proved to set the
    declared constants and no others.  [CosimRunner] is
    runner.py, up to its verdict on the traces.

    ** Gates

    - [CycleDiff] is cycle_diff.py: the cycles of two builds, and the work tree
      of the older one, proved to be removed once its build succeeded.
    - [Coverage] is crv_cov_merge.py and coverage_gate.py, and their
      composition: the verdict says whether every bin was hit in some run.
    - [RtlRules] is check_rtl_rules.py: the line scanner, proved equivalent on
      well-nested text to the rule on the tree of scopes (a line may hold a whole
      block, or be an [end else begin] whose blocks are both labelled or both
      not; a change of label there misleads the scanner); the walk of the
      directories ([scan_verdict]) and the staged files with the lines their
      diffs add ([staged_exact]).
    - [DocsLint] is docs_lint.py: which stage a diagram shows and which captions
      it needs, proved to follow the rule [documented]: one line for each finding
      and none besides.

    - [SynthWns] is check_synth_wns.py: the slack of a timing report against a
      floor, decided as the decimals are, and the pattern that finds it.

    ** Command lines

    [CommandLine] has the twelve scripts that read their arguments with
    [argparse]: the parser of each, as its [add_argument] calls build it, and the
    script from the command line on.  [generator_script_safe]: on its four options,
    in any order, the generator writes the program that was asked for, and
    whatever it is given, it writes that program or nothing;
    [runner_command_line]: the options of the runner, in any order, run the
    scenario, seed and length that are written; [runner_no_false_pass] and
    [cosim_no_false_pass]: whatever the command line and whatever the tools do, a
    success means that every process was started in its order and succeeded (the
    rules [leads] of [Host] follow the processes through a script).  trace_diff.py
    reads its arguments itself ([TraceDiff.trace_diff.main]).

    ** Generated stimulus

    [TestFloat] is gen_testfloat_vectors.py: the vector files made of the output
    of testfloat_gen, a parameter of the host.

    ** Loops and fuel

    A [while] loop of the code is the combinator [while] with a bound on its
    iterations; running out of it is the exception [NoProgress], which no
    Python code raises.  The bound of a scenario is the requested length, and
    each iteration appends at least one line; the theorems show that every
    scenario returns, so [NoProgress] never comes out.  [Regex.template] reads
    a replacement text with its length as fuel, and every turn uses a character;
    [PyJson.loads] has twice the length of the text and one more; [PyArgs.loop]
    has the number of the arguments and one more; [Dirs.rglob]
    has the length of the longest path, since paths grow on the way down.
    All other loops are structural, over the lines or the matches of a text.

    ** Not modelled

    - The help and usage texts of the command lines; a value given as [--name=--],
      which argparse of Python 3.11 leaves as an empty list, is a [TypeError] at
      once and not where the script first uses it.
    - Failures of the machine the host state does not show (permissions, a full
      disk, an interrupt; so [rmtree], which in the code is best effort, always
      removes), and other processes changing the files of a run.
    - Text beyond code point 255 (the two such characters the scripts print stand
      as their bytes in UTF-8), carriage returns but for those CSV files may
      hold, the limit on the decimal digits [int] reads and the one on nested calls.
      A string of a JSON text may hold any code point.
    - The RTL, the simulators, shell scripts and assembly, which are not Python;
      vendored test suites. *)
From Stdlib Require Export ZArith Lia.
From stdpp Require Export base list gmap strings sorting numbers tactics.

(** ** Python exceptions and results *)

(** The exceptions the modelled code raises (with the message where the code
    builds one), and [NoProgress]: a [while] loop of the model that runs out
    of iterations.  No Python code raises the last one; the termination
    theorems show that it never comes out of a modelled function. *)
Inductive exn :=
  | ValueError (msg : string)
  | TypeError (msg : string)
  | IndexError (msg : string)
  | KeyError (key : string)
  | AssertionError (msg : string)
  | RuntimeError (msg : string)
  | OSError (msg : string)
  | CsvError (msg : string)
  | AttributeError (msg : string)
  | JSONDecodeError (msg : string) (pos : Z)
  | ReError
  | CalledProcessError (code : Z) (stderr : string)
  | TimeoutExpired (stderr : string)
  | ZeroDivisionError
  | OverflowError (msg : string)
  | SystemExit (code : Z)
  | NoProgress.

Inductive res (A : Type) :=
  | Ok (a : A)
  | Raise (e : exn).
Arguments Ok {A} a.
Arguments Raise {A} e.

#[export] Instance res_ret : MRet res := λ A a, Ok a.
#[export] Instance res_bind : MBind res := λ A B f m,
  match m with Ok a => f a | Raise e => Raise e end.
#[export] Instance res_fmap : FMap res := λ A B f m,
  match m with Ok a => Ok (f a) | Raise e => Raise e end.

(** Truth of a result: what it satisfies when it is a value. *)
Definition res_wp {A} (m : res A) (Q : A → Prop) : Prop :=
  match m with Ok a => Q a | Raise _ => False end.

Lemma res_wp_ok {A} (m : res A) Q : res_wp m Q ↔ ∃ a, m = Ok a ∧ Q a.
Proof.
  destruct m as [a|e]; simpl; split.
  - intros ?. by exists a.
  - by intros (? & [= <-] & ?).
  - done.
  - by intros (? & ? & _).
Qed.

Lemma res_wp_bind {A B} (m : res A) (f : A → res B) Q :
  res_wp (m ≫= f) Q ↔ res_wp m (λ a, res_wp (f a) Q).
Proof. by destruct m. Qed.

Lemma res_bind_ok {A B} (m : res A) (f : A → res B) b :
  m ≫= f = Ok b ↔ ∃ a, m = Ok a ∧ f a = Ok b.
Proof.
  destruct m as [a|e]; simpl; split.
  - intros ?. by exists a.
  - by intros (? & [= <-] & ?).
  - done.
  - by intros (? & ? & _).
Qed.

(** ** Booleans of comparisons *)

(** Turn a boolean test on integers into the proposition it decides. *)
Ltac zbool :=
  repeat match goal with
  | H : (_ && _) = true |- _ => apply andb_true_iff in H as [??]
  | H : (_ && _) = false |- _ => apply andb_false_iff in H
  | H : (_ || _) = true |- _ => apply orb_true_iff in H
  | H : (_ || _) = false |- _ => apply orb_false_iff in H as [??]
  | H : negb _ = true |- _ => apply negb_true_iff in H
  | H : negb _ = false |- _ => apply negb_false_iff in H
  | H : Z.ltb _ _ = true |- _ => apply Z.ltb_lt in H
  | H : Z.ltb _ _ = false |- _ => apply Z.ltb_ge in H
  | H : Z.leb _ _ = true |- _ => apply Z.leb_le in H
  | H : Z.leb _ _ = false |- _ => apply Z.leb_gt in H
  | H : Z.geb _ _ = _ |- _ => rewrite Z.geb_leb in H
  | H : Z.gtb _ _ = _ |- _ => rewrite Z.gtb_ltb in H
  | H : Z.eqb _ _ = true |- _ => apply Z.eqb_eq in H
  | H : Z.eqb _ _ = false |- _ => apply Z.eqb_neq in H
  end.

(** Decide a closed proposition. *)
Ltac by_decide :=
  match goal with |- ?P => apply (bool_decide_unpack P); vm_compute; exact I end.
Ltac absurd_decide H :=
  let T := type of H in exfalso; apply (bool_decide_pack T) in H; vm_compute in H; exact H.

(** ** Bit operations used as arithmetic *)

Local Open Scope Z_scope.

Lemma lor_shiftl_1 q : Z.lor (Z.shiftl q 1) 1 = 2 * q + 1.
Proof.
  rewrite Z.shiftl_mul_pow2 by lia. rewrite Z.mul_comm. change (2 ^ 1) with 2.
  by destruct q as [|[]|[]].
Qed.

Lemma shiftl_1 q : Z.shiftl q 1 = 2 * q.
Proof. rewrite Z.shiftl_mul_pow2 by lia. lia. Qed.

(** Filling the low bits cleared by a shift is an addition. *)
Lemma lor_shiftl_add q k x :
  0 ≤ k → 0 ≤ x < 2 ^ k → Z.lor (Z.shiftl q k) x = q * 2 ^ k + x.
Proof.
  intros Hk Hx. rewrite <-Z.shiftl_mul_pow2 by done.
  assert (Z.land (Z.shiftl q k) x = 0) as Hland.
  { apply Z.bits_inj'. intros i Hi. rewrite Z.land_spec, Z.bits_0.
    destruct (Z_lt_le_dec i k); [by rewrite Z.shiftl_spec_low|].
    rewrite <-(Z.mod_small x (2 ^ k)), Z.mod_pow2_bits_high by lia.
    apply andb_false_r. }
  pose proof (Z.add_lor_land (Z.shiftl q k) x). lia.
Qed.

(** Masking with [2^k - 1] is reduction modulo [2^k]. *)
Lemma land_mask x k : 0 ≤ k → Z.land x (Z.shiftl 1 k - 1) = x `mod` 2 ^ k.
Proof.
  intros. rewrite Z.shiftl_1_l.
  replace (2 ^ k - 1) with (Z.ones k) by (rewrite Z.ones_equiv; lia).
  by apply Z.land_ones.
Qed.

(** The top bit of an [n]-bit number. *)
Lemma testbit_top x m :
  0 ≤ m → 0 ≤ x < 2 * 2 ^ m → Z.testbit x m = true ↔ 2 ^ m ≤ x.
Proof.
  intros Hm Hx. rewrite Z.testbit_true by done.
  assert (0 < 2 ^ m) by (apply Z.pow_pos_nonneg; lia).
  destruct (Z_le_gt_dec (2 ^ m) x).
  - rewrite <-(Z.div_unique x (2 ^ m) 1 (x - 2 ^ m)) by lia. by split.
  - rewrite Z.div_small by lia. split; [done|lia].
Qed.
