(* ===== verification/PyStr.v ===== *)
(** The string operations of the Python standard library that the tools use,
    on strings whose code points are below 256: [str] of an integer and back,
    the format specifications [x], [0Nx] and [#x], [join], [split], [strip] and
    [splitlines], with the lemmas about them that the components share. *)
From S2P Require Export Prelude.
From Stdlib Require Export Ascii.
From Stdlib Require Import DecimalString DecimalZ DecimalFacts.
Local Open Scope Z_scope.

(** ** [str] and [int] of an integer *)

(** [str(z)]. *)
Definition str_Z (z : Z) : string := NilZero.string_of_int (Z.to_int z).

(** [int(s)] for a string of decimal digits with an optional sign. *)
Definition int_of_str (s : string) : option Z :=
  Z.of_int <$> NilZero.int_of_string s.

Lemma int_of_str_Z z : int_of_str (str_Z z) = Some z.
Proof.
  unfold int_of_str, str_Z. rewrite NilZero.isi; simpl.
  - by rewrite DecimalZ.of_to.
  - destruct z; simpl; try done. intros [= H]. by apply DecimalPos.Unsigned.to_uint_nonnil in H.
  - destruct z; simpl; try done. intros [= H]. by apply DecimalPos.Unsigned.to_uint_nonnil in H.
Qed.

#[export] Instance str_Z_inj : Inj (=) (=) str_Z.
Proof. intros x y H. apply (f_equal int_of_str) in H. rewrite !int_of_str_Z in H. by injection H. Qed.

(** ** Elementary facts on strings *)

Lemma str_app_nil_r (s : string) : s +:+ "" = s.
Proof. induction s as [|c s IH]; [done|]. unfold String.app in *; simpl. by rewrite IH. Qed.

Lemma str_app_nil_l (s : string) : "" +:+ s = s.
Proof. done. Qed.

Lemma str_app_cons c (s t : string) : String c s +:+ t = String c (s +:+ t).
Proof. done. Qed.

Lemma str_app_assoc (s t u : string) : (s +:+ t) +:+ u = s +:+ (t +:+ u).
Proof. induction s as [|c s IH]; [done|]. by rewrite !str_app_cons, IH. Qed.

Lemma str_length_app (s t : string) :
  String.length (s +:+ t) = (String.length s + String.length t)%nat.
Proof. induction s as [|c s IH]; [done|]. rewrite str_app_cons. simpl. by rewrite IH. Qed.

Lemma str_app_inj_len (s t u v : string) :
  String.length s = String.length t → s +:+ u = t +:+ v → s = t ∧ u = v.
Proof.
  revert t. induction s as [|c s IH]; intros [|d t]; try done.
  rewrite !str_app_cons. simpl. intros [= Hl] [= -> H]. by destruct (IH _ Hl H) as [-> ->].
Qed.

(** Every character of the string satisfies [p]. *)
Fixpoint str_all (p : Ascii.ascii → bool) (s : string) : bool :=
  match s with EmptyString => true | String c s => p c && str_all p s end.

Lemma str_all_app p s t : str_all p (s +:+ t) = str_all p s && str_all p t.
Proof. induction s as [|c s IH]; [done|]. rewrite str_app_cons. simpl. by rewrite IH, andb_assoc. Qed.

Lemma str_all_impl p q s :
  (∀ c, p c = true → q c = true) → str_all p s = true → str_all q s = true.
Proof.
  intros Hpq. induction s as [|c s IH]; [done|]. simpl. intros H. zbool.
  rewrite Hpq, IH; done.
Qed.

Create HintDb pystr.
#[export] Hint Rewrite str_app_nil_r str_app_nil_l str_app_assoc str_app_cons
  str_length_app str_all_app : pystr.

(** ** Hexadecimal *)

Definition hex_digit (d : Z) : Ascii.ascii :=
  match d with
  | 0 => "0" | 1 => "1" | 2 => "2" | 3 => "3" | 4 => "4" | 5 => "5" | 6 => "6"
  | 7 => "7" | 8 => "8" | 9 => "9" | 10 => "a" | 11 => "b" | 12 => "c"
  | 13 => "d" | 14 => "e" | _ => "f"
  end%char.

Definition hex_value (c : Ascii.ascii) : option Z :=
  match c with
  | "f" | "F" => Some 15 | "e" | "E" => Some 14 | "d" | "D" => Some 13
  | "c" | "C" => Some 12 | "b" | "B" => Some 11 | "a" | "A" => Some 10
  | "9" => Some 9 | "8" => Some 8 | "7" => Some 7 | "6" => Some 6 | "5" => Some 5
  | "4" => Some 4 | "3" => Some 3 | "2" => Some 2 | "1" => Some 1 | "0" => Some 0
  | _ => None
  end%char.

(** [[0-9a-fA-F]] *)
Definition is_hex (c : Ascii.ascii) : bool :=
  match hex_value c with Some _ => true | None => false end.

(** The [w] low hexadecimal digits of [z], in lower case. *)
Fixpoint hex_fixed (w : nat) (z : Z) : string :=
  match w with
  | O => ""
  | S w => hex_fixed w (z / 16) +:+ String (hex_digit (z `mod` 16)) ""
  end.

(** How many hexadecimal digits a nonnegative number takes. *)
Definition hex_ndigits (z : Z) : nat := S (Z.to_nat (Z.log2 z / 4)).

(** [f"{z:0wx}"]: padded with zeros to [w] characters, the sign included;
    [w = 0] is [f"{z:x}"]. *)
Definition fmt_hex (w : nat) (z : Z) : string :=
  if z <? 0 then "-" +:+ hex_fixed (Nat.max (w - 1) (hex_ndigits (- z))) (- z)
  else hex_fixed (Nat.max w (hex_ndigits z)) z.

(** [f"{z:#x}"]. *)
Definition fmt_hash_x (z : Z) : string :=
  if z <? 0 then "-0x" +:+ hex_fixed (hex_ndigits (- z)) (- z)
  else "0x" +:+ hex_fixed (hex_ndigits z) z.

Fixpoint hex_value_from (acc : Z) (s : string) : option Z :=
  match s with
  | EmptyString => Some acc
  | String c s => d ← hex_value c; hex_value_from (16 * acc + d) s
  end.

(** [int(s, 16)] for a string of hexadecimal digits. *)
Definition int_of_hex (s : string) : option Z :=
  match s with EmptyString => None | _ => hex_value_from 0 s end.

Lemma hex_value_digit d : 0 ≤ d < 16 → hex_value (hex_digit d) = Some d.
Proof.
  intros H.
  assert (d = 0 ∨ d = 1 ∨ d = 2 ∨ d = 3 ∨ d = 4 ∨ d = 5 ∨ d = 6 ∨ d = 7 ∨ d = 8 ∨ d = 9
    ∨ d = 10 ∨ d = 11 ∨ d = 12 ∨ d = 13 ∨ d = 14 ∨ d = 15) as Hd by lia.
  repeat destruct Hd as [->|Hd]; try done. by subst.
Qed.

Lemma length_hex_fixed w z : String.length (hex_fixed w z) = w.
Proof.
  revert z. induction w as [|w IH]; intros z; [done|]. simpl.
  rewrite str_length_app, IH. simpl. lia.
Qed.

Lemma hex_value_from_app acc s t :
  hex_value_from acc (s +:+ t) = (a ← hex_value_from acc s; hex_value_from a t).
Proof.
  revert acc. induction s as [|c s IH]; intros acc; [done|].
  rewrite str_app_cons. simpl. by destruct (hex_value c); simpl.
Qed.

Lemma hex_value_from_fixed w z acc :
  hex_value_from acc (hex_fixed w z) = Some (acc * 16 ^ Z.of_nat w + z `mod` 16 ^ Z.of_nat w).
Proof.
  revert z acc. induction w as [|w IH]; intros z acc.
  - simpl. f_equal. rewrite Z.mod_1_r. lia.
  - cbn [hex_fixed]. rewrite hex_value_from_app, IH. simpl.
    rewrite hex_value_digit by (apply Z.mod_pos_bound; lia). simpl. f_equal.
    rewrite Nat2Z.inj_succ, Z.pow_succ_r, (Z.rem_mul_r z 16) by (try apply Z.pow_pos_nonneg; lia).
    lia.
Qed.

Lemma hex_fixed_hex w z : str_all is_hex (hex_fixed w z) = true.
Proof.
  revert z. induction w as [|w IH]; intros z; [done|]. cbn [hex_fixed].
  rewrite str_all_app, IH. simpl. rewrite andb_true_r. unfold is_hex.
  rewrite hex_value_digit; [done|]. apply Z.mod_pos_bound. lia.
Qed.

Lemma hex_ndigits_spec z : 0 ≤ z → z < 16 ^ Z.of_nat (hex_ndigits z).
Proof.
  intros Hz. unfold hex_ndigits. pose proof (Z.log2_nonneg z).
  assert (0 ≤ Z.log2 z / 4) by (apply Z.div_pos; lia).
  rewrite Nat2Z.inj_succ, Z2Nat.id by done.
  change 16 with (2 ^ 4). rewrite <-Z.pow_mul_r by lia.
  destruct (Z.eq_dec z 0) as [->|]; [done|].
  apply Z.log2_lt_pow2; [lia|].
  pose proof (Z.mod_pos_bound (Z.log2 z) 4). pose proof (Z.div_mod (Z.log2 z) 4). lia.
Qed.

Lemma hex_ndigits_le w z : (0 < w)%nat → 0 ≤ z < 16 ^ Z.of_nat w → (hex_ndigits z ≤ w)%nat.
Proof.
  intros Hw Hz. unfold hex_ndigits.
  destruct (Z.eq_dec z 0) as [->|]; [change (1 ≤ w)%nat; lia|].
  change 16 with (2 ^ 4) in Hz. rewrite <-Z.pow_mul_r in Hz by lia.
  assert (Z.log2 z < 4 * Z.of_nat w) by (apply Z.log2_lt_pow2; lia).
  assert (Z.log2 z / 4 < Z.of_nat w) by (apply Z.div_lt_upper_bound; lia).
  lia.
Qed.

Lemma fmt_hex_fixed w z :
  (0 < w)%nat → 0 ≤ z < 16 ^ Z.of_nat w → fmt_hex w z = hex_fixed w z.
Proof.
  intros Hw Hz. unfold fmt_hex. rewrite (proj2 (Z.ltb_ge _ _)) by lia.
  pose proof (hex_ndigits_le w z Hw Hz). f_equal. lia.
Qed.

Lemma int_of_hex_nonempty s : s ≠ "" → int_of_hex s = hex_value_from 0 s.
Proof. by destruct s. Qed.

(** [int] in base 16 undoes every padded format of a nonnegative number. *)
Lemma int_of_hex_fmt w z : 0 ≤ z → int_of_hex (fmt_hex w z) = Some z.
Proof.
  intros Hz. unfold fmt_hex. rewrite (proj2 (Z.ltb_ge _ _)) by lia.
  set (n := Nat.max w (hex_ndigits z)).
  rewrite int_of_hex_nonempty.
  - rewrite hex_value_from_fixed. f_equal. rewrite Z.mod_small; [lia|].
    split; [done|]. pose proof (hex_ndigits_spec z Hz).
    apply Z.lt_le_trans with (16 ^ Z.of_nat (hex_ndigits z)); [done|].
    apply Z.pow_le_mono_r; lia.
  - intros E. apply (f_equal String.length) in E. rewrite length_hex_fixed in E.
    subst n. unfold hex_ndigits in E. simpl in E. lia.
Qed.

Lemma length_fmt_hex w z :
  (0 < w)%nat → 0 ≤ z < 16 ^ Z.of_nat w → String.length (fmt_hex w z) = w.
Proof. intros. by rewrite fmt_hex_fixed, length_hex_fixed. Qed.

Lemma fmt_hex_hex w z : 0 ≤ z → str_all is_hex (fmt_hex w z) = true.
Proof.
  intros. unfold fmt_hex. rewrite (proj2 (Z.ltb_ge _ _)) by lia. apply hex_fixed_hex.
Qed.

(** ** Binary *)

Fixpoint bin_fixed (w : nat) (z : Z) : string :=
  match w with
  | O => ""
  | S w => bin_fixed w (z / 2) +:+ (if Z.odd z then "1" else "0")
  end.

(** [f"{z:0wb}"] *)
Definition fmt_bin (w : nat) (z : Z) : string :=
  let n x := S (Z.to_nat (Z.log2 x)) in
  if z <? 0 then "-" +:+ bin_fixed (Nat.max (w - 1) (n (- z))) (- z)
  else bin_fixed (Nat.max w (n z)) z.

(** ** Slices *)

Fixpoint str_take (n : nat) (s : string) : string :=
  match n, s with
  | S n, String c s => String c (str_take n s)
  | _, _ => ""
  end.

Fixpoint str_drop (n : nat) (s : string) : string :=
  match n, s with
  | S n, String _ s => str_drop n s
  | _, _ => s
  end.

Lemma str_take_app n s t : String.length s = n → str_take n (s +:+ t) = s.
Proof.
  revert n. induction s as [|c s IH]; intros n <-; [by destruct t|].
  rewrite str_app_cons. simpl. by rewrite IH.
Qed.

Lemma str_drop_app n s t : String.length s = n → str_drop n (s +:+ t) = t.
Proof.
  revert n. induction s as [|c s IH]; intros n <-; [by destruct t|].
  rewrite str_app_cons. simpl. by rewrite IH.
Qed.

(** Text made of pieces. *)
Definition str_concat (l : list string) : string := foldr String.app "" l.

Lemma str_concat_app l k : str_concat (l ++ k) = str_concat l +:+ str_concat k.
Proof. induction l as [|s l IH]; [done|]. simpl. by rewrite IH, str_app_assoc. Qed.

Definition newline : string := String "010" "".

(** ** Decimal digits *)

(** The characters of [str] of an integer. *)
Definition is_dec_char (c : Ascii.ascii) : bool :=
  match c with
  | "-" | "0" | "1" | "2" | "3" | "4" | "5" | "6" | "7" | "8" | "9" => true
  | _ => false
  end%char.

Lemma string_of_uint_dec d : str_all is_dec_char (NilEmpty.string_of_uint d) = true.
Proof. induction d; simpl; done. Qed.

Lemma str_Z_dec z : str_all is_dec_char (str_Z z) = true.
Proof.
  unfold str_Z, NilZero.string_of_int, NilZero.string_of_uint.
  destruct (Z.to_int z) as [d|d]; destruct d; simpl; try done; apply string_of_uint_dec.
Qed.

(** [s.split(c, 1)]: what is before and after the first [c]. *)
Fixpoint split_at (c : Ascii.ascii) (s : string) : option (string * string) :=
  match s with
  | EmptyString => None
  | String d s =>
      if Ascii.eqb d c then Some ("", s)
      else '(l, r) ← split_at c s; Some (String d l, r)
  end.

Lemma split_at_app c s t :
  str_all (λ d, negb (Ascii.eqb d c)) s = true →
  split_at c (s +:+ String c t) = Some (s, t).
Proof.
  induction s as [|d s IH].
  - intros _. rewrite str_app_nil_l. cbn [split_at]. by rewrite Ascii.eqb_refl.
  - cbn [str_all]. intros H. zbool. rewrite str_app_cons. cbn [split_at].
    rewrite IH by done. by destruct (Ascii.eqb d c).
Qed.

Lemma split_at_sound c s l r : split_at c s = Some (l, r) → s = l +:+ String c r.
Proof.
  revert l r. induction s as [|d s IH]; intros l r; [done|]. cbn [split_at]. destruct (Ascii.eqb_spec d c) as [->|].
  - by intros [= <- <-].
  - intros ([l' r'] & Hs & [= <- <-])%bind_Some. by rewrite (IH _ _ Hs).
Qed.

(** [s.split(c)]: the pieces between the occurrences of [c]. *)
Fixpoint split_all (c : Ascii.ascii) (s : string) : list string :=
  match s with
  | EmptyString => [""]
  | String d s =>
      if Ascii.eqb d c then "" :: split_all c s
      else match split_all c s with [] => [String d ""] | h :: t => String d h :: t end
  end.

(** A string without the separator. *)
Definition no_char (c : Ascii.ascii) (s : string) : Prop :=
  str_all (λ d, negb (Ascii.eqb d c)) s = true.

Lemma split_at_none c s : no_char c s → split_at c s = None.
Proof.
  unfold no_char. induction s as [|d s IH]; [done|].
  cbn [str_all]. intros H. zbool. cbn [split_at]. rewrite IH by done.
  by destruct (Ascii.eqb d c).
Qed.

#[export] Instance no_char_dec c s : Decision (no_char c s).
Proof. unfold no_char. apply _. Defined.

Lemma no_char_cat c s t : no_char c s → no_char c t → no_char c (s +:+ t).
Proof. unfold no_char. rewrite str_all_app. intros -> ->. done. Qed.

Lemma split_all_app c s t : no_char c s → split_all c (s +:+ String c t) = s :: split_all c t.
Proof.
  unfold no_char. induction s as [|d s IH].
  - intros _. rewrite str_app_nil_l. cbn [split_all]. by rewrite Ascii.eqb_refl.
  - cbn [str_all]. intros H. zbool. rewrite str_app_cons. cbn [split_all].
    rewrite IH by done. by destruct (Ascii.eqb d c).
Qed.

Lemma split_all_none c s : no_char c s → split_all c s = [s].
Proof.
  unfold no_char. induction s as [|d s IH]; [done|].
  cbn [str_all]. intros H. zbool. cbn [split_all]. rewrite IH by done.
  by destruct (Ascii.eqb d c).
Qed.

(** The lines of a text, each ended by a newline. *)
Definition unlines (l : list string) : string := str_concat ((λ s, s +:+ newline) <$> l).

Lemma split_all_unlines l :
  Forall (no_char "010") l → split_all "010" (unlines l) = l ++ [""].
Proof.
  induction 1 as [|s l Hs _ IH]; [done|]. unfold unlines in *. cbn [fmap list_fmap str_concat foldr].
  change (foldr String.app "" ((λ s, s +:+ newline) <$> l)) with
    (str_concat ((λ s, s +:+ newline) <$> l)).
  unfold newline at 1. rewrite str_app_assoc, str_app_cons, str_app_nil_l.
  by rewrite split_all_app, IH.
Qed.

Lemma unlines_app l k : unlines (l ++ k) = unlines l +:+ unlines k.
Proof. unfold unlines. by rewrite fmap_app, str_concat_app. Qed.

(** [", ".join(ops)] taken apart again. *)
Definition split_operands (s : string) : list string :=
  match split_all "," s with [] => [] | h :: t => h :: (str_drop 1 <$> t) end.

Lemma split_all_join ops :
  ops ≠ [] → Forall (no_char ",") ops →
  split_all "," (String.concat ", " ops) =
    match ops with [] => [] | h :: t => h :: (String " " <$> t) end.
Proof.
  intros Hne Hops. induction Hops as [|s ops Hs Hops IH]; [done|].
  destruct ops as [|s' ops]; [by apply split_all_none|].
  change (String.concat ", " (s :: s' :: ops)) with
    (s +:+ (String "," (String " " (String.concat ", " (s' :: ops))))).
  rewrite split_all_app by done. cbn [split_all].
  rewrite IH by done. simpl. done.
Qed.

Lemma split_operands_join ops :
  ops ≠ [] → Forall (no_char ",") ops → split_operands (String.concat ", " ops) = ops.
Proof.
  intros Hne Hops. unfold split_operands. rewrite split_all_join by done.
  destruct ops as [|s ops]; [done|]. f_equal. rewrite <-list_fmap_compose.
  induction ops as [|s' ops IH]; [done|]. simpl. f_equal. apply IH; [done|].
  inversion Hops as [|? ? ? H]; subst. by inversion H; subst; constructor.
Qed.

(** ** How long a number is *)

Lemma little_double_digits d :
  (Decimal.nb_digits (Decimal.Little.double d) ≤ S (Decimal.nb_digits d))%nat ∧
  (Decimal.nb_digits (Decimal.Little.succ_double d) ≤ S (Decimal.nb_digits d))%nat.
Proof. induction d; cbn [Decimal.Little.double Decimal.Little.succ_double Decimal.nb_digits]; lia. Qed.

Lemma to_little_digits p : (Decimal.nb_digits (Pos.to_little_uint p) ≤ Pos.size_nat p)%nat.
Proof.
  induction p as [p IH|p IH|]; cbn [Pos.to_little_uint Pos.size_nat]; [..|done];
    pose proof (little_double_digits (Pos.to_little_uint p)); lia.
Qed.

Lemma length_string_of_uint d : String.length (NilEmpty.string_of_uint d) = Decimal.nb_digits d.
Proof. induction d; cbn; congruence. Qed.

Lemma size_nat_lt p n : Z.pos p < 2 ^ Z.of_nat n → (Pos.size_nat p ≤ n)%nat.
Proof.
  revert n. induction p as [p IH|p IH|]; intros [|n] H; cbn [Pos.size_nat]; try lia;
    rewrite Nat2Z.inj_succ, Z.pow_succ_r in H by lia; apply le_n_S, IH; lia.
Qed.

Lemma length_str_Z z n : 0 ≤ z < 2 ^ Z.of_nat n → (String.length (str_Z z) ≤ S n)%nat.
Proof.
  intros [H1 H2]. destruct z as [|p|p]; [cbn; lia| |lia].
  pose proof (size_nat_lt p n H2) as Hs.
  pose proof (to_little_digits p) as Hd. unfold str_Z, NilZero.string_of_int. cbn [Z.to_int].
  assert (Decimal.nb_digits (Pos.to_uint p) = Decimal.nb_digits (Pos.to_little_uint p)) as He
    by apply DecimalFacts.nb_digits_rev.
  assert (String.length (NilZero.string_of_uint (Pos.to_uint p)) ≤ S (Decimal.nb_digits (Pos.to_uint p)))%nat.
  { rewrite <-length_string_of_uint. destruct (Pos.to_uint p); cbn; lia. }
  lia.
Qed.
