(* ===== verification/PyText.v ===== *)
(** Whole-text operations of Python's [str]: white space, [strip],
    [splitlines], substring search, [startswith], and their behaviour on text
    built line by line. *)
From S2P Require Export PyStr.
From Stdlib Require Import DecimalString DecimalPos.
Local Open Scope Z_scope.

(** ** Facts about all characters, by evaluation *)

Definition all_ascii : list Ascii.ascii := ascii_of_nat <$> seq 0 256.

Lemma ascii_forallb (P : Ascii.ascii → bool) : forallb P all_ascii = true → ∀ c, P c = true.
Proof.
  rewrite forallb_forall. intros H c. apply H. apply in_map_iff. exists (nat_of_ascii c).
  split; [apply ascii_nat_embedding|]. apply in_seq. pose proof (nat_ascii_bounded c). lia.
Qed.

Lemma ascii_impl (P Q : Ascii.ascii → bool) :
  forallb (λ c, implb (P c) (Q c)) all_ascii = true → ∀ c, P c = true → Q c = true.
Proof. intros H c HP. pose proof (ascii_forallb _ H c) as Hc. cbn in Hc. by rewrite HP in Hc. Qed.

Lemma ascii_excl (P Q : Ascii.ascii → bool) :
  forallb (λ c, implb (P c) (negb (Q c))) all_ascii = true → ∀ c, P c = true → Q c = false.
Proof. intros H c HP. pose proof (ascii_forallb _ H c) as Hc. cbn in Hc. rewrite HP in Hc. by destruct (Q c). Qed.

Lemma str_all_ascii (P Q : Ascii.ascii → bool) s :
  forallb (λ c, implb (P c) (Q c)) all_ascii = true → str_all P s = true → str_all Q s = true.
Proof. intros H. apply str_all_impl. by apply ascii_impl. Qed.

(** The character is one of those of [t]. *)
Fixpoint one_of (t : string) (c : Ascii.ascii) : bool :=
  match t with "" => false | String d t => Ascii.eqb c d || one_of t c end.

(** ** White space *)

Definition code (c : Ascii.ascii) : Z := Z.of_N (N_of_ascii c).

(** [c.isspace()], and [\s] of [re], for code points below 256. *)
Definition is_space (c : Ascii.ascii) : bool :=
  let n := code c in
  ((9 <=? n) && (n <=? 13)) || ((28 <=? n) && (n <=? 32)) || (n =? 133) || (n =? 160).

(** The characters [str.splitlines] breaks at. *)
Definition is_linebreak (c : Ascii.ascii) : bool :=
  let n := code c in
  ((10 <=? n) && (n <=? 13)) || ((28 <=? n) && (n <=? 30)) || (n =? 133).

Definition no_space (s : string) : bool := str_all (λ c, negb (is_space c)) s.

Fixpoint lstrip (s : string) : string :=
  match s with
  | String c t => if is_space c then lstrip t else s
  | "" => ""
  end.

Fixpoint rstrip (s : string) : string :=
  match s with
  | "" => ""
  | String c t =>
      match rstrip t with
      | "" => if is_space c then "" else String c ""
      | t' => String c t'
      end
  end.

(** [s.strip()] *)
Definition strip (s : string) : string := rstrip (lstrip s).

(** [s.rstrip("\n")] *)
Fixpoint rstrip_newline (s : string) : string :=
  match s with
  | "" => ""
  | String c t =>
      match rstrip_newline t with
      | "" => if Ascii.eqb c "010" then "" else String c ""
      | t' => String c t'
      end
  end.

(** The text ends with a character that is not white space. *)
Fixpoint ends_solid (s : string) : bool :=
  match s with
  | "" => false
  | String c "" => negb (is_space c)
  | String _ t => ends_solid t
  end.

(** It begins with one. *)
Definition starts_solid (s : string) : bool :=
  match s with "" => false | String c _ => negb (is_space c) end.

Lemma rstrip_solid s : ends_solid s = true → rstrip s = s.
Proof.
  induction s as [|c s IH]; [done|]. destruct s as [|d s].
  - cbn. intros H. by destruct (is_space c).
  - intros H. cbn [ends_solid] in H. specialize (IH H). cbn [rstrip] in *. by rewrite IH.
Qed.

Lemma rstrip_spaces s w : str_all is_space w = true → rstrip (s +:+ w) = rstrip s.
Proof.
  intros Hw. induction s as [|c s IH].
  - rewrite str_app_nil_l. induction w as [|c w IHw]; [done|]. cbn [str_all] in Hw. zbool.
    cbn [rstrip]. rewrite IHw by done. cbn. by destruct (is_space c).
  - rewrite str_app_cons. cbn [rstrip]. by rewrite IH.
Qed.

Lemma lstrip_solid s : starts_solid s = true → lstrip s = s.
Proof. destruct s as [|c s]; [done|]. cbn. by destruct (is_space c). Qed.

Lemma strip_solid s : starts_solid s = true → ends_solid s = true → strip s = s.
Proof. intros H1 H2. unfold strip. by rewrite lstrip_solid, rstrip_solid. Qed.

Lemma lstrip_spaces w s : str_all is_space w = true → lstrip (w +:+ s) = lstrip s.
Proof.
  intros H. induction w as [|c w IH]; [done|]. cbn [str_all] in H. zbool.
  rewrite str_app_cons. cbn [lstrip]. by destruct (is_space c); [apply IH|].
Qed.

Lemma lstrip_app_solid s w : starts_solid s = true → lstrip (s +:+ w) = s +:+ w.
Proof. intros H. apply lstrip_solid. by destruct s. Qed.

Lemma ends_solid_app s t : ends_solid t = true → ends_solid (s +:+ t) = true.
Proof.
  intros Ht. induction s as [|c s IH]; [done|]. rewrite str_app_cons. cbn [ends_solid].
  destruct (s +:+ t) eqn:E; [|done]. by destruct s, t.
Qed.

Lemma ends_solid_nonspace s : s ≠ "" → no_space s = true → ends_solid s = true.
Proof.
  unfold no_space. induction s as [|c s IH]; [done|]. intros _. cbn [str_all ends_solid]. intros H. zbool.
  destruct s; [by destruct (is_space c)|by apply IH].
Qed.

Lemma starts_solid_app s t : starts_solid s = true → starts_solid (s +:+ t) = true.
Proof. by destruct s. Qed.

(** ** Lines *)

(** [s.splitlines()], on text without carriage returns ([read_text] and text
    mode turn them into newlines). *)
Fixpoint splitlines_from (acc : string) (s : string) : list string :=
  match s with
  | "" => match acc with "" => [] | _ => [acc] end
  | String c t =>
      if is_linebreak c then acc :: splitlines_from "" t
      else splitlines_from (acc +:+ String c "") t
  end.
Definition splitlines (s : string) : list string := splitlines_from "" s.

(** The lines of an opened file, each with its newline. *)
Fixpoint file_lines_from (acc : string) (s : string) : list string :=
  match s with
  | "" => match acc with "" => [] | _ => [acc] end
  | String c t =>
      if Ascii.eqb c "010" then (acc +:+ newline) :: file_lines_from "" t
      else file_lines_from (acc +:+ String c "") t
  end.
Definition file_lines (s : string) : list string := file_lines_from "" s.

Lemma file_lines_from_app acc s t :
  no_char "010" s → file_lines_from acc (s +:+ t) = file_lines_from (acc +:+ s) t.
Proof.
  unfold no_char. revert acc. induction s as [|c s IH]; intros acc H; [by rewrite str_app_nil_r|].
  cbn [str_all] in H. apply andb_true_iff in H as [Hc Hs]. apply negb_true_iff in Hc.
  rewrite str_app_cons. cbn [file_lines_from]. rewrite Hc, IH by done.
  by rewrite str_app_assoc, str_app_cons, str_app_nil_l.
Qed.

Lemma file_lines_unlines l :
  Forall (no_char "010") l → file_lines (unlines l) = (λ s, s +:+ newline) <$> l.
Proof.
  unfold file_lines. induction 1 as [|s l Hs _ IH]; [done|].
  change (unlines (s :: l)) with ((s +:+ newline) +:+ unlines l).
  rewrite str_app_assoc, file_lines_from_app, str_app_nil_l by done.
  unfold newline at 1. rewrite str_app_cons, str_app_nil_l. cbn [file_lines_from].
  change (Ascii.eqb "010" "010") with true. cbv iota. by rewrite IH.
Qed.

Definition no_linebreak (s : string) : bool := str_all (λ c, negb (is_linebreak c)) s.

Lemma splitlines_from_app acc s t :
  no_linebreak s = true → splitlines_from acc (s +:+ t) = splitlines_from (acc +:+ s) t.
Proof.
  unfold no_linebreak. revert acc. induction s as [|c s IH]; intros acc H.
  - by rewrite str_app_nil_r.
  - cbn [str_all] in H. zbool. rewrite str_app_cons. cbn [splitlines_from].
    destruct (is_linebreak c); [done|]. rewrite IH by done.
    by rewrite str_app_assoc, str_app_cons, str_app_nil_l.
Qed.

Lemma splitlines_unlines l :
  Forall (λ s, no_linebreak s = true) l → splitlines (unlines l) = l.
Proof.
  unfold splitlines. induction 1 as [|s l Hs _ IH]; [done|].
  change (unlines (s :: l)) with ((s +:+ newline) +:+ unlines l).
  rewrite str_app_assoc, splitlines_from_app, str_app_nil_l by done.
  unfold newline. rewrite str_app_cons, str_app_nil_l. cbn [splitlines_from].
  change (is_linebreak "010") with true. by rewrite IH.
Qed.

(** ** Substrings *)

(** [s.startswith(p)] *)
Fixpoint starts_with (p s : string) : bool :=
  match p, s with
  | "", _ => true
  | String c p, String d s => Ascii.eqb c d && starts_with p s
  | _, _ => false
  end.

(** [p in s] *)
Fixpoint contains (p s : string) : bool :=
  starts_with p s || match s with "" => false | String _ t => contains p t end.

(** [s.endswith(t)] *)
Definition ends_with (t s : string) : bool :=
  bool_decide (String.length t ≤ String.length s)%nat
  && String.eqb (str_drop (String.length s - String.length t) s) t.

Lemma starts_with_split p s : starts_with p s = true → ∃ t, s = p +:+ t.
Proof.
  revert s. induction p as [|c p IH]; intros [|d s]; cbn [starts_with]; try done; [by exists ""|by exists (String d s)|].
  intros [->%Ascii.eqb_eq H]%andb_true_iff. destruct (IH s H) as (t & ->). by exists t.
Qed.

Lemma starts_with_app p s : starts_with p (p +:+ s) = true.
Proof.
  induction p as [|c p IH]; [done|]. rewrite str_app_cons. cbn [starts_with].
  by rewrite Ascii.eqb_refl, IH.
Qed.

Lemma starts_with_eq p q t :
  String.length p = String.length q → starts_with p (q +:+ t) = String.eqb p q.
Proof.
  revert q. induction p as [|c p IH]; intros [|d q]; [by destruct t|done|done|].
  cbn [String.length]. intros [= H]. rewrite str_app_cons. cbn [starts_with String.eqb].
  rewrite IH by done. by destruct (Ascii.eqb c d).
Qed.

Lemma contains_app p s t : contains p t = true → contains p (s +:+ t) = true.
Proof.
  intros H. induction s as [|c s IH]; [done|]. rewrite str_app_cons. cbn [contains].
  by rewrite IH, orb_true_r.
Qed.

(** A chunk that lacks the first character of the pattern is skipped. *)
Lemma contains_skip c p s t :
  no_char c s → contains (String c p) (s +:+ t) = contains (String c p) t.
Proof.
  unfold no_char. intros H. induction s as [|d s IH]; [done|].
  cbn [str_all] in H. zbool. rewrite str_app_cons. cbn [contains starts_with].
  rewrite IH by done. rewrite Ascii.eqb_sym. by destruct (Ascii.eqb d c).
Qed.

(** [s.split(c, 1)[0]] *)
Definition before_first (c : Ascii.ascii) (s : string) : string :=
  match split_at c s with Some (l, _) => l | None => s end.

Lemma before_first_app c s t : no_char c s → before_first c (s +:+ String c t) = s.
Proof. intros H. unfold before_first. by rewrite split_at_app. Qed.

Lemma before_first_none c s : no_char c s → before_first c s = s.
Proof.
  intros H. unfold before_first.
  assert (split_at c s = None) as ->; [|done].
  induction s as [|d s IH]; [done|]. unfold no_char in H. cbn [str_all] in H. zbool.
  cbn [split_at]. rewrite IH by done. by destruct (Ascii.eqb d c).
Qed.

(** ** What a script does that is seen from outside *)

(** What a run prints, and its exit code. *)
Inductive stream := Stdout | Stderr.
#[export] Instance stream_eq_dec : EqDecision stream.
Proof. solve_decision. Defined.
Record outcome := Outcome { exit_code : Z; printed : list (stream * string) }.

(** [f"{n}"] of a length or an index. *)
Definition str_nat (n : nat) : string := str_Z (Z.of_nat n).

(** ** Words, numbers and columns *)

(** [[0-9]] *)
Definition is_digit (c : Ascii.ascii) : bool := ((48 <=? code c) && (code c <=? 57))%Z.

(** [s.split()]: the words between white space; [w] is the word being read. *)
Fixpoint words_from (w : string) (s : string) : list string :=
  match s with
  | "" => match w with "" => [] | _ => [w] end
  | String c t =>
      if is_space c then match w with "" => words_from "" t | _ => w :: words_from "" t end
      else words_from (w +:+ String c "") t
  end.
Definition words (s : string) : list string := words_from "" s.

(** The text before and after the last white-space character. *)
Fixpoint last_space (s : string) : option (string * string) :=
  match s with
  | "" => None
  | String c t =>
      match last_space t with
      | Some (l, r) => Some (String c l, r)
      | None => if is_space c then Some ("", t) else None
      end
  end.

(** [s.rsplit(None, 1)] *)
Definition rsplit1 (s : string) : list string :=
  let s := rstrip s in
  match last_space s with
  | None => match s with "" => [] | _ => [s] end
  | Some (l, r) => match rstrip l with "" => [r] | l' => [l'; r] end
  end.

(** ["\n".join(l)] *)
Fixpoint join_lines (l : list string) : string :=
  match l with [] => "" | [s] => s | s :: l => s +:+ newline +:+ join_lines l end.

(** The digits of a Python integer literal, single underscores between them. *)
Fixpoint int_digits (need_digit : bool) (acc : Z) (s : string) : option Z :=
  match s with
  | "" => if need_digit then None else Some acc
  | String c t =>
      let d := code c - 48 in
      if (0 <=? d) && (d <=? 9) then int_digits false (10 * acc + d) t
      else if Ascii.eqb c "_" && negb need_digit then int_digits true acc t
      else None
  end.

(** [int(s)] *)
Definition py_int (s : string) : res Z :=
  let o := match strip s with
           | String "-" t => Z.opp <$> int_digits true 0 t
           | String "+" t => int_digits true 0 t
           | t => int_digits true 0 t
           end in
  match o with
  | Some z => Ok z
  | None => Raise (ValueError ("invalid literal for int() with base 10: '" +:+ s +:+ "'"))
  end.

Fixpoint spaces (n : nat) : string := match n with O => "" | S n => String " " (spaces n) end.

(** [f"{s:<n}"] *)
Definition pad_right (n : nat) (s : string) : string := s +:+ spaces (n - String.length s).

Lemma spaces_space n : str_all is_space (spaces n) = true.
Proof. induction n as [|n IH]; [done|]. exact IH. Qed.

Lemma words_from_word w s t :
  no_space s = true → words_from w (s +:+ t) = words_from (w +:+ s) t.
Proof.
  unfold no_space. revert w. induction s as [|c s IH]; intros w H; [by rewrite str_app_nil_r|].
  cbn [str_all] in H. apply andb_true_iff in H as [Hc Hs]. rewrite str_app_cons. cbn [words_from].
  apply negb_true_iff in Hc. rewrite Hc, IH by done. by rewrite str_app_assoc, str_app_cons, str_app_nil_l.
Qed.

Lemma words_from_space n w t :
  w ≠ "" → words_from w (spaces (S n) +:+ t) = w :: words_from "" t.
Proof.
  intros Hw. cbn [spaces]. rewrite str_app_cons. cbn [words_from].
  change (is_space " ") with true. cbv iota. destruct w as [|c w]; [done|]. f_equal.
  induction n as [|n IH]; [done|]. cbn [spaces]. rewrite str_app_cons. exact IH.
Qed.

Lemma words_two a b n :
  a ≠ "" → b ≠ "" → no_space a = true → no_space b = true →
  words (a +:+ spaces (S n) +:+ b) = [a; b].
Proof.
  intros Ha Hb Hsa Hsb. unfold words.
  rewrite words_from_word, str_app_nil_l, words_from_space by done.
  rewrite <-(str_app_nil_r b), words_from_word, str_app_nil_l by done.
  destruct b; [done|]. cbn [words_from]. by rewrite str_app_nil_r.
Qed.

Lemma last_space_none s : no_space s = true → last_space s = None.
Proof.
  unfold no_space. induction s as [|c s IH]; [done|]. cbn [str_all]. intros [Hc Hs]%andb_true_iff.
  cbn [last_space]. rewrite IH by done. apply negb_true_iff in Hc. by rewrite Hc.
Qed.

Lemma last_space_app s c t :
  is_space c = true → no_space t = true → last_space (s +:+ String c t) = Some (s, t).
Proof.
  intros Hc Ht. induction s as [|d s IH].
  - rewrite str_app_nil_l. cbn [last_space]. by rewrite last_space_none, Hc.
  - rewrite str_app_cons. cbn [last_space]. by rewrite IH.
Qed.

Lemma spaces_snoc n : spaces n +:+ " " = spaces (S n).
Proof. induction n as [|n IH]; [done|]. cbn [spaces]. rewrite str_app_cons. by rewrite IH. Qed.

Lemma rsplit1_two a b n :
  a ≠ "" → b ≠ "" → no_space a = true → no_space b = true →
  rsplit1 (a +:+ spaces (S n) +:+ b) = [a; b].
Proof.
  intros Ha Hb Hsa Hsb. unfold rsplit1.
  assert (ends_solid b = true) by by apply ends_solid_nonspace.
  rewrite rstrip_solid by by do 2 apply ends_solid_app.
  assert (a +:+ spaces (S n) +:+ b = (a +:+ spaces n) +:+ String " " b) as ->.
  { rewrite <-spaces_snoc, !str_app_assoc, str_app_cons, str_app_nil_l. done. }
  rewrite last_space_app by done.
  rewrite rstrip_spaces, rstrip_solid by (apply spaces_space || by apply ends_solid_nonspace).
  by destruct a.
Qed.

(** ** [int] reads back [str] *)

Lemma int_digits_acc d p :
  int_digits false (Z.pos p) (NilEmpty.string_of_uint d) = Some (Z.pos (Pos.of_uint_acc d p)).
Proof.
  revert p. induction d; intros p; [done|..]; cbn [Pos.of_uint_acc]; rewrite <-IHd;
    cbn [NilEmpty.string_of_uint int_digits]; match goal with |- (if ?b then _ else _) = _ => change b with true end;
    cbv iota; f_equal; match goal with |- context [code ?c] => let v := eval vm_compute in (code c) in change (code c) with v end; lia.
Qed.

Lemma int_digits_uint d : int_digits false 0 (NilEmpty.string_of_uint d) = Some (Z.of_N (Pos.of_uint d)).
Proof. induction d; [done|exact IHd|..]; apply int_digits_acc. Qed.

Lemma int_digits_head d : d ≠ Decimal.Nil →
  int_digits true 0 (NilEmpty.string_of_uint d) = Some (Z.of_N (Pos.of_uint d)).
Proof. intros Hd. rewrite <-int_digits_uint. by destruct d. Qed.

Lemma to_uint_nonnil p : Pos.to_uint p ≠ Decimal.Nil.
Proof. apply DecimalPos.Unsigned.to_uint_nonnil. Qed.

Lemma str_Z_no_space z : no_space (str_Z z) = true.
Proof. pose proof (str_Z_dec z) as Hd. revert Hd. apply str_all_ascii. vm_compute. reflexivity. Qed.

Lemma str_Z_solid z : starts_solid (str_Z z) = true ∧ ends_solid (str_Z z) = true.
Proof.
  assert (str_Z z ≠ "") as Hne by (intros E; pose proof (int_of_str_Z z) as H; by rewrite E in H).
  pose proof (str_Z_no_space z) as Hs. split; [|by apply ends_solid_nonspace].
  destruct (str_Z z); [done|]. unfold no_space in Hs. cbn [str_all starts_solid] in *. by apply andb_true_iff in Hs as [? _].
Qed.

Lemma words_str_Z z : words (str_Z z) = [str_Z z].
Proof.
  unfold words. rewrite <-(str_app_nil_r (str_Z z)), words_from_word, str_app_nil_l, str_app_nil_r by apply str_Z_no_space.
  cbn [words_from]. destruct (str_Z_solid z) as [Hs _]. by destruct (str_Z z).
Qed.

Lemma py_int_str_Z z : py_int (str_Z z) = Ok z.
Proof.
  assert (∀ p, NilZero.string_of_uint (Pos.to_uint p) = NilEmpty.string_of_uint (Pos.to_uint p)) as Hz.
  { intros p. pose proof (to_uint_nonnil p). by destruct (Pos.to_uint p). }
  assert (∀ p, int_digits true 0 (NilEmpty.string_of_uint (Pos.to_uint p)) = Some (Z.pos p)) as Hp.
  { intros p. by rewrite int_digits_head, DecimalPos.Unsigned.of_to by apply to_uint_nonnil. }
  unfold py_int. destruct (str_Z_solid z) as [H1 H2]. rewrite strip_solid by done. clear H1 H2.
  destruct z as [|p|p]; [done|..]; unfold str_Z, NilZero.string_of_int; cbn [Z.to_int]; rewrite Hz.
  - specialize (Hp p). pose proof (to_uint_nonnil p). revert Hp. by destruct (Pos.to_uint p); cbn [NilEmpty.string_of_uint]; [|intros ->..].
  - by rewrite Hp.
Qed.

(** ** The digits of a number *)

(** [str] of a number that is not negative. *)
Lemma string_of_uint_digits d : str_all is_digit (NilEmpty.string_of_uint d) = true.
Proof. induction d; simpl; done. Qed.

Lemma str_Z_digits n : (0 ≤ n)%Z → str_all is_digit (str_Z n) = true.
Proof.
  intros Hn. unfold str_Z, NilZero.string_of_int, NilZero.string_of_uint.
  destruct n as [|p|p]; [done| |lia]. cbn [Z.to_int].
  destruct (Pos.to_uint p) eqn:E; [done|..]; rewrite <-E; apply string_of_uint_digits.
Qed.

Lemma str_Z_nonempty n : str_Z n ≠ "".
Proof. intros E. pose proof (int_of_str_Z n) as H. rewrite E in H. done. Qed.

Lemma str_Z_length n : (1 ≤ String.length (str_Z n))%nat.
Proof. pose proof (str_Z_nonempty n). destruct (str_Z n); [done|cbn; lia]. Qed.

Lemma int_digits_str_Z n : 0 ≤ n → int_digits true 0 (str_Z n) = Some n.
Proof.
  intros Hn. destruct n as [|p|p]; [done| |lia]. unfold str_Z, NilZero.string_of_int. cbn [Z.to_int].
  pose proof (to_uint_nonnil p) as Hne.
  assert (NilZero.string_of_uint (Pos.to_uint p) = NilEmpty.string_of_uint (Pos.to_uint p)) as -> by by destruct (Pos.to_uint p).
  by rewrite int_digits_head, DecimalPos.Unsigned.of_to by done.
Qed.

Lemma int_digits_app b acc s t v :
  str_all is_digit s = true → int_digits b acc s = Some v → int_digits false acc (s +:+ t) = int_digits false v t.
Proof.
  revert b acc. induction s as [|c s IH]; intros b acc Hs Hv.
  - destruct b; [done|]. by injection Hv as ->.
  - cbn [str_all] in Hs. apply andb_true_iff in Hs as [Hc Hs]. rewrite str_app_cons. cbn [int_digits] in *.
    unfold is_digit in Hc. assert ((0 <=? code c - 48) && (code c - 48 <=? 9) = true) as Hd by lia.
    rewrite Hd in Hv |- *. by apply (IH false).
Qed.

Lemma int_digits_total t b acc : str_all is_digit t = true → (b = true → t ≠ "") → ∃ z, int_digits b acc t = Some z.
Proof.
  revert b acc. induction t as [|c t IH]; intros b acc Ht Hb.
  - exists acc. by destruct b; [destruct Hb|].
  - cbn [str_all] in Ht. apply andb_true_iff in Ht as [Hc Ht]. cbn [int_digits].
    assert ((0 <=? code c - 48) && (code c - 48 <=? 9) = true) as ->.
    { unfold is_digit in Hc. apply andb_true_iff in Hc as [??]. apply andb_true_iff. lia. }
    by apply IH.
Qed.

(** ** Substrings of joined lines *)

Lemma starts_with_cut p s t : no_char "010" p → starts_with p (s +:+ String "010" t) = starts_with p s.
Proof.
  unfold no_char. revert s. induction p as [|c p IH]; intros s Hp; [by destruct s|].
  cbn [str_all] in Hp. apply andb_true_iff in Hp as [Hc Hp]. apply negb_true_iff in Hc.
  destruct s as [|d s]; [rewrite str_app_nil_l; cbn [starts_with]; by rewrite Hc|]. rewrite str_app_cons. cbn [starts_with]. by rewrite IH.
Qed.

Lemma contains_cut p s t :
  p ≠ "" → no_char "010" p → contains p (s +:+ String "010" t) = contains p s || contains p t.
Proof.
  intros Hne Hp. induction s as [|c s IH].
  - rewrite str_app_nil_l. cbn [contains]. pose proof (starts_with_cut p "" t Hp) as E. rewrite str_app_nil_l in E. rewrite E.
    by destruct p.
  - rewrite str_app_cons. cbn [contains]. rewrite IH, <-orb_assoc. f_equal. by apply (starts_with_cut p (String c s)).
Qed.

Lemma contains_join_lines p l :
  p ≠ "" → no_char "010" p → contains p (join_lines l) = existsb (contains p) l.
Proof.
  intros Hne Hp. induction l as [|s [|s' l] IH]; [by destruct p| |].
  - cbn [join_lines existsb]. by rewrite orb_false_r.
  - cbn [existsb] in *. cbn [join_lines]. rewrite <-IH. by apply contains_cut.
Qed.
