(* ===== verification/Host.v ===== *)
(** What the runners need of the machine they run on: a store of files and
    directories, what has been printed, the processes started, and a monad in
    which an exception keeps what was done before it.  The programs that are
    started are a parameter. *)
From S2P Require Export PyText.
Local Open Scope Z_scope.

(** ** The state *)

(** A process to start: the arguments, the variables added to the environment,
    the file standard output goes to, the timeout in seconds. *)
Record command := Command {
  argv : list string;
  env : list (string * string);
  stdout_to : option string;
  limit : option Z;
}.
Definition cmd (args : list string) : command := Command args [] None None.

(** What is left of it. *)
Record process := Process { returncode : Z; stdout : string; stderr : string }.

Record world := World {
  files : gmap string string;
  dirs : gset string;
  log : list (stream * string);     (** what was printed *)
  ran : list command;               (** the processes started *)
}.

Definition host (A : Type) : Type := world → res A * world.

#[export] Instance host_ret : MRet host := λ A a w, (Ok a, w).
#[export] Instance host_bind : MBind host := λ A B f m w,
  match m w with
  | (Ok a, w') => f a w'
  | (Raise e, w') => (Raise e, w')
  end.

(** A computation that uses no file. *)
Definition lift {A} (r : res A) : host A := λ w, (r, w).
Definition raise {A} (e : exn) : host A := lift (Raise e).

(** The exit status of a script that ends so: an exception that nothing catches
    is a traceback and status 1. *)
Definition exit_status {A} (r : res A) : Z :=
  match r with Ok _ => 0 | Raise (SystemExit c) => c | Raise _ => 1 end.

(** [try: m finally: fin] *)
Definition finally {A} (m : host A) (fin : host unit) : host A := λ w,
  let '(r, w) := m w in
  match fin w with
  | (Ok _, w) => (r, w)
  | (Raise e, w) => (Raise e, w)
  end.

Definition put (s : stream) (t : string) : host unit := λ w,
  (Ok tt, World (files w) (dirs w) (log w ++ [(s, t)]) (ran w)).
Definition print (t : string) : host unit := put Stdout t.

(** [for x in l: f(x)] *)
Fixpoint for_each {A} (f : A → host unit) (l : list A) : host unit :=
  match l with [] => mret tt | x :: l => f x;; for_each f l end.

(** [[y for x in l for y in f(x)]] *)
Fixpoint collect {A B} (f : A → host (list B)) (l : list A) : host (list B) :=
  match l with
  | [] => mret []
  | x :: l => ys ← f x; zs ← collect f l; mret (ys ++ zs)
  end.

(** ** Paths *)

(** [str(Path(a) / b)], of paths in the form [str] gives them. *)
Definition path_join (a b : string) : string :=
  if starts_with "/" b then b
  else if String.eqb a "." then b
  else if String.eqb a "/" then "/" +:+ b
  else a +:+ "/" +:+ b.

(** What is before and after the last slash. *)
Fixpoint last_slash (s : string) : option (string * string) :=
  match s with
  | "" => None
  | String c t =>
      match last_slash t with
      | Some (d, b) => Some (String c d, b)
      | None => if Ascii.eqb c "/" then Some ("", t) else None
      end
  end.

(** [p.parent] *)
Definition parent (p : string) : string :=
  match last_slash p with
  | None => "."
  | Some ("", _) => "/"
  | Some (d, _) => d
  end.

(** The directories above. *)
Fixpoint ancestors_from (acc s : string) : list string :=
  match s with
  | "" => []
  | String c t =>
      (if Ascii.eqb c "/" then [if String.eqb acc "" then "/" else acc] else [])
      ++ ancestors_from (acc +:+ String c "") t
  end.
Definition ancestors (p : string) : list string := ancestors_from "" p.

(** ** Files *)

Definition is_dir (p : string) (w : world) : bool :=
  String.eqb p "." || String.eqb p "/" || bool_decide (p ∈ dirs w).

(** [p.exists()] *)
Definition exists_ (p : string) (w : world) : bool :=
  is_dir p w || bool_decide (is_Some (files w !! p)).

Definition set_files (f : gmap string string) (w : world) : world := World f (dirs w) (log w) (ran w).

(** [p.read_text()] *)
Definition read_text (p : string) : host string := λ w,
  match files w !! p with
  | Some t => (Ok t, w)
  | None => (Raise (OSError p), w)
  end.

(** [repr(s)] *)
Definition repr_char (q c : Ascii.ascii) : string :=
  let n := code c in
  if Ascii.eqb c q || Ascii.eqb c "\" then String "\" (String c "")
  else if n =? 9 then "\t" else if n =? 10 then "\n" else if n =? 13 then "\r"
  else if (n <? 32) || ((127 <=? n) && (n <=? 160)) || (n =? 173) then "\x" +:+ fmt_hex 2 n
  else String c "".
Definition py_repr (s : string) : string :=
  let double := "034"%char in
  let q := if contains "'" s && negb (contains (String double "") s) then double else "'"%char in
  String q (str_concat (repr_char q <$> String.list_ascii_of_string s) +:+ String q "").

(** The text of the [OSError] of opening a file that cannot be read. *)
Definition open_error (p : string) (w : world) : string :=
  (if is_dir p w then "[Errno 21] Is a directory: "
   else if existsb (λ d, bool_decide (is_Some (files w !! d))) (ancestors p) then "[Errno 20] Not a directory: "
   else "[Errno 2] No such file or directory: ") +:+ py_repr p.

(** [p.write_text(t)] *)
Definition write_text (p t : string) : host unit := λ w,
  if is_dir (parent p) w && negb (is_dir p w)
  then (Ok tt, set_files (<[p := t]> (files w)) w) else (Raise (OSError p), w).

(** [p.mkdir(parents=True, exist_ok=True)] *)
Definition mkdir (p : string) : host unit := λ w,
  if existsb (λ d, bool_decide (is_Some (files w !! d))) (p :: ancestors p)
  then (Raise (OSError p), w)
  else (Ok tt, World (files w) (dirs w ∪ list_to_set (p :: ancestors p)) (log w) (ran w)).

(** [p.unlink(missing_ok=True)] *)
Definition unlink (p : string) : host unit := λ w,
  if is_dir p w then (Raise (OSError p), w) else (Ok tt, set_files (delete p (files w)) w).

(** [shutil.rmtree(p, ignore_errors=True)] *)
Definition beneath (p q : string) : bool := String.eqb q p || starts_with (p +:+ "/") q.
Definition rmtree (p : string) : host unit := λ w,
  if bool_decide (p ∈ dirs w) then
    (Ok tt, World (filter (λ kv, beneath p kv.1 = false) (files w))
      (filter (λ q, beneath p q = false) (dirs w)) (log w) (ran w))
  else (Ok tt, w).

(** ** Processes *)

(** A program: what it does to the files and directories it finds. *)
Definition program : Type :=
  command → gmap string string → gset string → res process * (gmap string string * gset string).

Section processes.
(** The programs installed. *)
Variable exec : program.

(** [subprocess.run(c)] *)
Definition subprocess (c : command) : host process := λ w,
  let '(r, (f, d)) := exec c (files w) (dirs w) in (r, World f d (log w) (ran w ++ [c])).

(** [subprocess.run(c, check=True)] *)
Definition check_call (c : command) : host process :=
  p ← subprocess c;
  if returncode p =? 0 then mret p else raise (CalledProcessError (returncode p) (stderr p)).
End processes.

(** The files [f'] are the files [f] but for those of [ps]. *)
Definition leaves (ps : list string) (f f' : gmap string string) : Prop := ∀ p, p ∉ ps → f' !! p = f !! p.

(** A script that reads files, run as a process. *)
Definition read_from (f : gmap string string) (p : string) : res string :=
  match f !! p with Some t => Ok t | None => Raise (OSError p) end.
Definition on_stream (s : stream) (o : outcome) : string :=
  unlines (snd <$> filter (λ l, l.1 = s) (printed o)).
Definition process_of (o : outcome) : process := Process (exit_code o) (on_stream Stdout o) (on_stream Stderr o).

(** ** Lemmas *)

Lemma host_bind_ok {A B} (m : host A) (f : A → host B) w a w' :
  m w = (Ok a, w') → (m ≫= f) w = f a w'.
Proof. unfold mbind, host_bind. by intros ->. Qed.

Lemma host_bind_raise {A B} (m : host A) (f : A → host B) w e w' :
  m w = (Raise e, w') → (m ≫= f) w = (Raise e, w').
Proof. unfold mbind, host_bind. by intros ->. Qed.

Lemma host_bind_ext {A B} (m m' : host A) (f f' : A → host B) w :
  (∀ w, m w = m' w) → (∀ a w, f a w = f' a w) → (m ≫= f) w = (m' ≫= f') w.
Proof. intros Hm Hf. unfold mbind, host_bind. rewrite Hm. by destruct (m' w) as [[a|e] w']. Qed.

Lemma for_each_app {A} (f : A → host unit) l k w : for_each f (l ++ k) w = (for_each f l;; for_each f k) w.
Proof.
  revert w. induction l as [|x l IH]; intros w; [done|]. cbn [app for_each]. unfold mbind, host_bind in *.
  destruct (f x w) as [[[]|e] w1]; [apply IH|done].
Qed.

Lemma host_bind_inv {A B} (m : host A) (f : A → host B) w b w' :
  (m ≫= f) w = (Ok b, w') → ∃ a w1, m w = (Ok a, w1) ∧ f a w1 = (Ok b, w').
Proof. unfold mbind, host_bind. destruct (m w) as [[a|e] w1]; [by exists a, w1|done]. Qed.

(** Take the next step of a run, whose result [H] gives. *)
Ltac host_step H := rewrite (host_bind_ok _ _ _ _ _ H); cbv beta.

(** A name in a directory. *)
Definition plain_name (x : string) : Prop := x ≠ "" ∧ no_char "/" x.

Lemma plain_name_relative x : plain_name x → starts_with "/" x = false.
Proof.
  intros [Hne Hx]. unfold no_char in Hx. destruct x as [|c x]; [done|]. cbn [str_all starts_with] in *.
  apply andb_true_iff in Hx as [Hc _]. apply negb_true_iff in Hc. rewrite Ascii.eqb_sym, Hc. done.
Qed.

Lemma path_join_inj d x y : plain_name x → plain_name y → path_join d x = path_join d y → x = y.
Proof.
  intros Hx Hy. unfold path_join. rewrite !plain_name_relative by done.
  destruct (String.eqb d "."); [done|].
  assert ("/" +:+ x = "/" +:+ y → x = y) as Hs by (intros E; cbn in E; by injection E).
  destruct (String.eqb d "/"); [done|].
  induction d as [|c d IH]; [done|]. rewrite !str_app_cons. by intros [= E%IH].
Qed.

(** A path made by joining is not a text without slashes, but for the name itself. *)
Lemma path_join_ne d x t : plain_name x → no_char "/" t → x ≠ t → path_join d x ≠ t.
Proof.
  intros Hx Ht Hne. unfold path_join. rewrite plain_name_relative by done.
  destruct (String.eqb d "."); [done|].
  assert (∀ a, a +:+ "/" +:+ x ≠ t) as Ha.
  { intros a E. unfold no_char in Ht. rewrite <-E, !str_all_app, !andb_true_iff in Ht. by destruct Ht as (_ & ? & _). }
  destruct (String.eqb d "/"); [apply (Ha "")|apply Ha].
Qed.

Lemma last_slash_none x : no_char "/" x → last_slash x = None.
Proof.
  unfold no_char. induction x as [|c x IH]; [done|]. cbn [str_all last_slash]. intros [Hc Hx]%andb_true_iff.
  apply negb_true_iff in Hc. by rewrite IH, Hc.
Qed.

Lemma last_slash_app d x : no_char "/" x → last_slash (d +:+ "/" +:+ x) = Some (d, x).
Proof.
  intros Hx. induction d as [|c d IH].
  - rewrite str_app_nil_l, str_app_cons, str_app_nil_l. cbn [last_slash]. by rewrite last_slash_none.
  - rewrite str_app_cons. cbn [last_slash]. by rewrite IH.
Qed.

Lemma parent_join d x : d ≠ "" → plain_name x → parent (path_join d x) = d.
Proof.
  intros Hd Hx. unfold path_join, parent. rewrite plain_name_relative by done. destruct Hx as [_ Hx].
  destruct (String.eqb_spec d ".") as [->|_]; [by rewrite last_slash_none|].
  destruct (String.eqb_spec d "/") as [->|_].
  - change ("/" +:+ x) with ("" +:+ "/" +:+ x). by rewrite last_slash_app.
  - rewrite last_slash_app by done. by destruct d.
Qed.

(** Nothing on the way to the directory is a file. *)
Definition can_mkdir (p : string) (w : world) : bool :=
  forallb (λ d, bool_decide (files w !! d = None)) (p :: ancestors p).
Definition made (p : string) (w : world) : world :=
  World (files w) (dirs w ∪ list_to_set (p :: ancestors p)) (log w) (ran w).

Lemma mkdir_ok p w : can_mkdir p w = true → mkdir p w = (Ok tt, made p w) ∧ is_dir p (made p w) = true.
Proof.
  unfold can_mkdir, mkdir. intros H. split.
  - assert (existsb (λ d, bool_decide (is_Some (files w !! d))) (p :: ancestors p) = false) as ->; [|done].
    apply not_true_is_false. intros (d & Hin & Hd)%existsb_exists. rewrite forallb_forall in H.
    specialize (H d Hin). apply bool_decide_eq_true in H, Hd. rewrite H in Hd. by destruct Hd.
  - unfold is_dir. cbn [made dirs]. apply orb_true_iff. right. apply bool_decide_eq_true. set_solver.
Qed.

Lemma mkdir_is_dir p w w' : mkdir p w = (Ok tt, w') → is_dir p w' = true ∧ files w' = files w.
Proof.
  unfold mkdir. destruct (existsb _ _); [done|]. intros [= <-]. split; [|done].
  unfold is_dir. cbn [dirs]. apply orb_true_iff. right. apply bool_decide_eq_true. set_solver.
Qed.

Lemma write_text_ok p t w :
  is_dir (parent p) w = true → is_dir p w = false → write_text p t w = (Ok tt, set_files (<[p := t]> (files w)) w).
Proof. intros H1 H2. unfold write_text. by rewrite H1, H2. Qed.

Lemma unlink_ok p w : is_dir p w = false → unlink p w = (Ok tt, set_files (delete p (files w)) w).
Proof. intros H. unfold unlink. by rewrite H. Qed.

Lemma is_dir_dirs p w w' : dirs w' = dirs w → is_dir p w' = is_dir p w.
Proof. unfold is_dir. by intros ->. Qed.

Lemma mkdir_again p w w' : mkdir p w = (Ok tt, w') → mkdir p w' = (Ok tt, w').
Proof.
  unfold mkdir. destruct (existsb _ _) eqn:E; [done|]. intros [= <-]. cbn [files dirs log ran]. rewrite E.
  do 2 f_equal. by rewrite <-(assoc_L (∪)), (idemp_L (∪)).
Qed.

Lemma subprocess_ok exec c w r f d :
  exec c (files w) (dirs w) = (r, (f, d)) → subprocess exec c w = (r, World f d (log w) (ran w ++ [c])).
Proof. unfold subprocess. by intros ->. Qed.

(** What a step adds to the output. *)
Definition logged (l : list (stream * string)) (w : world) : world := World (files w) (dirs w) (log w ++ l) (ran w).

Lemma logged_nil w : logged [] w = w.
Proof. destruct w. unfold logged. cbn. by rewrite app_nil_r. Qed.

Lemma logged_app l k w : logged k (logged l w) = logged (l ++ k) w.
Proof. unfold logged. cbn. by rewrite <-app_assoc. Qed.

Lemma for_each_prints {A} (f : A → host unit) (g : A → list (stream * string)) l w :
  (∀ x w, x ∈ l → f x w = (Ok tt, logged (g x) w)) → for_each f l w = (Ok tt, logged (l ≫= g) w).
Proof.
  revert w. induction l as [|x l IH]; intros w H; [by rewrite logged_nil|]. cbn [for_each].
  rewrite (host_bind_ok _ _ w tt (logged (g x) w)) by (apply H; left).
  rewrite IH by (intros; apply H; by right). by rewrite logged_app.
Qed.

(** [for x in l: print(f(x))] *)
Definition print_lines {A} (f : A → res string) (l : list A) : host unit := for_each (λ x, t ← lift (f x); print t) l.

Lemma print_lines_ok {A} (f : A → res string) l ts w :
  Forall2 (λ x t, f x = Ok t) l ts → print_lines f l w = (Ok tt, logged ((λ t, (Stdout, t)) <$> ts) w).
Proof.
  intros H. unfold print_lines. revert w. induction H as [|x t l ts Hx _ IH]; intros w; [by rewrite logged_nil|].
  cbn [for_each]. rewrite (host_bind_ok _ _ w tt (logged [(Stdout, t)] w)).
  - by rewrite IH, logged_app.
  - by rewrite (host_bind_ok _ _ w t w) by by rewrite Hx.
Qed.

Lemma list_bind_bind {A B C} (l : list A) (f : A → list B) (g : B → list C) :
  (l ≫= f) ≫= g = l ≫= λ x, f x ≫= g.
Proof. induction l as [|x l IH]; [done|]. cbn. by rewrite bind_app, IH. Qed.

(** A loop whose turns keep a property of the world. *)
Lemma collect_inv {A B} (f : A → host (list B)) (g : A → list B) (I : world → Prop) l w :
  (∀ x w, x ∈ l → I w → ∃ w', f x w = (Ok (g x), w') ∧ I w') → I w →
  ∃ w', collect f l w = (Ok (l ≫= g), w') ∧ I w'.
Proof.
  revert w. induction l as [|x l IH]; intros w Hf Hw; [by exists w|]. cbn [collect].
  destruct (Hf x w) as (w1 & E1 & H1); [left|done|]. rewrite (host_bind_ok _ _ _ _ _ E1).
  destruct (IH w1) as (w2 & E2 & H2); [|done|]; [intros; apply Hf; [by right|done]|].
  rewrite (host_bind_ok _ _ _ _ _ E2). by exists w2.
Qed.

(** A loop whose turns only look. *)
Lemma collect_looks {A B} (f : A → host (list B)) (g : A → list B) l w :
  (∀ x, x ∈ l → f x w = (Ok (g x), w)) → collect f l w = (Ok (l ≫= g), w).
Proof.
  intros Hf. destruct (collect_inv f g (λ w', w' = w) l w) as (w' & E & ->); [|done|done].
  intros x ? Hx ->. exists w. by rewrite Hf.
Qed.

(** What only looks, and gives one result for each item of [Q] and no other. *)
Section itemised.
Context {B C : Type} (R : C → B → Prop) (w : world).

Definition itemised (end_ : res (list B) * world) (Q : C → Prop) : Prop :=
  ∃ os ys, end_ = (Ok ys, w) ∧ NoDup os ∧ (∀ o, o ∈ os ↔ Q o) ∧ Forall2 R os ys.

Lemma itemised_iff e Q Q' : itemised e Q → (∀ o, Q o ↔ Q' o) → itemised e Q'.
Proof. intros (os & ys & -> & Hn & Hq & Hr) HQ. exists os, ys. split_and!; [done..| |done]. intros o. by rewrite Hq. Qed.

Lemma itemised_none Q : (∀ o, ¬ Q o) → itemised (Ok [], w) Q.
Proof.
  intros HQ. exists [], []. split_and!; [done|constructor| |constructor]. intros o. rewrite elem_of_nil.
  split; [done|]. by intros ?%HQ.
Qed.

Lemma itemised_one y o Q : R o y → (∀ o', Q o' ↔ o' = o) → itemised (Ok [y], w) Q.
Proof.
  intros Hy HQ. exists [o], [y]. split_and!; [done|apply NoDup_singleton| |by repeat constructor].
  intros o'. by rewrite list_elem_of_singleton, HQ.
Qed.

Lemma itemised_app (f g : host (list B)) Q Q' :
  itemised (f w) Q → itemised (g w) Q' → (∀ o, Q o → ¬ Q' o) →
  itemised ((x ← f; y ← g; mret (x ++ y)) w) (λ o, Q o ∨ Q' o).
Proof.
  intros (os & ys & E & Hn & Hq & Hr) (os' & ys' & E' & Hn' & Hq' & Hr') Hd. exists (os ++ os'), (ys ++ ys').
  rewrite (host_bind_ok _ _ _ _ _ E), (host_bind_ok _ _ _ _ _ E'). split; [done|]. split; [|split].
  - apply list.NoDup_app. split; [done|]. split; [|done]. intros o Ho%Hq Ho'%Hq'. by eapply Hd.
  - intros o. by rewrite elem_of_app, Hq, Hq'.
  - by apply Forall2_app.
Qed.

(** The items of a loop are those of its turns, which share none. *)
Lemma itemised_collect {A} (f : A → host (list B)) (Q : A → C → Prop) l :
  NoDup l → (∀ x y o, Q x o → Q y o → x = y) → (∀ x, x ∈ l → itemised (f x w) (Q x)) →
  itemised (collect f l w) (λ o, ∃ x, x ∈ l ∧ Q x o).
Proof.
  intros Hl Hd. induction Hl as [|x l Hx _ IH]; intros Hf.
  { apply itemised_none. by intros o (x & ?%elem_of_nil & _). }
  eapply itemised_iff; [apply itemised_app; [apply Hf; left|apply IH; intros; apply Hf; by right|]|].
  - intros o Ho (y & Hy & Ho'). pose proof (Hd _ _ _ Ho Ho'). by subst.
  - intros o. setoid_rewrite elem_of_cons. naive_solver.
Qed.
End itemised.

Example join_example : path_join "obj/crv" "prog.S" = "obj/crv/prog.S" ∧ parent "obj/crv/prog.S" = "obj/crv"
  ∧ ancestors "obj/crv/x" = ["obj"; "obj/crv"] ∧ parent "/a" = "/" ∧ parent "a" = ".".
Proof. done. Qed.

(** ** What was run, and how it ended

    [m] from [w] starts the processes of a list one after the other, whatever
    files each of them finds, and ends as [Q] says of this list, of the result and
    of the world that is left. *)

Definition trail : Type := list (command * res process).
Definition attempted (exec : program) (l : trail) (w w' : world) : Prop :=
  ran w' = ran w ++ l.*1 ∧ Forall (λ x, ∃ f d, (exec x.1 f d).1 = x.2) l.
Definition leads {A} (exec : program) (m : host A) (Q : trail → res A → world → Prop) (w : world) : Prop :=
  ∃ l, attempted exec l w (m w).2 ∧ Q l (m w).1 (m w).2.

(** The process ended with status 0. *)
Definition succeeded (x : command * res process) : Prop := ∃ p, x.2 = Ok p ∧ returncode p = 0.

(** [m] starts nothing. *)
Definition quiet {A} (m : host A) : Prop := ∀ w, ran (m w).2 = ran w.

Section trails.
Variable exec : program.

Lemma attempted_nil w w' : ran w' = ran w → attempted exec [] w w'.
Proof. intros E. split; [by rewrite E, app_nil_r|constructor]. Qed.
Lemma attempted_app l k w w' w'' : attempted exec l w w' → attempted exec k w' w'' → attempted exec (l ++ k) w w''.
Proof.
  intros [E F] [E' F']. split; [by rewrite E', E, fmap_app, app_assoc|by apply Forall_app_2].
Qed.

Lemma leads_mono {A} (m : host A) (Q R : trail → res A → world → Prop) w :
  leads exec m Q w → (∀ l r w', Q l r w' → R l r w') → leads exec m R w.
Proof. intros (l & Hl & HQ) H. exists l. auto. Qed.

Lemma leads_bind {A B} (m : host A) (f : A → host B) Q w :
  leads exec m (λ l r w', match r with
    | Ok a => leads exec (f a) (λ k, Q (l ++ k)) w'
    | Raise e => Q l (Raise e) w'
    end) w → leads exec (m ≫= f) Q w.
Proof.
  intros (l & Hl & H). unfold leads, mbind, host_bind. destruct (m w) as [[a|e] w'].
  - destruct H as (k & Hk & H). exists (l ++ k). split; [by eapply attempted_app|done].
  - by exists l.
Qed.

Lemma leads_quiet {A} (m : host A) (Q : trail → res A → world → Prop) w :
  quiet m → (∀ r w', m w = (r, w') → Q [] r w') → leads exec m Q w.
Proof. intros Hm H. exists []. split; [by apply attempted_nil|]. by apply H; destruct (m w). Qed.

(** A quiet step in front. *)
Lemma leads_quiet_bind {A B} (m : host A) (f : A → host B) Q w :
  quiet m →
  (∀ a w', m w = (Ok a, w') → leads exec (f a) Q w') → (∀ e w', m w = (Raise e, w') → Q [] (Raise e) w') →
  leads exec (m ≫= f) Q w.
Proof. intros Hm H He. apply leads_bind, leads_quiet; [done|]. intros [a|e] w' E; [by apply H|by apply He]. Qed.

Lemma leads_subprocess c (Q : trail → res process → world → Prop) w :
  (∀ r w', (∃ f d, (exec c f d).1 = r) → Q [(c, r)] r w') → leads exec (subprocess exec c) Q w.
Proof.
  intros H. unfold leads, subprocess. destruct (exec c (files w) (dirs w)) as [r [f d]] eqn:E.
  assert (∃ f d, (exec c f d).1 = r) as He by (exists (files w), (dirs w); by rewrite E).
  exists [(c, r)]. split; [|by apply H]. split; [done|]. by apply Forall_singleton.
Qed.

(** A process in front; [k] sees it in the trail. *)
Lemma leads_subprocess_bind {B} c (f : process → host B) (Q : trail → res B → world → Prop) w :
  (∀ p w', (∃ f d, (exec c f d).1 = Ok p) → leads exec (f p) (λ k, Q ((c, Ok p) :: k)) w') →
  (∀ e w', (∃ f d, (exec c f d).1 = Raise e) → Q [(c, Raise e)] (Raise e) w') →
  leads exec (subprocess exec c ≫= f) Q w.
Proof. intros H He. apply leads_bind, leads_subprocess. intros [p|e] w' E; [by apply H|by apply He]. Qed.

(** A process whose failure is an exception. *)
Lemma leads_check_call {B} c (f : process → host B) (Q : trail → res B → world → Prop) w :
  (∀ p w', returncode p = 0 → leads exec (f p) (λ k, Q ((c, Ok p) :: k)) w') →
  (∀ r e w', Q [(c, r)] (Raise e) w') → leads exec (check_call exec c ≫= f) Q w.
Proof.
  intros H He. apply leads_bind. unfold check_call. apply leads_subprocess_bind; [|auto]. intros p w' _.
  destruct (Z.eqb_spec (returncode p) 0) as [E|E].
  - apply leads_quiet; [by intros ?|]. intros r w'' [= <- <-]. by apply H.
  - apply leads_quiet; [by intros ?|]. by intros r w'' [= <- <-].
Qed.

Lemma quiet_ret {A} (a : A) : quiet (mret a).
Proof. done. Qed.
Lemma quiet_lift {A} (r : res A) : quiet (lift r).
Proof. done. Qed.
Lemma quiet_put s t : quiet (put s t).
Proof. done. Qed.
Lemma quiet_bind {A B} (m : host A) (f : A → host B) : quiet m → (∀ a, quiet (f a)) → quiet (m ≫= f).
Proof.
  intros Hm Hf w. specialize (Hm w). unfold mbind, host_bind. destruct (m w) as [[a|e] w']; [|done].
  rewrite Hf. done.
Qed.
Lemma quiet_read_text p : quiet (read_text p).
Proof. intros w. unfold read_text. by destruct (files w !! p). Qed.
Lemma quiet_write_text p t : quiet (write_text p t).
Proof. intros w. unfold write_text. by destruct (_ && _). Qed.
Lemma quiet_mkdir p : quiet (mkdir p).
Proof. intros w. unfold mkdir. by destruct (existsb _ _). Qed.
Lemma quiet_unlink p : quiet (unlink p).
Proof. intros w. unfold unlink. by destruct (is_dir _ _). Qed.

(** The quiet steps that can fail fail with an [OSError]. *)
Lemma leads_unlink {B} p (f : unit → host B) Q w :
  leads exec (f tt) Q (set_files (delete p (files w)) w) → Q [] (Raise (OSError p)) w → leads exec (unlink p ≫= f) Q w.
Proof.
  intros H He. apply leads_quiet_bind; [apply quiet_unlink|intros [] w'|intros e w'];
    unfold unlink; destruct (is_dir p w); try done; [by intros [= <-]|by intros [= <- <-]].
Qed.
Lemma leads_mkdir {B} p (f : unit → host B) Q w :
  (∀ w', leads exec (f tt) Q w') → (∀ w', Q [] (Raise (OSError p)) w') → leads exec (mkdir p ≫= f) Q w.
Proof.
  intros H He. apply leads_quiet_bind; [apply quiet_mkdir|by intros []|intros e w'].
  unfold mkdir. destruct (existsb _ _); [|done]. by intros [= <- <-].
Qed.
Lemma leads_write_text {B} p t (f : unit → host B) Q w :
  (∀ w', leads exec (f tt) Q w') → (∀ w', Q [] (Raise (OSError p)) w') → leads exec (write_text p t ≫= f) Q w.
Proof.
  intros H He. apply leads_quiet_bind; [apply quiet_write_text|by intros []|intros e w'].
  unfold write_text. destruct (_ && _); [done|]. by intros [= <- <-].
Qed.
Lemma leads_put {B} s t (f : unit → host B) Q w : (∀ w', leads exec (f tt) Q w') → leads exec (put s t ≫= f) Q w.
Proof. intros H. apply leads_quiet_bind; [apply quiet_put|intros [] w' _; apply H|done]. Qed.
Lemma leads_ret {B} (b : B) (Q : trail → res B → world → Prop) w : Q [] (Ok b) w → leads exec (mret b) Q w.
Proof. intros H. apply leads_quiet; [apply quiet_ret|]. by intros r w' [= <- <-]. Qed.
End trails.

Create HintDb quiet discriminated.
#[export] Hint Resolve quiet_ret quiet_lift quiet_put quiet_bind quiet_read_text quiet_write_text quiet_mkdir
  quiet_unlink : quiet.
