(* ===== verification/Dirs.v ===== *)
(** Directory listings: [Path.glob("*.ext")], [Path.rglob("*.ext")], the form
    [pathlib] gives a path, and [suffix].  The operating system returns the
    entries of a directory in an order of its own, the class [Scandir]. *)
From S2P Require Export Host.
Local Open Scope nat_scope.

(** ** Paths *)

(** [p.name] *)
Definition path_name (p : string) : string := match last_slash p with Some (_, x) => x | None => p end.

(** [str(Path(raw))]: repeated slashes and [.] components go; two leading slashes
    stay two. *)
Definition components (s : string) : list string :=
  filter (λ x, negb (String.eqb x "" || String.eqb x ".") = true) (split_all "/" s).
Fixpoint join_slash (l : list string) : string :=
  match l with [] => "" | [x] => x | x :: l => x +:+ "/" +:+ join_slash l end.
Definition path_root (raw : string) : string :=
  if starts_with "///" raw then "/" else if starts_with "//" raw then "//" else if starts_with "/" raw then "/" else "".
Definition Path (raw : string) : string :=
  let s := path_root raw +:+ join_slash (components raw) in if String.eqb s "" then "." else s.

(** The last dot of a name: what is before it and from it on. *)
Fixpoint last_dot (s : string) : option (string * string) :=
  match s with
  | "" => None
  | String c t =>
      match last_dot t with
      | Some (a, b) => Some (String c a, b)
      | None => if Ascii.eqb c "." then Some ("", s) else None
      end
  end.

(** [p.suffix] *)
Definition suffix (p : string) : string :=
  match last_dot (path_name p) with
  | Some (String _ _, String _ (String _ _) as b) => b
  | _ => ""
  end.

(** ** Entries *)

Definition is_name (x : string) : bool := negb (String.eqb x "" || String.eqb x "." || String.eqb x "..").

(** The name of [p] when it is directly in [d]. *)
Definition entry_of (d p : string) : option string :=
  let x := path_name p in if is_name x && String.eqb (path_join d x) p then Some x else None.

(** The names in a directory. *)
Definition names_in (d : string) (w : world) : gset string :=
  list_to_set (omap (entry_of d) (elements (dom (files w) ∪ dirs w))).

(** The order of a listing. *)
Class Scandir := scandir_order : string → gset string → list string.
Class ScandirLaws `{Scandir} := scandir_perm d s : scandir_order d s ≡ₚ elements s.

Section listings.
Context `{Scandir}.

Definition scandir (d : string) (w : world) : list string := scandir_order d (names_in d w).

(** [d.glob("*" + ext)] *)
Definition glob (d ext : string) (w : world) : list string :=
  if is_dir d w then path_join d <$> filter (λ x, ends_with ext x = true) (scandir d w) else [].

(** [d.rglob("*" + ext)]: a directory before the directories in it.  Paths grow on
    the way down, so the length of the longest is enough. *)
Fixpoint rglob_from (n : nat) (d ext : string) (w : world) : list string :=
  match n with
  | O => []
  | S n =>
      glob d ext w
      ++ (filter (λ p, is_dir p w = true) (path_join d <$> scandir d w) ≫= λ p, rglob_from n p ext w)
  end.
Definition longest (w : world) : nat := max_list (String.length <$> elements (dirs w)).
Definition rglob (d ext : string) (w : world) : list string :=
  if is_dir d w then rglob_from (S (longest w)) d ext w else [].
End listings.

(** Entries in the order of their names' places in the set. *)
#[export] Instance set_order : Scandir := λ _ s, elements s.
#[export] Instance set_order_laws : ScandirLaws.
Proof. intros d s. done. Qed.

(** ** What they return *)

(** [x] is a name in [d]: the file or directory is there. *)
Definition is_entry (d x : string) (w : world) : Prop := is_name x = true ∧ no_char "/" x ∧ exists_ (path_join d x) w = true.

Lemma last_slash_spec s :
  match last_slash s with Some (d, x) => s = d +:+ "/" +:+ x ∧ no_char "/" x | None => no_char "/" s end.
Proof.
  induction s as [|c s IH]; [done|]. cbn [last_slash]. destruct (last_slash s) as [[d x]|].
  - destruct IH as [-> Hx]. done.
  - destruct (Ascii.eqb_spec c "/") as [->|Hc]; [by rewrite str_app_nil_l|].
    unfold no_char in *. cbn [str_all]. rewrite IH. apply Ascii.eqb_neq in Hc. by rewrite Hc.
Qed.

Lemma path_name_no_slash p : no_char "/" (path_name p).
Proof. unfold path_name. pose proof (last_slash_spec p) as H. destruct (last_slash p) as [[d x]|]; [apply H|done]. Qed.

Lemma is_name_plain x : is_name x = true → no_char "/" x → plain_name x.
Proof. intros Hx Hs. split; [intros ->; done|done]. Qed.

Lemma path_name_join d x : plain_name x → path_name (path_join d x) = x.
Proof.
  intros Hx. unfold path_join, path_name. rewrite plain_name_relative by done. destruct Hx as [_ Hx].
  destruct (String.eqb d "."); [by rewrite last_slash_none|].
  destruct (String.eqb d "/").
  - change ("/" +:+ x) with ("" +:+ "/" +:+ x). by rewrite last_slash_app.
  - by rewrite last_slash_app.
Qed.

Lemma path_join_not_root d x : is_name x = true → no_char "/" x → path_join d x ≠ "." ∧ path_join d x ≠ "/".
Proof.
  intros Hn Hs. pose proof (path_name_join d x (is_name_plain x Hn Hs)) as E.
  split; intros H; rewrite H in E; cbn in E; subst x; done.
Qed.

Lemma elem_of_names_in d x w : x ∈ names_in d w ↔ is_entry d x w.
Proof.
  unfold names_in, is_entry, entry_of. rewrite elem_of_list_to_set, list_elem_of_omap. split.
  - intros (p & Hp & E). rewrite elem_of_elements in Hp. cbv zeta in E.
    destruct (is_name (path_name p) && _) eqn:Hx; [|done]. injection E as <-.
    apply andb_true_iff in Hx as [Hx Hj%String.eqb_eq]. rewrite Hj. split_and!; [done|by apply path_name_no_slash|].
    unfold exists_, is_dir. apply elem_of_union in Hp as [Hp|Hp].
    + apply orb_true_iff. right. apply bool_decide_eq_true. by apply elem_of_dom.
    + apply orb_true_iff. left. rewrite (bool_decide_eq_true_2 _ Hp). apply orb_true_r.
  - intros (Hx & Hs & He). exists (path_join d x). rewrite elem_of_elements. split.
    + unfold exists_, is_dir in He. destruct (path_join_not_root d x Hx Hs) as [H1 H2].
      apply String.eqb_neq in H1, H2. rewrite H1, H2 in He. cbn [orb] in He.
      apply orb_true_iff in He as [He|He]; apply bool_decide_eq_true in He; [by apply elem_of_union_r|].
      apply elem_of_union_l. by apply elem_of_dom.
    + cbv zeta. rewrite path_name_join by by apply is_name_plain. rewrite Hx, String.eqb_refl. done.
Qed.

Section laws.
Context `{ScandirLaws}.

Lemma elem_of_scandir d x w : x ∈ scandir d w ↔ is_entry d x w.
Proof. unfold scandir. rewrite scandir_perm, elem_of_elements. apply elem_of_names_in. Qed.

Lemma glob_NoDup d ext w : NoDup (glob d ext w).
Proof.
  unfold glob. destruct (is_dir d w); [|constructor]. apply NoDup_fmap_2_strong.
  - assert (∀ x, x ∈ filter (λ x, ends_with ext x = true) (scandir d w) → path_name (path_join d x) = x) as Hn.
    { intros x [_ (Hx & Hs & _)%elem_of_scandir]%list_elem_of_filter. by apply path_name_join, is_name_plain. }
    intros x y Hx Hy E. by rewrite <-(Hn x Hx), E, Hn.
  - apply list.NoDup_filter. unfold scandir. rewrite scandir_perm. apply NoDup_elements.
Qed.

Lemma elem_of_glob d ext p w :
  p ∈ glob d ext w ↔ is_dir d w = true ∧ ∃ x, p = path_join d x ∧ is_entry d x w ∧ ends_with ext x = true.
Proof.
  unfold glob. destruct (is_dir d w); [|split; [by intros ?%elem_of_nil|by intros [??]]].
  rewrite list_elem_of_fmap. split.
  - intros (x & -> & Hx). apply list_elem_of_filter in Hx as [He Hx]. apply elem_of_scandir in Hx. split; [done|]. by exists x.
  - intros (_ & x & -> & Hx & He). exists x. split; [done|]. apply list_elem_of_filter. by rewrite elem_of_scandir.
Qed.

(** Reachable from [d] through directories. *)
Inductive below (w : world) (d : string) : string → Prop :=
  | below_here : below w d d
  | below_in x q : is_entry d x w → is_dir (path_join d x) w = true → below w (path_join d x) q → below w d q.

Lemma path_join_length d x :
  plain_name x → (1 ≤ String.length (path_join d x)) ∧ (d ≠ "." → d ≠ "/" → S (String.length d) ≤ String.length (path_join d x)).
Proof.
  intros Hx. unfold path_join. rewrite plain_name_relative by done. destruct Hx as [Hne _].
  assert (1 ≤ String.length x) by (destruct x; [done|cbn; lia]).
  destruct (String.eqb_spec d "."); [done|]. destruct (String.eqb_spec d "/"); rewrite !str_length_app; cbn [String.length]; [by split; [lia|]|].
  split; [lia|]. intros _ _. lia.
Qed.

Lemma longest_le d w : d ∈ dirs w → String.length d ≤ longest w.
Proof.
  intros Hd. unfold longest. apply max_list_elem_of_le. apply list_elem_of_fmap. exists d. by rewrite elem_of_elements.
Qed.

Lemma elem_of_rglob_from n d ext p w :
  is_dir d w = true → S (longest w) ≤ n ∨ (d ∈ dirs w ∧ d ≠ "." ∧ d ≠ "/" ∧ S (longest w) ≤ n + String.length d) →
  p ∈ rglob_from n d ext w ↔ ∃ q x, below w d q ∧ p = path_join q x ∧ is_entry q x w ∧ ends_with ext x = true.
Proof.
  revert d. induction n as [|n IH]; intros d Hd Hn.
  { destruct Hn as [Hn|(Hin & _ & _ & Hn)]; [lia|]. apply longest_le in Hin. lia. }
  assert (∀ x, is_entry d x w → is_dir (path_join d x) w = true →
    p ∈ rglob_from n (path_join d x) ext w ↔
    ∃ q y, below w (path_join d x) q ∧ p = path_join q y ∧ is_entry q y w ∧ ends_with ext y = true) as Hrec.
  { intros x (Hx & Hs & _) Hj. apply IH; [done|]. right.
    destruct (path_join_not_root d x Hx Hs) as [H1 H2].
    destruct (path_join_length d x (is_name_plain x Hx Hs)) as [L1 L2]. split_and!; [|done|done|].
    - unfold is_dir in Hj. apply String.eqb_neq in H1, H2. rewrite H1, H2 in Hj. by apply bool_decide_eq_true in Hj.
    - destruct Hn as [Hn|(_ & H3 & H4 & Hn)]; [lia|]. specialize (L2 H3 H4). lia. }
  cbn [rglob_from]. rewrite elem_of_app, elem_of_glob, list_elem_of_bind. split.
  - intros [(_ & x & -> & Hx & He)|(c & Hp & Hc)]; [exists d, x; split; [constructor|done]|].
    apply list_elem_of_filter in Hc as [Hc Hin]. apply list_elem_of_fmap in Hin as (x & -> & Hx%elem_of_scandir).
    apply Hrec in Hp as (q & y & Hq & ?); [|done|done]. exists q, y. split; [by econstructor|done].
  - intros (q & y & Hq & Hp & Hy & He). inversion Hq as [|x q' Hx Hj Hq']; subst.
    + left. split; [done|]. by exists y.
    + right. exists (path_join d x). split; [|].
      * apply Hrec; [done|done|]. by exists q, y.
      * apply list_elem_of_filter. split; [done|]. apply list_elem_of_fmap. exists x. by rewrite elem_of_scandir.
Qed.

(** The walk finds what is below, and enough fuel was given. *)
Lemma elem_of_rglob d ext p w :
  p ∈ rglob d ext w ↔ is_dir d w = true ∧ ∃ q x, below w d q ∧ p = path_join q x ∧ is_entry q x w ∧ ends_with ext x = true.
Proof.
  unfold rglob. destruct (is_dir d w) eqn:Hd; [|split; [by intros ?%elem_of_nil|by intros [??]]].
  rewrite elem_of_rglob_from by (done || by left). naive_solver.
Qed.
End laws.

Example path_examples :
  Path "./rtl//core/" = "rtl/core" ∧ Path "" = "." ∧ Path "/a/./b" = "/a/b" ∧ Path "//a" = "//a" ∧ Path "a/.." = "a/.."
  ∧ suffix "rtl/a.b.sv" = ".sv" ∧ suffix "rtl/.sv" = "" ∧ suffix "a.d/b" = "" ∧ suffix "a." = "".
Proof. vm_compute. auto 15. Qed.

Example rglob_example :
  let w := World (list_to_map [("rtl/a.sv", ""); ("rtl/core/b.sv", ""); ("rtl/core/c.svh", ""); ("tb/d.sv", "")])
    {["rtl"; "rtl/core"; "tb"]} [] [] in
  rglob "rtl" ".sv" w = ["rtl/a.sv"; "rtl/core/b.sv"] ∧ glob "." "" w ≡ₚ ["rtl"; "tb"].
Proof. split; [vm_compute; reflexivity|]. by_decide. Qed.
