(* ===== verification/Regex.v ===== *)
(** The part of Python's [re] that the tools use: backtracking matching with
    groups on a syntax whose repetitions are of single characters.  The matcher
    returns every way to match, in the order Python tries them; [re_match],
    [re_search], [re_sub] and [re_findall] take the first. *)
From S2P Require Export PyText.
From Stdlib Require Import DecimalString Sorting.Sorted.
Local Open Scope nat_scope.

(** ** Syntax *)

Inductive regex :=
  | RStr (t : string)                                   (** literal text *)
  | RMany (p : Ascii.ascii → bool) (lo : nat) (hi : option nat)
                                                        (** [p{lo,hi}], greedy *)
  | RSeq (r s : regex)
  | RAlt (r s : regex)
  | RGroup (n : nat) (r : regex)
  | RBegin                                              (** [^] *)
  | REnd                                                (** [$] *)
  | RBoundary                                           (** [\b] *)
  | RNot (r : regex)                                    (** [(?!r)] *)
  | RLine.                                              (** [^] with [re.M] *)

Definition REmpty : regex := RStr "".
Definition RClass (p : Ascii.ascii → bool) : regex := RMany p 1 (Some 1).
Definition ROpt (r : regex) : regex := RAlt r REmpty.
Definition RStar (p : Ascii.ascii → bool) : regex := RMany p 0 None.
Definition RPlus (p : Ascii.ascii → bool) : regex := RMany p 1 None.

(** [r1 r2 ... rn] *)
Definition RSeqs (l : list regex) : regex := foldr RSeq REmpty l.

(** ** Character classes *)

(** [.] *)
Definition not_newline (c : Ascii.ascii) : bool := negb (Ascii.eqb c "010").
(** [\w] below 256: letters and numeric characters of Latin-1, and [_]. *)
Definition is_word (c : Ascii.ascii) : bool :=
  let n := code c in
  (is_digit c || ((65 <=? n) && (n <=? 90)) || (n =? 95) || ((97 <=? n) && (n <=? 122))
    || (n =? 170) || ((178 <=? n) && (n <=? 179)) || (n =? 181) || ((185 <=? n) && (n <=? 186))
    || ((188 <=? n) && (n <=? 190)) || ((192 <=? n) && (n <=? 255) && negb (n =? 215) && negb (n =? 247)))%Z.

(** ** Matching *)

(** A way to match: the text, the groups (the last setting of each first), and
    the last character before the rest (for [\b]), with the rest. *)
Record found := Found {
  m_text : string;
  m_groups : list (nat * string);
  m_before : option Ascii.ascii;
  m_after : string;
}.

Definition found_cons (c : Ascii.ascii) (m : found) : found :=
  Found (String c (m_text m)) (m_groups m) (m_before m) (m_after m).

Definition found_app (m k : found) : found :=
  Found (m_text m +:+ m_text k) (m_groups k ++ m_groups m) (m_before k) (m_after k).

Definition pred_opt (hi : option nat) : option nat := pred <$> hi.

(** [p{lo,hi}] from [s]: the longest way first. *)
Fixpoint many (p : Ascii.ascii → bool) (lo : nat) (hi : option nat)
    (b : option Ascii.ascii) (s : string) : list found :=
  let stop := if (lo =? 0)%nat then [Found "" [] b s] else [] in
  match s with
  | "" => stop
  | String c t =>
      (if p c && negb (bool_decide (hi = Some 0%nat))
       then found_cons c <$> many p (pred lo) (pred_opt hi) (Some c) t else [])
      ++ stop
  end.

Fixpoint lit (l : string) (b : option Ascii.ascii) (s : string) : list found :=
  match l, s with
  | "", _ => [Found "" [] b s]
  | String c l, String d s =>
      if Ascii.eqb c d then found_cons c <$> lit l (Some c) s else []
  | _, _ => []
  end.

Definition opt_word (c : option Ascii.ascii) : bool :=
  match c with Some c => is_word c | None => false end.
Definition str_head (s : string) : option Ascii.ascii :=
  match s with "" => None | String c _ => Some c end.

Definition line_start (b : option Ascii.ascii) : bool :=
  match b with None => true | Some c => Ascii.eqb c "010" end.

(** The ways [r] matches at the head of [s], [b] being the character before. *)
Fixpoint run (r : regex) (b : option Ascii.ascii) (s : string) : list found :=
  match r with
  | RStr l => lit l b s
  | RMany p lo hi => many p lo hi b s
  | RSeq r1 r2 =>
      m ← run r1 b s;
      found_app m <$> run r2 (m_before m) (m_after m)
  | RAlt r1 r2 => run r1 b s ++ run r2 b s
  | RGroup n r =>
      (λ m, Found (m_text m) ((n, m_text m) :: m_groups m) (m_before m) (m_after m)) <$> run r b s
  | RBegin => match b with None => [Found "" [] b s] | Some _ => [] end
  | REnd => if bool_decide (s = "" ∨ s = newline) then [Found "" [] b s] else []
  | RBoundary =>
      if Bool.eqb (opt_word b) (opt_word (str_head s)) then [] else [Found "" [] b s]
  | RNot r => match run r b s with [] => [Found "" [] b s] | _ => [] end
  | RLine => if line_start b then [Found "" [] b s] else []
  end.

(** [r.match(s)] *)
Definition re_match (r : regex) (s : string) : option found := head (run r None s).

Fixpoint search_from (r : regex) (b : option Ascii.ascii) (s : string) : option found :=
  match run r b s with
  | m :: _ => Some m
  | [] => match s with "" => None | String c t => search_from r (Some c) t end
  end.
(** [r.search(s)] *)
Definition re_search (r : regex) (s : string) : option found := search_from r None s.

(** [bool(r.search(s))] *)
Definition re_found (r : regex) (s : string) : bool :=
  match re_search r s with Some _ => true | None => false end.

(** [m.group(n)] *)
Definition group (n : nat) (m : found) : option string :=
  if (n =? 0)%nat then Some (m_text m)
  else snd <$> head (filter (λ p : nat * string, p.1 = n) (m_groups m)).

(** [r.sub(f, s)], for a pattern that does not match the empty string: the
    matches from left to right, [skip] characters of the current one left. *)
Fixpoint sub_from (r : regex) (f : found → string) (skip : nat)
    (b : option Ascii.ascii) (s : string) : string :=
  match s with
  | "" => ""
  | String c t =>
      match skip with
      | S k => sub_from r f k (Some c) t
      | 0 =>
          match run r b s with
          | m :: _ =>
              match String.length (m_text m) with
              | S k => f m +:+ sub_from r f k (Some c) t
              | 0 => String c (sub_from r f 0 (Some c) t)
              end
          | [] => String c (sub_from r f 0 (Some c) t)
          end
      end
  end.
Definition re_sub (r : regex) (f : found → string) (s : string) : string :=
  sub_from r f 0 None s.

(** [r.finditer(s)], for such a pattern. *)
Fixpoint findall_from (r : regex) (skip : nat) (b : option Ascii.ascii) (s : string) : list found :=
  match s with
  | "" => []
  | String c t =>
      match skip with
      | S k => findall_from r k (Some c) t
      | 0 =>
          match run r b s with
          | m :: _ => m :: findall_from r (pred (String.length (m_text m))) (Some c) t
          | [] => findall_from r 0 (Some c) t
          end
      end
  end.
Definition re_findall (r : regex) (s : string) : list found := findall_from r 0 None s.

(** The text before the first match, and the match. *)
Fixpoint cut_from (r : regex) (b : option Ascii.ascii) (s : string) : option (string * found) :=
  match run r b s with
  | m :: _ => Some ("", m)
  | [] =>
      match s with
      | "" => None
      | String c t => '(pre, m) ← cut_from r (Some c) t; Some (String c pre, m)
      end
  end.

(** ** Replacement text

    A replacement given as text may hold escapes.  It is read before anything is
    matched; a piece is a character or the whole match ([\g<0>]).  The pattern
    has no groups, so every other reference is an error. *)

Definition piece := option Ascii.ascii.

Definition is_letter (c : Ascii.ascii) : bool :=
  (((65 <=? code c) && (code c <=? 90)) || ((97 <=? code c) && (code c <=? 122)))%Z.

(** Up to [n] octal digits at the head of [s], and the rest. *)
Fixpoint octals (n : nat) (s : string) : list Z * string :=
  match n, s with
  | S n, String c t =>
      let d := (code c - 48)%Z in
      if ((0 <=? d) && (d <=? 7))%Z then let '(ds, t) := octals n t in (d :: ds, t) else ([], s)
  | _, _ => ([], s)
  end.

Definition octal_char (ds : list Z) : piece :=
  Some (ascii_of_N (Z.to_N (foldl (λ n d, 8 * n + d)%Z 0%Z ds))).

(** The name between [\g<] and [>], of ASCII characters. *)
Definition group_reference (name : string) : res piece :=
  if str_all is_digit name && negb (String.eqb name "") then
    if bool_decide (int_of_str name = Some 0%Z) then Ok None else Raise ReError
  else
    match name with
    | String c _ =>
        if str_all is_word name && negb (is_digit c) then Raise (IndexError "unknown group name") else Raise ReError
    | "" => Raise ReError
    end.

(** What follows a backslash: the pieces it stands for, and the rest. *)
Definition escape (s : string) : res (list piece * string) :=
  match s with
  | "" => Raise ReError
  | String "g" t =>
      match t with
      | String "<" t =>
          match split_at ">" t with
          | Some (name, t) => p ← group_reference name; Ok ([p], t)
          | None => Raise ReError
          end
      | _ => Raise ReError
      end
  | String "0" t => let '(ds, t) := octals 2 t in Ok ([octal_char ds], t)
  | String c t =>
      if is_digit c then
        let '(ds, t) := octals 3 s in
        if bool_decide (length ds = 3) && (hd 0 ds <=? 3)%Z then Ok ([octal_char ds], t) else Raise ReError
      else
        match c with
        | "a" => Ok ([Some "007"], t)
        | "b" => Ok ([Some "008"], t)
        | "t" => Ok ([Some "009"], t)
        | "n" => Ok ([Some "010"], t)
        | "v" => Ok ([Some "011"], t)
        | "f" => Ok ([Some "012"], t)
        | "r" => Ok ([Some "013"], t)
        | "\" => Ok ([Some "\"], t)
        | _ => if is_letter c then Raise ReError else Ok ([Some "\"; Some c], t)
        end%char
  end.

(** The pieces of a replacement; every turn uses a character. *)
Fixpoint template_from (fuel : nat) (s : string) : res (list piece) :=
  match fuel, s with
  | _, "" => Ok []
  | O, _ => Raise NoProgress
  | S n, String c t =>
      if Ascii.eqb c "\" then '(ps, t) ← escape t; app ps <$> template_from n t
      else cons (Some c) <$> template_from n t
  end.
Definition template (s : string) : res (list piece) := template_from (String.length s) s.

(** The replacement of a match. *)
Definition expand (ps : list piece) (m : found) : string :=
  str_concat ((λ p : piece, match p with Some c => String c "" | None => m_text m end) <$> ps).

(** [r.subn(repl, s, count=1)] *)
Definition re_subn1 (r : regex) (repl s : string) : res (string * nat) :=
  ps ← template repl;
  match cut_from r None s with
  | Some (pre, m) => Ok (pre +:+ expand ps m +:+ m_after m, 1)
  | None => Ok (s, 0)
  end.

(** ** Soundness: a match is a prefix *)

Fixpoint last_or (b : option Ascii.ascii) (l : string) : option Ascii.ascii :=
  match l with "" => b | String c l => last_or (Some c) l end.

Lemma last_or_app b l k : last_or b (l +:+ k) = last_or (last_or b l) k.
Proof. revert b. induction l as [|c l IH]; intros b; [done|]. rewrite str_app_cons. apply IH. Qed.

Lemma last_or_all p b l :
  l ≠ "" → str_all p l = true → ∃ c, last_or b l = Some c ∧ p c = true.
Proof.
  revert b. induction l as [|c l IH]; [done|]. intros b _ H. cbn [str_all] in H.
  apply andb_true_iff in H as [Hc Hl]. destruct l as [|d l]; [by exists c|]. by apply (IH (Some c)).
Qed.

(** What every match satisfies: its text and rest make up the subject. *)
Definition sound (b : option Ascii.ascii) (s : string) (m : found) : Prop :=
  s = m_text m +:+ m_after m ∧ m_before m = last_or b (m_text m).

Lemma sound_nil b s g : sound b s (Found "" g b s).
Proof. done. Qed.

Lemma sound_cons b c t m : sound (Some c) t m → sound b (String c t) (found_cons c m).
Proof. intros [-> H]. split; [done|]. by cbn. Qed.

Lemma sound_app b s m k :
  sound b s m → sound (m_before m) (m_after m) k → sound b s (found_app m k).
Proof.
  intros [-> Hb] [Hs Hb']. split; cbn.
  - by rewrite Hs, str_app_assoc.
  - by rewrite Hb', last_or_app, Hb.
Qed.

Lemma many_sound p lo hi b s m : m ∈ many p lo hi b s → sound b s m.
Proof.
  revert lo hi b m. induction s as [|c s IH]; intros lo hi b m; cbn.
  - destruct (lo =? 0); [|by intros ?%elem_of_nil].
    intros ->%list_elem_of_singleton. apply sound_nil.
  - intros [Hm|Hm]%elem_of_app.
    + destruct (p c && _); [|by apply elem_of_nil in Hm].
      apply list_elem_of_fmap in Hm as (k & -> & Hk). apply sound_cons. by eapply IH.
    + destruct (lo =? 0); [|by apply elem_of_nil in Hm].
      apply list_elem_of_singleton in Hm as ->. apply sound_nil.
Qed.

Lemma lit_sound l b s m : m ∈ lit l b s → sound b s m.
Proof.
  revert b s m. induction l as [|c l IH]; intros b s m; cbn.
  - intros ->%list_elem_of_singleton. apply sound_nil.
  - destruct s as [|d s]; [by intros ?%elem_of_nil|].
    destruct (Ascii.eqb_spec c d) as [->|]; [|by intros ?%elem_of_nil].
    intros (k & -> & Hk)%list_elem_of_fmap. apply sound_cons. by apply IH.
Qed.

Lemma run_sound r b s m : m ∈ run r b s → sound b s m.
Proof.
  revert b s m. induction r as [l|p lo hi|r IHr k IHk|r IHr k IHk|n r IHr| | | |r _|];
    intros b s m; cbn.
  - apply lit_sound.
  - apply many_sound.
  - intros (m1 & Hm1 & Hm)%list_elem_of_bind. apply list_elem_of_fmap in Hm1 as (m2 & -> & Hm2).
    apply sound_app; [by apply IHr|by apply IHk].
  - intros [H|H]%elem_of_app; [by apply IHr|by apply IHk].
  - intros (m1 & -> & Hm1)%list_elem_of_fmap. apply IHr in Hm1 as [??]. done.
  - destruct b; [by intros ?%elem_of_nil|].
    intros ->%list_elem_of_singleton. apply sound_nil.
  - case_bool_decide; [|by intros ?%elem_of_nil].
    intros ->%list_elem_of_singleton. apply sound_nil.
  - destruct (Bool.eqb _ _); [by intros ?%elem_of_nil|].
    intros ->%list_elem_of_singleton. apply sound_nil.
  - destruct (run r b s); [|by intros ?%elem_of_nil].
    intros ->%list_elem_of_singleton. apply sound_nil.
  - destruct (line_start b); [|by intros ?%elem_of_nil].
    intros ->%list_elem_of_singleton. apply sound_nil.
Qed.

(** ** Where a match may begin *)

(** Whether [r] may match the empty string (never [false] wrongly). *)
Fixpoint nullable (r : regex) : bool :=
  match r with
  | RStr l => match l with "" => true | _ => false end
  | RMany _ lo _ => (lo =? 0)%nat
  | RSeq r s => nullable r && nullable s
  | RAlt r s => nullable r || nullable s
  | RGroup _ r => nullable r
  | RBegin | REnd | RBoundary | RNot _ | RLine => true
  end.

(** Whether a nonempty match of [r] may begin with [c] (likewise). *)
Fixpoint first (r : regex) (c : Ascii.ascii) : bool :=
  match r with
  | RStr l => match l with "" => false | String d _ => Ascii.eqb d c end
  | RMany p _ _ => p c
  | RSeq r s => first r c || (nullable r && first s c)
  | RAlt r s => first r c || first s c
  | RGroup _ r => first r c
  | RBegin | REnd | RBoundary | RNot _ | RLine => false
  end.

(** Every match is empty, which [nullable] allows, or begins with a first
    character. *)
Definition begins (r : regex) (m : found) : Prop :=
  match m_text m with "" => nullable r = true | String c _ => first r c = true end.

Lemma many_first p lo hi b s m :
  m ∈ many p lo hi b s → begins (RMany p lo hi) m.
Proof.
  unfold begins. destruct s as [|c s]; cbn.
  - destruct (lo =? 0) eqn:E; [|by intros ?%elem_of_nil]. by intros ->%list_elem_of_singleton.
  - intros [Hm|Hm]%elem_of_app.
    + destruct (p c) eqn:E; [|by apply elem_of_nil in Hm]. cbn [andb] in Hm.
      case_bool_decide; [by apply elem_of_nil in Hm|]. cbn [negb] in Hm.
      apply list_elem_of_fmap in Hm as (k & -> & Hk). done.
    + destruct (lo =? 0) eqn:E; [|by apply elem_of_nil in Hm].
      by apply list_elem_of_singleton in Hm as ->.
Qed.

Lemma lit_first l b s m : m ∈ lit l b s → begins (RStr l) m.
Proof.
  unfold begins. destruct l as [|c l]; cbn; [by intros ->%list_elem_of_singleton|].
  destruct s as [|d s]; [by intros ?%elem_of_nil|].
  destruct (Ascii.eqb c d) eqn:E; [|by intros ?%elem_of_nil].
  intros (k & -> & Hk)%list_elem_of_fmap. apply Ascii.eqb_refl.
Qed.

Lemma run_first r b s m : m ∈ run r b s → begins r m.
Proof.
  revert b s m. induction r as [l|p lo hi|r IHr k IHk|r IHr k IHk|n r IHr| | | |r _|];
    intros b s m; cbn [run].
  - apply lit_first.
  - apply many_first.
  - intros (m1 & Hm1 & Hm)%list_elem_of_bind. apply list_elem_of_fmap in Hm1 as (m2 & -> & Hm2).
    apply IHr in Hm. apply IHk in Hm2. unfold begins in *. cbn.
    destruct (m_text m1); [|rewrite str_app_cons; cbn; by rewrite Hm].
    rewrite str_app_nil_l. destruct (m_text m2); rewrite Hm, Hm2; cbn; [done|apply orb_true_r].
  - unfold begins in *. intros [H|H]%elem_of_app; [apply IHr in H|apply IHk in H]; cbn;
      destruct (m_text m); rewrite H; auto using orb_true_r.
  - intros (m1 & -> & Hm1)%list_elem_of_fmap. apply IHr in Hm1. exact Hm1.
  - destruct b; [by intros ?%elem_of_nil|]. by intros ->%list_elem_of_singleton.
  - case_bool_decide; [|by intros ?%elem_of_nil]. by intros ->%list_elem_of_singleton.
  - destruct (Bool.eqb _ _); [by intros ?%elem_of_nil|]. by intros ->%list_elem_of_singleton.
  - destruct (run r b s); [|by intros ?%elem_of_nil]. by intros ->%list_elem_of_singleton.
  - destruct (line_start b); [|by intros ?%elem_of_nil]. by intros ->%list_elem_of_singleton.
Qed.

(** A pattern that cannot begin here does not match here. *)
Lemma run_nil_first r b c t : nullable r = false → first r c = false → run r b (String c t) = [].
Proof.
  intros Hn Hf. destruct (run r b (String c t)) as [|m l] eqn:E; [done|exfalso].
  assert (m ∈ run r b (String c t)) as Hm by (rewrite E; constructor).
  pose proof (run_first _ _ _ _ Hm) as Hb. apply run_sound in Hm as [Hs _].
  unfold begins in Hb. destruct (m_text m) as [|d w]; [congruence|].
  rewrite str_app_cons in Hs. injection Hs as -> ->. congruence.
Qed.

Lemma run_nil_empty r b : nullable r = false → run r b "" = [].
Proof.
  intros Hn. destruct (run r b "") as [|m l] eqn:E; [done|exfalso].
  assert (m ∈ run r b "") as Hm by (rewrite E; constructor).
  pose proof (run_first _ _ _ _ Hm) as Hb. apply run_sound in Hm as [Hs _].
  unfold begins in Hb. destruct (m_text m) as [|d w]; [congruence|]. done.
Qed.

(** ** Exact matches *)

(** [r] matches the text at the head of the subject first. *)
Definition hit (r : regex) (b : option Ascii.ascii) (s : string) (m : found) : Prop :=
  head (run r b s) = Some m.

Lemma head_bind_Some {A B} (l : list A) (f : A → list B) x y :
  head l = Some x → head (f x) = Some y → head (l ≫= f) = Some y.
Proof.
  destruct l as [|x' l]; [done|]. cbn. intros [= ->]. destruct (f x) as [|y' k]; [done|].
  by intros [= ->].
Qed.

Lemma head_fmap_Some {A B} (f : A → B) (l : list A) x : head l = Some x → head (f <$> l) = Some (f x).
Proof. destruct l as [|x' l]; [done|]. by intros [= ->]. Qed.

Lemma hit_seq r1 r2 b s m k :
  hit r1 b s m → hit r2 (m_before m) (m_after m) k → hit (RSeq r1 r2) b s (found_app m k).
Proof.
  intros H1 H2. unfold hit. cbn [run]. eapply head_bind_Some; [exact H1|].
  by apply head_fmap_Some.
Qed.

Lemma hit_group n r b s m :
  hit r b s m →
  hit (RGroup n r) b s (Found (m_text m) ((n, m_text m) :: m_groups m) (m_before m) (m_after m)).
Proof. intros H. unfold hit. cbn [run].
  exact (head_fmap_Some (λ m, Found (m_text m) ((n, m_text m) :: m_groups m) (m_before m) (m_after m)) _ _ H). Qed.

Lemma hit_alt_l r1 r2 b s m : hit r1 b s m → hit (RAlt r1 r2) b s m.
Proof. unfold hit. cbn [run]. by destruct (run r1 b s). Qed.
Lemma hit_alt_r r1 r2 b s m : run r1 b s = [] → hit r2 b s m → hit (RAlt r1 r2) b s m.
Proof. unfold hit. cbn [run]. by intros ->. Qed.

Lemma hit_str l b s : hit (RStr l) b (l +:+ s) (Found l [] (last_or b l) s).
Proof.
  unfold hit. cbn [run]. revert b. induction l as [|c l IH]; intros b; [done|].
  rewrite str_app_cons. cbn [lit]. rewrite Ascii.eqb_refl.
  exact (head_fmap_Some (found_cons c) _ _ (IH (Some c))).
Qed.

Lemma hit_many p lo hi b t s :
  str_all p t = true → lo ≤ String.length t →
  match hi with Some h => String.length t = h | None => default true (negb ∘ p <$> str_head s) = true end →
  hit (RMany p lo hi) b (t +:+ s) (Found t [] (last_or b t) s).
Proof.
  unfold hit. cbn [run]. revert lo hi b. induction t as [|c t IH]; intros lo hi b Hp Hlo Hhi.
  - assert (lo = 0) as -> by (cbn in Hlo; lia). rewrite str_app_nil_l.
    destruct s as [|d s]; [done|]. cbn [many].
    destruct hi as [h|]; cbn in Hhi; [subst h|].
    + by rewrite bool_decide_true, andb_false_r by done.
    + by destruct (p d).
  - cbn [str_all] in Hp. zbool. rewrite str_app_cons. cbn [many].
    replace (p c) with true by done. rewrite bool_decide_false by (destruct hi; [cbn in Hhi; congruence|done]).
    cbn [negb andb]. cbn [String.length] in *.
    specialize (IH (pred lo) (pred_opt hi) (Some c)).
    match goal with |- head (?l ++ _) = _ => assert (head l = Some (found_cons c (Found t [] (last_or (Some c) t) s))) as Hl end.
    { apply head_fmap_Some, IH; [done|lia|]. destruct hi as [h|]; cbn in *; [lia|done]. }
    match goal with |- head (?l ++ _) = _ => by destruct l end.
Qed.

Lemma hit_begin s : hit RBegin None s (Found "" [] None s).
Proof. done. Qed.

Lemma hit_empty b s : hit REmpty b s (Found "" [] b s).
Proof. done. Qed.

Lemma hit_boundary b s :
  opt_word b ≠ opt_word (str_head s) → hit RBoundary b s (Found "" [] b s).
Proof.
  intros H. unfold hit. cbn [run]. destruct (Bool.eqb _ _) eqn:E; [|done].
  by apply eqb_prop in E.
Qed.

Lemma run_str_nil l b s : starts_with l s = false → run (RStr l) b s = [].
Proof.
  cbn [run]. revert b s. induction l as [|c l IH]; intros b s; [done|].
  destruct s as [|d s]; [done|]. cbn [lit starts_with]. destruct (Ascii.eqb c d); [|done].
  cbn. intros H. by rewrite IH.
Qed.

Lemma run_str l b s : run (RStr l) b (l +:+ s) = [Found l [] (last_or b l) s].
Proof.
  cbn [run]. revert b. induction l as [|c l IH]; intros b; [done|].
  rewrite str_app_cons. cbn [lit]. by rewrite Ascii.eqb_refl, IH.
Qed.

Lemma run_str_seq l r b s :
  run (RSeq (RStr l) r) b (l +:+ s) =
    found_app (Found l [] (last_or b l) s) <$> run r (last_or b l) s.
Proof.
  change (run (RSeq (RStr l) r) b (l +:+ s)) with
    (run (RStr l) b (l +:+ s) ≫= λ m, found_app m <$> run r (m_before m) (m_after m)).
  rewrite run_str. cbn [mbind list_bind m_before m_after]. apply app_nil_r.
Qed.

Lemma run_alt_nil r1 r2 b s : run r1 b s = [] → run r2 b s = [] → run (RAlt r1 r2) b s = [].
Proof. cbn [run]. by intros -> ->. Qed.

Lemma run_seq_nil r1 r2 b s : run r1 b s = [] → run (RSeq r1 r2) b s = [].
Proof. cbn [run]. by intros ->. Qed.

(** Leading repetitions of characters that the rest cannot begin with. *)
Lemma run_star_seq p r b w t :
  nullable r = false → (∀ c, p c = true → first r c = false) →
  str_all p w = true → default true (negb ∘ p <$> str_head t) = true →
  run (RSeq (RStar p) r) b (w +:+ t) =
    found_app (Found w [] (last_or b w) t) <$> run r (last_or b w) t.
Proof.
  intros Hn Hf Hw Ht. unfold RStar. cbn [run].
  revert b. induction w as [|c w IH]; intros b.
  - rewrite str_app_nil_l. destruct t as [|d t].
    + cbn. apply app_nil_r.
    + cbn in Ht. cbn [many]. destruct (p d); [done|]. cbn. apply app_nil_r.
  - cbn [str_all] in Hw. zbool. rewrite str_app_cons. cbn [many].
    replace (p c) with true by done. change (pred_opt None) with (@None nat). cbn [pred Nat.eqb negb andb].
    rewrite bool_decide_false by done. cbn [negb].
    rewrite bind_app. cbn [mbind list_bind m_before m_after].
    assert (run r b (String c (w +:+ t)) = []) as -> by (apply run_nil_first; auto).
    cbn [fmap list_fmap app]. rewrite app_nil_r.
    match goal with |- ((found_cons c <$> ?l) ≫= _) = _ => generalize (IH ltac:(done) (Some c)); generalize l end.
    intros l Hl. cbn [last_or].
    assert (∀ l : list found, (found_cons c <$> l) ≫= (λ m, found_app m <$> run r (m_before m) (m_after m))
      = found_cons c <$> (l ≫= (λ m, found_app m <$> run r (m_before m) (m_after m)))) as Hc.
    { clear. induction l as [|m l IH]; [done|]. rewrite fmap_cons. cbn [mbind list_bind] in *.
      change (list_bind ?f) with (mbind (M:=list) f) in *.
      rewrite fmap_app, <-list_fmap_compose. f_equal. apply IH. }
    rewrite Hc, Hl, <-list_fmap_compose. done.
Qed.

(** The texts of the matches of a repetition and of a sequence. *)
Lemma many_text p lo hi b s m :
  m ∈ many p lo hi b s → str_all p (m_text m) = true ∧ lo ≤ String.length (m_text m).
Proof.
  revert lo hi b m. induction s as [|c s IH]; intros lo hi b m; cbn.
  - destruct (Nat.eqb_spec lo 0) as [->|]; [|by intros ?%elem_of_nil].
    by intros ->%list_elem_of_singleton.
  - intros [Hm|Hm]%elem_of_app.
    + destruct (p c) eqn:E; [|by apply elem_of_nil in Hm]. cbn [andb] in Hm.
      case_bool_decide; [by apply elem_of_nil in Hm|]. cbn [negb] in Hm.
      apply list_elem_of_fmap in Hm as (k & -> & Hk). apply IH in Hk as [??]. cbn.
      rewrite E. split; [done|lia].
    + destruct (Nat.eqb_spec lo 0) as [->|]; [|by apply elem_of_nil in Hm].
      by apply list_elem_of_singleton in Hm as ->.
Qed.

Lemma run_seq_inv r1 r2 b s m :
  m ∈ run (RSeq r1 r2) b s →
  ∃ m1 m2, m1 ∈ run r1 b s ∧ m2 ∈ run r2 (m_before m1) (m_after m1) ∧
    m_text m = m_text m1 +:+ m_text m2 ∧ m_after m = m_after m2.
Proof.
  cbn [run]. intros (m1 & Hm1 & Hm)%list_elem_of_bind.
  apply list_elem_of_fmap in Hm1 as (m2 & -> & Hm2). by exists m1, m2.
Qed.

Lemma lit_text l b s m : m ∈ lit l b s → m_text m = l.
Proof.
  revert b s m. induction l as [|c l IH]; intros b s m; cbn.
  - by intros ->%list_elem_of_singleton.
  - destruct s as [|d s]; [by intros ?%elem_of_nil|].
    destruct (Ascii.eqb c d); [|by intros ?%elem_of_nil].
    intros (k & -> & Hk)%list_elem_of_fmap. cbn. f_equal. by eapply IH.
Qed.

(** ** Scanning *)

(** No match begins inside [s] when [t] follows. *)
Fixpoint quiet (r : regex) (b : option Ascii.ascii) (s t : string) : Prop :=
  match s with
  | "" => True
  | String c s' => run r b (String c (s' +:+ t)) = [] ∧ quiet r (Some c) s' t
  end.

Lemma quiet_first r b s t :
  nullable r = false → str_all (λ c, negb (first r c)) s = true → quiet r b s t.
Proof.
  intros Hn. revert b. induction s as [|c s IH]; intros b; [done|]. cbn [str_all quiet].
  intros H. zbool. split; [by apply run_nil_first|by apply IH].
Qed.

Lemma quiet_app r b s1 s2 t :
  quiet r b s1 (s2 +:+ t) → quiet r (last_or b s1) s2 t → quiet r b (s1 +:+ s2) t.
Proof.
  revert b. induction s1 as [|c s1 IH]; intros b; [done|]. rewrite str_app_cons. cbn [quiet last_or].
  rewrite str_app_assoc. intros [??] ?. auto.
Qed.

Lemma sub_from_quiet r f b s t :
  quiet r b s t → sub_from r f 0 b (s +:+ t) = s +:+ sub_from r f 0 (last_or b s) t.
Proof.
  revert b. induction s as [|c s IH]; intros b; [done|]. cbn [quiet]. intros [H Hq].
  rewrite !str_app_cons. cbn [sub_from last_or]. by rewrite H, IH.
Qed.

Lemma search_from_quiet r b s t :
  quiet r b s t → search_from r b (s +:+ t) = search_from r (last_or b s) t.
Proof.
  revert b. induction s as [|c s IH]; intros b; [done|]. cbn [quiet]. intros [H Hq].
  rewrite !str_app_cons. cbn [search_from last_or]. by rewrite H, IH.
Qed.

Lemma sub_from_skip r f b w t :
  sub_from r f (String.length w) b (w +:+ t) = sub_from r f 0 (last_or b w) t.
Proof.
  revert b. induction w as [|c w IH]; intros b; [done|]. rewrite str_app_cons. apply IH.
Qed.

Lemma sub_from_hit r f b w t m :
  hit r b (w +:+ t) m → m_text m = w → w ≠ "" →
  sub_from r f 0 b (w +:+ t) = f m +:+ sub_from r f 0 (last_or b w) t.
Proof.
  unfold hit. intros Hh Hm Hw. destruct w as [|c w]; [done|]. rewrite str_app_cons in *.
  cbn [sub_from]. destruct (run r b _) as [|m' l]; [done|]. injection Hh as ->.
  rewrite Hm. cbn [String.length last_or]. by rewrite sub_from_skip.
Qed.

Lemma search_from_hit r b s m : hit r b s m → search_from r b s = Some m.
Proof. unfold hit. destruct s; cbn [search_from]; destruct (run r b _); try done; by intros [= ->]. Qed.

Lemma search_from_end r b s : nullable r = false → quiet r b s "" → search_from r b s = None.
Proof.
  intros Hn Hq. rewrite <-(str_app_nil_r s), search_from_quiet by done.
  cbn [search_from]. by rewrite run_nil_empty.
Qed.

Lemma re_match_hit r s m : hit r None s m → re_match r s = Some m.
Proof. done. Qed.

(** Apply the lemma for the shape of the pattern. *)
Ltac hit_step :=
  lazymatch goal with
  | |- hit (RSeqs _) _ _ _ => cbn [RSeqs foldr]
  | |- hit (RSeq _ _) _ _ _ => eapply hit_seq
  | |- hit (RGroup _ _) _ _ _ => eapply hit_group
  | |- hit RBegin _ _ _ => apply hit_begin
  | |- hit REmpty _ _ _ => apply hit_empty
  | |- hit (RStr _) _ _ _ => apply hit_str
  | |- hit (RMany _ _ _) _ _ _ => eapply hit_many
  | |- hit (RPlus _) _ _ _ => eapply hit_many
  | |- hit (RStar _) _ _ _ => eapply hit_many
  | |- hit RBoundary _ _ _ => apply hit_boundary
  end; cbn [m_before m_after m_text m_groups].

(** ** Groups *)

(** What [m.group(n)] can be: the class and least length of the repetition in
    the group ([None]: anything). *)
Fixpoint group_shapes (r : regex) : list (nat * option ((Ascii.ascii → bool) * nat)) :=
  match r with
  | RSeq r s | RAlt r s => group_shapes r ++ group_shapes s
  | RGroup n (RMany p lo _) => [(n, Some (p, lo))]
  | RGroup n r => (n, None) :: group_shapes r
  | _ => []
  end.

(** The groups every match sets. *)
Fixpoint group_set (r : regex) (n : nat) : bool :=
  match r with
  | RSeq r s => group_set r n || group_set s n
  | RAlt r s => group_set r n && group_set s n
  | RGroup k r => (k =? n) || group_set r n
  | _ => false
  end.

Definition shape_ok (o : option ((Ascii.ascii → bool) * nat)) (s : string) : Prop :=
  match o with Some (p, lo) => str_all p s = true ∧ lo ≤ String.length s | None => True end.

Lemma many_groups p lo hi b s m : m ∈ many p lo hi b s → m_groups m = [].
Proof.
  revert lo hi b m. induction s as [|c s IH]; intros lo hi b m; cbn.
  - destruct (lo =? 0); [|by intros ?%elem_of_nil]. by intros ->%list_elem_of_singleton.
  - intros [Hm|Hm]%elem_of_app.
    + destruct (p c && _); [|by apply elem_of_nil in Hm].
      apply list_elem_of_fmap in Hm as (k & -> & Hk). by apply IH in Hk.
    + destruct (lo =? 0); [|by apply elem_of_nil in Hm].
      by apply list_elem_of_singleton in Hm as ->.
Qed.

Lemma lit_groups l b s m : m ∈ lit l b s → m_groups m = [].
Proof.
  revert b s m. induction l as [|c l IH]; intros b s m; cbn.
  - by intros ->%list_elem_of_singleton.
  - destruct s as [|d s]; [by intros ?%elem_of_nil|].
    destruct (Ascii.eqb c d); [|by intros ?%elem_of_nil].
    intros (k & -> & Hk)%list_elem_of_fmap. by apply IH in Hk.
Qed.

(** The two descriptions hold of every match. *)
Definition groups_ok (r : regex) (m : found) : Prop :=
  (∀ n s, (n, s) ∈ m_groups m → ∃ o, (n, o) ∈ group_shapes r ∧ shape_ok o s) ∧
  (∀ n, group_set r n = true → ∃ s, (n, s) ∈ m_groups m).

Lemma groups_ok_nil r m : m_groups m = [] → (∀ n, group_set r n = false) → groups_ok r m.
Proof.
  intros Hm Hr. split; [rewrite Hm; by intros ? ? ?%elem_of_nil|].
  intros n. by rewrite Hr.
Qed.

Lemma run_groups r b s m : m ∈ run r b s → groups_ok r m.
Proof.
  revert b s m. induction r as [l|p lo hi|r IHr k IHk|r IHr k IHk|n r IHr| | | |r _|];
    intros b s m Hm.
  - apply groups_ok_nil; [by eapply lit_groups|done].
  - apply groups_ok_nil; [by eapply many_groups|done].
  - cbn [run] in Hm. apply list_elem_of_bind in Hm as (m1 & Hm1 & Hm).
    apply list_elem_of_fmap in Hm1 as (m2 & -> & Hm2).
    apply IHr in Hm as [H1 H2]. apply IHk in Hm2 as [H3 H4]. split; cbn.
    + intros n t [Ht|Ht]%elem_of_app; [apply H3 in Ht|apply H1 in Ht];
        destruct Ht as (o & ? & ?); exists o; rewrite elem_of_app; auto.
    + intros n [Hn|Hn]%orb_true_iff; [apply H2 in Hn|apply H4 in Hn];
        destruct Hn as (t & ?); exists t; rewrite elem_of_app; auto.
  - cbn [run] in Hm. apply elem_of_app in Hm as [Hm|Hm]; [apply IHr in Hm|apply IHk in Hm];
      destruct Hm as [H1 H2]; (split; cbn; [intros n t Ht; apply H1 in Ht as (o & ? & ?); exists o;
      rewrite elem_of_app; auto|intros n [? ?]%andb_true_iff; auto]).
  - cbn [run] in Hm. apply list_elem_of_fmap in Hm as (m1 & -> & Hm1). pose proof Hm1 as [H1 H2]%IHr.
    split; cbn [m_groups].
    + intros n' t [Ht|Ht]%elem_of_cons.
      * injection Ht as -> ->. destruct r; try (exists None; split; [by constructor|done]).
        cbn [run] in Hm1. apply many_text in Hm1. eexists. split; [by constructor|done].
      * apply H1 in Ht as (o & Ho & Hs). exists o. split; [|done].
        destruct r; by apply elem_of_cons; right.
    + intros n' [Hn|Hn]%orb_true_iff.
      * apply Nat.eqb_eq in Hn as ->. eexists. by constructor.
      * apply H2 in Hn as (t & Ht). exists t. by constructor.
  - apply groups_ok_nil; [|done]. cbn in Hm. destruct b; [by apply elem_of_nil in Hm|].
    by apply list_elem_of_singleton in Hm as ->.
  - apply groups_ok_nil; [|done]. cbn in Hm. case_bool_decide; [|by apply elem_of_nil in Hm].
    by apply list_elem_of_singleton in Hm as ->.
  - apply groups_ok_nil; [|done]. cbn in Hm. destruct (Bool.eqb _ _); [by apply elem_of_nil in Hm|].
    by apply list_elem_of_singleton in Hm as ->.
  - apply groups_ok_nil; [|done]. cbn in Hm. destruct (run r b s); [|by apply elem_of_nil in Hm].
    by apply list_elem_of_singleton in Hm as ->.
  - apply groups_ok_nil; [|done]. cbn in Hm. destruct (line_start b); [|by apply elem_of_nil in Hm].
    by apply list_elem_of_singleton in Hm as ->.
Qed.

(** A group that is always set and always the same repetition. *)
Lemma match_group r s m n p lo :
  re_match r s = Some m → n ≠ 0 → group_set r n = true →
  Forall (λ x, x.1 = n → x.2 = Some (p, lo)) (group_shapes r) →
  ∃ t, group n m = Some t ∧ str_all p t = true ∧ lo ≤ String.length t.
Proof.
  unfold re_match. intros Hm Hn Hset Hshape.
  assert (m ∈ run r None s) as Hin.
  { destruct (run r None s) as [|m' l]; [done|]. injection Hm as ->. constructor. }
  apply run_groups in Hin as [H1 H2]. destruct (H2 n Hset) as (t0 & Ht0).
  unfold group. rewrite (proj2 (Nat.eqb_neq _ _) Hn).
  assert ((n, t0) ∈ filter (λ q : nat * string, q.1 = n) (m_groups m)) as Ht.
  { by apply list_elem_of_filter. }
  destruct (filter _ _) as [|[n' t] l] eqn:E; [by apply elem_of_nil in Ht|].
  exists t. split; [done|].
  assert ((n', t) ∈ filter (λ q : nat * string, q.1 = n) (m_groups m)) as Hin by (rewrite E; constructor).
  apply list_elem_of_filter in Hin as [Heq Hin]. cbn in Heq. subst n'.
  destruct (H1 n t Hin) as (o & Ho & Hs).
  rewrite list.Forall_forall in Hshape. specialize (Hshape _ Ho eq_refl). cbn in Hshape. by subst o.
Qed.

(** ** The first match and what is around it *)

Lemma cut_from_sound r b s pre m :
  cut_from r b s = Some (pre, m) →
  s = pre +:+ m_text m +:+ m_after m ∧ quiet r b pre (m_text m +:+ m_after m) ∧
  hit r (last_or b pre) (m_text m +:+ m_after m) m.
Proof.
  assert (∀ b s l, run r b s = m :: l → s = m_text m +:+ m_after m) as Hs.
  { intros b' s' l E. assert (m ∈ run r b' s') as [H _]%run_sound by (rewrite E; constructor). done. }
  revert b pre. induction s as [|c s IH]; intros b pre; cbn [cut_from].
  - destruct (run r b "") as [|m' l] eqn:E; [done|]. intros [= <- ->]. rewrite <-(Hs _ _ _ E). split_and!; [done..|].
    unfold hit. cbn [last_or]. by rewrite E.
  - destruct (run r b (String c s)) as [|m' l] eqn:E.
    + destruct (cut_from r (Some c) s) as [[pre' m'']|] eqn:Ec; [|done]. intros [= <- ->].
      destruct (IH _ _ Ec) as (-> & Hq & Hh). split_and!; [done| |done]. by split.
    + intros [= <- ->]. cbn [last_or]. rewrite str_app_nil_l, <-(Hs _ _ _ E). split_and!; [done..|].
      unfold hit. by rewrite E.
Qed.

Lemma cut_from_hit r b pre t m :
  quiet r b pre t → hit r (last_or b pre) t m → cut_from r b (pre +:+ t) = Some (pre, m).
Proof.
  revert b. induction pre as [|c pre IH]; intros b.
  - intros _. rewrite str_app_nil_l. unfold hit. cbn [last_or]. destruct t; cbn [cut_from]; destruct (run r b _); try done; by intros [= ->].
  - cbn [quiet]. intros [Hn Hq] Hh. rewrite str_app_cons. cbn [cut_from]. rewrite Hn.
    by rewrite (IH (Some c)).
Qed.

(** A replacement without a backslash is taken as it is. *)
Lemma template_plain s : no_char "\" s → template s = Ok (Some <$> String.list_ascii_of_string s).
Proof.
  unfold template, no_char. induction s as [|c s IH]; [done|]. cbn [str_all]. rewrite andb_true_iff.
  intros [Hc Hs]. cbn [String.length template_from]. destruct (Ascii.eqb c "\"); [done|].
  rewrite IH by done. done.
Qed.

Lemma expand_plain s m : expand (Some <$> String.list_ascii_of_string s) m = s.
Proof. unfold expand. induction s as [|c s IH]; [done|]. exact (f_equal (String c) IH). Qed.

Lemma re_subn1_plain r repl s :
  no_char "\" repl →
  re_subn1 r repl s = Ok (match cut_from r None s with
    | Some (pre, m) => (pre +:+ repl +:+ m_after m, 1) | None => (s, 0) end).
Proof.
  intros H. unfold re_subn1. rewrite template_plain by done. cbn [mbind res_bind].
  destruct (cut_from r None s) as [[pre m]|]; [|done]. by rewrite expand_plain.
Qed.

(** ** The text of a group *)

(** The patterns under each group. *)
Fixpoint subgroups (r : regex) : list (nat * regex) :=
  match r with
  | RSeq r s | RAlt r s => subgroups r ++ subgroups s
  | RGroup n r => (n, r) :: subgroups r
  | _ => []
  end.

Lemma run_group_sub r b s m n t :
  m ∈ run r b s → (n, t) ∈ m_groups m →
  ∃ q b' s' m', (n, q) ∈ subgroups r ∧ m' ∈ run q b' s' ∧ m_text m' = t.
Proof.
  revert b s m. induction r as [l|p lo hi|r IHr k IHk|r IHr k IHk|i r IHr| | | |r _|]; intros b s m Hm Ht.
  - cbn in Hm. apply lit_groups in Hm. rewrite Hm in Ht. by apply elem_of_nil in Ht.
  - cbn in Hm. apply many_groups in Hm. rewrite Hm in Ht. by apply elem_of_nil in Ht.
  - cbn [run] in Hm. apply list_elem_of_bind in Hm as (m1 & Hm1 & Hm).
    apply list_elem_of_fmap in Hm1 as (m2 & -> & Hm2). cbn [m_groups found_app] in Ht.
    apply elem_of_app in Ht as [Ht|Ht]; [eapply IHk in Ht; [|done]|eapply IHr in Ht; [|done]];
      destruct Ht as (q & b' & s' & m' & Hq & ?); exists q, b', s', m'; (split; [|done]);
      cbn [subgroups]; rewrite elem_of_app; auto.
  - cbn [run] in Hm. apply elem_of_app in Hm as [Hm|Hm]; [eapply IHr in Ht; [|done]|eapply IHk in Ht; [|done]];
      destruct Ht as (q & b' & s' & m' & Hq & ?); exists q, b', s', m'; (split; [|done]);
      cbn [subgroups]; rewrite elem_of_app; auto.
  - cbn [run] in Hm. apply list_elem_of_fmap in Hm as (m1 & -> & Hm1). cbn [m_groups] in Ht.
    apply elem_of_cons in Ht as [[= -> ->]|Ht].
    + exists r, b, s, m1. split; [constructor|done].
    + destruct (IHr _ _ _ Hm1 Ht) as (q & b' & s' & m' & Hq & ?). exists q, b', s', m'.
      split; [|done]. by apply elem_of_cons; right.
  - cbn in Hm. destruct b; [by apply elem_of_nil in Hm|].
    apply list_elem_of_singleton in Hm as ->. by apply elem_of_nil in Ht.
  - cbn in Hm. case_bool_decide; [|by apply elem_of_nil in Hm].
    apply list_elem_of_singleton in Hm as ->. by apply elem_of_nil in Ht.
  - cbn in Hm. destruct (Bool.eqb _ _); [by apply elem_of_nil in Hm|].
    apply list_elem_of_singleton in Hm as ->. by apply elem_of_nil in Ht.
  - cbn in Hm. destruct (run r b s); [|by apply elem_of_nil in Hm].
    apply list_elem_of_singleton in Hm as ->. by apply elem_of_nil in Ht.
  - cbn in Hm. destruct (line_start b); [|by apply elem_of_nil in Hm].
    apply list_elem_of_singleton in Hm as ->. by apply elem_of_nil in Ht.
Qed.

(** A group that every match sets, with one pattern under it. *)
Lemma group_sub r b s m n q :
  m ∈ run r b s → n ≠ 0 → group_set r n = true →
  Forall (λ x, x.1 = n → x.2 = q) (subgroups r) →
  ∃ b' s' m', group n m = Some (m_text m') ∧ m' ∈ run q b' s'.
Proof.
  intros Hm Hn Hset Hq. pose proof (run_groups _ _ _ _ Hm) as [_ H2]. destruct (H2 n Hset) as (t0 & Ht0).
  unfold group. rewrite (proj2 (Nat.eqb_neq _ _) Hn).
  assert ((n, t0) ∈ filter (λ x : nat * string, x.1 = n) (m_groups m)) as Ht by by apply list_elem_of_filter.
  destruct (filter _ _) as [|[n' t] l] eqn:E; [by apply elem_of_nil in Ht|].
  assert ((n', t) ∈ filter (λ x : nat * string, x.1 = n) (m_groups m)) as Hin by (rewrite E; constructor).
  apply list_elem_of_filter in Hin as [Heq Hin]. cbn in Heq. subst n'.
  destruct (run_group_sub _ _ _ _ _ _ Hm Hin) as (q' & b' & s' & m' & Hq' & Hm' & <-).
  rewrite list.Forall_forall in Hq. specialize (Hq _ Hq' eq_refl). cbn in Hq. subst q'.
  by exists b', s', m'.
Qed.

Lemma findall_run r k b s m : m ∈ findall_from r k b s → ∃ b' s', m ∈ run r b' s'.
Proof.
  revert k b. induction s as [|c s IH]; intros k b; cbn [findall_from]; [by intros ?%elem_of_nil|].
  destruct k; [|apply IH]. destruct (run r b (String c s)) as [|m' l] eqn:E; [apply IH|].
  intros [->|H]%elem_of_cons; [|by eapply IH]. exists b, (String c s). rewrite E. constructor.
Qed.

Lemma search_from_run r b s m : search_from r b s = Some m → ∃ b' s', m ∈ run r b' s'.
Proof.
  revert b. induction s as [|c s IH]; intros b; cbn [search_from].
  - destruct (run r b "") as [|m' l] eqn:E; [done|]. intros [= ->]. exists b, "". rewrite E. constructor.
  - destruct (run r b (String c s)) as [|m' l] eqn:E; [apply IH|]. intros [= ->]. exists b, (String c s). rewrite E. constructor.
Qed.

(** ** All the matches

    The texts of a grammar in a subject, from left to right: none begins inside
    the one before it, and none is left out that does not begin inside one. *)

Section leftmost.
Context {A : Type} (text_of : string → A → Prop).

(** At position [i] of [s] stands [t], which says [a]. *)
Definition occurs (s : string) (i : nat) (t : string) (a : A) : Prop :=
  ∃ pre post, s = pre +:+ t +:+ post ∧ String.length pre = i ∧ text_of t a.

Definition end_of (h : nat * string * A) : nat := h.1.1 + String.length h.1.2.

(** From position [k] on. *)
Record leftmost (k : nat) (s : string) (l : list (nat * string * A)) : Prop := {
  leftmost_occurs : Forall (λ h, occurs s h.1.1 h.1.2 h.2 ∧ k ≤ h.1.1) l;
  leftmost_sorted : StronglySorted (λ h h', end_of h ≤ h'.1.1) l;
  leftmost_all i t a : k ≤ i → occurs s i t a → (i, t, a) ∈ l ∨ ∃ h, h ∈ l ∧ h.1.1 < i < end_of h;
}.

Definition move (h : nat * string * A) : nat * string * A := (S h.1.1, h.1.2, h.2).

Lemma occurs_cons c s i t a : occurs (String c s) (S i) t a ↔ occurs s i t a.
Proof.
  split.
  - intros ([|d pre] & post & E & Hl & Ht); [done|]. rewrite str_app_cons in E. injection E as -> ->.
    injection Hl as <-. by exists pre, post.
  - intros (pre & post & -> & <- & Ht). by exists (String c pre), post.
Qed.

Lemma leftmost_move c s k l : leftmost k s l →
  Forall (λ h, occurs (String c s) h.1.1 h.1.2 h.2 ∧ S k ≤ h.1.1) (move <$> l) ∧
  StronglySorted (λ h h', end_of h ≤ h'.1.1) (move <$> l) ∧
  ∀ i t a, S k ≤ i → occurs (String c s) i t a →
    (i, t, a) ∈ move <$> l ∨ ∃ h, h ∈ move <$> l ∧ h.1.1 < i < end_of h.
Proof.
  intros [Ho Hs Ha]. split; [|split].
  - apply Forall_fmap. revert Ho. apply Forall_impl. intros h [Ho Hk]. unfold compose, move. cbn [fst snd].
    rewrite occurs_cons. split; [done|lia].
  - clear Ho Ha. induction Hs as [|h l Hs IH Hh]; [constructor|]. rewrite fmap_cons. constructor; [done|].
    apply Forall_fmap. revert Hh. apply Forall_impl. intros h'. unfold compose, move, end_of. cbn [fst snd]. lia.
  - intros [|i] t a Hi Hoc; [lia|]. apply occurs_cons in Hoc. destruct (Ha i t a) as [Hin|(h & Hin & Hp)]; [lia|done|..].
    + left. apply list_elem_of_fmap. by exists (i, t, a).
    + right. exists (move h). split; [by apply list_elem_of_fmap_2|]. unfold move, end_of in *. cbn [fst snd]. lia.
Qed.

(** [finditer] of a pattern whose first match is always a text of the grammar,
    and that matches all of such a text. *)
Context (r : regex) (get : found → A).
Context (Hsound : ∀ b s m l, run r b s = m :: l → text_of (m_text m) (get m)).
Context (Hcomplete : ∀ b t a post, text_of t a → ∃ m, hit r b (t +:+ post) m ∧ m_text m = t ∧ get m = a).
Context (Hempty : ∀ t a, text_of t a → t ≠ "").

Lemma findall_from_leftmost k b s : ∃ l, leftmost k s l ∧ get <$> findall_from r k b s = snd <$> l.
Proof.
  revert k b. induction s as [|c s IH]; intros k b.
  { exists []. split; [|done]. split; [constructor|constructor|]. intros i t a _ (pre & post & E & _ & Ht).
    destruct pre, t; try done. by apply Hempty in Ht. }
  cbn [findall_from]. destruct k as [|k].
  2: { destruct (IH k (Some c)) as (l & Hl & E). destruct (leftmost_move c s k l Hl) as (H1 & H2 & H3).
       exists (move <$> l). split; [by split|]. by rewrite E, <-list_fmap_compose. }
  destruct (run r b (String c s)) as [|m ms] eqn:Er.
  - destruct (IH 0 (Some c)) as (l & Hl & E). destruct (leftmost_move c s 0 l Hl) as (H1 & H2 & H3).
    exists (move <$> l). split; [|by rewrite E, <-list_fmap_compose]. split; [|done|].
    + revert H1. apply Forall_impl. intros h [? ?]. split; [done|lia].
    + intros [|i] t a _ Hoc; [|by apply H3; [lia|]]. destruct Hoc as ([|] & post & E' & Hlen & Ht); [|done].
      rewrite str_app_nil_l in E'. destruct (Hcomplete b t a post Ht) as (m & Hm & _). unfold hit in Hm.
      by rewrite <-E', Er in Hm.
  - pose proof (Hsound _ _ _ _ Er) as Ht. assert (m ∈ run r b (String c s)) as Hm by (rewrite Er; constructor).
    apply run_sound in Hm as [Es _]. pose proof (Hempty _ _ Ht) as Hne.
    assert (0 < String.length (m_text m)) as Hlen by (destruct (m_text m); [done|cbn; lia]).
    destruct (IH (pred (String.length (m_text m))) (Some c)) as (l & Hl & E).
    destruct (leftmost_move c s _ l Hl) as (H1 & H2 & H3). rewrite Nat.succ_pred in H1, H3 by lia.
    exists ((0, m_text m, get m) :: (move <$> l)). split; [|rewrite !fmap_cons, E, <-list_fmap_compose; done]. split.
    + constructor; [split; [by exists "", (m_after m)|cbn; lia]|]. revert H1. apply Forall_impl. intros h [? ?]. split; [done|lia].
    + constructor; [done|]. revert H1. apply Forall_impl. intros h [_ ?]. unfold end_of. cbn [fst snd]. lia.
    + intros i t a _ Hoc. destruct (decide (String.length (m_text m) ≤ i)) as [Hi|Hi].
      { destruct (H3 i t a Hi Hoc) as [?|(h & ? & ?)]; [left; by right|right; exists h; split; [by right|done]]. }
      destruct i as [|i].
      * left. destruct Hoc as ([|] & post & E' & Hl' & Ht'); [|done]. rewrite str_app_nil_l in E'.
        destruct (Hcomplete b t a post Ht') as (m' & Hm' & <- & <-). unfold hit in Hm'. rewrite <-E', Er in Hm'.
        injection Hm' as <-. left.
      * right. exists (0, m_text m, get m). split; [left|]. unfold end_of. cbn [fst snd]. lia.
Qed.

Lemma findall_leftmost s : ∃ l, leftmost 0 s l ∧ get <$> re_findall r s = snd <$> l.
Proof. apply findall_from_leftmost. Qed.
End leftmost.
