(* ===== verification/PyDict.v ===== *)
(** Python dictionaries as the tools use them: insertion order is kept, a key
    that is set again keeps its place. *)
From S2P Require Export Prelude.

Section dict.
Context {K : Type} `{EqDecision K} {V : Type}.
Implicit Types (d : list (K * V)) (k : K) (v : V).

(** [d.get(k)] *)
Fixpoint dict_get k d : option V :=
  match d with
  | [] => None
  | (k', v) :: d => if decide (k = k') then Some v else dict_get k d
  end.

(** [d[k] = v] *)
Fixpoint dict_set k v d : list (K * V) :=
  match d with
  | [] => [(k, v)]
  | (k', v') :: d => if decide (k = k') then (k', v) :: d else (k', v') :: dict_set k v d
  end.

Lemma dict_get_set_eq k v d : dict_get k (dict_set k v d) = Some v.
Proof.
  induction d as [|[k' v'] d IH]; cbn; [by rewrite decide_True|].
  destruct (decide (k = k')); cbn; [by rewrite decide_True|by rewrite decide_False].
Qed.

Lemma dict_get_set_ne k k' v d : k ≠ k' → dict_get k' (dict_set k v d) = dict_get k' d.
Proof.
  intros Hne. induction d as [|[k1 v1] d IH]; cbn; [by rewrite decide_False|].
  destruct (decide (k = k1)) as [->|]; cbn; [by rewrite !decide_False|].
  by destruct (decide (k' = k1)).
Qed.

Lemma dict_get_elem k v d : dict_get k d = Some v → (k, v) ∈ d.
Proof.
  induction d as [|[k' v'] d IH]; cbn; [done|]. case_decide as E.
  - subst. intros [= ->]. constructor.
  - intros H%IH. by constructor.
Qed.

Lemma dict_get_None k d : dict_get k d = None ↔ k ∉ d.*1.
Proof.
  induction d as [|[k' v'] d IH]; cbn; [by split; [intros _ ?%elem_of_nil|]|].
  rewrite not_elem_of_cons. case_decide; [split; [done|by intros [? _]]|]. rewrite IH. tauto.
Qed.

Lemma dict_get_NoDup k v d : NoDup d.*1 → (k, v) ∈ d → dict_get k d = Some v.
Proof.
  induction d as [|[k' v'] d IH]; cbn; [by intros _ ?%elem_of_nil|].
  intros [Hk Hd]%list.NoDup_cons [[= -> ->]|Hin]%elem_of_cons; [by rewrite decide_True|].
  rewrite decide_False; [by apply IH|]. intros ->. apply Hk.
  by apply (list_elem_of_fmap_2 fst) in Hin.
Qed.

Lemma dict_set_keys k v d k' : k' ∈ (dict_set k v d).*1 ↔ k' = k ∨ k' ∈ d.*1.
Proof.
  induction d as [|[k1 v1] d IH]; cbn; [set_solver|].
  case_decide as E; cbn; [subst; set_solver|]. rewrite !elem_of_cons, IH. tauto.
Qed.

Lemma dict_set_NoDup k v d : NoDup d.*1 → NoDup (dict_set k v d).*1.
Proof.
  induction d as [|[k1 v1] d IH]; cbn; [intros _; by apply NoDup_singleton|].
  intros [Hk Hd]%list.NoDup_cons. case_decide as E; cbn; apply list.NoDup_cons; [done|].
  split; [|by apply IH]. rewrite dict_set_keys. intros [->|]; done.
Qed.

(** A new key goes to the end. *)
Lemma dict_set_new k v d : k ∉ d.*1 → dict_set k v d = d ++ [(k, v)].
Proof.
  induction d as [|[k1 v1] d IH]; cbn; [done|]. intros [Hne Hk]%not_elem_of_cons.
  rewrite decide_False by done. by rewrite IH.
Qed.

(** Two keys that are there can be set in either order. *)
Lemma dict_set_swap k k' v v' d : k ≠ k' → k ∈ d.*1 → k' ∈ d.*1 →
  dict_set k v (dict_set k' v' d) = dict_set k' v' (dict_set k v d).
Proof.
  intros Hne. induction d as [|[k1 v1] d IH]; cbn; [by intros ?%elem_of_nil|]. intros Hk Hk'.
  repeat first [case_decide | progress cbn]; subst; try done; try congruence.
  - f_equal. apply IH; set_solver.
Qed.

(** Entries with different keys, set one after the other. *)
Lemma dict_of_list (l d : list (K * V)) :
  NoDup (d ++ l).*1 → foldl (λ d '(k, v), dict_set k v d) d l = d ++ l.
Proof.
  revert d. induction l as [|[k v] l IH]; intros d Hnd; [by rewrite app_nil_r|].
  cbn [foldl]. rewrite dict_set_new.
  - rewrite IH; [by rewrite <-app_assoc|by rewrite <-app_assoc].
  - rewrite fmap_app, fmap_cons in Hnd. apply list.NoDup_app in Hnd as (_ & H & _).
    intros Hk. apply (H k Hk). constructor.
Qed.
End dict.
