(* ===== verification/PySort.v ===== *)
(** [l.sort(key=..., reverse=True)]: largest key first, and entries with equal
    keys stay in their order. *)
From S2P Require Export Prelude.
Local Open Scope Z_scope.

Section sort.
Context {A : Type} (key : A → Z).

(** [x] was before all of [l]. *)
Fixpoint insert_desc (x : A) (l : list A) : list A :=
  match l with
  | [] => [x]
  | y :: t => if key y <=? key x then x :: l else y :: insert_desc x t
  end.
Definition sort_desc (l : list A) : list A := foldr insert_desc [] l.

Definition descending : list A → Prop := StronglySorted (λ x y, key y ≤ key x).

Lemma insert_desc_perm x l : insert_desc x l ≡ₚ x :: l.
Proof.
  induction l as [|y l IH]; [done|]. cbn [insert_desc]. destruct (key y <=? key x); [done|].
  rewrite IH. constructor.
Qed.

Lemma sort_desc_perm l : sort_desc l ≡ₚ l.
Proof. induction l as [|x l IH]; [done|]. cbn. by rewrite insert_desc_perm, IH. Qed.

Lemma insert_desc_sorted x l : descending l → descending (insert_desc x l).
Proof.
  induction 1 as [|y l Hl IH Hy]; cbn [insert_desc]; [by repeat constructor|].
  destruct (Z.leb_spec (key y) (key x)) as [Hle|Hgt]; constructor.
  - by constructor.
  - constructor; [done|]. eapply Forall_impl; [|exact Hy]. intros a Ha. cbn in Ha. lia.
  - done.
  - rewrite insert_desc_perm. constructor; [lia|done].
Qed.

Lemma sort_desc_sorted l : descending (sort_desc l).
Proof. induction l as [|x l IH]; [constructor|]. by apply insert_desc_sorted. Qed.

(** The entries of each key are in the order they were in. *)
Lemma insert_desc_stable k x l : descending l →
  filter (λ a, key a = k) (insert_desc x l) = filter (λ a, key a = k) (x :: l).
Proof.
  induction 1 as [|y l Hl IH Hy]; [done|]. cbn [insert_desc].
  destruct (Z.leb_spec (key y) (key x)) as [Hle|Hgt]; [done|].
  rewrite !filter_cons. rewrite filter_cons in IH. rewrite IH. clear IH.
  destruct (decide (key x = k)), (decide (key y = k)); try done. lia.
Qed.

Lemma sort_desc_stable k l : filter (λ a, key a = k) (sort_desc l) = filter (λ a, key a = k) l.
Proof.
  induction l as [|x l IH]; [done|]. cbn [sort_desc foldr]. fold (sort_desc l).
  rewrite insert_desc_stable by apply sort_desc_sorted. rewrite !filter_cons. by rewrite IH.
Qed.

Lemma descending_app l k x y : descending (l ++ k) → x ∈ l → y ∈ k → key y ≤ key x.
Proof.
  intros H Hx Hy. apply StronglySorted_app in H as (H & _ & _). by apply H.
Qed.
End sort.

Lemma sort_desc_fmap {A B} (f : A → B) (key : B → Z) (key' : A → Z) l :
  (∀ a, key (f a) = key' a) → sort_desc key (f <$> l) = f <$> sort_desc key' l.
Proof.
  intros Hk. induction l as [|x l IH]; [done|]. cbn [sort_desc foldr fmap list_fmap].
  change (foldr (insert_desc key) [] (f <$> l)) with (sort_desc key (f <$> l)).
  change (foldr (insert_desc key') [] l) with (sort_desc key' l). rewrite IH. clear IH.
  induction (sort_desc key' l) as [|y t IHt]; [done|]. cbn [insert_desc fmap list_fmap]. rewrite !Hk.
  destruct (key' y <=? key' x); [done|]. cbn [fmap list_fmap]. by rewrite IHt.
Qed.

Example sort_desc_example :
  sort_desc snd [("a", 1); ("b", 3); ("c", 1); ("d", 3)]%string = [("b", 3); ("d", 3); ("a", 1); ("c", 1)]%string.
Proof. done. Qed.
