(* ===== verification/PyCsv.v ===== *)
(** Python's [csv]: the reader as the state machine of CPython's [_csv], in its
    default dialect (fields separated by commas, quoted when they start with a
    double quote, a quote in a quoted field doubled), and [DictReader].  Reading
    is lazy: the rows, and how the reading ended. *)
From S2P Require Export PyText.
From S2P Require Export PyDict.
Local Open Scope Z_scope.

(** ** The reader *)

Inductive csv_state := START_RECORD | START_FIELD | IN_FIELD | IN_QUOTED_FIELD | QUOTE_IN_QUOTED_FIELD | EAT_CRNL.
#[export] Instance csv_state_eq_dec : EqDecision csv_state.
Proof. solve_decision. Defined.

(** The field being read and the fields read, of the record being read. *)
Record csv_reader := CsvReader { csv_at : csv_state; csv_field : string; csv_fields : list string }.
Definition csv_start : csv_reader := CsvReader START_RECORD "" [].

Definition field_limit : Z := 131072.
Definition QUOTE : Ascii.ascii := Ascii.ascii_of_nat 34.
Definition CR : Ascii.ascii := Ascii.ascii_of_nat 13.
Definition LF : Ascii.ascii := Ascii.ascii_of_nat 10.

Definition csv_goto (s : csv_state) (r : csv_reader) : csv_reader := CsvReader s (csv_field r) (csv_fields r).
(** [parse_save_field] and [parse_add_char] *)
Definition csv_save (s : csv_state) (r : csv_reader) : csv_reader := CsvReader s "" (csv_fields r ++ [csv_field r]).
Definition csv_add (s : csv_state) (c : Ascii.ascii) (r : csv_reader) : res csv_reader :=
  if field_limit <=? Z.of_nat (String.length (csv_field r))
  then Raise (CsvError "field larger than field limit (131072)")
  else Ok (CsvReader s (csv_field r +:+ String c "") (csv_fields r)).

Definition is_crnl (c : Ascii.ascii) : bool := Ascii.eqb c LF || Ascii.eqb c CR.

(** [parse_process_char], of a character. *)
Definition csv_start_field (c : Ascii.ascii) (r : csv_reader) : res csv_reader :=
  if is_crnl c then Ok (csv_save EAT_CRNL r)
  else if Ascii.eqb c QUOTE then Ok (csv_goto IN_QUOTED_FIELD r)
  else if Ascii.eqb c "," then Ok (csv_save START_FIELD r)
  else csv_add IN_FIELD c r.
Definition csv_char (c : Ascii.ascii) (r : csv_reader) : res csv_reader :=
  match csv_at r with
  | START_RECORD => if is_crnl c then Ok (csv_goto EAT_CRNL r) else csv_start_field c r
  | START_FIELD => csv_start_field c r
  | IN_FIELD =>
      if is_crnl c then Ok (csv_save EAT_CRNL r)
      else if Ascii.eqb c "," then Ok (csv_save START_FIELD r)
      else csv_add IN_FIELD c r
  | IN_QUOTED_FIELD =>
      if Ascii.eqb c QUOTE then Ok (csv_goto QUOTE_IN_QUOTED_FIELD r) else csv_add IN_QUOTED_FIELD c r
  | QUOTE_IN_QUOTED_FIELD =>
      if Ascii.eqb c QUOTE then csv_add IN_QUOTED_FIELD c r
      else if Ascii.eqb c "," then Ok (csv_save START_FIELD r)
      else if is_crnl c then Ok (csv_save EAT_CRNL r)
      else csv_add IN_FIELD c r
  | EAT_CRNL =>
      if is_crnl c then Ok r
      else Raise (CsvError "new-line character seen in unquoted field - do you need to open the file with newline=''?")
  end.

(** [parse_process_char], of the end of a line. *)
Definition csv_eol (r : csv_reader) : csv_reader :=
  match csv_at r with
  | START_RECORD | IN_QUOTED_FIELD => r
  | START_FIELD | IN_FIELD | QUOTE_IN_QUOTED_FIELD => csv_save START_RECORD r
  | EAT_CRNL => csv_goto START_RECORD r
  end.

Fixpoint csv_chars (s : string) (r : csv_reader) : res csv_reader :=
  match s with "" => Ok r | String c t => csv_char c r ≫= csv_chars t end.
Definition csv_line (s : string) (r : csv_reader) : res csv_reader := csv_eol <$> csv_chars s r.

(** The lines of a file opened with [newline=""], with their ends. *)
Fixpoint raw_lines_from (acc s : string) : list string :=
  match s with
  | "" => match acc with "" => [] | _ => [acc] end
  | String c t =>
      let acc := acc +:+ String c "" in
      if Ascii.eqb c LF then acc :: raw_lines_from "" t
      else if Ascii.eqb c CR then
        match t with
        | String d u => if Ascii.eqb d LF then (acc +:+ String LF "") :: raw_lines_from "" u else acc :: raw_lines_from "" t
        | "" => [acc]
        end
      else raw_lines_from acc t
  end.
Definition raw_lines (s : string) : list string := raw_lines_from "" s.

(** The records; a quoted field may go on in the next line, or end with the file. *)
Fixpoint csv_rows_from (r : csv_reader) (lines : list string) : list (list string) * res unit :=
  match lines with
  | [] =>
      if negb (String.eqb (csv_field r) "") || bool_decide (csv_at r = IN_QUOTED_FIELD)
      then ([csv_fields (csv_save START_RECORD r)], Ok tt) else ([], Ok tt)
  | l :: lines =>
      match csv_line l r with
      | Raise e => ([], Raise e)
      | Ok r =>
          if bool_decide (csv_at r = START_RECORD)
          then let '(rows, e) := csv_rows_from csv_start lines in (csv_fields r :: rows, e)
          else csv_rows_from r lines
      end
  end.
Definition csv_rows (text : string) : list (list string) * res unit := csv_rows_from csv_start (raw_lines text).

(** ** DictReader *)

(** A row: the columns, [None] where the record is too short, and under the key
    [None] the fields it has too many. *)
Record row := Row { columns : list (string * option string); extra : option (list string) }.

Definition set_columns (d : list (string * option string)) (l : list (string * option string)) :=
  foldl (λ d '(k, v), dict_set k v d) d l.
Definition dict_row (fieldnames record : list string) : row :=
  let n := length fieldnames in
  let d := set_columns [] (zip fieldnames (Some <$> record)) in
  Row (set_columns d ((λ k, (k, None)) <$> drop (length record) fieldnames))
    (if (n <? length record)%nat then Some (drop n record) else None).

(** Blank records are passed over, but for the first, which names the columns. *)
Definition dict_rows (text : string) : list row * res unit :=
  match csv_rows text with
  | ([], e) => ([], e)
  | (fieldnames :: records, e) => (dict_row fieldnames <$> filter (.≠ []) records, e)
  end.

(** [r[k]] *)
Definition column (k : string) (r : row) : res (option string) :=
  match dict_get k (columns r) with Some v => Ok v | None => Raise (KeyError k) end.

(** What takes a text: [int], [float] and a padded format refuse [None]. *)
Definition column_of {A} (message : string) (f : string → res A) (k : string) (r : row) : res A :=
  v ← column k r; match v with Some s => f s | None => Raise (TypeError message) end.
Definition no_format : string := "unsupported format string passed to NoneType.__format__".
Definition no_int : string := "int() argument must be a string, a bytes-like object or a real number, not 'NoneType'".
Definition no_int16 : string := "int() can't convert non-string with explicit base".
Definition no_float : string := "float() argument must be a string or a real number, not 'NoneType'".

(** [f"{r[k]}"] and [f"{r[k]:<n}"] *)
Definition column_text (k : string) (r : row) : res string := default "None" <$> column k r.
Definition column_padded (k : string) (n : nat) (r : row) : res string := column_of no_format (λ s, Ok (pad_right n s)) k r.
(** [int(r[k])] *)
Definition column_int (k : string) (r : row) : res Z := column_of no_int py_int k r.

(** ** Tables of plain fields are read back *)

Definition plain_char (c : Ascii.ascii) : bool := negb (is_crnl c || Ascii.eqb c QUOTE || Ascii.eqb c ",").
Definition plain_field (s : string) : Prop := str_all plain_char s = true ∧ Z.of_nat (String.length s) ≤ field_limit.
Definition record_line (l : list string) : string := String.concat "," l.
Definition plain_record (l : list string) : Prop := l ≠ [] ∧ l ≠ [""] ∧ Forall plain_field l.
Definition csv_text (table : list (list string)) : string := unlines (record_line <$> table).

Lemma csv_chars_app s t r : csv_chars (s +:+ t) r = csv_chars s r ≫= csv_chars t.
Proof.
  revert r. induction s as [|c s IH]; intros r; [done|]. rewrite str_app_cons. cbn [csv_chars].
  destruct (csv_char c r) as [r'|]; [apply IH|done].
Qed.

Lemma plain_char_spec c : plain_char c = true →
  is_crnl c = false ∧ Ascii.eqb c QUOTE = false ∧ Ascii.eqb c "," = false.
Proof. unfold plain_char. rewrite negb_true_iff, !orb_false_iff. tauto. Qed.

Lemma csv_add_ok st st' c f fs : Z.of_nat (String.length f) < field_limit →
  csv_add st c (CsvReader st' f fs) = Ok (CsvReader st (f +:+ String c "") fs).
Proof. intros H. unfold csv_add. cbn [csv_field csv_fields]. by rewrite (proj2 (Z.leb_gt _ _)). Qed.

(** Characters of a field go into it. *)
Lemma csv_in_field s f fs : str_all plain_char s = true → Z.of_nat (String.length (f +:+ s)) ≤ field_limit →
  csv_chars s (CsvReader IN_FIELD f fs) = Ok (CsvReader IN_FIELD (f +:+ s) fs).
Proof.
  revert f. induction s as [|c s IH]; intros f Hs Hl; [by rewrite str_app_nil_r|].
  cbn [str_all] in Hs. apply andb_true_iff in Hs as [(H1 & H2 & H3)%plain_char_spec Hs].
  rewrite str_length_app in Hl. cbn [String.length] in Hl.
  cbn [csv_chars]. unfold csv_char. cbn [csv_at]. rewrite H1, H3, csv_add_ok by lia. cbn [mbind res_bind].
  rewrite IH; [by rewrite str_app_assoc|done|]. rewrite !str_length_app. cbn [String.length]. lia.
Qed.

(** A field, and the comma or the line end after it. *)
Lemma csv_field_end s st fs c : plain_field s → (st = START_FIELD ∨ (st = START_RECORD ∧ s ≠ "")) →
  is_crnl c || Ascii.eqb c "," = true →
  csv_chars (s +:+ String c "") (CsvReader st "" fs) =
    Ok (CsvReader (if is_crnl c then EAT_CRNL else START_FIELD) "" (fs ++ [s])).
Proof.
  intros [Hs Hl] Hst Hc. assert (Ascii.eqb c QUOTE = false) as Hq
    by (destruct (Ascii.eqb_spec c QUOTE) as [->|]; done).
  destruct s as [|d s].
  - destruct Hst as [->|[_ ?]]; [|done]. rewrite str_app_nil_l. cbn [csv_chars]. unfold csv_char, csv_start_field.
    cbn [csv_at]. rewrite Hq. destruct (is_crnl c); [done|]. cbn [orb] in Hc. by rewrite Hc.
  - cbn [str_all] in Hs. apply andb_true_iff in Hs as [(H1 & H2 & H3)%plain_char_spec Hs].
    rewrite str_app_cons. cbn [csv_chars].
    assert (csv_char d (CsvReader st "" fs) = Ok (CsvReader IN_FIELD (String d "") fs)) as ->.
    { unfold csv_char, csv_start_field. cbn [csv_at].
      destruct Hst as [->|[-> _]]; rewrite H1, H2, H3; by apply csv_add_ok. }
    cbn [mbind res_bind]. rewrite csv_chars_app, csv_in_field by done. cbn [mbind res_bind csv_chars].
    unfold csv_char. cbn [csv_at]. destruct (is_crnl c); [done|]. cbn [orb] in Hc. by rewrite Hc.
Qed.

(** A line of fields. *)
Lemma csv_record l st fs : l ≠ [] → Forall plain_field l → (st = START_FIELD ∨ (st = START_RECORD ∧ l ≠ [""] )) →
  csv_chars (record_line l +:+ newline) (CsvReader st "" fs) = Ok (CsvReader EAT_CRNL "" (fs ++ l)).
Proof.
  intros Hne Hl. revert st fs. induction Hl as [|s l Hs Hl IH]; [done|]. intros st fs Hst.
  destruct l as [|s' l].
  { unfold record_line. cbn [String.concat]. unfold newline. rewrite (csv_field_end s st fs); [done|done| |done].
    destruct Hst as [->|[-> Hx]]; [by left|right]. split; [done|]. intros ->. done. }
  assert (record_line (s :: s' :: l) +:+ newline = (s +:+ ",") +:+ record_line (s' :: l) +:+ newline) as ->.
  { unfold record_line. cbn [String.concat]. by rewrite !str_app_assoc. }
  rewrite csv_chars_app.
  assert (csv_chars (s +:+ ",") (CsvReader st "" fs) = Ok (CsvReader START_FIELD "" (fs ++ [s]))) as ->.
  { destruct (decide (st = START_FIELD ∨ (st = START_RECORD ∧ s ≠ ""))) as [H|H].
    - by rewrite (csv_field_end s st fs).
    - destruct Hst as [->|[-> _]]; [by destruct H; left|].
      assert (s = "") as -> by (destruct (decide (s = "")); [done|by destruct H; right]). done. }
  cbn [mbind res_bind]. rewrite IH; [by rewrite <-app_assoc|done|by left].
Qed.

Lemma raw_lines_from_app acc s t :
  str_all (λ c, negb (is_crnl c)) s = true → raw_lines_from acc (s +:+ t) = raw_lines_from (acc +:+ s) t.
Proof.
  revert acc. induction s as [|c s IH]; intros acc H; [by rewrite str_app_nil_r|].
  cbn [str_all] in H. apply andb_true_iff in H as [Hc Hs]. apply negb_true_iff in Hc.
  unfold is_crnl in Hc. apply orb_false_iff in Hc as [H1 H2].
  rewrite str_app_cons. cbn [raw_lines_from]. rewrite H1, H2, IH by done.
  by rewrite str_app_assoc, str_app_cons, str_app_nil_l.
Qed.

Lemma raw_lines_unlines l :
  Forall (λ s, str_all (λ c, negb (is_crnl c)) s = true) l → raw_lines (unlines l) = (λ s, s +:+ newline) <$> l.
Proof.
  unfold raw_lines. induction 1 as [|s l Hs _ IH]; [done|].
  change (unlines (s :: l)) with ((s +:+ newline) +:+ unlines l).
  rewrite str_app_assoc, raw_lines_from_app, str_app_nil_l by done.
  unfold newline at 1. rewrite str_app_cons, str_app_nil_l. cbn [raw_lines_from].
  change (Ascii.eqb "010" LF) with true. cbv iota. by rewrite IH.
Qed.

Lemma plain_field_line s : plain_field s → str_all (λ c, negb (is_crnl c)) s = true.
Proof.
  intros [H _]. revert H. apply str_all_impl. intros c (H & _ & _)%plain_char_spec. by rewrite H.
Qed.

Lemma record_line_one_line l : Forall plain_field l → str_all (λ c, negb (is_crnl c)) (record_line l) = true.
Proof.
  unfold record_line. induction 1 as [|s l Hs _ IH]; [done|]. apply plain_field_line in Hs.
  destruct l as [|s' l]; [done|]. change (String.concat "," (s :: s' :: l)) with (s +:+ "," +:+ String.concat "," (s' :: l)).
  by rewrite !str_all_app, Hs, IH.
Qed.

Theorem csv_rows_plain table : Forall plain_record table → csv_rows (csv_text table) = (table, Ok tt).
Proof.
  intros Ht. unfold csv_rows, csv_text. rewrite raw_lines_unlines.
  - induction Ht as [|l table (Hne & Hx & Hl) _ IH]; [done|]. rewrite !fmap_cons. cbn [csv_rows_from].
    unfold csv_line, csv_start at 1. rewrite csv_record by auto. cbn [fmap res_fmap].
    unfold csv_eol. cbn [csv_at csv_goto csv_field csv_fields]. rewrite bool_decide_true by done.
    by rewrite IH.
  - apply Forall_fmap. eapply Forall_impl; [|exact Ht]. intros l (_ & _ & Hl). by apply record_line_one_line.
Qed.

(** A table with a header, its records as long as the header. *)
Lemma zip_keys {A} (h : list string) (l : list A) : length l = length h → (zip h l).*1 = h.
Proof. intros. apply fst_zip. lia. Qed.

Lemma dict_row_plain h l : NoDup h → length l = length h → dict_row h l = Row (zip h (Some <$> l)) None.
Proof.
  intros Hnd Hl. unfold dict_row. rewrite drop_ge, Hl, Nat.ltb_irrefl by lia.
  cbn [fmap list_fmap]. unfold set_columns at 1. cbn [foldl]. unfold set_columns. rewrite dict_of_list.
  - done.
  - cbn [app]. by rewrite zip_keys by by rewrite length_fmap.
Qed.

Theorem dict_rows_plain h rows :
  NoDup h → plain_record h → Forall (λ l, plain_record l ∧ length l = length h) rows →
  dict_rows (csv_text (h :: rows)) = ((λ l, Row (zip h (Some <$> l)) None) <$> rows, Ok tt).
Proof.
  intros Hnd Hh Hr. unfold dict_rows.
  assert (Forall plain_record rows) as Hp by (eapply Forall_impl; [|exact Hr]; by intros l [? _]).
  rewrite csv_rows_plain by by constructor. f_equal.
  assert (filter (.≠ []) rows = rows) as ->.
  { clear Hr. induction Hp as [|l rows (H & _) _ IH]; [done|]. by rewrite filter_cons_True, IH. }
  apply list_fmap_ext. intros i l Hi. apply dict_row_plain; [done|].
  by eapply Forall_lookup_1 in Hr as [_ ?].
Qed.

(** Columns of such a row. *)
Lemma column_plain h l k i s : NoDup h → length l = length h → h !! i = Some k → l !! i = Some s →
  column k (Row (zip h (Some <$> l)) None) = Ok (Some s).
Proof.
  intros Hnd Hlen Hk Hs. unfold column. cbn [columns].
  rewrite (dict_get_NoDup k (Some s)); [done|by rewrite zip_keys by by rewrite length_fmap|].
  apply list_elem_of_lookup. exists i. apply lookup_zip_Some. by rewrite list_lookup_fmap, Hs.
Qed.
