(* ===== verification/PyFloat.v ===== *)
(** Python's [float], an IEEE 754 binary64 number, as the Standard Library's
    reference floats: sign, significand and exponent, every operation rounded
    to nearest with ties to even.  Literals are the exact binary64 values of
    the decimal literals of the source. *)
From S2P Require Export Prelude.
From Stdlib Require Import SpecFloat.
Local Open Scope Z_scope.

Notation pyfloat := spec_float.

(** [m * 2^e], rounded to nearest even. *)
Definition float_of (m e : Z) : pyfloat := binary_normalize 53 1024 m e false.

(** [float(z)]: an [int] as the nearest float. *)
Definition float_of_Z (z : Z) : pyfloat := float_of z 0.

Definition float_add : pyfloat → pyfloat → pyfloat := SFadd 53 1024.
Definition float_sub : pyfloat → pyfloat → pyfloat := SFsub 53 1024.
Definition float_mul : pyfloat → pyfloat → pyfloat := SFmul 53 1024.
Definition float_div : pyfloat → pyfloat → pyfloat := SFdiv 53 1024.

Definition float_lt : pyfloat → pyfloat → bool := SFltb.
Definition float_le : pyfloat → pyfloat → bool := SFleb.

Example float_of_one : float_of_Z 1 = S754_finite false (2 ^ 52) (-52).
Proof. reflexivity. Qed.

Example float_tenth_rounds : float_div (float_of_Z 1) (float_of_Z 10)
  = S754_finite false 7205759403792794 (-56).
Proof. reflexivity. Qed.
