(* ===== verification/Percent.v ===== *)
(** The percentages of the coverage tools: Python's [100.0 * hit / total] in
    binary64, and the fact the gates rely on: compared with a whole threshold,
    the rounded percentage is on the same side as the exact one. *)
From S2P Require Export PyFloat.
From S2P Require Export PyText.
From Stdlib Require Import SpecFloat.
Local Open Scope Z_scope.

(** [100.0 * hit / total] *)
Definition percent (hit total : Z) : pyfloat :=
  float_div (float_mul (float_of_Z 100) (float_of_Z hit)) (float_of_Z total).

(** ** Printing *)

Definition round_half_even (num den : Z) : Z :=
  let q := num / den in
  match 2 * (num `mod` den) ?= den with
  | Lt => q
  | Gt => q + 1
  | Eq => if Z.even q then q else q + 1
  end.

Definition zero_pad (n : nat) (s : string) : string :=
  str_concat (replicate (n - String.length s) "0") +:+ s.

(** [n / 10^d] with [d] decimals. *)
Definition fmt_scaled (d : nat) (n : Z) : string :=
  str_Z (n / 10 ^ Z.of_nat d) +:+
  (if (d =? 0)%nat then "" else "." +:+ zero_pad d (str_Z (n `mod` 10 ^ Z.of_nat d))).

(** [f"{x:.df}"]: the exact binary value rounded to [d] decimals. *)
Definition fmt_fixed (d : nat) (x : pyfloat) : string :=
  match x with
  | S754_finite s m e =>
      (if s then "-" else "") +:+
      fmt_scaled d (round_half_even (Z.pos m * 2 ^ Z.max e 0 * 10 ^ Z.of_nat d) (2 ^ Z.max (- e) 0))
  | S754_zero s => (if s then "-" else "") +:+ fmt_scaled d 0
  | S754_infinity s => if s then "-inf" else "inf"
  | S754_nan => "nan"
  end.

Example fmt_two_thirds : fmt_fixed 1 (percent 2 3) = "66.7".
Proof. vm_compute. reflexivity. Qed.
Example fmt_hundred : fmt_fixed 0 (float_of_Z 100) = "100".
Proof. vm_compute. reflexivity. Qed.

(** ** Digits *)

Lemma Zdigits2_log2 n : 0 < n → Zdigits2 n = Z.log2 n + 1.
Proof.
  destruct n as [|p|p]; try done. intros _. cbn [Zdigits2].
  induction p as [p IH|p IH|]; cbn [digits2_pos]; [..|done].
  - rewrite Pos2Z.inj_succ, IH, (Pos2Z.inj_xI p), Z.log2_succ_double by lia. lia.
  - rewrite Pos2Z.inj_succ, IH, (Pos2Z.inj_xO p), Z.log2_double by lia. lia.
Qed.

Lemma Zdigits2_unique n d : 0 ≤ d → 2 ^ d ≤ n < 2 ^ (d + 1) → Zdigits2 n = d + 1.
Proof.
  intros Hd Hn. assert (0 < 2 ^ d) by (apply Z.pow_pos_nonneg; lia).
  rewrite Zdigits2_log2 by lia. by rewrite (Z.log2_unique n d).
Qed.

(** A significand of 53 digits. *)
Definition normal (m : Z) : Prop := 2 ^ 52 ≤ m < 2 ^ 53.

Lemma Zdigits2_normal m k : 0 ≤ k → normal m → Zdigits2 (m * 2 ^ k) = 53 + k.
Proof.
  intros Hk [H1 H2]. assert (0 < 2 ^ k) by (apply Z.pow_pos_nonneg; lia).
  rewrite (Zdigits2_unique _ (52 + k)) by (lia || (rewrite !Z.pow_add_r by lia; nia)). lia.
Qed.

(** ** Shifting *)

Lemma iter_pos_nat {A} (f : A → A) p x : iter_pos f p x = Nat.iter (Pos.to_nat p) f x.
Proof.
  revert x. induction p as [p IH|p IH|]; intros x; cbn [iter_pos].
  - rewrite !IH, Pos2Nat.inj_xI. rewrite <-Nat.iter_add, <-Nat.iter_succ_r. f_equal. lia.
  - rewrite !IH, Pos2Nat.inj_xO. rewrite <-Nat.iter_add. f_equal. lia.
  - done.
Qed.

Lemma shr_1_even m : 0 < m → shr_1 (Build_shr_record (m * 2) false false) = Build_shr_record m false false.
Proof. destruct m as [|p|p]; try done. intros _. by rewrite Z.mul_comm. Qed.

Lemma shr_exact m k :
  0 < m → Nat.iter k shr_1 (Build_shr_record (m * 2 ^ Z.of_nat k) false false) = Build_shr_record m false false.
Proof.
  intros Hm. induction k as [|k IH]; [by rewrite Z.mul_1_r|].
  rewrite Nat.iter_succ_r, Nat2Z.inj_succ, Z.pow_succ_r, (Z.mul_comm 2), Z.mul_assoc by lia.
  rewrite shr_1_even; [done|]. assert (0 < 2 ^ Z.of_nat k) by (apply Z.pow_pos_nonneg; lia). nia.
Qed.


Lemma fexp_normal d : -1021 ≤ d → fexp 53 1024 d = d - 53.
Proof. unfold fexp, emin. lia. Qed.

Lemma shr_fexp_exact m k e :
  normal m → 0 ≤ k → -1074 ≤ e + k →
  shr_fexp 53 1024 (m * 2 ^ k) e loc_Exact = (Build_shr_record m false false, e + k).
Proof.
  intros Hm Hk He. unfold shr_fexp. rewrite Zdigits2_normal, fexp_normal by (done || lia).
  cbn [shr_record_of_loc]. replace (53 + k + e - 53 - e) with k by lia.
  destruct Hm as [Hm _]. destruct k as [|p|p]; [|..|lia].
  - cbn [shr]. rewrite Z.mul_1_r. by rewrite Z.add_0_r.
  - cbn [shr]. rewrite iter_pos_nat. assert (m * 2 ^ Z.pos p = m * 2 ^ Z.of_nat (Pos.to_nat p)) as -> by by rewrite positive_nat_Z.
    rewrite shr_exact by lia. done.
Qed.

Definition fl (m e : Z) : pyfloat := S754_finite false (Z.to_pos m) e.

Lemma round_exact m k e :
  normal m → 0 ≤ k → -1074 ≤ e + k ≤ 971 →
  binary_round_aux 53 1024 false (m * 2 ^ k) e loc_Exact = fl m (e + k).
Proof.
  intros Hm Hk He. unfold binary_round_aux. rewrite shr_fexp_exact by (done || lia).
  cbn [shr_m loc_of_shr_record round_nearest_even].
  pose proof (shr_fexp_exact m 0 (e + k) Hm ltac:(lia) ltac:(lia)) as H.
  rewrite Z.mul_1_r, Z.add_0_r in H. rewrite H. cbn [shr_m]. destruct Hm as [Hm _].
  destruct m as [|p|p]; try lia. rewrite (proj2 (Z.leb_le _ _)) by lia. done.
Qed.

(** ** Whole numbers are exact *)

(** The significand and exponent of a whole number. *)
Definition sig (n : Z) : Z := n * 2 ^ (52 - Z.log2 n).
Definition expo (n : Z) : Z := Z.log2 n - 52.

Lemma log2_small n : 0 < n < 2 ^ 53 → 0 ≤ Z.log2 n ≤ 52.
Proof. intros Hn. pose proof (Z.log2_nonneg n).
  destruct Hn as [H0 H1]. apply Z.log2_lt_pow2 in H1; lia. Qed.

Lemma sig_normal n : 0 < n < 2 ^ 53 → normal (sig n).
Proof.
  intros Hn. pose proof (log2_small n Hn). pose proof (Z.log2_spec n) as Hs. unfold sig, normal.
  replace (2 ^ 52) with (2 ^ Z.log2 n * 2 ^ (52 - Z.log2 n)) by (rewrite <-Z.pow_add_r by lia; f_equal; lia).
  replace (2 ^ 53) with (2 ^ Z.succ (Z.log2 n) * 2 ^ (52 - Z.log2 n)) by (rewrite <-Z.pow_add_r by lia; f_equal; lia).
  assert (0 < 2 ^ (52 - Z.log2 n)) by (apply Z.pow_pos_nonneg; lia). nia.
Qed.

Lemma iter_xO p k : Z.pos (Pos.iter xO p k) = Z.pos p * 2 ^ Z.pos k.
Proof.
  induction k as [|k IH] using Pos.peano_ind; [by rewrite Z.mul_comm|].
  rewrite Pos.iter_succ, Pos2Z.inj_succ, Z.pow_succ_r by lia. lia.
Qed.

Lemma float_of_Z_fl n : 0 < n < 2 ^ 53 → float_of_Z n = fl (sig n) (expo n).
Proof.
  intros Hn. pose proof (log2_small n Hn). pose proof (sig_normal n Hn) as Hs.
  unfold float_of_Z, float_of. destruct n as [|p|p]; try lia. cbn [binary_normalize].
  unfold binary_round.
  assert (Z.pos (digits2_pos p) = Z.log2 (Z.pos p) + 1) as -> by (apply (Zdigits2_log2 (Z.pos p)); lia).
  rewrite Z.add_0_r, fexp_normal by lia. replace (Z.log2 (Z.pos p) + 1 - 53) with (expo (Z.pos p)) by (unfold expo; lia).
  assert (shl_align p 0 (expo (Z.pos p)) = (Z.to_pos (sig (Z.pos p)), expo (Z.pos p))) as ->.
  { unfold shl_align. rewrite Z.sub_0_r. unfold sig. unfold expo in *.
    destruct (Z.log2 (Z.pos p) - 52) as [|k|k] eqn:E; [|lia|].
    - replace (52 - Z.log2 (Z.pos p)) with 0 by lia. by rewrite Z.mul_1_r.
    - f_equal. replace (52 - Z.log2 (Z.pos p)) with (Z.pos k) by lia. by rewrite <-iter_xO. }
  rewrite Z2Pos.id by (destruct Hs; lia).
  pose proof (round_exact (sig (Z.pos p)) 0 (expo (Z.pos p)) Hs) as H1. rewrite Z.mul_1_r, Z.add_0_r in H1.
  apply H1; unfold expo; lia.
Qed.

Lemma float_mul_exact a b :
  0 < a → 0 < b → a * b < 2 ^ 53 →
  float_mul (float_of_Z a) (float_of_Z b) = fl (sig (a * b)) (expo (a * b)).
Proof.
  intros Ha Hb Hab. assert (0 < a < 2 ^ 53) as Ha' by nia. assert (0 < b < 2 ^ 53) as Hb' by nia.
  assert (0 < a * b) by nia.
  pose proof (sig_normal a Ha') as [Hsa _]. pose proof (sig_normal b Hb') as [Hsb _].
  pose proof (log2_small a Ha'). pose proof (log2_small b Hb'). pose proof (log2_small (a * b) ltac:(lia)).
  pose proof (Z.log2_mul_below a b Ha Hb).
  rewrite !float_of_Z_fl by done. unfold float_mul, fl. cbn [SFmul xorb].
  rewrite Pos2Z.inj_mul, !Z2Pos.id by lia.
  pose proof (round_exact (sig (a * b)) (52 - Z.log2 a - Z.log2 b + Z.log2 (a * b)) (expo a + expo b)) as Hr.
  replace (sig a * sig b) with (sig (a * b) * 2 ^ (52 - Z.log2 a - Z.log2 b + Z.log2 (a * b))).
  - rewrite Hr; [|by apply sig_normal; lia|lia|unfold expo; lia]. unfold fl. f_equal. unfold expo. lia.
  - unfold sig. rewrite <-Z.mul_assoc, <-Z.pow_add_r by lia.
    transitivity (a * b * (2 ^ (52 - Z.log2 a) * 2 ^ (52 - Z.log2 b))); [|ring].
    rewrite <-Z.pow_add_r by lia. do 2 f_equal. lia.
Qed.

(** ** Division *)

(** Rounding to nearest keeps the integer part or adds one; an exact value
    stays. *)
Lemma round_nearest_cases m l :
  round_nearest_even m l = m ∨ (round_nearest_even m l = m + 1 ∧ l ≠ loc_Exact).
Proof. destruct l as [|[]]; cbn; [by left|destruct (Z.even m)|..]; auto. Qed.

(** A significand that is rounded: it stays below [2^53], or the exponent goes
    up by one. *)
Lemma round_step m e :
  2 ^ 52 ≤ m ≤ 2 ^ 53 → -1074 ≤ e ≤ 970 →
  (let '(mrs, e) := shr_fexp 53 1024 m e loc_Exact in
   match shr_m mrs with
   | Z0 => S754_zero false
   | Zpos p => if e <=? 1024 - 53 then S754_finite false p e else S754_infinity false
   | Zneg _ => S754_nan
   end) = if m <? 2 ^ 53 then fl m e else fl (2 ^ 52) (e + 1).
Proof.
  intros Hm He. destruct (Z.ltb_spec m (2 ^ 53)) as [Hlt|Hge].
  - pose proof (shr_fexp_exact m 0 e ltac:(unfold normal; lia) ltac:(lia) ltac:(lia)) as H.
    rewrite Z.mul_1_r, Z.add_0_r in H. rewrite H. cbn [shr_m].
    destruct m as [|p|p]; try lia. by rewrite (proj2 (Z.leb_le _ _)) by lia.
  - replace m with (2 ^ 52 * 2 ^ 1) by lia.
    rewrite (shr_fexp_exact (2 ^ 52) 1 e) by (unfold normal; lia). cbn [shr_m].
    by rewrite (proj2 (Z.leb_le _ _)) by lia.
Qed.

(** A quotient of 53 or 54 digits that is rounded: its leading 53 digits, or one
    more; an exact one that fits stays. *)
Lemma round_quotient q e l :
  2 ^ 52 ≤ q < 2 ^ 54 → -1074 ≤ e ≤ 960 →
  ∃ k z, (k = 0 ∨ k = 1) ∧ normal (q / 2 ^ k) ∧ (z = q / 2 ^ k ∨ z = q / 2 ^ k + 1) ∧
    (l = loc_Exact → q `mod` 2 ^ k = 0 → z = q / 2 ^ k) ∧
    binary_round_aux 53 1024 false q e l = if z <? 2 ^ 53 then fl z (e + k) else fl (2 ^ 52) (e + k + 1).
Proof.
  intros Hq He. unfold binary_round_aux. destruct (Z_lt_le_dec q (2 ^ 53)) as [Hlt|Hge].
  - assert (normal q) as Hn by (unfold normal; lia). exists 0.
    assert (shr_fexp 53 1024 q e l = (shr_record_of_loc q l, e)) as ->.
    { unfold shr_fexp. pose proof (Zdigits2_normal q 0 ltac:(lia) Hn) as Dq. rewrite Z.mul_1_r in Dq.
      rewrite Dq, fexp_normal by lia. by replace (53 + 0 + e - 53 - e) with 0 by lia. }
    cbn [shr_m]. assert (shr_m (shr_record_of_loc q l) = q) as -> by by destruct l as [|[]].
    assert (loc_of_shr_record (shr_record_of_loc q l) = l) as -> by by destruct l as [|[]].
    exists (round_nearest_even q l). rewrite Z.pow_0_r, Z.div_1_r.
    pose proof (round_nearest_cases q l) as Hc. split; [by left|]. split; [done|]. split; [tauto|].
    split; [by intros ->|]. rewrite Z.add_0_r. apply round_step; lia.
  - exists 1. pose proof (Z.div_mod q 2 ltac:(lia)) as Hq2. pose proof (Z.mod_pos_bound q 2 ltac:(lia)).
    assert (normal (q / 2)) as Hn by (unfold normal; lia).
    assert (∃ r, shr_fexp 53 1024 q e l = (r, e + 1) ∧ shr_m r = q / 2 ∧
      (l = loc_Exact → q `mod` 2 = 0 → loc_of_shr_record r = loc_Exact)) as (r & -> & Hr & Hx).
    { unfold shr_fexp. rewrite (Zdigits2_unique q 53) by lia. rewrite fexp_normal by lia.
      replace (53 + 1 + e - 53 - e) with 1 by lia. cbn [shr iter_pos].
      destruct q as [|p|p]; try lia. destruct l as [|[]], p as [p|p|]; try lia; cbn [shr_record_of_loc shr_1];
        rewrite ?(Pos2Z.inj_xI p), ?(Pos2Z.inj_xO p), ?(Z.mul_comm 2), ?Z.div_add_l, ?Z.div_mul, ?Z.add_0_r by lia;
        (eexists; split; [done|split; [done|]]); try done.
      intros _ Hm. rewrite Z.add_comm, Z.mod_add in Hm by lia. done. }
    cbn [shr_m]. rewrite Hr. exists (round_nearest_even (q / 2) (loc_of_shr_record r)).
    pose proof (round_nearest_cases (q / 2) (loc_of_shr_record r)) as Hc.
    split; [by right|]. split; [done|]. split; [rewrite Z.pow_1_r; tauto|].
    split; [intros Hl Hm; by rewrite Hx by done|]. apply round_step; [destruct Hn; lia|lia].
Qed.

(** The rounded quotient of [m1 * 2^e1] and [m2 * 2^e2]: a significand [q] and
    exponent [e] with [q * 2^e] at most the exact quotient and [(q+1) * 2^e]
    above it, then rounded to [q] or [q+1]. *)
Lemma float_div_cases m1 e1 m2 e2 :
  normal m1 → normal m2 → -900 ≤ e1 - e2 ≤ 900 →
  ∃ q k z, normal q ∧ (k = 0 ∨ k = 1) ∧
    (let d := 53 - k in q * m2 ≤ m1 * 2 ^ d ∧ m1 * 2 ^ d < (q + 1) * m2) ∧
    (z = q ∨ z = q + 1) ∧
    float_div (fl m1 e1) (fl m2 e2) =
      if z <? 2 ^ 53 then fl z (e1 - e2 - 53 + k) else fl (2 ^ 52) (e1 - e2 - 53 + k + 1).
Proof.
  intros Hm1 Hm2 He. pose proof Hm1 as [H1 H1']. pose proof Hm2 as [H2 H2'].
  unfold float_div, fl. cbn [SFdiv xorb]. rewrite !Z2Pos.id by lia. unfold SFdiv_core_binary.
  pose proof (Zdigits2_normal m1 0 ltac:(lia) Hm1) as D1. pose proof (Zdigits2_normal m2 0 ltac:(lia) Hm2) as D2.
  rewrite Z.mul_1_r in D1, D2. rewrite D1, D2, fexp_normal by lia.
  replace (Z.min (53 + 0 + e1 - (53 + 0 + e2) - 53) (e1 - e2)) with (e1 - e2 - 53) by lia.
  replace (e1 - e2 - (e1 - e2 - 53)) with 53 by lia. rewrite Z.shiftl_mul_pow2 by lia.
  pose proof (Z_div_mod (m1 * 2 ^ 53) m2 ltac:(lia)) as Hdm.
  destruct (Z.div_eucl (m1 * 2 ^ 53) m2) as [q r]. destruct Hdm as [Hq Hr].
  destruct (round_quotient q (e1 - e2 - 53) (new_location m2 r)) as (k & z & Hk & Hn & Hz & _ & ->); [nia|lia|].
  exists (q / 2 ^ k), k, z. do 2 (split; [done|]). split; [|split; [done|reflexivity]].
  cbn zeta. destruct Hk as [-> | ->]; [rewrite Z.pow_0_r, Z.div_1_r; nia|].
  pose proof (Z.div_mod q 2 ltac:(lia)). pose proof (Z.mod_pos_bound q 2 ltac:(lia)).
  change (2 ^ 1) with 2. change (53 - 1) with 52. nia.
Qed.

(** ** The rounded percentage against a whole threshold *)

Lemma fl_le a e b f : 0 < a → 0 < b → float_le (fl a e) (fl b f) = (e <? f) || ((e =? f) && (a <=? b)).
Proof.
  intros Ha Hb. unfold float_le, SFleb, fl. cbn [SFcompare].
  destruct (Z.compare_spec e f) as [->|Hlt|Hgt].
  - rewrite Z.ltb_irrefl, Z.eqb_refl. cbn [orb andb].
    change (Pos.compare_cont Eq (Z.to_pos a) (Z.to_pos b)) with (Pos.compare (Z.to_pos a) (Z.to_pos b)).
    rewrite <-(Z2Pos.id a Ha) at 2. rewrite <-(Z2Pos.id b Hb) at 2.
    unfold Z.leb. cbn [Z.compare]. by destruct (Pos.compare _ _).
  - by rewrite (proj2 (Z.ltb_lt _ _)).
  - rewrite (proj2 (Z.ltb_ge _ _)), (proj2 (Z.eqb_neq _ _)) by lia. done.
Qed.

(** The rounded quotient, in whole numbers: [q / 2^w] is at most [n / t] and
    [(q+1) / 2^w] is above it. *)
Lemma float_div_whole n t :
  0 < n < 2 ^ 53 → 0 < t < 2 ^ 53 → n ≤ 100 * t →
  ∃ q w z, normal q ∧ 0 ≤ w ∧ q * t ≤ n * 2 ^ w < (q + 1) * t ∧ (z = q ∨ z = q + 1) ∧
    float_div (fl (sig n) (expo n)) (fl (sig t) (expo t)) =
      if z <? 2 ^ 53 then fl z (- w) else fl (2 ^ 52) (- w + 1).
Proof.
  intros Hn Ht Hnt. pose proof (log2_small n Hn). pose proof (log2_small t Ht).
  assert (Z.log2 n ≤ Z.log2 t + 7) as Hlog.
  { transitivity (Z.log2 (t * 2 ^ 7)); [apply Z.log2_le_mono; lia|].
    rewrite Z.log2_mul_pow2 by lia. lia. }
  destruct (float_div_cases (sig n) (expo n) (sig t) (expo t)) as (q & k & z & Hq & Hk & [Hle Hlt] & Hz & ->);
    [by apply sig_normal|by apply sig_normal|unfold expo; lia|].
  exists q, (Z.log2 t - Z.log2 n + 53 - k), z.
  split; [done|]. split; [lia|].
  replace (expo n - expo t - 53 + k) with (- (Z.log2 t - Z.log2 n + 53 - k)) by (unfold expo; lia).
  split; [|done]. unfold sig in Hle, Hlt.
  assert (n * 2 ^ (52 - Z.log2 n) * 2 ^ (53 - k) = n * 2 ^ (Z.log2 t - Z.log2 n + 53 - k) * 2 ^ (52 - Z.log2 t)) as E.
  { rewrite <-!Z.mul_assoc, <-!Z.pow_add_r by lia. do 2 f_equal. lia. }
  rewrite E in Hle, Hlt. rewrite Z.mul_assoc in Hle, Hlt.
  assert (0 < 2 ^ (52 - Z.log2 t)) by (apply Z.pow_pos_nonneg; lia). nia.
Qed.

Lemma percent_threshold hit total c :
  0 ≤ hit ≤ total → 0 < total < 2 ^ 46 → 1 ≤ c ≤ 100 →
  float_le (float_of_Z c) (percent hit total) = (c * total <=? 100 * hit).
Proof.
  intros Hh Ht Hc. unfold percent. rewrite (float_of_Z_fl c), (float_of_Z_fl total) by lia.
  pose proof (sig_normal c ltac:(lia)) as [Hs1 Hs2].
  destruct (Z.eq_dec hit 0) as [->|Hne].
  { rewrite (proj2 (Z.leb_gt _ _)) by lia. reflexivity. }
  rewrite float_mul_exact by lia.
  destruct (float_div_whole (100 * hit) total) as (q & w & z & [Hq1 Hq2] & Hw & [Hle Hlt] & Hz & ->); [lia..|].
  assert (0 ≤ Z.log2 c ≤ 6) as Hlc.
  { split; [apply Z.log2_nonneg|]. transitivity (Z.log2 100); [apply Z.log2_le_mono; lia|done]. }
  pose proof (Z.log2_spec c ltac:(lia)) as [Hc1 Hc2].
  set (v := 52 - Z.log2 c). replace (expo c) with (- v) by (unfold expo, v; lia).
  assert (sig c = c * 2 ^ v) as Hsig by done. rewrite Hsig in *.
  assert (2 ^ 46 ≤ 2 ^ v) as Hv by (apply Z.pow_le_mono_r; unfold v; lia).
  set (n := 100 * hit) in *.
  assert (0 < 2 ^ w) as Hpw by (apply Z.pow_pos_nonneg; lia).
  destruct (Z.leb_spec (c * total) n) as [Hge|Hbelow].
  - (* the quotient reaches the threshold *)
    assert (c * 2 ^ w ≤ q) as Hcq by nia.
    assert (w ≤ v) as Hwv.
    { destruct (Z_le_gt_dec w v); [done|exfalso].
      assert (2 ^ (v + 1) ≤ 2 ^ w) by (apply Z.pow_le_mono_r; unfold v in *; lia).
      rewrite Z.pow_add_r in * by (unfold v; lia). nia. }
    destruct (Z.ltb_spec z (2 ^ 53)); rewrite fl_le by lia.
    + destruct (Z.eqb_spec (- v) (- w)) as [E|E].
      * assert (w = v) as -> by lia. rewrite (proj2 (Z.leb_le _ _)) by lia. by rewrite orb_true_r.
      * by rewrite (proj2 (Z.ltb_lt _ _)) by lia.
    + by rewrite (proj2 (Z.ltb_lt _ _)) by lia.
  - (* it does not *)
    assert (q * total ≤ (c * total - 1) * 2 ^ w) as Hq by nia.
    assert (q < c * 2 ^ w) as Hqc by nia.
    assert (v ≤ w) as Hvw.
    { destruct (Z_le_gt_dec v w); [done|exfalso].
      assert (2 ^ (w + 1) ≤ 2 ^ v) by (apply Z.pow_le_mono_r; lia).
      rewrite Z.pow_add_r in * by lia. nia. }
    destruct (Z.ltb_spec z (2 ^ 53)); rewrite fl_le by lia.
    + rewrite (proj2 (Z.ltb_ge _ _)) by lia. destruct (Z.eqb_spec (- v) (- w)) as [E|E]; [|done].
      assert (w = v) as -> by lia. rewrite (proj2 (Z.leb_gt _ _)) by nia. done.
    + assert (v + 1 ≤ w) as Hvw'.
      { destruct (Z.eq_dec w v) as [->|]; [exfalso; nia|lia]. }
      rewrite (proj2 (Z.ltb_ge _ _)) by lia. destruct (Z.eqb_spec (- v) (- w + 1)) as [E|E]; [|done].
      assert (w = v + 1) as -> by lia. rewrite Z.pow_add_r in * by lia.
      rewrite (proj2 (Z.leb_gt _ _)); [done|]. nia.
Qed.
