(* ===== verification/PyNum.v ===== *)
(** Numbers in text and in division: [int(s, 16)], [float(s)], the quotient of
    two integers, signed and padded formats, and the length of the bars that the
    reports draw, which rounding never makes longer than the chart. *)
From S2P Require Export Percent.
From Stdlib Require Import SpecFloat.
Local Open Scope Z_scope.

(** ** Integers in base 16 *)

(** The digits of a literal, single underscores between them. *)
Fixpoint hex_digits (need_digit : bool) (acc : Z) (s : string) : option Z :=
  match s with
  | "" => if need_digit then None else Some acc
  | String c t =>
      match hex_value c with
      | Some d => hex_digits false (16 * acc + d) t
      | None => if Ascii.eqb c "_" && negb need_digit then hex_digits true acc t else None
      end
  end.

(** The prefix [0x] may be there, an underscore after it too. *)
Definition drop_0x (s : string) : string :=
  match s with
  | String c (String d t) =>
      if Ascii.eqb c "0" && (Ascii.eqb d "x" || Ascii.eqb d "X") then match t with String "_" u => u | _ => t end
      else s
  | s => s
  end.

(** [int(s, 16)] *)
Definition py_int16 (s : string) : res Z :=
  let o := match strip s with
           | String "-" t => Z.opp <$> hex_digits true 0 (drop_0x t)
           | String "+" t => hex_digits true 0 (drop_0x t)
           | t => hex_digits true 0 (drop_0x t)
           end in
  match o with
  | Some z => Ok z
  | None => Raise (ValueError ("invalid literal for int() with base 16: '" +:+ s +:+ "'"))
  end.

Example py_int16_examples :
  py_int16 " 0x_1F" = Ok 31 ∧ py_int16 "-a_b" = Ok (-171) ∧ res_wp (py_int16 "0000000040000000") (eq (2 ^ 30))
  ∧ py_int16 "0x" = Raise (ValueError "invalid literal for int() with base 16: '0x'").
Proof. done. Qed.

(** [int] in base 16 reads back every hexadecimal format of a number that is not
    negative. *)
Lemma hex_digits_value s acc b :
  str_all is_hex s = true → (b = true → s ≠ "") → hex_digits b acc s = hex_value_from acc s.
Proof.
  revert acc b. induction s as [|c s IH]; intros acc b Hs Hb; cbn [hex_digits hex_value_from].
  - destruct b; [by destruct Hb|done].
  - cbn [str_all] in Hs. apply andb_true_iff in Hs as [Hc Hs]. unfold is_hex in Hc.
    destruct (hex_value c); [by apply IH|done].
Qed.

Lemma drop_0x_hex s : str_all is_hex s = true → drop_0x s = s.
Proof.
  destruct s as [|c [|d t]]; try done. cbn [str_all]. intros [_ [Hd _]%andb_true_iff]%andb_true_iff.
  unfold drop_0x. destruct (Ascii.eqb_spec d "x") as [->|_]; [done|].
  destruct (Ascii.eqb_spec d "X") as [->|_]; [done|]. by rewrite andb_false_r.
Qed.

Lemma hex_no_space s : str_all is_hex s = true → no_space s = true.
Proof. apply str_all_ascii. vm_compute. reflexivity. Qed.

Lemma py_int16_hex s z : str_all is_hex s = true → int_of_hex s = Some z → py_int16 s = Ok z.
Proof.
  intros Hs Hz. assert (s ≠ "") as Hne by by intros ->.
  rewrite int_of_hex_nonempty in Hz by done. pose proof (hex_no_space s Hs) as Hn. unfold py_int16.
  rewrite strip_solid.
  - pose proof (hex_digits_value (drop_0x s) 0 true) as H. rewrite drop_0x_hex in H by done.
    specialize (H Hs ltac:(done)). rewrite Hz in H.
    destruct s as [|c s]; [done|]. cbn [str_all] in Hs. apply andb_true_iff in Hs as [Hc Hs].
    assert (drop_0x (String c s) = String c s) as Hd by (apply drop_0x_hex; cbn [str_all]; by rewrite Hc, Hs).
    assert (c ≠ "-"%char ∧ c ≠ "+"%char) as [H1 H2] by (split; intros ->; done).
    destruct c as [[] [] [] [] [] [] [] []]; try done; by rewrite Hd, H.
  - destruct s as [|c s]; [done|]. unfold no_space in Hn. cbn [str_all starts_solid] in *. by apply andb_true_iff in Hn as [? _].
  - by apply ends_solid_nonspace.
Qed.

Lemma py_int16_fmt w z : 0 ≤ z → py_int16 (fmt_hex w z) = Ok z.
Proof. intros Hz. apply py_int16_hex; [by apply fmt_hex_hex|by apply int_of_hex_fmt]. Qed.

(** ** Quotients of integers *)

(** An integer as a float that is not rounded. *)
Definition exact (n : Z) : pyfloat :=
  match n with 0 => S754_zero false | Zpos p => S754_finite false p 0 | Zneg p => S754_finite true p 0 end.

(** [a / b] of two integers: the exact quotient rounded once. *)
Definition int_div (a b : Z) : res pyfloat :=
  if b =? 0 then Raise ZeroDivisionError else
  match float_div (exact a) (exact b) with
  | S754_infinity _ => Raise (OverflowError "integer division result too large for a float")
  | x => Ok x
  end.

(** [int(x)] of a float: the part before the point. *)
Definition float_trunc (x : pyfloat) : res Z :=
  match x with
  | S754_zero _ => Ok 0
  | S754_finite s m e => Ok ((if s then -1 else 1) * (Z.pos m * 2 ^ Z.max e 0 / 2 ^ Z.max (- e) 0))
  | S754_infinity _ => Raise (OverflowError "cannot convert float infinity to integer")
  | S754_nan => Raise (ValueError "cannot convert float NaN to integer")
  end.

(** ** Floats in text *)

(** Underscores stand between digits only. *)
Fixpoint drop_underscores (after_digit : bool) (s : string) : option string :=
  match s with
  | "" => Some ""
  | String "_" t =>
      match t with
      | String d _ => if after_digit && is_digit d then drop_underscores false t else None
      | "" => None
      end
  | String c t => String c <$> drop_underscores (is_digit c) t
  end.

(** The leading digits and the rest. *)
Fixpoint span_digits (s : string) : string * string :=
  match s with
  | String c t => if is_digit c then let '(d, r) := span_digits t in (String c d, r) else ("", s)
  | "" => ("", "")
  end.
Definition digits_value (s : string) : Z := default 0 (int_digits false 0 s).

Definition lower_char (c : Ascii.ascii) : Ascii.ascii :=
  if (65 <=? code c) && (code c <=? 90) then Ascii.ascii_of_N (Z.to_N (code c + 32)) else c.
Fixpoint lower (s : string) : string :=
  match s with "" => "" | String c t => String (lower_char c) (lower t) end.

(** [m * 10^e], rounded once. *)
Definition decimal (negative : bool) (m e : Z) : pyfloat :=
  if m =? 0 then S754_zero negative else
  let sign := if negative : bool then -1 else 1 in
  if 0 <=? e then float_of_Z (sign * m * 10 ^ e) else float_div (exact (sign * m)) (exact (10 ^ (- e))).

(** The exponent, or nothing: [e], a sign, digits to the end. *)
Definition exponent (s : string) : option Z :=
  let digits t := match span_digits t with (String _ _ as d, "") => Some (digits_value d) | _ => None end in
  match s with
  | "" => Some 0
  | String "e" (String "-" t) | String "E" (String "-" t) => Z.opp <$> digits t
  | String "e" (String "+" t) | String "E" (String "+" t) => digits t
  | String "e" t | String "E" t => digits t
  | _ => None
  end.

(** A number without its sign. *)
Definition unsigned_float (negative : bool) (s : string) : option pyfloat :=
  if String.eqb (lower s) "inf" || String.eqb (lower s) "infinity" then Some (S754_infinity negative)
  else if String.eqb (lower s) "nan" then Some S754_nan
  else
    let '(whole, r) := span_digits s in
    let '(frac, r) := match r with String "." t => span_digits t | _ => ("", r) end in
    if String.eqb (whole +:+ frac) "" then None
    else (λ e, decimal negative (digits_value (whole +:+ frac)) (e - Z.of_nat (String.length frac))) <$> exponent r.

(** [float(s)] *)
Definition py_float (s : string) : res pyfloat :=
  let o := t ← drop_underscores false (strip s);
           match t with
           | String "-" t => unsigned_float true t
           | String "+" t => unsigned_float false t
           | t => unsigned_float false t
           end in
  match o with
  | Some x => Ok x
  | None => Raise (ValueError ("could not convert string to float: '" +:+ s +:+ "'"))
  end.

Example py_float_examples :
  py_float "0.1" = Ok (S754_finite false 7205759403792794 (-56)) ∧
  py_float " -1_0.5e1 " = Ok (float_of_Z (-105)) ∧ py_float "1e400" = Ok (S754_infinity false) ∧
  py_float ".5" = py_float "5e-1" ∧ py_float "-0.0" = Ok (S754_zero true) ∧
  py_float "1__0" = Raise (ValueError "could not convert string to float: '1__0'") ∧
  py_float "." = Raise (ValueError "could not convert string to float: '.'").
Proof. vm_compute. auto 10. Qed.

(** ** Formats *)

(** [f"{s:>n}"], and [f"{z:nd}"] of its digits. *)
Definition pad_left (n : nat) (s : string) : string := spaces (n - String.length s) +:+ s.

(** [f"{x:+.df}"] *)
Definition fmt_signed (d : nat) (x : pyfloat) : string :=
  let negative := match x with S754_finite s _ _ | S754_zero s | S754_infinity s => s | S754_nan => false end in
  (if negative then "" else "+") +:+ fmt_fixed d x.

(** [x * 100], printed with two decimals in [n] columns. *)
Definition fmt_percent (n : nat) (x : pyfloat) : string :=
  pad_left n (fmt_fixed 2 (float_mul x (float_of_Z 100))).

(** ** Bars *)

(** The block character, beyond code point 255: the bytes UTF-8 writes for it. *)
Definition full_block : string := String "226" (String "150" (String "136" "")).
(** The dash, likewise. *)
Definition em_dash : string := String "226" (String "128" (String "148" "")).
(** [s * n] *)
Definition repeat_str (s : string) (n : Z) : string := str_concat (replicate (Z.to_nat n) s).

(** [int(width * c / m)] *)
Definition bar_length (width c m : Z) : res Z := int_div (width * c) m ≫= float_trunc.

(** ** A bar is no longer than the chart *)

Lemma trunc_fl z w : 0 < z → 0 ≤ w → float_trunc (fl z (- w)) = Ok (z / 2 ^ w).
Proof.
  intros Hz Hw. unfold fl, float_trunc. rewrite Z2Pos.id, Z.opp_involutive, Z.max_r, Z.max_l by lia.
  by rewrite Z.mul_1_r, Z.mul_1_l.
Qed.

(** The quotient of the significands that the division computes. *)
Lemma exact_div n m : 0 < n → 0 < m → -900 ≤ Z.log2 n - Z.log2 m ≤ 50 →
  let s := 53 - (Z.log2 n - Z.log2 m) in let q := n * 2 ^ s / m in
  2 ^ 52 ≤ q < 2 ^ 54 ∧
  float_div (exact n) (exact m) = binary_round_aux 53 1024 false q (- s) (new_location m ((n * 2 ^ s) `mod` m)).
Proof.
  intros Hn Hm Hd s q. pose proof (Z.log2_spec n Hn). pose proof (Z.log2_spec m Hm).
  pose proof (Z.log2_nonneg n). pose proof (Z.log2_nonneg m). split.
  - assert (2 ^ 52 * (m * 2 ^ Z.log2 n) ≤ n * 2 ^ s * 2 ^ Z.log2 n < 2 ^ 54 * (m * 2 ^ Z.log2 n)) as Hb.
    { assert (2 ^ 52 * 2 ^ Z.succ (Z.log2 m) = 2 ^ s * 2 ^ Z.log2 n) as E1
        by (rewrite <-!Z.pow_add_r by lia; f_equal; lia).
      assert (2 ^ 54 * 2 ^ Z.log2 m = 2 ^ s * 2 ^ Z.succ (Z.log2 n)) as E2
        by (rewrite <-!Z.pow_add_r by lia; f_equal; lia).
      rewrite Z.pow_succ_r in * by lia. nia. }
    assert (0 < 2 ^ Z.log2 n) by (apply Z.pow_pos_nonneg; lia). unfold q. split.
    + apply Z.div_le_lower_bound; nia.
    + apply Z.div_lt_upper_bound; nia.
  - unfold float_div, exact. destruct n as [|p|p], m as [|p'|p']; try lia. cbn [SFdiv xorb].
    unfold SFdiv_core_binary. rewrite !Zdigits2_log2, !Z.add_0_r, fexp_normal by lia.
    rewrite Z.min_l, Z.sub_0_r by lia.
    replace (0 - (Z.log2 (Z.pos p) + 1 - (Z.log2 (Z.pos p') + 1) - 53)) with s by (unfold s; lia).
    replace (Z.log2 (Z.pos p) + 1 - (Z.log2 (Z.pos p') + 1) - 53) with (- s) by (unfold s; lia).
    assert (0 < s) as Hs by (unfold s; lia). unfold q, Z.div, Z.modulo. clearbody s.
    destruct s as [|k|k]; try lia. rewrite Z.shiftl_mul_pow2 by lia. by destruct (Z.div_eucl _ _).
Qed.

(** Rounding moves no quotient past a whole number. *)
Lemma int_div_whole n m : 0 < n → 0 < m → -900 ≤ Z.log2 n - Z.log2 m ≤ 50 →
  ∃ x v, int_div n m = Ok x ∧ float_trunc x = Ok v ∧ 0 ≤ v ∧
    ∀ t, (n ≤ t * m → v ≤ t) ∧ (n = t * m → v = t).
Proof.
  intros Hn Hm Hd. destruct (exact_div n m Hn Hm Hd) as [Hq Hdiv].
  set (s := 53 - (Z.log2 n - Z.log2 m)) in *. set (q := n * 2 ^ s / m) in *.
  pose proof (Z.div_mod (n * 2 ^ s) m ltac:(lia)) as Hqr. fold q in Hqr.
  pose proof (Z.mod_pos_bound (n * 2 ^ s) m Hm) as Hr. set (r := (n * 2 ^ s) `mod` m) in *.
  destruct (round_quotient q (- s) (new_location m r)) as (k & z & Hk & Hnorm & Hz & Hexact & Hround);
    [done|lia|]. rewrite Hround in Hdiv. clear Hround.
  set (w := s - k). assert (0 < 2 ^ w) as Hw by (apply Z.pow_pos_nonneg; lia).
  assert (0 < 2 ^ k) as Hpk by (apply Z.pow_pos_nonneg; lia).
  assert (2 ^ s = 2 ^ w * 2 ^ k) as Hs by (rewrite <-Z.pow_add_r by lia; f_equal; lia).
  exists (if z <? 2 ^ 53 then fl z (- s + k) else fl (2 ^ 52) (- s + k + 1)), (z / 2 ^ w).
  destruct Hnorm as [Hn1 Hn2]. split_and!.
  - unfold int_div. rewrite (proj2 (Z.eqb_neq m 0)) by lia. rewrite Hdiv. by destruct (z <? 2 ^ 53).
  - replace (- s + k) with (- w) by lia. destruct (Z.ltb_spec z (2 ^ 53)); [apply trunc_fl; lia|].
    replace (- w + 1) with (- (w - 1)) by lia. rewrite trunc_fl by lia. f_equal.
    replace z with (2 ^ 52 * 2) by lia. replace (2 ^ w) with (2 ^ (w - 1) * 2); [by rewrite Z.div_mul_cancel_r by lia|].
    transitivity (2 ^ (w - 1) * 2 ^ 1); [done|]. rewrite <-Z.pow_add_r by lia. f_equal. lia.
  - apply Z.div_pos; lia.
  - intros t.
    pose proof (Z.div_mod q (2 ^ k) ltac:(lia)) as Hqk. pose proof (Z.mod_pos_bound q (2 ^ k) Hpk) as Hqm.
    assert (n = t * m → z = t * 2 ^ w) as Heq.
    { intros E. assert (q = t * 2 ^ s ∧ r = 0) as [Eq Er].
      { assert (m * q + r = m * (t * 2 ^ s)) as Er by (rewrite <-Hqr, E; ring).
        assert (q = t * 2 ^ s) by nia. split; [done|nia]. }
      assert (q / 2 ^ k = t * 2 ^ w) as Ek by (rewrite Eq, Hs, Z.mul_assoc; apply Z.div_mul; lia).
      rewrite <-Ek. apply Hexact; [rewrite Er; unfold new_location; by destruct (Z.even m)|].
      rewrite Eq, Hs, Z.mul_assoc. apply Z.mod_mul. lia. }
    split.
    + intros Hle. destruct (Z.eq_dec n (t * m)) as [E|E].
      { rewrite Heq by done. rewrite Z.div_mul by lia. done. }
      assert (q < t * 2 ^ s) by nia. assert (q / 2 ^ k < t * 2 ^ w) by nia.
      apply Z.div_le_upper_bound; [lia|]. destruct Hz; lia.
    + intros E. rewrite Heq by done. apply Z.div_mul. lia.
Qed.

(** With counts of 64 bits: a bar has between none and [width] blocks, and the
    bar of the largest count has [width]. *)
Lemma bar_bounds width c m : 0 < width ≤ 64 → 0 ≤ c ≤ m → 0 < m < 2 ^ 64 →
  ∃ n, bar_length width c m = Ok n ∧ 0 ≤ n ≤ width ∧ (c = m → n = width).
Proof.
  intros Hw Hc Hm. unfold bar_length. destruct (Z.eq_dec c 0) as [->|Hne].
  { exists 0. split; [|lia]. rewrite Z.mul_0_r. unfold int_div. rewrite (proj2 (Z.eqb_neq m 0)) by lia.
    destruct m as [|p|p]; try lia. done. }
  destruct (int_div_whole (width * c) m) as (x & v & -> & Hv & Hpos & Ht); [lia|lia|..].
  - assert (Z.log2 (width * c) ≤ Z.log2 m + 6).
    { transitivity (Z.log2 (m * 2 ^ 6)); [apply Z.log2_le_mono; nia|]. rewrite Z.log2_mul_pow2 by lia. lia. }
    pose proof (Z.log2_nonneg (width * c)). assert (Z.log2 m < 64) by (apply Z.log2_lt_pow2; lia). lia.
  - exists v. split; [exact Hv|]. destruct (Ht width) as [H1 H2].
    split; [split; [done|apply H1; nia]|]. intros ->. by apply H2.
Qed.

Lemma int_div_below c t : 0 ≤ c ≤ t → 0 < t < 2 ^ 64 → ∃ x, int_div c t = Ok x.
Proof.
  intros Hc Ht. destruct (bar_bounds 1 c t) as (n & Hn & _); [lia..|]. unfold bar_length in Hn.
  rewrite Z.mul_1_l in Hn. destruct (int_div c t) as [x|]; [by exists x|done].
Qed.
