(* ===== verification/PyDecimal.v ===== *)
(** Decimals with three places and the floats nearest to them: below [2^40]
    thousandths, reading, comparing and printing the floats is reading, comparing
    and printing the decimals. *)
From S2P Require Export PyNum.
From Stdlib Require Import SpecFloat.
Local Open Scope Z_scope.

(** ** How near the float is *)

Lemma fl_lt z1 w1 z2 w2 : normal z1 → normal z2 → 0 ≤ w1 → 0 ≤ w2 →
  float_lt (fl z1 (- w1)) (fl z2 (- w2)) = (z1 * 2 ^ w2 <? z2 * 2 ^ w1).
Proof.
  intros [H1 H1'] [H2 H2'] Hw1 Hw2. unfold float_lt, SFltb, fl. cbn [SFcompare].
  assert (0 < 2 ^ w1) by (apply Z.pow_pos_nonneg; lia). assert (0 < 2 ^ w2) by (apply Z.pow_pos_nonneg; lia).
  assert (∀ u v, 0 ≤ u < v → 2 * 2 ^ u ≤ 2 ^ v) as Hp.
  { intros u v Huv. rewrite <-Z.pow_succ_r by lia. apply Z.pow_le_mono_r; lia. }
  destruct (Z.compare_spec (- w1) (- w2)) as [E|Hlt|Hgt].
  - assert (w1 = w2) as <- by lia.
    change (Pos.compare_cont Eq (Z.to_pos z1) (Z.to_pos z2)) with (Pos.compare (Z.to_pos z1) (Z.to_pos z2)).
    assert (Pos.compare (Z.to_pos z1) (Z.to_pos z2) = (z1 ?= z2)) as ->
      by (rewrite <-(Z2Pos.id z1), <-(Z2Pos.id z2) at 2 by lia; done).
    destruct (Z.compare_spec z1 z2), (Z.ltb_spec (z1 * 2 ^ w1) (z2 * 2 ^ w1)); try done; nia.
  - pose proof (Hp w2 w1 ltac:(lia)). symmetry. apply Z.ltb_lt. nia.
  - pose proof (Hp w1 w2 ltac:(lia)). symmetry. apply Z.ltb_ge. nia.
Qed.

(** The sign goes around the rounding. *)
Lemma float_div_neg a b : 0 < a → 0 < b → float_div (exact (- a)) (exact b) = SFopp (float_div (exact a) (exact b)).
Proof.
  intros Ha Hb. destruct a as [|p|p], b as [|p'|p']; try lia. change (- Z.pos p) with (Z.neg p).
  unfold float_div, exact. cbn [SFdiv xorb].
  destruct (SFdiv_core_binary _ _ _ _ _ _) as [[q e] l]. unfold binary_round_aux.
  destruct (shr_fexp _ _ _ _ _) as [r1 e1]. destruct (shr_fexp _ _ _ _ _) as [r2 e2].
  destruct (shr_m r2); [done| |done]. by destruct (_ <=? _).
Qed.

(** The float of [n / 1000] and how near it is. *)
Lemma decimal_near n : 0 < n < 2 ^ 40 →
  ∃ z w, decimal false n (-3) = fl z (- w) ∧ normal z ∧ 21 ≤ w ∧ - 1000 ≤ z * 1000 - n * 2 ^ w ≤ 1000.
Proof.
  intros Hn. assert (0 ≤ Z.log2 n < 40) as Hlog by (split; [apply Z.log2_nonneg|apply Z.log2_lt_pow2; lia]).
  destruct (exact_div n 1000) as [Hq Hdiv]; [lia|lia|change (Z.log2 1000) with 9; lia|].
  change (Z.log2 1000) with 9 in *. set (s := 53 - (Z.log2 n - 9)) in *. set (q := n * 2 ^ s / 1000) in *.
  pose proof (Z.div_mod (n * 2 ^ s) 1000 ltac:(lia)) as Hqr. fold q in Hqr.
  pose proof (Z.mod_pos_bound (n * 2 ^ s) 1000 ltac:(lia)) as Hr. set (r := (n * 2 ^ s) `mod` 1000) in *.
  destruct (round_quotient q (- s) (new_location 1000 r)) as (k & z & Hk & Hn' & Hz & _ & Hround); [done|lia|].
  unfold decimal. rewrite (proj2 (Z.eqb_neq n 0)) by lia. change (0 <=? -3) with false. cbv iota zeta.
  rewrite Z.mul_1_l. change (10 ^ (- -3)) with 1000. rewrite Hdiv, Hround. destruct Hn' as [Hn1 Hn2].
  set (w := s - k). assert (0 < 2 ^ k) by (apply Z.pow_pos_nonneg; lia).
  assert (2 ^ s = 2 ^ w * 2 ^ k) as Hs by (rewrite <-Z.pow_add_r by lia; f_equal; lia).
  pose proof (Z.div_mod q (2 ^ k) ltac:(lia)) as Hqk. pose proof (Z.mod_pos_bound q (2 ^ k) ltac:(lia)) as Hqm.
  assert (- 1000 ≤ z * 1000 - n * 2 ^ w ≤ 1000) as Hnear.
  { rewrite Hs in Hqr. assert (2 ^ k = 1 ∨ 2 ^ k = 2) as Hk2 by (destruct Hk as [-> | ->]; auto).
    destruct Hk2 as [E|E]; rewrite E in *; lia. }
  destruct (Z.ltb_spec z (2 ^ 53)) as [Hlt|Hge].
  - exists z, w. split; [f_equal; lia|]. split; [unfold normal; lia|]. split; [lia|done].
  - exists (2 ^ 52), (w - 1). split; [f_equal; lia|]. split; [unfold normal; lia|]. split; [lia|].
    assert (2 ^ w = 2 * 2 ^ (w - 1)) as Hw by (rewrite <-Z.pow_succ_r by lia; f_equal; lia).
    rewrite Hw in Hnear. assert (z = 2 ^ 53) by lia. lia.
Qed.

(** The decimal [n / 1000] as a float. *)
Definition thousandths (n : Z) : pyfloat := decimal (n <? 0) (Z.abs n) (-3).

Lemma thousandths_neg n : 0 < n → thousandths (- n) = SFopp (thousandths n).
Proof.
  intros Hn. unfold thousandths. rewrite (proj2 (Z.ltb_lt (- n) 0)), (proj2 (Z.ltb_ge n 0)), Z.abs_opp, Z.abs_eq by lia.
  unfold decimal. rewrite (proj2 (Z.eqb_neq n 0)) by lia. change (0 <=? -3) with false. cbv iota zeta.
  rewrite Z.mul_1_l. replace (-1 * n) with (- n) by lia. by apply float_div_neg.
Qed.

Lemma thousandths_pos n : 0 < n → thousandths n = decimal false n (-3).
Proof. intros Hn. unfold thousandths. by rewrite (proj2 (Z.ltb_ge n 0)), Z.abs_eq by lia. Qed.

Lemma thousandths_lt_pos a b : 0 < a < 2 ^ 40 → 0 < b < 2 ^ 40 →
  float_lt (thousandths a) (thousandths b) = (a <? b).
Proof.
  intros Ha Hb. rewrite !thousandths_pos by lia.
  destruct (decimal_near a Ha) as (z1 & w1 & E1 & Hz1 & Hw1 & H1).
  destruct (Z.eq_dec a b) as [<-|Hne].
  { rewrite E1, fl_lt by (done || lia). by rewrite !Z.ltb_irrefl. }
  destruct (decimal_near b Hb) as (z2 & w2 & E2 & Hz2 & Hw2 & H2).
  rewrite E1, E2, fl_lt by (done || lia).
  assert (2 ^ 21 ≤ 2 ^ w1) by (apply Z.pow_le_mono_r; lia). assert (2 ^ 21 ≤ 2 ^ w2) by (apply Z.pow_le_mono_r; lia).
  set (p1 := 2 ^ w1) in *. set (p2 := 2 ^ w2) in *. assert (1000 * (p1 + p2) < p1 * p2) by nia.
  destruct (Z.ltb_spec a b) as [Hlt|Hge]; [apply Z.ltb_lt|apply Z.ltb_ge].
  - assert (p1 * p2 ≤ (b - a) * (p1 * p2)) by nia.
    assert (z1 * 1000 * p2 ≤ (a * p1 + 1000) * p2) by nia. assert ((b * p2 - 1000) * p1 ≤ z2 * 1000 * p1) by nia. lia.
  - assert (p1 * p2 ≤ (a - b) * (p1 * p2)) by nia.
    assert (z2 * 1000 * p1 ≤ (b * p2 + 1000) * p1) by nia. assert ((a * p1 - 1000) * p2 ≤ z1 * 1000 * p2) by nia. lia.
Qed.

Lemma opp_lt x y z w : float_lt (SFopp (fl x z)) (SFopp (fl y w)) = float_lt (fl y w) (fl x z).
Proof.
  unfold float_lt, SFltb, fl. cbn [SFopp SFcompare negb].
  rewrite (Z.compare_antisym z w). destruct (z ?= w); cbn [CompOpp]; [|done..].
  change (Pos.compare_cont Eq (Z.to_pos x) (Z.to_pos y)) with (Pos.compare (Z.to_pos x) (Z.to_pos y)).
  change (Pos.compare_cont Eq (Z.to_pos y) (Z.to_pos x)) with (Pos.compare (Z.to_pos y) (Z.to_pos x)).
  rewrite (Pos.compare_antisym (Z.to_pos x) (Z.to_pos y)). by destruct (Pos.compare (Z.to_pos x) (Z.to_pos y)).
Qed.

(** Comparing the floats compares the decimals. *)
Lemma thousandths_lt a b : Z.abs a < 2 ^ 40 → Z.abs b < 2 ^ 40 →
  float_lt (thousandths a) (thousandths b) = (a <? b).
Proof.
  intros Ha Hb.
  assert (∀ n, 0 < n < 2 ^ 40 → ∃ z w, thousandths n = fl z w ∧ thousandths (- n) = SFopp (fl z w)) as Hfl.
  { intros n Hn. destruct (decimal_near n Hn) as (z & w & E & _). exists z, (- w).
    by rewrite thousandths_neg, thousandths_pos, E by lia. }
  destruct (Z.lt_total a 0) as [Ha0|[->|Ha0]], (Z.lt_total b 0) as [Hb0|[->|Hb0]]; try done.
  - destruct (Hfl (- a)) as (z & w & E1 & E2), (Hfl (- b)) as (z' & w' & E3 & E4); [lia..|].
    rewrite Z.opp_involutive in E2, E4. rewrite E2, E4, opp_lt, <-E1, <-E3, thousandths_lt_pos by lia.
    destruct (Z.ltb_spec (- b) (- a)), (Z.ltb_spec a b); (done || lia).
  - destruct (Hfl (- a)) as (z & w & E1 & E2); [lia|]. rewrite Z.opp_involutive in E2. rewrite E2, (proj2 (Z.ltb_lt _ _)); done.
  - destruct (Hfl (- a)) as (z & w & E1 & E2), (Hfl b) as (z' & w' & E3 & E4); [lia..|].
    rewrite Z.opp_involutive in E2. rewrite E2, E3, (proj2 (Z.ltb_lt _ _)) by lia. done.
  - destruct (Hfl (- b)) as (z & w & E1 & E2); [lia|]. rewrite Z.opp_involutive in E2. rewrite E2, (proj2 (Z.ltb_ge _ _)) by lia. done.
  - destruct (Hfl b) as (z & w & E1 & E2); [lia|]. rewrite E1, (proj2 (Z.ltb_lt _ _)); done.
  - destruct (Hfl a) as (z & w & E1 & E2), (Hfl (- b)) as (z' & w' & E3 & E4); [lia..|].
    rewrite Z.opp_involutive in E4. rewrite E1, E4, (proj2 (Z.ltb_ge _ _)) by lia. done.
  - destruct (Hfl a) as (z & w & E1 & E2); [lia|]. rewrite E1, (proj2 (Z.ltb_ge _ _)) by lia. done.
  - by apply thousandths_lt_pos; lia.
Qed.

(** Printing the float prints the decimal. *)
Lemma round_half_even_near num den n : 0 < den → - den < 2 * (num - n * den) < den → round_half_even num den = n.
Proof.
  intros Hd Hn. unfold round_half_even. pose proof (Z.div_mod num den ltac:(lia)) as Hdm.
  pose proof (Z.mod_pos_bound num den Hd) as Hm. set (q := num / den) in *. set (r := num `mod` den) in *.
  assert (q = n ∨ q = n - 1) as [E|E] by nia.
  - rewrite E in Hdm. destruct (Z.compare_spec (2 * r) den); [nia|done|nia].
  - rewrite E in Hdm. destruct (Z.compare_spec (2 * r) den); [nia|nia|lia].
Qed.

Lemma fmt_thousandths n : Z.abs n < 2 ^ 40 →
  fmt_signed 3 (thousandths n) = (if n <? 0 then "-" else "+") +:+ fmt_scaled 3 (Z.abs n).
Proof.
  intros Hn. destruct (Z.eq_dec n 0) as [->|Hne]; [done|].
  destruct (decimal_near (Z.abs n)) as (z & w & E & [Hz1 Hz2] & Hw & Hd); [lia|].
  assert (round_half_even (Z.pos (Z.to_pos z) * 2 ^ Z.max (- w) 0 * 10 ^ Z.of_nat 3) (2 ^ Z.max (- - w) 0) = Z.abs n) as Hr.
  { rewrite Z2Pos.id, Z.opp_involutive, Z.max_r, Z.max_l by lia. change (10 ^ Z.of_nat 3) with 1000. rewrite Z.pow_0_r, Z.mul_1_r.
    assert (2 ^ 21 ≤ 2 ^ w) by (apply Z.pow_le_mono_r; lia). apply round_half_even_near; lia. }
  destruct (Z.ltb_spec n 0) as [Hlt|Hge].
  - assert (thousandths n = SFopp (fl z (- w))) as ->.
    { rewrite <-(Z.opp_involutive n), thousandths_neg, thousandths_pos by lia. rewrite Z.abs_neq in E by lia. by rewrite E. }
    unfold fmt_signed, fmt_fixed, fl. cbn [SFopp negb]. by rewrite Hr.
  - assert (thousandths n = fl z (- w)) as ->.
    { rewrite thousandths_pos by lia. rewrite Z.abs_eq in E by lia. done. }
    unfold fmt_signed, fmt_fixed, fl. by rewrite Hr.
Qed.

(** ** A decimal in text is read as its float *)

Definition thousandths_text (n : Z) : string := (if n <? 0 then "-" else "") +:+ fmt_scaled 3 (Z.abs n).

Definition dec_digit (d : Z) : Ascii.ascii := Ascii.ascii_of_N (Z.to_N (48 + d)).
Definition three_digits (r : Z) : string :=
  String (dec_digit (r / 100)) (String (dec_digit ((r / 10) `mod` 10)) (String (dec_digit (r `mod` 10)) "")).

Lemma zero_pad_three r : 0 ≤ r < 1000 → zero_pad 3 (str_Z r) = three_digits r.
Proof.
  intros Hr. assert (forallb (λ n, String.eqb (zero_pad 3 (str_Z (Z.of_nat n))) (three_digits (Z.of_nat n))) (seq 0 1000) = true) as H
    by (vm_compute; reflexivity).
  rewrite forallb_forall in H. specialize (H (Z.to_nat r)). cbv beta in H. rewrite Z2Nat.id in H by lia.
  apply (proj1 (String.eqb_eq _ _)), H, in_seq. lia.
Qed.

Lemma dec_digit_spec d : 0 ≤ d < 10 → code (dec_digit d) = 48 + d.
Proof. intros Hd. assert (d = 0 ∨ d = 1 ∨ d = 2 ∨ d = 3 ∨ d = 4 ∨ d = 5 ∨ d = 6 ∨ d = 7 ∨ d = 8 ∨ d = 9) as H by lia.
  repeat destruct H as [->|H]; try done. by subst. Qed.

Lemma three_digits_all r : 0 ≤ r < 1000 → str_all is_digit (three_digits r) = true.
Proof.
  intros Hr. unfold three_digits, is_digit. cbn [str_all].
  rewrite !dec_digit_spec by (try apply Z.mod_pos_bound; try split; try apply Z.div_pos; try apply Z.div_lt_upper_bound; lia).
  pose proof (Z.mod_pos_bound r 10). pose proof (Z.mod_pos_bound (r / 10) 10).
  assert (0 ≤ r / 100 < 10) by (split; [apply Z.div_pos|apply Z.div_lt_upper_bound]; lia). lia.
Qed.

Lemma three_digits_value a r : 0 ≤ r < 1000 → int_digits false a (three_digits r) = Some (a * 1000 + r).
Proof.
  intros Hr. unfold three_digits. cbn [int_digits].
  pose proof (Z.mod_pos_bound r 10). pose proof (Z.mod_pos_bound (r / 10) 10).
  assert (0 ≤ r / 100 < 10) by (split; [apply Z.div_pos|apply Z.div_lt_upper_bound]; lia).
  rewrite !dec_digit_spec by lia.
  assert (∀ d, 0 ≤ d < 10 → (0 <=? 48 + d - 48) && (48 + d - 48 <=? 9) = true) as H2 by lia.
  rewrite !H2 by lia. f_equal.
  pose proof (Z.div_mod r 10 ltac:(lia)). pose proof (Z.div_mod (r / 10) 10 ltac:(lia)) as Hq.
  rewrite Z.div_div in Hq by lia. change (10 * 10) with 100 in Hq. lia.
Qed.

Lemma span_digits_app d t : str_all is_digit d = true →
  match t with "" => True | String c _ => is_digit c = false end → span_digits (d +:+ t) = (d, t).
Proof.
  intros Hd Ht. induction d as [|c d IH]; [destruct t as [|c t]; [done|]; rewrite str_app_nil_l; cbn; by rewrite Ht|].
  cbn [str_all] in Hd. apply andb_true_iff in Hd as [Hc Hd]. rewrite str_app_cons. cbn [span_digits].
  rewrite Hc. by rewrite IH.
Qed.

Lemma drop_underscores_none b s : no_char "_" s → drop_underscores b s = Some s.
Proof.
  unfold no_char. revert b. induction s as [|c s IH]; intros b; [done|]. cbn [str_all]. intros [Hc Hs]%andb_true_iff.
  apply negb_true_iff in Hc. cbn [drop_underscores]. rewrite IH by done.
  destruct c as [[] [] [] [] [] [] [] []]; done.
Qed.

(** The number without its sign. *)
Lemma unsigned_thousandths b n : 0 ≤ n → unsigned_float b (fmt_scaled 3 n) = Some (decimal b n (-3)).
Proof.
  intros Hn. unfold fmt_scaled. change (10 ^ Z.of_nat 3) with 1000. cbn [Nat.eqb].
  pose proof (Z.mod_pos_bound n 1000 ltac:(lia)) as Hr. rewrite zero_pad_three by done.
  assert (0 ≤ n / 1000) as Hq by (apply Z.div_pos; lia).
  pose proof (str_Z_digits (n / 1000) Hq) as Hd. pose proof (int_digits_str_Z (n / 1000) Hq) as Hv.
  set (w := str_Z (n / 1000)) in *. set (f := three_digits (n `mod` 1000)) in *.
  assert (w ≠ "") as Hw by apply str_Z_nonempty.
  assert (∀ c t, w = String c t → lower_char c = c ∧ is_digit c = true) as Hhead.
  { intros c t E. rewrite E in Hd. cbn [str_all] in Hd. apply andb_true_iff in Hd as [Hc _]. split; [|done].
    unfold is_digit in Hc. unfold lower_char. destruct (65 <=? code c) eqn:E1; [lia|done]. }
  unfold unsigned_float. rewrite (span_digits_app w) by done.
  change ("." +:+ f) with (String "." f). cbv iota.
  assert (span_digits f = (f, "")) as ->
    by (rewrite <-(str_app_nil_r f) at 1; apply span_digits_app; [by apply three_digits_all|done]).
  assert (String.eqb (w +:+ f) "" = false) as -> by by destruct w.
  assert (String.eqb (lower (w +:+ String "." f)) "inf" = false ∧ String.eqb (lower (w +:+ String "." f)) "infinity" = false
    ∧ String.eqb (lower (w +:+ String "." f)) "nan" = false) as (-> & -> & ->).
  { destruct w as [|c t] eqn:Ew; [done|]. destruct (Hhead c t eq_refl) as [Hl Hc]. rewrite str_app_cons. cbn [lower].
    rewrite Hl. cbn [String.eqb].
    destruct (Ascii.eqb_spec c "i") as [->|_]; [done|]. by destruct (Ascii.eqb_spec c "n") as [->|_]. }
  cbn [orb exponent fmap option_fmap option_map]. f_equal. f_equal.
  unfold digits_value. rewrite (int_digits_app true 0 w f (n / 1000)) by done.
  unfold f. rewrite three_digits_value by done. pose proof (Z.div_mod n 1000 ltac:(lia)). cbn [default from_option id]. lia.
Qed.

Lemma fmt_scaled_digit n : 0 ≤ n → ∃ c t, fmt_scaled 3 n = String c t ∧ is_digit c = true.
Proof.
  intros Hn. unfold fmt_scaled. change (10 ^ Z.of_nat 3) with 1000.
  assert (0 ≤ n / 1000) as Hq by (apply Z.div_pos; lia). pose proof (str_Z_digits (n / 1000) Hq) as Hd.
  pose proof (str_Z_nonempty (n / 1000)). destruct (str_Z (n / 1000)) as [|c t]; [done|].
  cbn [str_all] in Hd. apply andb_true_iff in Hd as [Hc _]. rewrite str_app_cons. by eexists c, _.
Qed.

(** The characters of a decimal. *)
Definition decimal_char (c : Ascii.ascii) : bool := is_digit c || Ascii.eqb c "." || Ascii.eqb c "-".
Lemma thousandths_chars n : str_all decimal_char (thousandths_text n) = true.
Proof.
  unfold thousandths_text, fmt_scaled. change (10 ^ Z.of_nat 3) with 1000. cbn [Nat.eqb].
  pose proof (Z.mod_pos_bound (Z.abs n) 1000 ltac:(lia)) as Hr. rewrite zero_pad_three by done.
  assert (∀ c, is_digit c = true → decimal_char c = true) as Hc by (intros c H; unfold decimal_char; by rewrite H).
  rewrite !str_all_app, !andb_true_iff. split_and!.
  - by destruct (n <? 0).
  - eapply str_all_impl; [exact Hc|]. apply str_Z_digits, Z.div_pos; lia.
  - done.
  - eapply str_all_impl; [exact Hc|]. by apply three_digits_all.
Qed.

Theorem py_float_thousandths n : py_float (thousandths_text n) = Ok (thousandths n).
Proof.
  pose proof (thousandths_chars n) as Hch.
  assert (no_space (thousandths_text n) = true) as Hs by (revert Hch; apply str_all_ascii; vm_compute; reflexivity).
  assert (no_char "_" (thousandths_text n)) as Hu by (revert Hch; apply str_all_ascii; vm_compute; reflexivity).
  destruct (fmt_scaled_digit (Z.abs n)) as (c & t & E & Hc); [lia|].
  pose proof (unsigned_thousandths (n <? 0) (Z.abs n) ltac:(lia)) as Hf. rewrite E in Hf.
  assert (thousandths_text n = (if n <? 0 then "-" else "") +:+ String c t) as Ht by (unfold thousandths_text; by rewrite E).
  unfold py_float. rewrite strip_solid, drop_underscores_none; [|done|..].
  - cbn [mbind option_bind]. rewrite Ht. unfold thousandths. revert Hf. destruct (n <? 0); intros Hf.
    { change ("-" +:+ String c t) with (String "-" (String c t)). cbv beta iota. by rewrite Hf. }
    rewrite str_app_nil_l. destruct c as [[] [] [] [] [] [] [] []]; try done; by rewrite Hf.
  - rewrite Ht in *. destruct (n <? 0); [done|]. unfold no_space in Hs.
    rewrite str_app_nil_l in *. cbn [str_all starts_solid] in *. by apply andb_true_iff in Hs as [? _].
  - apply ends_solid_nonspace; [rewrite Ht; by destruct (n <? 0)|done].
Qed.
