(* ===== verification/PyJson.v ===== *)
(** [json.loads], the scanner of CPython's [_json] module: where it stops and
    what it raises there, strings as lists of code points, objects as
    dictionaries in which a repeated key keeps its place and takes the last
    value.  [spells] is the grammar of JSON; every text it derives is read as
    the value it spells. *)
From S2P Require Export PyDecimal PyDict.
From Stdlib Require Import SpecFloat.
Local Open Scope Z_scope.

#[warnings="-register-all"]
Inductive json :=
  | JNull
  | JBool (b : bool)
  | JInt (z : Z)
  | JFloat (x : pyfloat)
  | JStr (s : list Z)                       (** code points *)
  | JArr (l : list json)
  | JObj (d : list (list Z * json)).

(** The code points of a text. *)
Fixpoint codes (s : string) : list Z :=
  match s with "" => [] | String c t => code c :: codes t end.

Definition quote : Ascii.ascii := "034".

(** ** White space and escapes *)

(** [[ \t\n\r]] *)
Definition json_ws (c : Ascii.ascii) : bool :=
  Ascii.eqb c " " || Ascii.eqb c "009" || Ascii.eqb c "010" || Ascii.eqb c "013".
Fixpoint skip_ws (s : string) : string :=
  match s with String c t => if json_ws c then skip_ws t else s | "" => "" end.

(** What the letter after a backslash stands for. *)
Definition escape_char (c : Ascii.ascii) : option Z :=
  if Ascii.eqb c quote then Some 34
  else if Ascii.eqb c "\" then Some 92
  else if Ascii.eqb c "/" then Some 47
  else if Ascii.eqb c "b" then Some 8
  else if Ascii.eqb c "f" then Some 12
  else if Ascii.eqb c "n" then Some 10
  else if Ascii.eqb c "r" then Some 13
  else if Ascii.eqb c "t" then Some 9
  else None.

Definition hex4 (a b c d : Ascii.ascii) : option Z :=
  hex_value_from 0 (String a (String b (String c (String d "")))).

Definition high_surrogate (u : Z) : bool := (55296 <=? u) && (u <=? 56319).
Definition low_surrogate (u : Z) : bool := (56320 <=? u) && (u <=? 57343).
Definition join_surrogates (u v : Z) : Z := 65536 + 1024 * (u - 55296) + (v - 56320).

(** A character in front of what was scanned. *)
Definition push (c : Z) (m : res (list Z * string)) : res (list Z * string) :=
  '(l, r) ← m; Ok (c :: l, r).

(** The rest, when the next character is [c]. *)
Definition after (c : Ascii.ascii) (s : string) : option string :=
  match s with String d t => if Ascii.eqb d c then Some t else None | "" => None end.

(** ** The scanner *)

Section scanner.
(** The length of the document: a position in it is known by what is left. *)
Variable len : nat.
Definition position (s : string) : Z := Z.of_nat len - Z.of_nat (String.length s).
Definition fail {A} (msg : string) (s : string) : res A := Raise (JSONDecodeError msg (position s)).

(** [scanstring_unicode] with [strict]: the characters of a string up to its
    closing quote; [start] is the text at the opening one. *)
Fixpoint scan_string (start s : string) : res (list Z * string) :=
  match s with
  | "" => fail "Unterminated string starting at" start
  | String c t =>
      if Ascii.eqb c quote then Ok ([], t)
      else if Ascii.eqb c "\" then
        match t with
        | "" => fail "Unterminated string starting at" start
        | String e t1 =>
            if Ascii.eqb e "u" then
              match t1 with
              | String h1 (String h2 (String h3 (String h4 (String _ _ as t2)))) =>
                  match hex4 h1 h2 h3 h4 with
                  | None => fail "Invalid \uXXXX escape" t
                  | Some u =>
                      match t2 with
                      | String b (String v (String k1 (String k2 (String k3 (String k4 (String _ _ as t3)))))) =>
                          if high_surrogate u && Ascii.eqb b "\" && Ascii.eqb v "u" then
                            match hex4 k1 k2 k3 k4 with
                            | None => fail "Invalid \uXXXX escape" (str_drop 1 t2)
                            | Some w =>
                                if low_surrogate w then push (join_surrogates u w) (scan_string start t3)
                                else push u (scan_string start t2)
                            end
                          else push u (scan_string start t2)
                      | _ => push u (scan_string start t2)
                      end
                  end
              | _ => fail "Invalid \uXXXX escape" t
              end
            else
              match escape_char e with
              | Some z => push z (scan_string start t1)
              | None => fail "Invalid \escape" s
              end
        end
      else if code c <=? 31 then fail "Invalid control character at" s
      else push (code c) (scan_string start t)
  end.

(** The fraction of a number, if a digit follows the point. *)
Definition scan_frac (s : string) : string * string :=
  match s with
  | String "." t => match span_digits t with ("", _) => ("", s) | (d, r) => (String "." d, r) end
  | _ => ("", s)
  end.

(** The exponent, if it has a digit. *)
Definition scan_exp (s : string) : string * string :=
  match s with
  | String c t =>
      if Ascii.eqb c "e" || Ascii.eqb c "E" then
        let '(sign, t) := match t with
                          | String "-" u => ("-", u)
                          | String "+" u => ("+", u)
                          | _ => ("", t)
                          end in
        match span_digits t with ("", _) => ("", s) | (d, r) => (String c (sign +:+ d), r) end
      else ("", s)
  | "" => ("", s)
  end.

(** The integer part: [0], or digits that do not start with it. *)
Definition scan_whole (s : string) : string * string :=
  match s with String "0" t => ("0", t) | _ => span_digits s end.

(** [_match_number_unicode] *)
Definition scan_number (s : string) : res (json * string) :=
  let '(sign, t) := match s with String "-" t => ("-", t) | _ => ("", s) end in
  let '(whole, t) := scan_whole t in
  if String.eqb whole "" then fail "Expecting value" s
  else
    let '(frac, t) := scan_frac t in
    let '(ex, t) := scan_exp t in
    if String.eqb (frac +:+ ex) "" then z ← py_int (sign +:+ whole); Ok (JInt z, t)
    else x ← py_float (sign +:+ whole +:+ frac +:+ ex); Ok (JFloat x, t).

(** The words that stand for values. *)
Definition json_words : list (string * json) :=
  [("null", JNull); ("true", JBool true); ("false", JBool false); ("NaN", JFloat S754_nan);
   ("Infinity", JFloat (S754_infinity false)); ("-Infinity", JFloat (S754_infinity true))].
Definition scan_word (s : string) : option (json * string) :=
  '(w, v) ← head (filter (λ p, starts_with p.1 s = true) json_words); Some (v, str_drop (String.length w) s).

(** [scan_once_unicode], [_parse_object_unicode] and [_parse_array_unicode] after
    the bracket and white space.  Every turn but one from an array to its first
    element uses a character. *)
Fixpoint scan_once (n : nat) (s : string) : res (json * string) :=
  match n with
  | O => Raise NoProgress
  | S n =>
      match s with
      | "" => fail "Expecting value" s
      | String c t =>
          if Ascii.eqb c quote then '(k, r) ← scan_string s t; Ok (JStr k, r)
          else if Ascii.eqb c "{" then
            match after "}" (skip_ws t) with
            | Some r => Ok (JObj [], r)
            | None => scan_members n [] (skip_ws t)
            end
          else if Ascii.eqb c "[" then
            match after "]" (skip_ws t) with
            | Some r => Ok (JArr [], r)
            | None => scan_elements n [] (skip_ws t)
            end
          else match scan_word s with Some vr => Ok vr | None => scan_number s end
      end
  end
with scan_members (n : nat) (d : list (list Z * json)) (s : string) : res (json * string) :=
  match n with
  | O => Raise NoProgress
  | S n =>
      match after quote s with
      | None => fail "Expecting property name enclosed in double quotes" s
      | Some t =>
          '(k, r) ← scan_string s t;
          match after ":" (skip_ws r) with
          | None => fail "Expecting ':' delimiter" (skip_ws r)
          | Some r =>
              '(v, r) ← scan_once n (skip_ws r);
              let r := skip_ws r in
              match after "}" r with
              | Some r => Ok (JObj (dict_set k v d), r)
              | None =>
                  match after "," r with
                  | Some r => scan_members n (dict_set k v d) (skip_ws r)
                  | None => fail "Expecting ',' delimiter" r
                  end
              end
          end
      end
  end
with scan_elements (n : nat) (l : list json) (s : string) : res (json * string) :=
  match n with
  | O => Raise NoProgress
  | S n =>
      '(v, r) ← scan_once n s;
      let r := skip_ws r in
      match after "]" r with
      | Some r => Ok (JArr (l ++ [v]), r)
      | None =>
          match after "," r with
          | Some r => scan_elements n (l ++ [v]) (skip_ws r)
          | None => fail "Expecting ',' delimiter" r
          end
      end
  end.
End scanner.

(** [json.loads(s)] *)
Definition loads (s : string) : res json :=
  let len := String.length s in
  '(v, r) ← scan_once len (2 * len + 1) (skip_ws s);
  match skip_ws r with "" => Ok v | r => fail len "Extra data" r end.

(** ** Numbers are read *)

Lemma span_digits_spec s :
  let '(d, r) := span_digits s in
  s = d +:+ r ∧ str_all is_digit d = true ∧ match r with "" => True | String c _ => is_digit c = false end.
Proof.
  induction s as [|c s IH]; [done|]. cbn [span_digits]. destruct (is_digit c) eqn:Hc; [|done].
  destruct (span_digits s) as [d r]. destruct IH as (-> & Hd & Hr). split_and!; [done| |done].
  cbn [str_all]. by rewrite Hc.
Qed.

(** Digits, at least one. *)
Definition digits (d : string) : Prop := d ≠ "" ∧ str_all is_digit d = true.
Definition fraction (f : string) : Prop := f = "" ∨ ∃ d, f = String "." d ∧ digits d.
Definition exponential (e : string) : Prop :=
  e = "" ∨ ∃ c sign d, e = String c (sign +:+ d) ∧ c ∈ ["e"%char; "E"%char] ∧ sign ∈ [""; "-"; "+"] ∧ digits d.

Lemma scan_frac_spec s : s = (scan_frac s).1 +:+ (scan_frac s).2 ∧ fraction (scan_frac s).1.
Proof.
  unfold scan_frac. destruct s as [|c t]; [split; [done|by left]|].
  destruct (Ascii.eqb_spec c ".") as [->|Hc].
  - pose proof (span_digits_spec t) as H. destruct (span_digits t) as [[|d0 d] r]; [split; [done|by left]|].
    destruct H as (-> & Hd & _). split; [done|]. right. by exists (String d0 d).
  - rewrite <-Ascii.eqb_neq in Hc.
    destruct c as [[] [] [] [] [] [] [] []]; try discriminate Hc; (split; [done|by left]).
Qed.

Lemma scan_exp_spec s : s = (scan_exp s).1 +:+ (scan_exp s).2 ∧ exponential (scan_exp s).1.
Proof.
  unfold scan_exp. destruct s as [|c t]; [split; [done|by left]|].
  destruct (Ascii.eqb c "e" || Ascii.eqb c "E") eqn:Hc; [|split; [done|by left]].
  assert (c ∈ ["e"%char; "E"%char]) as Hin.
  { apply orb_true_iff in Hc as [->%Ascii.eqb_eq| ->%Ascii.eqb_eq]; set_solver. }
  assert (∃ sign u, t = sign +:+ u ∧ sign ∈ [""; "-"; "+"] ∧
    match t with String "-" u => ("-", u) | String "+" u => ("+", u) | _ => ("", t) end = (sign, u)) as (sign & u & -> & Hs & ->).
  { destruct t as [|d t]; [exists "", ""; set_solver|].
    destruct (Ascii.eqb_spec d "-") as [->|H1]; [exists "-", t; set_solver|].
    destruct (Ascii.eqb_spec d "+") as [->|H2]; [exists "+", t; set_solver|].
    exists "", (String d t). split; [done|]. split; [set_solver|]. rewrite <-Ascii.eqb_neq in H1, H2.
    destruct d as [[] [] [] [] [] [] [] []]; try discriminate H1; try discriminate H2; done. }
  pose proof (span_digits_spec u) as H. destruct (span_digits u) as [[|d0 d] r]; [split; [done|by left]|].
  destruct H as (-> & Hd & _). cbn [fst snd]. split; [by rewrite !str_app_cons, str_app_assoc|].
  right. exists c, sign, (String d0 d). by split_and!.
Qed.

Lemma digit_not_e c : is_digit c = true → c ≠ "e"%char ∧ c ≠ "E"%char ∧ c ≠ "."%char.
Proof. intros H. split_and!; intros ->; done. Qed.

Lemma exponent_read e : exponential e → ∃ z, exponent e = Some z.
Proof.
  intros [->|(c & sign & d & -> & Hc & Hs & Hne & Hd)]; [by exists 0|].
  assert (span_digits d = (d, "")) as Hsp by (rewrite <-(str_app_nil_r d) at 1; by apply span_digits_app).
  destruct d as [|d0 d]; [done|].
  assert (d0 ≠ "-"%char ∧ d0 ≠ "+"%char) as [H1 H2].
  { cbn [str_all] in Hd. apply andb_true_iff in Hd as [Hd _]. by split; intros ->. }
  unfold exponent. rewrite <-Ascii.eqb_neq in H1, H2.
  repeat (apply elem_of_cons in Hc as [->|Hc]); [..|by apply elem_of_nil in Hc];
    (repeat (apply elem_of_cons in Hs as [->|Hs]); [..|by apply elem_of_nil in Hs]);
    rewrite ?str_app_cons, ?str_app_nil_l; try (rewrite Hsp; by eexists);
    (destruct d0 as [[] [] [] [] [] [] [] []]; try discriminate H1; try discriminate H2; rewrite Hsp; by eexists).
Qed.

Lemma unsigned_float_number b w f e :
  digits w → fraction f → exponential e → ∃ x, unsigned_float b (w +:+ f +:+ e) = Some x.
Proof.
  intros [Hw1 Hw2] Hf He. unfold unsigned_float.
  destruct w as [|c w]; [done|]. pose proof Hw2 as Hcw. cbn [str_all] in Hcw. apply andb_true_iff in Hcw as [Hc _].
  assert (∀ t, lower (String c t) = String c (lower t)) as Hl.
  { intros t. cbn [lower]. f_equal. unfold lower_char. unfold is_digit in Hc.
    assert ((65 <=? code c) && (code c <=? 90) = false) as -> by lia. done. }
  assert (∀ t u d, is_digit d = false → String.eqb (lower (String c t)) (String d u) = false) as Hneq.
  { intros t u d Hd. apply String.eqb_neq. rewrite Hl. intros [= -> _]. by rewrite Hc in Hd. }
  rewrite !str_app_cons, !Hneq by done. cbn [orb]. rewrite <-!str_app_cons.
  assert (match f +:+ e with "" => True | String c _ => is_digit c = false end) as Hsep.
  { destruct Hf as [->|(d & -> & _)]; [|done]. rewrite str_app_nil_l.
    destruct He as [->|(c' & s & d & -> & Hc' & _)]; [done|]. revert Hc'. rewrite !elem_of_cons, elem_of_nil. by intros [->|[->|[]]]. }
  rewrite (span_digits_app (String c w)) by done.
  destruct (exponent_read e He) as (z & Hz).
  assert (match e with "" => True | String c _ => is_digit c = false end) as Hsep'.
  { destruct He as [->|(c' & s & d & -> & Hc' & _)]; [done|]. revert Hc'. rewrite !elem_of_cons, elem_of_nil. by intros [->|[->|[]]]. }
  destruct Hf as [->|(d & -> & Hd1 & Hd2)].
  - rewrite str_app_nil_l. assert (match e with String "." t => span_digits t | _ => ("", e) end = ("", e)) as ->.
    { destruct He as [->|(c' & s & d & -> & Hc' & _)]; [done|]. revert Hc'. rewrite !elem_of_cons, elem_of_nil. by intros [->|[->|[]]]. }
    rewrite str_app_cons. cbn [String.eqb]. rewrite Hz. by eexists.
  - rewrite str_app_cons. rewrite (span_digits_app d) by done. rewrite str_app_cons. cbn [String.eqb]. rewrite Hz. by eexists.
Qed.

Definition number_char (c : Ascii.ascii) : bool := is_digit c || one_of "-+.eE" c.

Lemma number_chars sign w f e :
  sign ∈ [""; "-"] → digits w → fraction f → exponential e → str_all number_char (sign +:+ w +:+ f +:+ e) = true.
Proof.
  assert (∀ d, str_all is_digit d = true → str_all number_char d = true) as Hdig.
  { intros d. apply str_all_ascii. vm_compute. reflexivity. }
  intros Hs [_ Hw] Hf He. rewrite !str_all_app, (Hdig w) by done.
  assert (str_all number_char f = true) as ->.
  { destruct Hf as [->|(d & -> & _ & Hd)]; [done|]. exact (Hdig d Hd). }
  assert (str_all number_char e = true) as ->.
  { destruct He as [->|(c & s & d & -> & Hc & Hs' & _ & Hd)]; [done|].
    cbn [str_all]. rewrite str_all_app, (Hdig d) by done. revert Hc Hs'. rewrite !elem_of_cons, !elem_of_nil.
    by intros [->|[->|[]]] [->|[->|[->|[]]]]. }
  revert Hs. rewrite !elem_of_cons, elem_of_nil. by intros [->|[->|[]]].
Qed.

Lemma number_solid t : t ≠ "" → str_all number_char t = true → strip t = t ∧ no_char "_" t.
Proof.
  intros Hne Ht. split.
  - assert (no_space t = true) as Hs by (revert Ht; apply str_all_ascii; vm_compute; reflexivity).
    apply strip_solid; [|by apply ends_solid_nonspace].
    destruct t; [done|]. unfold no_space in Hs. cbn [str_all starts_solid] in *. by apply andb_true_iff in Hs as [? _].
  - revert Ht. apply str_all_ascii. vm_compute. reflexivity.
Qed.

(** A text that starts with a digit has no sign. *)
Definition no_sign (s : string) : Prop := match s with String c _ => is_digit c = true | "" => False end.

Lemma unsigned_int s z : no_sign s → int_digits true 0 s = Some z → strip s = s → py_int s = Ok z.
Proof.
  intros Hs Hz E. unfold py_int. rewrite E. destruct s as [|c s]; [done|]. cbn [no_sign] in Hs.
  destruct c as [[] [] [] [] [] [] [] []]; try discriminate Hs; by rewrite Hz.
Qed.

Lemma unsigned_float_read s x : no_sign s → unsigned_float false s = Some x → strip s = s → no_char "_" s → py_float s = Ok x.
Proof.
  intros Hs Hx E Hu. unfold py_float. rewrite E, drop_underscores_none by done. cbn [mbind option_bind].
  destruct s as [|c s]; [done|]. cbn [no_sign] in Hs.
  destruct c as [[] [] [] [] [] [] [] []]; try discriminate Hs; by rewrite Hx.
Qed.

Lemma digits_no_sign w t : digits w → no_sign (w +:+ t).
Proof.
  intros [Hne Hw]. destruct w as [|c w]; [done|]. cbn [str_all] in Hw. by apply andb_true_iff in Hw as [Hc _].
Qed.

Lemma number_float sign w f e :
  sign ∈ [""; "-"] → digits w → fraction f → exponential e → ∃ x, py_float (sign +:+ w +:+ f +:+ e) = Ok x.
Proof.
  intros Hs Hw Hf He.
  destruct (number_solid (sign +:+ w +:+ f +:+ e)) as [H1 H2]; [|by apply number_chars|].
  { destruct Hw as [Hne _]. revert Hs. rewrite !elem_of_cons, elem_of_nil. destruct w; [done|]. by intros [->|[->|[]]]. }
  destruct (unsigned_float_number false w f e Hw Hf He) as (x & Hx).
  destruct (unsigned_float_number true w f e Hw Hf He) as (y & Hy).
  revert Hs H1 H2. rewrite !elem_of_cons, elem_of_nil. intros [->|[->|[]]].
  - rewrite str_app_nil_l. intros H1 H2. exists x. apply unsigned_float_read; auto using digits_no_sign.
  - intros H1 H2. exists y. unfold py_float. rewrite H1, drop_underscores_none by done.
    cbn [mbind option_bind]. rewrite str_app_cons, str_app_nil_l, Hy. done.
Qed.

Lemma number_int sign w : sign ∈ [""; "-"] → digits w → ∃ z, py_int (sign +:+ w) = Ok z.
Proof.
  intros Hs Hw. assert (sign +:+ w = sign +:+ w +:+ "" +:+ "") as E by by rewrite str_app_nil_l, str_app_nil_r.
  destruct (number_solid (sign +:+ w)) as [H1 _].
  { destruct Hw as [Hne _]. revert Hs. rewrite !elem_of_cons, elem_of_nil. destruct w; [done|]. by intros [->|[->|[]]]. }
  { rewrite E. apply number_chars; [done|done|by left..]. }
  destruct (int_digits_total w true 0) as (z & Hz); [apply Hw|intros _; apply Hw|].
  revert Hs H1. rewrite !elem_of_cons, elem_of_nil. intros [->|[->|[]]].
  - rewrite str_app_nil_l. intros H1. exists z. apply unsigned_int; [|done|done].
    rewrite <-(str_app_nil_r w). by apply digits_no_sign.
  - intros H1. unfold py_int. rewrite H1, str_app_cons, str_app_nil_l, Hz. by eexists.
Qed.

(** ** The scanner consumes what it reads *)

Section progress.
Variable len : nat.

(** What a scan of [s] returns: less than it was given, or an error at a place
    in the document; the fuel is never the reason. *)
Definition scans {A} (s : string) (m : res (A * string)) : Prop :=
  match m with
  | Ok (_, r) => (String.length r < String.length s)%nat
  | Raise (JSONDecodeError _ p) => 0 ≤ p ≤ Z.of_nat len
  | Raise _ => False
  end.

Lemma scans_fail {A} s r msg : (String.length r ≤ len)%nat → scans s (fail len msg r : res (A * string)).
Proof. intros H. cbn. unfold position. lia. Qed.

Lemma scans_weaken {A} s s' (m : res (A * string)) :
  (String.length s ≤ String.length s')%nat → scans s m → scans s' m.
Proof. destruct m as [[a r]|[]]; cbn; try done. lia. Qed.

Lemma scans_push s c m : scans s m → scans s (push c m).
Proof. by destruct m as [[l r]|e]. Qed.

Lemma scans_bind {A B} s s' (m : res (A * string)) (f : A → string → res (B * string)) :
  scans s m → (∀ a r, (String.length r < String.length s)%nat → scans s' (f a r)) →
  scans s' ('(a, r) ← m; f a r).
Proof. destruct m as [[a r]|[]]; cbn; try done. intros Hr Hf. by apply Hf. Qed.

Lemma skip_ws_length s : (String.length (skip_ws s) ≤ String.length s)%nat.
Proof. induction s as [|c s IH]; [done|]. cbn [skip_ws]. destruct (json_ws c); cbn [String.length]; lia. Qed.

Lemma scan_string_scans start s :
  (String.length start ≤ len)%nat → (String.length s ≤ len)%nat → scans (String quote s) (scan_string len start s).
Proof.
  intros Hstart. remember (String.length s) as n eqn:Hn. revert s Hn.
  induction (lt_wf n) as [n _ IH]. intros s -> Hs.
  assert (∀ t c, (String.length t < String.length s)%nat → scans (String quote s) (push c (scan_string len start t))) as Hrec.
  { intros t c Ht. apply scans_push. apply (scans_weaken (String quote t)); [cbn [String.length]; lia|].
    eapply IH; [exact Ht|done|lia]. }
  clear IH. destruct s as [|c t]; cbn [scan_string]; [by apply scans_fail|].
  destruct (Ascii.eqb c quote); [cbn; lia|].
  destruct (Ascii.eqb c "\").
  - destruct t as [|e t1]; [by apply scans_fail|]. cbn [String.length] in Hs, Hrec. destruct (Ascii.eqb e "u").
    + destruct t1 as [|h1 [|h2 [|h3 [|h4 [|x t2]]]]]; try (apply scans_fail; cbn [String.length] in *; lia).
      destruct (hex4 _ _ _ _) as [u|]; [|apply scans_fail; cbn [String.length] in *; lia]. cbn [String.length] in Hs, Hrec.
      destruct t2 as [|v [|k1 [|k2 [|k3 [|k4 [|y t3]]]]]]; try (apply Hrec; cbn [String.length]; lia).
      destruct (_ && _ && _); [|apply Hrec; cbn [String.length]; lia].
      destruct (hex4 _ _ _ _) as [w|]; [|apply scans_fail; cbn [String.length str_drop] in *; lia].
      destruct (low_surrogate w); apply Hrec; cbn [String.length]; lia.
    + destruct (escape_char e); [apply Hrec; lia|apply scans_fail; cbn [String.length]; lia].
  - destruct (code c <=? 31); [by apply scans_fail|apply Hrec; cbn [String.length]; lia].
Qed.

Lemma scan_whole_spec s :
  s = (scan_whole s).1 +:+ (scan_whole s).2 ∧ ((scan_whole s).1 = "" ∨ digits (scan_whole s).1).
Proof.
  assert (s = (span_digits s).1 +:+ (span_digits s).2 ∧ ((span_digits s).1 = "" ∨ digits (span_digits s).1)) as Hd.
  { pose proof (span_digits_spec s) as H. destruct (span_digits s) as [d r]. destruct H as (-> & Hd & _). split; [done|].
    destruct d; [by left|by right]. }
  unfold scan_whole. destruct s as [|c s]; [done|].
  destruct (Ascii.eqb_spec c "0") as [->|Hc]; [split; [done|by right]|]. rewrite <-Ascii.eqb_neq in Hc.
  destruct c as [[] [] [] [] [] [] [] []]; try discriminate Hc; exact Hd.
Qed.

Lemma sign_spec s :
  ∃ sign t, match s with String "-" t => ("-", t) | _ => ("", s) end = (sign, t) ∧ s = sign +:+ t ∧ sign ∈ [""; "-"].
Proof.
  destruct s as [|c s]; [exists "", ""; set_solver|].
  destruct (Ascii.eqb_spec c "-") as [->|Hc]; [exists "-", s; set_solver|]. rewrite <-Ascii.eqb_neq in Hc.
  exists "", (String c s). destruct c as [[] [] [] [] [] [] [] []]; try discriminate Hc; (split_and!; [done|done|set_solver]).
Qed.

Lemma scan_number_scans s : (String.length s ≤ len)%nat → scans s (scan_number len s).
Proof.
  intros Hs. unfold scan_number. destruct (sign_spec s) as (sign & t & -> & Es & Hsign).
  destruct (scan_whole_spec t) as [Et Hw]. destruct (scan_whole t) as [w t1]. cbn [fst snd] in *.
  destruct (String.eqb_spec w "") as [->|Hne]; [by apply scans_fail|]. destruct Hw as [Hw|Hw]; [done|].
  destruct (scan_frac_spec t1) as [Et1 Hf]. destruct (scan_frac t1) as [f t2]. cbn [fst snd] in *.
  destruct (scan_exp_spec t2) as [Et2 He]. destruct (scan_exp t2) as [e t3]. cbn [fst snd] in *.
  assert (String.length t3 < String.length s)%nat as Hlen.
  { rewrite Es, Et, Et1, Et2, !str_length_app. destruct w; [done|]. cbn [String.length]. lia. }
  destruct (String.eqb (f +:+ e) "").
  - destruct (number_int sign w) as (z & ->); done.
  - destruct (number_float sign w f e) as (x & ->); done.
Qed.

Lemma scan_word_scans s v r : scan_word s = Some (v, r) → (String.length r < String.length s)%nat.
Proof.
  unfold scan_word. destruct (filter _ json_words) as [|[w v'] l] eqn:E; [done|]. cbn. intros [= -> <-].
  assert ((w, v) ∈ filter (λ p : string * json, starts_with p.1 s = true) json_words) as H by (rewrite E; constructor).
  apply list_elem_of_filter in H as [Hs Hin]. cbn [fst] in Hs.
  assert (w ≠ "") as Hw by (revert Hin; unfold json_words; rewrite !elem_of_cons, elem_of_nil; naive_solver).
  apply starts_with_split in Hs as (t & ->). rewrite str_drop_app, str_length_app by done.
  destruct w; [done|]. cbn [String.length]. lia.
Qed.

Lemma after_length c s t : after c s = Some t → String.length s = S (String.length t).
Proof. destruct s as [|d s]; [done|]. cbn [after]. destruct (Ascii.eqb d c); [|done]. by intros [= ->]. Qed.

Lemma after_quote s t : after quote s = Some t → s = String quote t.
Proof. destruct s as [|d s]; [done|]. cbn [after]. destruct (Ascii.eqb_spec d quote) as [->|]; [|done]. by intros [= ->]. Qed.

Lemma scan_scans n :
  (∀ s, (String.length s ≤ len)%nat → (2 * String.length s + 1 ≤ n)%nat → scans s (scan_once len n s)) ∧
  (∀ d s, (String.length s ≤ len)%nat → (2 * String.length s + 1 ≤ n)%nat → scans s (scan_members len n d s)) ∧
  (∀ l s, (String.length s ≤ len)%nat → (2 * String.length s + 2 ≤ n)%nat → scans s (scan_elements len n l s)).
Proof.
  induction n as [|n (IH1 & IH2 & IH3)]; [split_and!; intros; lia|]. split_and!.
  - intros s Hs Hn. destruct s as [|c t]; cbn [scan_once]; [by apply scans_fail|]. cbn [String.length] in Hs, Hn.
    pose proof (skip_ws_length t) as Hw. destruct (Ascii.eqb_spec c quote) as [->|_].
    { apply (scans_bind (String quote t)); [apply scan_string_scans; cbn; lia|done]. }
    destruct (Ascii.eqb c "{"); [|destruct (Ascii.eqb c "[")].
    + destruct (after "}" _) as [r|] eqn:E; [apply after_length in E; cbn [scans String.length]; lia|].
      apply (scans_weaken (skip_ws t)); [cbn [String.length]; lia|apply IH2; lia].
    + destruct (after "]" _) as [r|] eqn:E; [apply after_length in E; cbn [scans String.length]; lia|].
      apply (scans_weaken (skip_ws t)); [cbn [String.length]; lia|apply IH3; lia].
    + destruct (scan_word _) as [[v r]|] eqn:E; [by apply scan_word_scans in E|by apply scan_number_scans].
  - intros d s Hs Hn. cbn [scan_members]. destruct (after quote s) as [t|] eqn:Eq; [|by apply scans_fail].
    apply after_quote in Eq as ->. cbn [String.length] in Hs, Hn.
    apply (scans_bind (String quote t)); [apply scan_string_scans; cbn; lia|]. intros k r Hr. cbn [String.length] in Hr.
    pose proof (skip_ws_length r). destruct (after ":" _) as [r1|] eqn:E1; [|apply scans_fail; lia]. apply after_length in E1.
    pose proof (skip_ws_length r1). apply (scans_bind (skip_ws r1)); [apply IH1; lia|]. intros v r2 Hr2. cbv zeta.
    pose proof (skip_ws_length r2). destruct (after "}" _) as [r3|] eqn:E2; [apply after_length in E2; cbn [scans String.length]; lia|].
    destruct (after "," _) as [r4|] eqn:E3; [|apply scans_fail; lia]. apply after_length in E3. pose proof (skip_ws_length r4).
    apply (scans_weaken (skip_ws r4)); [cbn [String.length]; lia|apply IH2; lia].
  - intros l s Hs Hn. cbn [scan_elements]. apply (scans_bind s); [apply IH1; lia|]. intros v r Hr. cbv zeta.
    pose proof (skip_ws_length r). destruct (after "]" _) as [r3|] eqn:E2; [apply after_length in E2; cbn [scans String.length]; lia|].
    destruct (after "," _) as [r4|] eqn:E3; [|apply scans_fail; lia]. apply after_length in E3. pose proof (skip_ws_length r4).
    apply (scans_weaken (skip_ws r4)); [cbn [String.length]; lia|apply IH3; lia].
Qed.
End progress.

(** On every text [loads] returns a value or the error of the json module, at a
    place in the text; the fuel is enough. *)
Lemma loads_total s :
  (∃ v, loads s = Ok v) ∨ ∃ msg p, loads s = Raise (JSONDecodeError msg p) ∧ 0 ≤ p ≤ Z.of_nat (String.length s).
Proof.
  unfold loads. cbv zeta. pose proof (skip_ws_length s) as Hs.
  destruct (scan_scans (String.length s) (2 * String.length s + 1)) as (H & _ & _).
  specialize (H (skip_ws s)). destruct (scan_once _ _ _) as [[v r]|e]; cbn [mbind res_bind].
  - specialize (H ltac:(lia) ltac:(lia)). cbn in H. pose proof (skip_ws_length r).
    destruct (skip_ws r) as [|c t] eqn:E; [left; by eexists|]. right. unfold fail. do 2 eexists. split; [done|].
    unfold position. lia.
  - specialize (H ltac:(lia) ltac:(lia)). destruct e; try done. right. by do 2 eexists.
Qed.

(** ** The grammar *)

Definition gap (w : string) : Prop := str_all json_ws w = true.
Definition quoted (t : string) : string := String quote (t +:+ String quote "").

(** The text of a string between its quotes. *)
Inductive spells_str : list Z → string → Prop :=
  | str_end : spells_str [] ""
  | str_char c k t :
      31 < code c → c ≠ quote → c ≠ "\"%char → spells_str k t → spells_str (code c :: k) (String c t)
  | str_escape c z k t :
      escape_char c = Some z → spells_str k t → spells_str (z :: k) (String "\" (String c t))
  | str_unicode a b c d u k t :
      hex4 a b c d = Some u → high_surrogate u = false → spells_str k t →
      spells_str (u :: k) ("\u" +:+ String a (String b (String c (String d t))))
  | str_pair a b c d a' b' c' d' u v k t :
      hex4 a b c d = Some u → high_surrogate u = true → hex4 a' b' c' d' = Some v → low_surrogate v = true →
      spells_str k t →
      spells_str (join_surrogates u v :: k)
        ("\u" +:+ String a (String b (String c (String d ("\u" +:+ String a' (String b' (String c' (String d' t)))))))).

Definition whole (w : string) : Prop := w = "0" ∨ digits w ∧ starts_with "0" w = false.
Definition dict_of (l : list (list Z * json)) : list (list Z * json) := foldl (λ d kv, dict_set kv.1 kv.2 d) [] l.

(** The texts of a value; the lists of elements and of members come with their
    closing bracket. *)
Inductive spells : json → string → Prop :=
  | spells_word w v : (w, v) ∈ json_words → spells v w
  | spells_int sign w z : sign ∈ [""; "-"] → whole w → py_int (sign +:+ w) = Ok z → spells (JInt z) (sign +:+ w)
  | spells_float sign w f e x :
      sign ∈ [""; "-"] → whole w → fraction f → exponential e → f +:+ e ≠ "" →
      py_float (sign +:+ w +:+ f +:+ e) = Ok x → spells (JFloat x) (sign +:+ w +:+ f +:+ e)
  | spells_string k t : spells_str k t → spells (JStr k) (quoted t)
  | spells_empty_array w : gap w → spells (JArr []) ("[" +:+ w +:+ "]")
  | spells_array w l t : gap w → spells_elements l t → spells (JArr l) ("[" +:+ w +:+ t)
  | spells_empty_object w : gap w → spells (JObj []) ("{" +:+ w +:+ "}")
  | spells_object w l t : gap w → spells_members l t → spells (JObj (dict_of l)) ("{" +:+ w +:+ t)
with spells_elements : list json → string → Prop :=
  | last_element v s w : spells v s → gap w → spells_elements [v] (s +:+ w +:+ "]")
  | next_element v s w1 w2 l t :
      spells v s → gap w1 → gap w2 → spells_elements l t → spells_elements (v :: l) (s +:+ w1 +:+ "," +:+ w2 +:+ t)
with spells_members : list (list Z * json) → string → Prop :=
  | last_member k ks w1 w2 v s w3 :
      spells_str k ks → gap w1 → gap w2 → spells v s → gap w3 →
      spells_members [(k, v)] (quoted ks +:+ w1 +:+ ":" +:+ w2 +:+ s +:+ w3 +:+ "}")
  | next_member k ks w1 w2 v s w3 w4 l t :
      spells_str k ks → gap w1 → gap w2 → spells v s → gap w3 → gap w4 → spells_members l t →
      spells_members ((k, v) :: l) (quoted ks +:+ w1 +:+ ":" +:+ w2 +:+ s +:+ w3 +:+ "," +:+ w4 +:+ t).

Scheme spells_mut := Induction for spells Sort Prop
  with spells_elements_mut := Induction for spells_elements Sort Prop
  with spells_members_mut := Induction for spells_members Sort Prop.
Combined Scheme spells_ind_all from spells_mut, spells_elements_mut, spells_members_mut.

(** ** Every text of the grammar is read *)

Section complete.
Variable len : nat.

Lemma quote_cons t r : ∃ x y, t +:+ String quote r = String x y.
Proof. destruct t as [|x t]; [by exists quote, r|by exists x, (t +:+ String quote r)]. Qed.

Lemma scan_string_spells start k t r : spells_str k t → scan_string len start (t +:+ String quote r) = Ok (k, r).
Proof.
  induction 1 as [|c k t Hc Hq Hb _ IH|c z k t Hz _ IH|a b c d u k t Hu Hh _ IH|a b c d a' b' c' d' u v k t Hu Hh Hv Hl _ IH].
  - done.
  - rewrite str_app_cons. cbn [scan_string]. apply Ascii.eqb_neq in Hq, Hb. rewrite Hq, Hb, IH.
    assert ((code c <=? 31) = false) as -> by lia. done.
  - rewrite !str_app_cons. cbn [scan_string].
    assert (Ascii.eqb "\" quote = false) as -> by done. assert (Ascii.eqb "\" "\" = true) as -> by done.
    destruct (Ascii.eqb_spec c "u") as [->|_]; [done|]. by rewrite Hz, IH.
  - rewrite !str_app_cons, str_app_nil_l, !str_app_cons. cbn [scan_string].
    assert (Ascii.eqb "\" quote = false) as -> by done. assert (Ascii.eqb "\" "\" = true) as -> by done.
    assert (Ascii.eqb "u" "u" = true) as -> by done.
    destruct (quote_cons t r) as (x & y & E). rewrite E in *. rewrite Hu, Hh, IH. cbn [andb push mbind res_bind].
    destruct y as [|? [|? [|? [|? [|? [|? ?]]]]]]; done.
  - rewrite !str_app_cons, !str_app_nil_l, !str_app_cons. cbn [scan_string].
    assert (Ascii.eqb "\" quote = false) as -> by done. assert (Ascii.eqb "\" "\" = true) as -> by done.
    assert (Ascii.eqb "u" "u" = true) as -> by done.
    destruct (quote_cons t r) as (x & y & E). rewrite E in *. rewrite Hu, Hh. cbn [andb]. by rewrite Hv, Hl, IH.
Qed.

(** What may follow a value. *)
Definition ends (r : string) : Prop := match r with "" => True | String c _ => number_char c = false end.

Lemma ends_digit r : ends r → match r with "" => True | String c _ => is_digit c = false end.
Proof. destruct r as [|c r]; [done|]. cbn. unfold number_char. by intros [? _]%orb_false_iff. Qed.

Lemma scan_whole_app w r : whole w → match r with "" => True | String c _ => is_digit c = false end → scan_whole (w +:+ r) = (w, r).
Proof.
  intros [->|[[Hne Hw] H0]] Hr; [done|]. unfold scan_whole. destruct w as [|c w]; [done|]. cbn [starts_with] in H0.
  rewrite andb_true_r, Ascii.eqb_sym in H0. rewrite <-(span_digits_app (String c w) r) by done. rewrite str_app_cons.
  destruct c as [[] [] [] [] [] [] [] []]; try discriminate H0; done.
Qed.

Lemma scan_frac_app f e r : fraction f → exponential e → ends r → scan_frac (f +:+ e +:+ r) = (f, e +:+ r).
Proof.
  intros Hf He Hr. destruct Hf as [->|(d & -> & Hne & Hd)].
  - rewrite str_app_nil_l. unfold scan_frac. destruct He as [->|(c & s & d & -> & Hc & _)].
    + rewrite str_app_nil_l. destruct r as [|c r]; [done|]. cbn in Hr.
      destruct c as [[] [] [] [] [] [] [] []]; try discriminate Hr; done.
    + rewrite !str_app_cons. revert Hc. rewrite !elem_of_cons, elem_of_nil. by intros [->|[->|[]]].
  - rewrite str_app_cons. cbn [scan_frac]. rewrite span_digits_app; [by destruct d|done|].
    destruct He as [->|(c & s & d' & -> & Hc & _)]; [by apply ends_digit|].
    revert Hc. rewrite !elem_of_cons, elem_of_nil. by intros [->|[->|[]]].
Qed.

Lemma scan_exp_app e r : exponential e → ends r → scan_exp (e +:+ r) = (e, r).
Proof.
  intros [->|(c & s & d & -> & Hc & Hs & Hne & Hd)] Hr.
  - rewrite str_app_nil_l. unfold scan_exp. destruct r as [|c r]; [done|].
    destruct (Ascii.eqb_spec c "e") as [->|_]; [done|]. by destruct (Ascii.eqb_spec c "E") as [->|_].
  - rewrite str_app_cons, str_app_assoc. unfold scan_exp.
    assert (Ascii.eqb c "e" || Ascii.eqb c "E" = true) as ->
      by (revert Hc; rewrite !elem_of_cons, elem_of_nil; by intros [->|[->|[]]]).
    pose proof (span_digits_app d r Hd (ends_digit r Hr)) as Hsp. destruct d as [|d0 d]; [done|].
    revert Hs. rewrite !elem_of_cons, elem_of_nil. intros [->|[->|[->|[]]]].
    + rewrite str_app_nil_l, !str_app_cons. rewrite str_app_cons in Hsp. cbn [str_all] in Hd. apply andb_true_iff in Hd as [Hd _].
      destruct d0 as [[] [] [] [] [] [] [] []]; try discriminate Hd; by rewrite Hsp.
    + rewrite !str_app_cons, str_app_nil_l. by rewrite <-str_app_cons, Hsp.
    + rewrite !str_app_cons, str_app_nil_l. by rewrite <-str_app_cons, Hsp.
Qed.

Lemma exponential_head e r : exponential e → ends r → match e +:+ r with "" => True | String c _ => is_digit c = false end.
Proof.
  intros [->|(c & s & d & -> & Hc & _)] Hr; [by apply ends_digit|].
  revert Hc. rewrite !elem_of_cons, elem_of_nil. by intros [->|[->|[]]].
Qed.

Lemma fraction_head f e r :
  fraction f → exponential e → ends r → match f +:+ e +:+ r with "" => True | String c _ => is_digit c = false end.
Proof. intros [->|(d & -> & _)] He Hr; [rewrite str_app_nil_l; by apply exponential_head|done]. Qed.

(** The first character of the integer part. *)
Lemma whole_head w : whole w → ∃ c u, w = String c u ∧ is_digit c = true.
Proof.
  intros [->|[[Hne Hw] _]]; [by exists "0"%char, ""|]. destruct w as [|c w]; [done|]. exists c, w.
  cbn [str_all] in Hw. by apply andb_true_iff in Hw as [? _].
Qed.

Lemma scan_number_app sign w f e r v :
  sign ∈ [""; "-"] → whole w → fraction f → exponential e → ends r →
  (if String.eqb (f +:+ e) "" then JInt <$> py_int (sign +:+ w) else JFloat <$> py_float (sign +:+ w +:+ f +:+ e)) = Ok v →
  scan_number len (sign +:+ w +:+ f +:+ e +:+ r) = Ok (v, r).
Proof.
  intros Hs Hw Hf He Hr Hv. unfold scan_number.
  assert (match sign +:+ w +:+ f +:+ e +:+ r with String "-" t => ("-", t) | _ => ("", sign +:+ w +:+ f +:+ e +:+ r) end
    = (sign, w +:+ f +:+ e +:+ r)) as ->.
  { revert Hs. rewrite !elem_of_cons, elem_of_nil. intros [->|[->|[]]]; [|done]. rewrite str_app_nil_l.
    destruct (whole_head w Hw) as (c & u & -> & Hc). rewrite str_app_cons.
    destruct c as [[] [] [] [] [] [] [] []]; try discriminate Hc; done. }
  rewrite scan_whole_app; [|done|by apply fraction_head].
  destruct (whole_head w Hw) as (c & u & -> & _). cbn [String.eqb].
  rewrite scan_frac_app, scan_exp_app by done.
  destruct (String.eqb (f +:+ e) ""); [destruct (py_int _)|destruct (py_float _)]; try done; by injection Hv as <-.
Qed.

(** The first character of a value. *)
Definition value_head (c : Ascii.ascii) : bool := is_digit c || one_of "-{[ntfNI" c || Ascii.eqb c quote.

Lemma spells_head v s : spells v s → ∃ c t, s = String c t ∧ value_head c = true.
Proof.
  assert (∀ sign w t, sign ∈ [""; "-"] → whole w → ∃ c u, (sign +:+ w +:+ t) = String c u ∧ value_head c = true) as Hnum.
  { intros sign w t Hs (c & u & -> & Hc)%whole_head. revert Hs. rewrite !elem_of_cons, elem_of_nil.
    intros [->|[->|[]]]; do 2 eexists; (split; [done|]); [|done]. unfold value_head. by rewrite Hc. }
  intros []; try (do 2 eexists; by split).
  - match goal with H : _ ∈ json_words |- _ => revert H end. unfold json_words. rewrite !elem_of_cons, elem_of_nil.
    intros H; repeat destruct H as [[= -> ->]|H]; try done; by do 2 eexists.
  - rewrite <-(str_app_nil_r (_ +:+ _)), str_app_assoc. by apply Hnum.
  - by apply Hnum.
Qed.

Lemma skip_ws_app w t : gap w → skip_ws (w +:+ t) = skip_ws t.
Proof.
  unfold gap. induction w as [|d w IH]; [done|]. cbn [str_all]. intros [Hd Hw]%andb_true_iff.
  rewrite str_app_cons. cbn [skip_ws]. rewrite Hd. by apply IH.
Qed.

Lemma skip_ws_gap w c t : gap w → json_ws c = false → skip_ws (w +:+ String c t) = String c t.
Proof. intros Hw Hc. rewrite skip_ws_app by done. cbn [skip_ws]. by rewrite Hc. Qed.

Lemma value_head_ws c : value_head c = true → json_ws c = false.
Proof.
  intros H. apply negb_true_iff. revert H. apply (ascii_impl value_head (λ c, negb (json_ws c))). vm_compute. reflexivity.
Qed.

(** White space before a value is skipped, and a value opens no bracket's end. *)
Lemma skip_ws_value w v s r : gap w → spells v s → skip_ws (w +:+ s +:+ r) = s +:+ r.
Proof.
  intros Hw (c & t & -> & Hc)%spells_head. rewrite str_app_cons. apply skip_ws_gap; [done|by apply value_head_ws].
Qed.

Lemma after_value d v s r : value_head d = false → spells v s → after d (s +:+ r) = None.
Proof.
  intros Hd (c & t & -> & Hc)%spells_head. rewrite str_app_cons. cbn [after].
  destruct (Ascii.eqb_spec c d) as [->|]; [by rewrite Hc in Hd|done].
Qed.

Lemma scan_word_app w v r : (w, v) ∈ json_words → scan_word (w +:+ r) = Some (v, r).
Proof.
  unfold json_words. rewrite !elem_of_cons, elem_of_nil.
  intros H; repeat destruct H as [[= -> ->]|H]; try done; reflexivity.
Qed.

Lemma scan_word_number sign w r : sign ∈ [""; "-"] → whole w → scan_word (sign +:+ w +:+ r) = None.
Proof.
  intros Hs (c & u & -> & Hc)%whole_head. revert Hs. rewrite !elem_of_cons, elem_of_nil.
  assert (c ≠ "I"%char ∧ c ≠ "n"%char ∧ c ≠ "t"%char ∧ c ≠ "f"%char ∧ c ≠ "N"%char ∧ c ≠ "-"%char) as Hne
    by (split_and!; intros ->; done).
  destruct c as [[] [] [] [] [] [] [] []]; try discriminate Hc; by intros [->|[->|[]]].
Qed.

Lemma ends_gap w c r : gap w → number_char c = false → ends (w +:+ String c r).
Proof.
  intros Hw Hc. destruct w as [|d w]; [done|]. unfold gap in Hw. cbn [str_all] in Hw. apply andb_true_iff in Hw as [Hd _].
  cbn. apply negb_true_iff. revert Hd. apply (ascii_impl json_ws (λ c, negb (number_char c))). vm_compute. reflexivity.
Qed.

Lemma scan_once_scalar n s c t :
  s = String c t → Ascii.eqb c quote = false → Ascii.eqb c "{" = false → Ascii.eqb c "[" = false →
  scan_once len (S n) s = match scan_word s with Some vr => Ok vr | None => scan_number len s end.
Proof. intros -> H1 H2 H3. cbn [scan_once]. by rewrite H1, H2, H3. Qed.

Lemma scan_once_number n sign w r v :
  sign ∈ [""; "-"] → whole w → scan_number len (sign +:+ w +:+ r) = v → scan_once len (S n) (sign +:+ w +:+ r) = v.
Proof.
  intros Hs Hw Hv. pose proof Hw as (c & u & E & Hc)%whole_head.
  assert (Ascii.eqb c quote = false ∧ Ascii.eqb c "{" = false ∧ Ascii.eqb c "[" = false) as (H1 & H2 & H3).
  { split_and!; apply Ascii.eqb_neq; by intros ->. }
  pose proof (scan_word_number _ _ r Hs Hw) as Hword. revert Hs. rewrite !elem_of_cons, elem_of_nil. intros [->|[->|[]]].
  - rewrite (scan_once_scalar _ _ c (u +:+ r)), Hword by (done || by rewrite E). done.
  - rewrite (scan_once_scalar _ _ "-" (w +:+ r)), Hword by done. done.
Qed.

(** What is proved of the three scans: the value, and that neither white space
    nor the closing bracket comes first. *)
Definition reads_value v s := ∀ n r, ends r → (2 * String.length (s +:+ r) + 1 ≤ n)%nat →
  scan_once len n (s +:+ r) = Ok (v, r).
Definition reads_elements l t := ∀ n acc r, (2 * String.length (t +:+ r) + 2 ≤ n)%nat →
  scan_elements len n acc (t +:+ r) = Ok (JArr (acc ++ l), r)
  ∧ skip_ws (t +:+ r) = t +:+ r ∧ after "]" (t +:+ r) = None.
Definition reads_members l t := ∀ n d r, (2 * String.length (t +:+ r) + 1 ≤ n)%nat →
  scan_members len n d (t +:+ r) = Ok (JObj (foldl (λ d kv, dict_set kv.1 kv.2 d) d l), r)
  ∧ skip_ws (t +:+ r) = t +:+ r ∧ after "}" (t +:+ r) = None.

Ltac flat := rewrite ?str_app_assoc, ?str_app_cons, ?str_app_nil_l in *; rewrite ?str_app_assoc, ?str_app_cons, ?str_app_nil_l in *.
Ltac len_lia := repeat (progress (rewrite ?str_length_app in *; cbn [String.length] in *)); lia.

Lemma reads_word w v : (w, v) ∈ json_words → reads_value v w.
Proof.
  intros Hin n r _ Hn. destruct n as [|n]; [lia|].
  assert (∃ c t, w = String c t ∧ Ascii.eqb c quote = false ∧ Ascii.eqb c "{" = false ∧ Ascii.eqb c "[" = false)
    as (c & t & E & H1 & H2 & H3).
  { revert Hin. unfold json_words. rewrite !elem_of_cons, elem_of_nil.
    intros H; repeat destruct H as [[= -> ->]|H]; try done; by do 2 eexists. }
  rewrite (scan_once_scalar _ _ c (t +:+ r)) by (done || by rewrite E). by rewrite (scan_word_app _ v).
Qed.

Lemma reads_string k t : spells_str k t → reads_value (JStr k) (quoted t).
Proof.
  intros Hk n r _ Hn. destruct n as [|n]; [lia|]. unfold quoted. flat. cbn [scan_once].
  assert (Ascii.eqb quote quote = true) as -> by done. by rewrite (scan_string_spells _ _ _ _ Hk).
Qed.

(** The steps of the two loops. *)
Lemma reads_key n k ks w1 w2 v s d r :
  spells_str k ks → gap w1 → gap w2 → spells v s → reads_value v s → ends r →
  (2 * String.length (quoted ks +:+ w1 +:+ ":" +:+ w2 +:+ s +:+ r) + 1 ≤ S n)%nat →
  scan_members len (S n) d (quoted ks +:+ w1 +:+ ":" +:+ w2 +:+ s +:+ r) =
    let r := skip_ws r in
    match after "}" r with
    | Some r => Ok (JObj (dict_set k v d), r)
    | None =>
        match after "," r with
        | Some r => scan_members len n (dict_set k v d) (skip_ws r)
        | None => fail len "Expecting ',' delimiter" r
        end
    end.
Proof.
  intros Hk H1 H2 Hs IH Hr Hn. unfold quoted in *. flat. cbn [scan_members after].
  assert (Ascii.eqb quote quote = true) as -> by done. rewrite (scan_string_spells _ _ _ _ Hk). cbn [mbind res_bind].
  rewrite skip_ws_gap by done. cbn [after]. assert (Ascii.eqb ":" ":" = true) as -> by done.
  rewrite (skip_ws_value w2 v s r), IH by (done || len_lia). done.
Qed.

Lemma quoted_head ks t c : Ascii.eqb quote c = false →
  skip_ws (quoted ks +:+ t) = quoted ks +:+ t ∧ after c (quoted ks +:+ t) = None.
Proof. intros H. unfold quoted. rewrite str_app_cons. split; [done|]. cbn [after]. by rewrite H. Qed.

Lemma reads_value_head v s r :
  spells v s → skip_ws (s +:+ r) = s +:+ r ∧ after "]" (s +:+ r) = None.
Proof.
  intros Hv. split; [|by apply (after_value _ v)]. rewrite <-(str_app_nil_l (s +:+ r)) at 1. by apply (skip_ws_value "" v).
Qed.

Lemma scan_spells :
  (∀ v s, spells v s → reads_value v s) ∧ (∀ l t, spells_elements l t → reads_elements l t) ∧
  (∀ l t, spells_members l t → reads_members l t).
Proof.
  apply spells_ind_all.
  - by apply reads_word.
  - (* integers *) intros sign w z Hs Hw Hz n r Hr Hn. destruct n as [|n]; [lia|]. rewrite str_app_assoc.
    apply scan_once_number; [done..|].
    apply (scan_number_app sign w "" "" r); [done|done|by left|by left|done|]. rewrite Hz. done.
  - (* floats *) intros sign w f e x Hs Hw Hf He Hne Hx n r Hr Hn. destruct n as [|n]; [lia|]. rewrite !str_app_assoc.
    apply scan_once_number; [done..|].
    apply scan_number_app; [done..|]. apply String.eqb_neq in Hne. by rewrite Hne, Hx.
  - by apply reads_string.
  - (* [] *) intros w Hw n r _ Hn. destruct n as [|n]; [lia|]. flat. cbn [scan_once]. by rewrite skip_ws_gap.
  - (* arrays *) intros w l t Hw _ IH n r _ Hn. destruct n as [|n]; [lia|]. flat.
    destruct (IH n [] r) as (E & Hws & Ha); [len_lia|]. cbn [scan_once]. rewrite skip_ws_app, Hws by done. by rewrite Ha.
  - (* {} *) intros w Hw n r _ Hn. destruct n as [|n]; [lia|]. flat. cbn [scan_once]. by rewrite skip_ws_gap.
  - (* objects *) intros w l t Hw _ IH n r _ Hn. destruct n as [|n]; [lia|]. flat.
    destruct (IH n [] r) as (E & Hws & Ha); [len_lia|]. cbn [scan_once]. rewrite skip_ws_app, Hws by done. by rewrite Ha.
  - (* last element *) intros v s w Hv IH Hw n acc r Hn. flat. split; [|by apply (reads_value_head v)].
    destruct n as [|n]; [lia|]. cbn [scan_elements]. rewrite IH; [|by apply ends_gap|lia].
    cbn [mbind res_bind]. by rewrite skip_ws_gap.
  - (* next element *) intros v s w1 w2 l t Hv IHv H1 H2 Hl IHl n acc r Hn. flat. split; [|by apply (reads_value_head v)].
    destruct n as [|n]; [lia|]. cbn [scan_elements]. rewrite IHv; [|by apply ends_gap|lia].
    cbn [mbind res_bind]. rewrite skip_ws_gap by done. cbn [after]. destruct (IHl n (acc ++ [v]) r) as (E & Hws & _); [len_lia|].
    cbn [Ascii.eqb Bool.eqb]. rewrite skip_ws_app, Hws, E by done. by rewrite <-app_assoc.
  - (* last member *) intros k ks w1 w2 v s w3 Hk H1 H2 Hv IH H3 n d r Hn. rewrite !str_app_assoc in *.
    split; [|by apply quoted_head]. destruct n as [|n]; [lia|].
    rewrite (reads_key _ _ _ _ _ v) by (done || by apply ends_gap). cbv zeta. rewrite str_app_cons, str_app_nil_l. by rewrite skip_ws_gap.
  - (* next member *) intros k ks w1 w2 v s w3 w4 l t Hk H1 H2 Hv IHv H3 H4 Hl IHl n d r Hn. rewrite !str_app_assoc in *.
    split; [|by apply quoted_head]. destruct n as [|n]; [lia|].
    rewrite (reads_key _ _ _ _ _ v) by (done || by apply ends_gap). cbv zeta.
    destruct (IHl n (dict_set k v d) r) as (E & Hws & _); [len_lia|].
    rewrite str_app_cons, str_app_nil_l, skip_ws_gap by done. cbn [after Ascii.eqb Bool.eqb]. by rewrite skip_ws_app, Hws, E.
Qed.
End complete.

(** Every text of the grammar, with white space around it, is read as its value. *)
Lemma loads_spells v s w1 w2 : spells v s → gap w1 → gap w2 → loads (w1 +:+ s +:+ w2) = Ok v.
Proof.
  intros Hs H1 H2. unfold loads. cbv zeta. rewrite (skip_ws_value w1 v) by done.
  assert (ends w2) as He.
  { destruct w2 as [|c w2]; [done|]. apply (ends_gap "" c w2); [done|]. unfold gap in H2. cbn [str_all] in H2.
    apply andb_true_iff in H2 as [H2 _]. apply negb_true_iff. revert H2.
    apply (ascii_impl json_ws (λ c, negb (number_char c))). vm_compute. reflexivity. }
  rewrite (proj1 (scan_spells _) v s Hs); [|done|rewrite !str_length_app; lia]. cbn [mbind res_bind].
  rewrite <-(str_app_nil_r w2), skip_ws_app by done. done.
Qed.

(** Text without quotes, backslashes and control characters spells itself. *)
Definition plain_char (c : Ascii.ascii) : bool := negb (code c <=? 31) && negb (Ascii.eqb c quote) && negb (Ascii.eqb c "\").
Lemma spells_plain t : str_all plain_char t = true → spells_str (codes t) t.
Proof.
  induction t as [|c t IH]; [constructor|]. cbn [str_all codes]. unfold plain_char.
  intros [[[H1 H2]%andb_true_iff H3]%andb_true_iff Ht]%andb_true_iff. apply negb_true_iff in H1, H2, H3.
  apply Ascii.eqb_neq in H2, H3. constructor; [lia|done|done|by apply IH].
Qed.

Example loads_examples :
  loads ("{" +:+ quoted "a\u0041\ud83d\ude00\n" +:+ " : [1, -25e-1, true , null,[] ,{}] }")
  = Ok (JObj [([97; 65; 128512; 10],
      JArr [JInt 1; JFloat (S754_finite true 5629499534213120 (-51)); JBool true; JNull; JArr []; JObj []])]) ∧
  loads ("{" +:+ quoted "a" +:+ ":1," +:+ quoted "b" +:+ ":2," +:+ quoted "a" +:+ ":3}")
  = Ok (JObj [([97], JInt 3); ([98], JInt 2)]) ∧
  loads "[1,]" = Raise (JSONDecodeError "Expecting value" 3) ∧
  loads "01" = Raise (JSONDecodeError "Extra data" 1) ∧
  loads (quoted "\x") = Raise (JSONDecodeError "Invalid \escape" 1).
Proof. vm_compute. auto 10. Qed.
