(* ===== verification/PyArgs.v ===== *)
(** [argparse], for parsers whose options are long ([--name]) and take one value
    or none, with any positionals: the classification of the arguments,
    abbreviations, the interleaving of options and positionals, conversions,
    choices, and what is required.  A wrong command line is [SystemExit] with
    status 2, a request for help status 0; the usage and help texts that are
    printed then are left out. *)
From S2P Require Export PyNum PyDict Regex Dirs.
Local Open Scope nat_scope.

(** ** Parsers *)

#[warnings="-register-all"]
Inductive value :=
  | VNone
  | VText (s : string)          (** a string, or a path in the form [str] gives *)
  | VInt (z : Z)
  | VFloat (x : pyfloat)
  | VBool (b : bool)
  | VList (l : list value).

(** [type=] *)
Inductive conv := AsStr | AsInt | AsFloat | AsPath.

(** [add_argument("--name", ...)]; without a conversion it is a [store_true]. *)
Record option_spec := Opt {
  o_name : string;
  o_conv : option conv;
  o_choices : option (list string);
  o_required : bool;
  o_default : value;
}.
Definition Flag (name : string) : option_spec := Opt name None None false (VBool false).
Definition Required (name : string) (c : conv) : option_spec := Opt name (Some c) None true VNone.
Definition Default (name : string) (c : conv) (v : value) : option_spec := Opt name (Some c) None false v.

(** [nargs=] of a positional: none, [?], [*], [+]. *)
Inductive nargs := One | Optional | Any | AtLeastOne.
Record positional := Pos { p_name : string; p_nargs : nargs; p_conv : conv }.

Record parser := Parser { options : list option_spec; positionals : list positional }.

Definition usage_error {A} : res A := Raise (SystemExit 2).

(** ** The arguments one by one *)

(** An argument that stands for an option: one of the parser's, help in its short
    or long form, or none; [explicit] is what is glued to it. *)
Inductive optional :=
  | Known (o : option_spec) (explicit : option string)
  | Help (short : bool) (explicit : option string)
  | Unknown.

Inductive token := TArg (s : string) | TDashes | TOpt (o : optional).

Definition find_option (P : parser) (name : string) : option option_spec :=
  head (filter (λ o, o_name o = name) (options P)).

(** The option of that very name. *)
Definition exact_option (P : parser) (name : string) (explicit : option string) : option optional :=
  if String.eqb name "--help" then Some (Help false explicit)
  else if String.eqb name "-h" then Some (Help true explicit)
  else (λ o, Known o explicit) <$> find_option P name.

(** [_get_option_tuples]: the options the argument may abbreviate; after one
    dash, [-h] with more letters. *)
Definition abbreviated (P : parser) (arg : string) : list optional :=
  if starts_with "--" arg then
    let '(prefix, explicit) := match split_at "=" arg with Some (p, e) => (p, Some e) | None => (arg, None) end in
    (if starts_with prefix "--help" then [Help false explicit] else [])
    ++ ((λ o, Known o explicit) <$> filter (λ o, starts_with prefix (o_name o) = true) (options P))
  else if starts_with "-h" arg then [Help true (Some (str_drop 2 arg))]
  else [].

(** [^-\d+$|^-\d*\.\d+$] *)
Definition negative_number : regex :=
  RAlt (RSeqs [RBegin; RStr "-"; RPlus is_digit; REnd])
       (RSeqs [RBegin; RStr "-"; RStar is_digit; RStr "."; RPlus is_digit; REnd]).

(** [_parse_optional] *)
Definition classify (P : parser) (arg : string) : res token :=
  if negb (starts_with "-" arg) then Ok (TArg arg)
  else
    match exact_option P arg None with
    | Some o => Ok (TOpt o)
    | None =>
        if String.eqb arg "-" then Ok (TArg arg)
        else
          match '(name, e) ← split_at "=" arg; exact_option P name (Some e) with
          | Some o => Ok (TOpt o)
          | None =>
              match abbreviated P arg with
              | [o] => Ok (TOpt o)
              | _ :: _ :: _ => usage_error
              | [] =>
                  if match re_match negative_number arg with Some _ => true | None => false end then Ok (TArg arg)
                  else if contains " " arg then Ok (TArg arg)
                  else Ok (TOpt Unknown)
              end
          end
    end.

(** After [--] everything is an argument. *)
Fixpoint tokens (P : parser) (argv : list string) : res (list token) :=
  match argv with
  | [] => Ok []
  | arg :: argv =>
      if String.eqb arg "--" then Ok (TDashes :: (TArg <$> argv))
      else t ← classify P arg; ts ← tokens P argv; Ok (t :: ts)
  end.

(** ** Values *)

(** [type_func(s)] *)
Definition convert (c : conv) (s : string) : res value :=
  match c with
  | AsStr => Ok (VText s)
  | AsInt => match py_int s with Ok z => Ok (VInt z) | Raise _ => usage_error end
  | AsFloat => match py_float s with Ok x => Ok (VFloat x) | Raise _ => usage_error end
  | AsPath => Ok (VText (Path s))
  end.

(** [_check_value] of a value read from [s]. *)
Definition check_choice (choices : option (list string)) (s : string) (v : value) : res value :=
  match choices with
  | Some l => if bool_decide (s ∈ l) then Ok v else usage_error
  | None => Ok v
  end.

Fixpoint remove_first (x : string) (l : list string) : list string :=
  match l with [] => [] | y :: l => if String.eqb x y then l else y :: remove_first x l end.

(** [_get_values]: the first [--] goes; one text is one value. *)
Definition get_values (n : nargs) (c : conv) (choices : option (list string)) (texts : list string) : res value :=
  match n, remove_first "--" texts with
  | Optional, [] => Ok VNone
  | One, [s] | Optional, [s] => v ← convert c s; check_choice choices s v
  | _, l => VList <$> mapM (M:=res) (λ s, v ← convert c s; check_choice choices s v) l
  end.

(** ** The loop *)

Record state := State {
  namespace : list (string * value);
  seen : list string;                (** the options met *)
  pending : list positional;
  extras : bool;                     (** whether an argument was not recognised *)
}.

Definition store (name : string) (v : value) (st : state) : state :=
  State (dict_set name v (namespace st)) (name :: seen st) (pending st) (extras st).
Definition add_extra (st : state) : state := State (namespace st) (seen st) (pending st) true.
Definition set_pending (ps : list positional) (st : state) : state := State (namespace st) (seen st) ps (extras st).

(** [consume_optional]: the new state, and how many of the arguments after the
    option it takes. *)
Definition consume_optional (o : optional) (rest : list token) (st : state) : res (state * nat) :=
  match o with
  | Unknown => Ok (add_extra st, 0)
  | Help _ None => Raise (SystemExit 0)
  | Help short (Some e) =>
      if short && negb (String.eqb e "") && str_all (λ c, Ascii.eqb c "h") e then Raise (SystemExit 0) else usage_error
  | Known o explicit =>
      match o_conv o, explicit, rest with
      | None, None, _ => Ok (store (o_name o) (VBool true) st, 0)
      | None, Some _, _ => usage_error
      | Some c, Some e, _ => v ← get_values One c (o_choices o) [e]; Ok (store (o_name o) v st, 0)
      | Some c, None, TArg s :: _ => v ← get_values One c (o_choices o) [s]; Ok (store (o_name o) v st, 1)
      | Some _, None, _ => usage_error
      end
  end.

(** The letters the positionals are matched against. *)
Definition letter (t : token) : Ascii.ascii := match t with TArg _ => "A" | TDashes => "-" | TOpt _ => "O" end.
Definition pattern_text (ts : list token) : string := String.string_of_list_ascii (letter <$> ts).
Definition dash : Ascii.ascii → bool := Ascii.eqb "-".
Definition arg_or_dash (c : Ascii.ascii) : bool := Ascii.eqb c "A" || Ascii.eqb c "-".

(** [_get_nargs_pattern] *)
Definition nargs_pattern (n : nargs) : regex :=
  match n with
  | One => RSeqs [RStar dash; RStr "A"; RStar dash]
  | Optional => RSeqs [RStar dash; ROpt (RStr "A"); RStar dash]
  | Any => RSeqs [RStar dash; RStar arg_or_dash]
  | AtLeastOne => RSeqs [RStar dash; RStr "A"; RStar arg_or_dash]
  end.
Definition positionals_pattern (ps : list positional) : regex :=
  RSeqs (zip_with (λ i p, RGroup i (nargs_pattern (p_nargs p))) (seq 1 (length ps)) ps).

(** [_match_arguments_partial]: how many arguments each of the first [k]
    positionals takes, for the largest [k] that matches. *)
Fixpoint match_partial (k : nat) (ps : list positional) (text : string) : list nat :=
  match k with
  | O => []
  | S k' =>
      match re_match (positionals_pattern (take k ps)) text with
      | Some m => (λ i, String.length (default "" (group i m))) <$> seq 1 k
      | None => match_partial k' ps text
      end
  end.

Definition token_text (t : token) : string := match t with TArg s => s | _ => "--" end.

Fixpoint take_positionals (ps : list positional) (counts : list nat) (ts : list token) (st : state) : res state :=
  match ps, counts with
  | p :: ps, n :: counts =>
      v ← get_values (p_nargs p) (p_conv p) None (token_text <$> take n ts);
      take_positionals ps counts (drop n ts)
        (State (dict_set (p_name p) v (namespace st)) (seen st) (pending st) (extras st))
  | _, _ => Ok st
  end.

(** [consume_positionals] *)
Definition consume_positionals (ts : list token) (st : state) : res (state * nat) :=
  let ps := pending st in
  let counts := match_partial (length ps) ps (pattern_text ts) in
  st ← take_positionals ps counts ts st;
  Ok (set_pending (drop (length counts) ps) st, sum_list counts).

Definition is_opt (t : token) : bool := match t with TOpt _ => true | _ => false end.
Fixpoint drop_to_opt (ts : list token) : list token :=
  match ts with [] => [] | t :: ts' => if is_opt t then ts else drop_to_opt ts' end.

(** The loop over the options of [_parse_known_args]; every turn takes an
    argument. *)
Fixpoint loop (n : nat) (ts : list token) (st : state) : res (state * list token) :=
  match n with
  | O => Raise NoProgress
  | S n =>
      if existsb is_opt ts then
        match ts with
        | TOpt o :: rest => '(st, k) ← consume_optional o rest st; loop n (drop k rest) st
        | _ =>
            '(st, k) ← consume_positionals ts st;
            match k with
            | O => loop n (drop_to_opt ts) (add_extra st)
            | S _ => loop n (drop k ts) st
            end
        end
      else Ok (st, ts)
  end.

(** What is missing at the end. *)
Definition missing (P : parser) (st : state) : bool :=
  existsb (λ o, o_required o && negb (bool_decide (o_name o ∈ seen st))) (options P)
  || existsb (λ p, match p_nargs p with Optional => false | _ => true end) (pending st).

Definition defaults (P : parser) : list (string * value) :=
  ((λ o, (o_name o, o_default o)) <$> options P) ++ ((λ p, (p_name p, VNone)) <$> positionals P).

(** [parser.parse_args(argv)] *)
Definition parse_args (P : parser) (argv : list string) : res (list (string * value)) :=
  ts ← tokens P argv;
  '(st, ts) ← loop (S (length ts)) ts (State (defaults P) [] (positionals P) false);
  '(st, k) ← consume_positionals ts st;
  if missing P st || extras st || negb (length (drop k ts) =? 0) then usage_error else Ok (namespace st).

(** ** It always ends: with a namespace, after help, or as a wrong command line *)

Definition settled {A} (r : res A) : Prop :=
  match r with Ok _ => True | Raise e => e = SystemExit 0 ∨ e = SystemExit 2 end.

Lemma settled_bind {A B} (r : res A) (f : A → res B) : settled r → (∀ a, settled (f a)) → settled (r ≫= f).
Proof. destruct r; simpl; auto. Qed.
Lemma settled_fmap {A B} (f : A → B) (r : res A) : settled r → settled (f <$> r).
Proof. by destruct r. Qed.
Lemma settled_mapM {A B} (f : A → res B) l : (∀ a, settled (f a)) → settled (mapM (M:=res) f l).
Proof.
  intros H. induction l as [|a l IH]; [done|]. cbn [mapM].
  apply settled_bind; [done|]. intros b. by apply settled_bind.
Qed.
Lemma settled_error {A} : settled (A:=A) usage_error.
Proof. by right. Qed.
Lemma settled_ok {A} (a : A) : settled (Ok a).
Proof. done. Qed.

#[local] Hint Resolve settled_ok settled_bind settled_fmap settled_mapM settled_error : settled.

Lemma convert_settled c s : settled (convert c s).
Proof.
  destruct c; cbn; try done.
  - destruct (py_int s); [done|apply settled_error].
  - destruct (py_float s); [done|apply settled_error].
Qed.
Lemma check_choice_settled cs s v : settled (check_choice cs s v).
Proof. destruct cs as [l|]; cbn; [case_bool_decide|]; auto with settled; done. Qed.
#[local] Hint Resolve convert_settled check_choice_settled : settled.

Lemma get_values_settled n c cs l : settled (get_values n c cs l).
Proof. unfold get_values. destruct n, (remove_first "--" l) as [|s [|]]; auto 8 with settled; done. Qed.
#[local] Hint Resolve get_values_settled : settled.

Lemma consume_optional_settled o rest st : settled (consume_optional o rest st).
Proof.
  destruct o as [o e|short [e|]|]; cbn [consume_optional].
  - destruct (o_conv o), e; try destruct rest as [|[] rest];
      first [apply settled_ok | apply settled_error
            | apply settled_bind; [apply get_values_settled|intros; apply settled_ok]].
  - destruct (short && _ && _); [by left|by right].
  - by left.
  - done.
Qed.

Lemma take_positionals_settled ps counts ts st : settled (take_positionals ps counts ts st).
Proof.
  revert counts ts st. induction ps as [|p ps IH]; intros [|n counts] ts st; cbn; try done.
  auto with settled.
Qed.
Lemma consume_positionals_settled ts st : settled (consume_positionals ts st).
Proof. unfold consume_positionals. apply settled_bind; [apply take_positionals_settled|done]. Qed.

Lemma classify_settled P s : settled (classify P s).
Proof. unfold classify. repeat case_match; try done; apply settled_error. Qed.
Lemma tokens_settled P argv : settled (tokens P argv).
Proof.
  induction argv as [|a argv IH]; cbn [tokens]; [done|]. destruct (String.eqb a "--"); [done|].
  apply settled_bind; [apply classify_settled|]. intros t. by apply settled_bind.
Qed.

Lemma drop_to_opt_length ts : length (drop_to_opt ts) ≤ length ts.
Proof. induction ts as [|t ts IH]; cbn; [lia|]. destruct (is_opt t); cbn; lia. Qed.

(** A turn per argument is enough. *)
Lemma loop_settled n ts st : length ts < n → settled (loop n ts st).
Proof.
  revert ts st. induction n as [|n IH]; intros ts st H; [lia|]. cbn [loop].
  destruct (existsb is_opt ts) eqn:E; [|done].
  destruct ts as [|[s| |o] rest]; [done| | |].
  1,2: apply settled_bind; [apply consume_positionals_settled|]; intros [st' [|k]]; apply IH;
    [cbn [drop_to_opt is_opt]; pose proof (drop_to_opt_length rest)|rewrite length_drop]; cbn in *; lia.
  apply settled_bind; [apply consume_optional_settled|]. intros [st' k]. apply IH. rewrite length_drop. cbn in H. lia.
Qed.

Lemma parse_args_settled P argv : settled (parse_args P argv).
Proof.
  unfold parse_args. apply settled_bind; [apply tokens_settled|]. intros ts.
  apply settled_bind; [apply loop_settled; lia|]. intros [st ts'].
  apply settled_bind; [apply consume_positionals_settled|]. intros [st' k].
  destruct (_ || _ || _); [apply settled_error|done].
Qed.

(** ** Ordinary command lines: options with their values, then positionals *)

(** Options are long, different, and none of them is [--] or [--help]. *)
Definition long (o : option_spec) : Prop :=
  starts_with "--" (o_name o) = true ∧ o_name o ≠ "--help" ∧ o_name o ≠ "--".
Definition well_formed (P : parser) : Prop :=
  NoDup (o_name <$> options P) ∧ Forall long (options P) ∧ NoDup (defaults P).*1.
#[export] Instance well_formed_dec P : Decision (well_formed P).
Proof. unfold well_formed, long. apply _. Defined.

(** A text that is not taken for an option. *)
Definition argument (P : parser) (s : string) : Prop := s ≠ "--" ∧ classify P s = Ok (TArg s).

Lemma argument_plain P s : starts_with "-" s = false → argument P s.
Proof. unfold argument, classify. intros H. rewrite H. split; [by intros ->|done]. Qed.

(** An option and the text after it; a flag has none. *)
Definition given : Type := option_spec * string.
Definition given_name (g : given) : string := o_name g.1.
Definition written (g : given) : list string :=
  match o_conv g.1 with None => [o_name g.1] | Some _ => [o_name g.1; g.2] end.
Definition meaning (g : given) : res value :=
  match o_conv g.1 with None => Ok (VBool true) | Some c => get_values One c (o_choices g.1) [g.2] end.

Fixpoint given_state (gs : list given) (st : state) : res state :=
  match gs with
  | [] => Ok st
  | g :: gs => v ← meaning g; given_state gs (store (given_name g) v st)
  end.

Section ordinary.
Context (P : parser) (HP : well_formed P).

Lemma tokens_arguments pos : Forall (argument P) pos → tokens P pos = Ok (TArg <$> pos).
Proof.
  induction 1 as [|s pos [Hne%String.eqb_neq Hc] Hs IH]; [done|]. cbn [tokens]. by rewrite Hne, Hc, IH.
Qed.

Lemma find_option_elem o : o ∈ options P → find_option P (o_name o) = Some o.
Proof.
  unfold find_option. destruct HP as [H _]. revert H.
  generalize (options P). intros l Hl Ho. induction l as [|o' l IH]; [by apply elem_of_nil in Ho|].
  rewrite fmap_cons, list.NoDup_cons in Hl. destruct Hl as [Hn Hl].
  rewrite filter_cons. apply elem_of_cons in Ho as [->|Ho]; [by rewrite decide_True|].
  rewrite decide_False; [auto|]. intros E. apply Hn. rewrite E. by apply list_elem_of_fmap_2.
Qed.

Lemma classify_option o : o ∈ options P → classify P (o_name o) = Ok (TOpt (Known o None)) ∧ o_name o ≠ "--".
Proof.
  intros Ho. destruct HP as (_ & Hl & _). rewrite list.Forall_forall in Hl. destruct (Hl o Ho) as (H1 & H2 & H3).
  split; [|done]. unfold classify. destruct (starts_with_split _ _ H1) as (t & Et). rewrite Et at 1.
  change ("--" +:+ t) with (String "-" (String "-" t)). cbn [starts_with Ascii.eqb Bool.eqb andb negb].
  unfold exact_option. apply String.eqb_neq in H2. rewrite H2.
  destruct (String.eqb_spec (o_name o) "-h") as [E|_]; [by rewrite E in Et|]. by rewrite find_option_elem.
Qed.

Lemma str_Z_negative z : (z < 0)%Z → str_Z z = "-" +:+ str_Z (- z).
Proof. by destruct z. Qed.

(** What starts with one dash is no option of the parser, help apart. *)
Lemma exact_option_short s e : starts_with "--" s = false → starts_with "-h" s = false → exact_option P s e = None.
Proof.
  intros Hs Hh. unfold exact_option. destruct (String.eqb_spec s "--help") as [->|_]; [done|].
  destruct (String.eqb_spec s "-h") as [->|_]; [done|].
  destruct (find_option P s) as [o|] eqn:E; [|done]. unfold find_option in E.
  apply head_Some_elem_of, list_elem_of_filter in E as [E Ho]. destruct HP as (_ & HL & _).
  rewrite list.Forall_forall in HL. destruct (HL o Ho) as [H _]. rewrite E in H. congruence.
Qed.

(** The text of an integer is an argument, whatever its sign. *)
Lemma argument_int (z : Z) : argument P (str_Z z).
Proof.
  destruct (Z_lt_le_dec z 0%Z) as [Hz|Hz].
  2: { apply argument_plain. pose proof (str_Z_digits z Hz) as H. destruct (str_Z z) as [|c t]; [done|].
       cbn [str_all] in H. apply andb_true_iff in H as [H _]. cbn [starts_with].
       by destruct (Ascii.eqb_spec "-" c) as [<-|]. }
  rewrite str_Z_negative by done. set (d := str_Z (- z)).
  assert (str_all is_digit d = true) as Hd by (apply str_Z_digits; lia).
  assert (1 ≤ String.length d)%nat as Hl by apply str_Z_length.
  assert (∀ c, is_digit c = false → starts_with (String "-" (String c "")) ("-" +:+ d) = false) as Hs.
  { intros c Hc. destruct d as [|c' d']; [done|]. cbn [str_all] in Hd. apply andb_true_iff in Hd as [Hc' _].
    rewrite str_app_cons, str_app_nil_l. cbn [starts_with]. destruct (Ascii.eqb_spec c c') as [->|]; [congruence|]. by destruct (Ascii.eqb _ _). }
  pose proof (Hs "-"%char eq_refl) as Hs1. pose proof (Hs "h"%char eq_refl) as Hs2.
  split; [by intros E; rewrite E in Hs1|]. unfold classify. rewrite starts_with_app. cbn [negb].
  rewrite exact_option_short by done.
  destruct (String.eqb_spec ("-" +:+ d) "-") as [E|_]; [destruct d; [cbn in Hl; lia|done]|].
  assert (split_at "=" ("-" +:+ d) = None) as ->.
  { apply split_at_none. change (no_char "=" (String "-" d)). unfold no_char. cbn [str_all].
    apply andb_true_iff. split; [done|]. eapply str_all_impl; [|exact Hd]. apply ascii_impl. vm_compute. reflexivity. }
  unfold abbreviated. rewrite Hs1, Hs2.
  assert (∃ m, re_match negative_number ("-" +:+ d) = Some m) as (m & ->); [|done].
  eexists. apply re_match_hit, hit_alt_l. unfold RSeqs. cbn [foldr].
  eapply hit_seq; [apply hit_begin|]. cbn [m_before m_after].
  eapply hit_seq; [apply hit_str|]. cbn [m_before m_after].
  eapply hit_seq. { rewrite <-(str_app_nil_r d). by apply hit_many. } cbn [m_before m_after].
  eapply hit_seq; [done|]. apply hit_empty.
Qed.

Definition given_ok (g : given) : Prop := g.1 ∈ options P ∧ argument P g.2.
Definition given_tokens (g : given) : list token :=
  TOpt (Known g.1 None) :: match o_conv g.1 with None => [] | Some _ => [TArg g.2] end.

Lemma tokens_written gs rest ts : Forall given_ok gs → tokens P rest = Ok ts →
  tokens P ((gs ≫= written) ++ rest) = Ok ((gs ≫= given_tokens) ++ ts).
Proof.
  intros H Hts. induction H as [|g gs [Ho [Hne%String.eqb_neq Hs]] _ IH]; [done|]. cbn [mbind list_bind].
  destruct (classify_option _ Ho) as [Hc Hd]. apply String.eqb_neq in Hd.
  unfold written at 1, given_tokens at 1. destruct (o_conv g.1); cbn [app tokens];
    by rewrite ?Hd, ?Hne, Hc, ?Hs, IH.
Qed.

Lemma loop_given n gs pos st : length gs < n →
  loop n ((gs ≫= given_tokens) ++ (TArg <$> pos)) st = (st ← given_state gs st; Ok (st, TArg <$> pos)).
Proof.
  revert n st. induction gs as [|g gs IH]; intros [|n] st Hn; cbn in Hn; try lia.
  - cbn [mbind list_bind app loop]. replace (existsb is_opt (TArg <$> pos)) with false; [done|].
    induction pos; [done|]. by cbn.
  - cbn [mbind list_bind]. unfold given_tokens at 1. cbn [app loop existsb is_opt orb given_state].
    unfold meaning, given_name. cbn [consume_optional].
    destruct (o_conv g.1); cbn [app].
    + destruct (get_values _ _ _ [g.2]); [|done]. cbn -[loop]. apply IH. lia.
    + cbn -[loop]. apply IH. lia.
Qed.

Lemma parse_given gs pos : Forall given_ok gs → Forall (argument P) pos →
  parse_args P ((gs ≫= written) ++ pos)
  = (st ← given_state gs (State (defaults P) [] (positionals P) false);
     '(st, k) ← consume_positionals (TArg <$> pos) st;
     if missing P st || extras st || negb (length (drop k (TArg <$> pos)) =? 0) then usage_error else Ok (namespace st)).
Proof.
  intros Hg Hp. unfold parse_args. rewrite (tokens_written gs pos (TArg <$> pos)); [|done|by apply tokens_arguments].
  cbn [mbind res_bind]. rewrite loop_given; [by destruct (given_state gs _)|].
  rewrite length_app. enough (length gs ≤ length (gs ≫= given_tokens)) by lia.
  clear. induction gs as [|g gs IH]; [done|]. cbn [mbind list_bind]. rewrite length_app.
  unfold given_tokens at 1. cbn [length] in *. cbn in IH |- *. lia.
Qed.

Lemma meaning_converted o c s : argument P s → o_conv o = Some c → o_choices o = None → meaning (o, s) = convert c s.
Proof.
  intros [Hne _] Hc Hcs. unfold meaning. cbn [fst snd]. rewrite Hc, Hcs. unfold get_values. cbn [remove_first].
  destruct (String.eqb_spec "--" s) as [<-|_]; [done|]. by destruct (convert c s).
Qed.

Lemma given_state_values gs vs st : Forall2 (λ g v, meaning g = Ok v) gs vs →
  given_state gs st = Ok (foldl (λ st '(g, v), store (given_name g) v st) st (zip gs vs)).
Proof. intros H. revert st. induction H as [|g v gs vs Hg _ IH]; intros st; [done|]. cbn. rewrite Hg. apply IH. Qed.

(** Every option once, with these texts. *)
Lemma given_ok_zip ss : Forall (argument P) ss → Forall (given_ok) (zip (options P) ss).
Proof.
  intros H. apply list.Forall_forall. intros [o s] Hin. split.
  - by apply elem_of_zip_l in Hin.
  - rewrite list.Forall_forall in H. apply H. by apply elem_of_zip_r in Hin.
Qed.
Lemma given_names_zip ss : length ss = length (options P) → given_name <$> zip (options P) ss = o_name <$> options P.
Proof.
  intros H. unfold given_name. rewrite <-(fst_zip (options P) ss) at 2 by lia. by rewrite <-list_fmap_compose.
Qed.

(** *** The order of the options does not matter *)

(** Two states that differ at most in the order in which options were met. *)
Definition alike (st st' : state) : Prop :=
  namespace st = namespace st' ∧ seen st ≡ₚ seen st' ∧ pending st = pending st' ∧ extras st = extras st'.
Definition alike_res {A} (R : A → A → Prop) (r r' : res A) : Prop :=
  match r, r' with Ok a, Ok b => R a b | Raise e, Raise e' => e = e' | _, _ => False end.

Lemma store_alike name v st st' : alike st st' → alike (store name v st) (store name v st').
Proof. intros (E & Hs & Hp & He). unfold alike, store. cbn. by rewrite E, Hs, Hp, He. Qed.

Lemma given_state_alike gs st st' : alike st st' → alike_res alike (given_state gs st) (given_state gs st').
Proof.
  revert st st'. induction gs as [|g gs IH]; intros st st' H; [done|]. cbn [given_state].
  destruct (meaning g); [|done]. by apply IH, store_alike.
Qed.

Lemma store_swap n n' v v' st : n ≠ n' → n ∈ (namespace st).*1 → n' ∈ (namespace st).*1 →
  alike (store n v (store n' v' st)) (store n' v' (store n v st)).
Proof.
  intros Hne H H'. unfold alike, store. cbn. split; [by apply dict_set_swap|]. split; [constructor|done].
Qed.

Lemma convert_error c s e : convert c s = Raise e → e = SystemExit 2.
Proof.
  destruct c; cbn; try done.
  - destruct (py_int s); [done|]. by intros [= <-].
  - destruct (py_float s); [done|]. by intros [= <-].
Qed.
Lemma check_choice_error cs s v e : check_choice cs s v = Raise e → e = SystemExit 2.
Proof. destruct cs; cbn; [|done]. case_bool_decide; [done|]. by intros [= <-]. Qed.
Lemma meaning_error g e : meaning g = Raise e → e = SystemExit 2.
Proof.
  unfold meaning, get_values. destruct (o_conv g.1); [|done].
  cbn [remove_first]. destruct (String.eqb "--" g.2); [done|]. cbn [mbind res_bind].
  destruct (convert c g.2) eqn:E; [apply check_choice_error|]. intros [= <-]. by eapply convert_error.
Qed.

Lemma alike_res_trans r1 r2 r3 : alike_res alike r1 r2 → alike_res alike r2 r3 → alike_res alike r1 r3.
Proof.
  destruct r1, r2, r3; cbn; try done; [|congruence].
  intros (E & Hs & Hp & He) (E' & Hs' & Hp' & He'). unfold alike. by rewrite E, Hs, Hp, He.
Qed.

Lemma given_state_order gs gs' st : gs ≡ₚ gs' → NoDup (given_name <$> gs) →
  Forall (λ g, given_name g ∈ (namespace st).*1) gs → alike_res alike (given_state gs st) (given_state gs' st).
Proof.
  intros Hp. revert st. induction Hp as [|g gs gs' Hp IH|g g' gs|gs gs' gs'' Hp IH Hp' IH']; intros st Hn Hk.
  - done.
  - cbn [given_state]. destruct (meaning g); [|done]. cbn [mbind res_bind].
    rewrite fmap_cons, list.NoDup_cons in Hn. apply Forall_cons_iff in Hk as [Hg Hk].
    apply IH; [tauto|]. revert Hk. apply Forall_impl. intros g' ?. cbn. rewrite dict_set_keys. auto.
  - cbn [given_state].
    destruct (meaning g') eqn:E', (meaning g) eqn:E; cbn [mbind res_bind]; try done.
    + rewrite !fmap_cons, !list.NoDup_cons, not_elem_of_cons in Hn. destruct Hn as [[Hne _] _].
      apply Forall_cons_iff in Hk as [Hg Hk]. apply Forall_cons_iff in Hk as [Hg' _].
      by apply given_state_alike, store_swap.
    + apply meaning_error in E as ->. by apply meaning_error in E' as ->.
  - eapply alike_res_trans; [by apply IH|]. apply IH'; [by rewrite <-Hp|by rewrite <-Hp].
Qed.

Lemma take_positionals_alike ps counts ts st st' :
  alike st st' → alike_res alike (take_positionals ps counts ts st) (take_positionals ps counts ts st').
Proof.
  revert counts ts st st'. induction ps as [|p ps IH]; intros [|n counts] ts st st' H; cbn [take_positionals]; try done.
  destruct (get_values _ _ _ _); [|done]. apply IH. destruct H as (E & Hs & Hp & He).
  unfold alike. cbn. by rewrite E.
Qed.

Lemma missing_alike st st' : alike st st' → missing P st = missing P st'.
Proof.
  intros (E & Hs & Hp & He). unfold missing. rewrite Hp. f_equal.
  induction (options P) as [|o l IH]; [done|]. cbn [existsb]. rewrite IH. do 3 f_equal.
  apply bool_decide_ext. by rewrite Hs.
Qed.

Lemma parse_order gs gs' pos : gs ≡ₚ gs' → NoDup (given_name <$> gs) → Forall given_ok gs → Forall (argument P) pos →
  parse_args P ((gs ≫= written) ++ pos) = parse_args P ((gs' ≫= written) ++ pos).
Proof.
  intros Hp Hn Hg Hpos. rewrite !parse_given by (done || by rewrite <-Hp).
  assert (alike_res alike (given_state gs (State (defaults P) [] (positionals P) false))
    (given_state gs' (State (defaults P) [] (positionals P) false))) as H.
  { apply given_state_order; [done..|]. revert Hg. apply Forall_impl. intros g [Ho _]. cbn.
    unfold defaults. rewrite fmap_app, elem_of_app, <-list_fmap_compose. left.
    change (given_name g) with ((fst ∘ (λ o, (o_name o, o_default o))) g.1). by apply list_elem_of_fmap_2. }
  destruct (given_state gs _) as [st|e], (given_state gs' _) as [st'|e']; cbn in H; [|done|done|by subst].
  cbn [mbind res_bind]. destruct H as (E & Hs & Hpe & He).
  assert (alike st st') as Hst by done. unfold consume_positionals. rewrite <-Hpe.
  set (counts := match_partial _ _ _).
  pose proof (take_positionals_alike (pending st) counts (TArg <$> pos) st st' Hst) as H.
  destruct (take_positionals (pending st) counts _ st) as [st1|e1],
    (take_positionals (pending st) counts _ st') as [st1'|e1']; cbn in H; [|done|done|by subst].
  cbn [mbind res_bind]. destruct H as (E1 & Hs1 & Hpe1 & He1).
  rewrite (missing_alike (set_pending (drop (length counts) (pending st)) st1)
    (set_pending (drop (length counts) (pending st)) st1')); [|done].
  cbn. by rewrite He1, E1.
Qed.
End ordinary.

(** ** What a namespace holds *)

(** A value read from the command line for an option or a positional. *)
Definition fits (o : option_spec) (v : value) : Prop :=
  match o_conv o with
  | None => v = VBool true
  | Some c => ∃ s, get_values One c (o_choices o) [s] = Ok v
  end.
Definition fits_positional (p : positional) (v : value) : Prop :=
  ∃ l, get_values (p_nargs p) (p_conv p) None l = Ok v.

Lemma elem_of_drop_sub {A} n (l : list A) x : x ∈ drop n l → x ∈ l.
Proof. intros H. rewrite <-(take_drop n l). set_solver. Qed.

Section typed.
Context (P : parser) (HP : well_formed P).

Definition own (t : token) : Prop := match t with TOpt (Known o _) => o ∈ options P | _ => True end.

Record typed (st : state) : Prop := {
  typed_options : ∀ o, o ∈ options P → ∃ v, dict_get (o_name o) (namespace st) = Some v ∧
    (fits o v ∨ v = o_default o);
  typed_met : ∀ o, o ∈ options P → o_name o ∈ seen st →
    ∃ v, dict_get (o_name o) (namespace st) = Some v ∧ fits o v;
  typed_positionals : ∃ done, positionals P = done ++ pending st ∧
    (∀ p, p ∈ done → ∃ v, dict_get (p_name p) (namespace st) = Some v ∧ fits_positional p v) ∧
    (∀ p, p ∈ pending st → dict_get (p_name p) (namespace st) = Some VNone);
}.

Lemma option_name_inj o o' : o ∈ options P → o' ∈ options P → o_name o = o_name o' → o = o'.
Proof.
  intros H H' E. pose proof (find_option_elem P HP o H) as F. rewrite E, find_option_elem in F by done. congruence.
Qed.

Lemma defaults_keys : (defaults P).*1 = (o_name <$> options P) ++ (p_name <$> positionals P).
Proof. unfold defaults. by rewrite fmap_app, <-!list_fmap_compose. Qed.
Lemma names_apart o p : o ∈ options P → p ∈ positionals P → o_name o ≠ p_name p.
Proof.
  intros Ho Hp E. destruct HP as (_ & _ & H). rewrite defaults_keys, list.NoDup_app in H. destruct H as (_ & H & _).
  apply (H (o_name o)); [by apply list_elem_of_fmap_2|]. rewrite E. by apply list_elem_of_fmap_2.
Qed.
Lemma positional_names : NoDup (p_name <$> positionals P).
Proof. destruct HP as (_ & _ & H). rewrite defaults_keys, list.NoDup_app in H. tauto. Qed.

Lemma typed_start : typed (State (defaults P) [] (positionals P) false).
Proof.
  destruct HP as (_ & _ & H). split; cbn [namespace seen pending].
  - intros o Ho. exists (o_default o). split; [|by right]. apply dict_get_NoDup; [done|].
    apply elem_of_app. left. apply list_elem_of_fmap. by exists o.
  - by intros o _ ?%elem_of_nil.
  - exists []. split; [done|]. split; [by intros p ?%elem_of_nil|]. intros p Hp. apply dict_get_NoDup; [done|].
    apply elem_of_app. right. apply list_elem_of_fmap. by exists p.
Qed.

Lemma typed_store o v st : o ∈ options P → fits o v → typed st → typed (store (o_name o) v st).
Proof.
  intros Ho Hv [H1 H2 (dn & Hd & H3 & H4)].
  assert (∀ p, p ∈ positionals P → dict_get (p_name p) (dict_set (o_name o) v (namespace st))
    = dict_get (p_name p) (namespace st)) as Hp by (intros p Hp; by apply dict_get_set_ne, names_apart).
  split; cbn [store namespace seen pending].
  - intros o' Ho'. destruct (decide (o_name o = o_name o')) as [E|Hne].
    + apply option_name_inj in E as <-; [|done..]. exists v. split; [apply dict_get_set_eq|by left].
    + rewrite dict_get_set_ne by done. by apply H1.
  - intros o' Ho' Hs. destruct (decide (o_name o = o_name o')) as [E|Hne].
    + apply option_name_inj in E as <-; [|done..]. exists v. split; [apply dict_get_set_eq|done].
    + rewrite dict_get_set_ne by done. apply H2; [done|]. apply elem_of_cons in Hs as [?|?]; congruence.
  - exists dn. split; [done|]. rewrite Hd in Hp. split; intros p Hin; rewrite Hp by set_solver; auto.
Qed.

Lemma typed_extra st : typed st → typed (add_extra st).
Proof. by intros [H1 H2 H3]. Qed.

Lemma consume_optional_typed o rest st st' k :
  own (TOpt o) → typed st → consume_optional o rest st = Ok (st', k) → typed st'.
Proof.
  intros Ho Hst. destruct o as [o e|short [e|]|]; cbn [consume_optional own] in *.
  - assert (∀ c s k', o_conv o = Some c →
      (v ← get_values One c (o_choices o) [s]; Ok (store (o_name o) v st, k')) = Ok (st', k) → typed st') as Hc.
    { intros c s k' Ec. destruct (get_values One c (o_choices o) [s]) as [v|] eqn:E; [|done]. intros [= <- _].
      apply typed_store; [done| |done]. unfold fits. rewrite Ec. by exists s. }
    destruct (o_conv o) as [c|] eqn:Ec, e as [e|]; try done.
    + by apply Hc.
    + destruct rest as [|[s| |] rest]; try done. by apply Hc.
    + intros [= <- _]. apply typed_store; [done| |done]. unfold fits. by rewrite Ec.
  - by destruct (short && _ && _).
  - done.
  - intros [= <- _]. by apply typed_extra.
Qed.

Lemma take_positionals_spec ps counts ts st st' :
  NoDup (p_name <$> ps) → take_positionals ps counts ts st = Ok st' →
  seen st' = seen st ∧ pending st' = pending st ∧ extras st' = extras st ∧
  (∀ n, n ∉ p_name <$> take (length counts) ps → dict_get n (namespace st') = dict_get n (namespace st)) ∧
  (∀ p, p ∈ take (length counts) ps → ∃ v, dict_get (p_name p) (namespace st') = Some v ∧ fits_positional p v).
Proof.
  revert counts ts st. induction ps as [|p ps IH]; intros [|n counts] ts st Hn; cbn [take_positionals take length].
  1-3: intros [= <-]; split_and!; try done; by intros ? ?%elem_of_nil.
  intros (v & Hv & Ht)%res_bind_ok. rewrite fmap_cons, list.NoDup_cons in Hn. destruct Hn as [Hp Hn].
  destruct (IH _ _ _ Hn Ht) as (Hs & Hpe & He & Hk & Hset). cbn [seen pending extras namespace] in *.
  split_and!; [done..| |].
  - intros m. rewrite fmap_cons, not_elem_of_cons. intros [Hm Hm']. rewrite Hk by done. by apply dict_get_set_ne.
  - intros q [->|Hq]%elem_of_cons; [|by apply Hset]. exists v. split; [|by eexists].
    rewrite Hk; [apply dict_get_set_eq|]. intros Hin. apply Hp.
    apply list_elem_of_fmap in Hin as (q & -> & Hq). apply list_elem_of_fmap_2.
    by eapply elem_of_take in Hq as (i & Hq%list_elem_of_lookup_2 & _).
Qed.

Lemma match_partial_length k ps text : length (match_partial k ps text) ≤ k.
Proof.
  induction k as [|k IH]; cbn [match_partial]; [done|]. destruct (re_match _ _); [|lia].
  by rewrite length_fmap, length_seq.
Qed.

Lemma consume_positionals_typed ts st st' k : typed st → consume_positionals ts st = Ok (st', k) → typed st'.
Proof.
  intros [H1 H2 (dn & Hd & H3 & H4)]. unfold consume_positionals. set (counts := match_partial _ _ _).
  intros (st1 & Ht & [= <- _])%res_bind_ok.
  assert (NoDup (p_name <$> dn) ∧ NoDup (p_name <$> pending st) ∧
    ∀ p q, p ∈ dn → q ∈ pending st → p_name p ≠ p_name q) as (_ & Hn & Hne).
  { pose proof positional_names as Hn. rewrite Hd, fmap_app, list.NoDup_app in Hn. destruct Hn as (Hn1 & Hn2 & Hn3).
    split_and!; [done..|]. intros p q Hp Hq E. eapply (Hn2 (p_name p)); [by apply list_elem_of_fmap_2|].
    rewrite E. by apply list_elem_of_fmap_2. }
  destruct (take_positionals_spec _ _ _ _ _ Hn Ht) as (Hs & _ & _ & Hk & Hset).
  set (m := length counts) in *. rewrite <-(take_drop m (pending st)) in Hd, Hn.
  assert (∀ q, q ∈ take m (pending st) → q ∈ pending st) as Htk.
  { intros q Hq. by eapply elem_of_take in Hq as (i & Hq%list_elem_of_lookup_2 & _). }
  assert (∀ o, o ∈ options P → dict_get (o_name o) (namespace st1) = dict_get (o_name o) (namespace st)) as Ho.
  { intros o Ho. apply Hk. intros (q & E & Hq)%list_elem_of_fmap. eapply names_apart; [apply Ho| |apply E].
    rewrite Hd. set_solver. }
  split; cbn [set_pending namespace seen pending].
  - intros o Hin. rewrite Ho by done. auto.
  - intros o Hin Hsn. rewrite Ho by done. apply H2; [done|]. by rewrite <-Hs.
  - exists (dn ++ take m (pending st)). split; [by rewrite Hd, app_assoc|]. split.
    + intros p [Hp|Hp]%elem_of_app; [|by apply Hset]. destruct (H3 p Hp) as (v & Hg & Hf). exists v. split; [|done].
      rewrite Hk; [done|]. intros (q & E & Hq)%list_elem_of_fmap. by eapply Hne; [apply Hp|apply Htk, Hq|].
    + intros p Hp. rewrite Hk; [apply H4; by eapply elem_of_drop_sub|].
      intros (q & E & Hq)%list_elem_of_fmap. rewrite fmap_app, list.NoDup_app in Hn. destruct Hn as (_ & Hn & _).
      eapply (Hn (p_name q)); [by apply list_elem_of_fmap_2|]. rewrite <-E. by apply list_elem_of_fmap_2.
Qed.

Lemma exact_own name e o : exact_option P name e = Some o → own (TOpt o).
Proof.
  unfold exact_option. destruct (String.eqb name "--help"); [by intros [= <-]|].
  destruct (String.eqb name "-h"); [by intros [= <-]|]. intros (x & Hx & ->)%fmap_Some.
  unfold find_option in Hx. apply head_Some_elem_of, list_elem_of_filter in Hx as [_ Hx]. done.
Qed.

Lemma abbreviated_own s o : o ∈ abbreviated P s → own (TOpt o).
Proof.
  unfold abbreviated. destruct (starts_with "--" s).
  - destruct (match split_at "=" s with Some (p, e) => (p, Some e) | None => (s, None) end) as [prefix e].
    intros [H|(x & -> & Hx)%list_elem_of_fmap]%elem_of_app.
    + destruct (starts_with prefix "--help"); [|by apply elem_of_nil in H]. by apply list_elem_of_singleton in H as ->.
    + by apply list_elem_of_filter in Hx as [_ Hx].
  - destruct (starts_with "-h" s); [|by intros ?%elem_of_nil]. by intros ->%list_elem_of_singleton.
Qed.

Lemma classify_own s t : classify P s = Ok t → own t.
Proof.
  unfold classify. destruct (negb _); [by intros [= <-]|].
  destruct (exact_option P s None) eqn:E; [intros [= <-]; by eapply exact_own|].
  destruct (String.eqb s "-"); [by intros [= <-]|].
  destruct (split_at "=" s ≫= _) eqn:E'.
  { intros [= <-]. apply bind_Some in E' as ([name e] & _ & H). by eapply exact_own. }
  destruct (abbreviated P s) as [|o [|o' l]] eqn:Ea; [| |done].
  - destruct (match re_match negative_number s with Some _ => true | None => false end); [by intros [= <-]|].
    destruct (contains " " s); by intros [= <-].
  - intros [= <-]. apply (abbreviated_own s). rewrite Ea. by constructor.
Qed.

Lemma tokens_own argv ts : tokens P argv = Ok ts → Forall own ts.
Proof.
  revert ts. induction argv as [|a argv IH]; intros ts; cbn [tokens]; [by intros [= <-]|].
  destruct (String.eqb a "--").
  - intros [= <-]. constructor; [done|]. by apply Forall_fmap, Forall_true.
  - intros (t & Ht & (ts' & Hts & [= <-])%res_bind_ok)%res_bind_ok. constructor; [by eapply classify_own|auto].
Qed.

Lemma drop_to_opt_own ts : Forall own ts → Forall own (drop_to_opt ts).
Proof. induction 1 as [|t ts H Hs IH]; cbn; [done|]. destruct (is_opt t); [by constructor|done]. Qed.

Lemma loop_typed n ts st st' ts' : Forall own ts → typed st → loop n ts st = Ok (st', ts') → typed st'.
Proof.
  revert ts st. induction n as [|n IH]; intros ts st Ho Hst; cbn [loop]; [done|].
  destruct (existsb is_opt ts) eqn:E; [|by intros [= <- _]].
  assert ((r ← consume_positionals ts st; let '(st, k) := r in
    match k with O => loop n (drop_to_opt ts) (add_extra st) | S _ => loop n (drop k ts) st end) = Ok (st', ts') → typed st') as Hp.
  { intros ([st1 k] & Hc & H)%res_bind_ok. apply consume_positionals_typed in Hc; [|done].
    destruct k; (eapply IH; [| |exact H]).
    - by apply drop_to_opt_own.
    - by apply typed_extra.
    - by apply Forall_drop.
    - done. }
  destruct ts as [|[s| |o] rest]; [done|exact Hp..|].
  intros ([st1 k] & Hc & H)%res_bind_ok. apply Forall_cons_iff in Ho as [Ho Hr].
  eapply IH; [| |exact H]; [by apply Forall_drop|]. by eapply consume_optional_typed.
Qed.

(** A namespace has a value for every option and every positional, converted and
    among the choices; an option keeps its default only if it is not required. *)
Lemma parse_typed argv ns : parse_args P argv = Ok ns →
  (∀ o, o ∈ options P → ∃ v, dict_get (o_name o) ns = Some v ∧ (fits o v ∨ o_required o = false ∧ v = o_default o)) ∧
  (∀ p, p ∈ positionals P → ∃ v, dict_get (p_name p) ns = Some v ∧ fits_positional p v).
Proof.
  unfold parse_args. intros (ts & Ht & ([st ts1] & Hl & ([st' k] & Hc & H)%res_bind_ok)%res_bind_ok)%res_bind_ok.
  destruct (missing P st') eqn:Hm; [done|]. cbn [orb] in H.
  destruct (extras st' || _); [done|]. injection H as <-.
  apply loop_typed in Hl; [|by eapply tokens_own|apply typed_start].
  apply consume_positionals_typed in Hc as [H1 H2 (dn & Hd & H3 & H4)]; [|done].
  unfold missing in Hm. apply orb_false_iff in Hm as [Hmo Hmp]. split.
  - intros o Ho. destruct (o_required o) eqn:Er.
    + destruct (H2 o Ho) as (v & Hg & Hf); [|exists v; auto].
      destruct (decide (o_name o ∈ seen st')) as [|Hn]; [done|exfalso].
      enough (existsb (λ o, o_required o && negb (bool_decide (o_name o ∈ seen st'))) (options P) = true) by congruence.
      apply existsb_exists. exists o. split; [by apply list_elem_of_In|]. by rewrite Er, bool_decide_false.
    + destruct (H1 o Ho) as (v & Hg & [Hf|E]); exists v; auto.
  - intros p Hp. rewrite Hd in Hp. apply elem_of_app in Hp as [Hp|Hp]; [by apply H3|].
    exists VNone. split; [by apply H4|]. exists []. destruct (p_nargs p) eqn:En; [|done|..];
    (enough (existsb (λ p, match p_nargs p with Optional => false | _ => true end) (pending st') = true) by congruence;
     apply existsb_exists; exists p; split; [by apply list_elem_of_In|by rewrite En]).
Qed.
End typed.

Lemma get_values_one c cs s v : get_values One c cs [s] = Ok v →
  v = VList [] ∨ convert c s = Ok v ∧ match cs with Some l => s ∈ l | None => True end.
Proof.
  unfold get_values. cbn [remove_first]. destruct (String.eqb "--" s).
  - intros [= <-]. by left.
  - intros (v' & Hv & Hc)%res_bind_ok. right. destruct cs as [l|]; cbn in Hc; [|by injection Hc as <-].
    case_bool_decide; [|done]. by injection Hc as <-.
Qed.

(** The values of each type, read by [--name=--] apart. *)
Lemma fits_inv o v : fits o v →
  match o_conv o with
  | None => v = VBool true
  | Some AsStr => v = VList [] ∨ ∃ s, v = VText s ∧ match o_choices o with Some l => s ∈ l | None => True end
  | Some AsPath => v = VList [] ∨ ∃ s, v = VText s
  | Some AsInt => v = VList [] ∨ ∃ z, v = VInt z
  | Some AsFloat => v = VList [] ∨ ∃ x, v = VFloat x
  end.
Proof.
  unfold fits. destruct (o_conv o) as [c|]; [|done]. intros (s & [->|[Hc Hs]]%get_values_one); [by destruct c; left|].
  destruct c; cbn in Hc.
  - injection Hc as <-. right. by exists s.
  - destruct (py_int s); [|done]. injection Hc as <-. right. by eexists.
  - destruct (py_float s); [|done]. injection Hc as <-. right. by eexists.
  - injection Hc as <-. right. by eexists.
Qed.

(** ** A request for help *)

Definition help_request (arg : string) : Prop :=
  starts_with "-h" arg = true ∨ arg ∈ ["--h"; "--he"; "--hel"; "--help"].
Definition helps (t : token) : bool := match t with TOpt (Help true _) | TOpt (Help false None) => true | _ => false end.

(** What is wrong is status 2. *)
Definition wrong {A} (r : res A) : Prop := match r with Ok _ => True | Raise e => e = SystemExit 2 end.

Lemma wrong_bind {A B} (r : res A) (f : A → res B) : wrong r → (∀ a, wrong (f a)) → wrong (r ≫= f).
Proof. destruct r; simpl; auto. Qed.
Lemma wrong_fmap {A B} (f : A → B) (r : res A) : wrong r → wrong (f <$> r).
Proof. by destruct r. Qed.
Lemma wrong_mapM {A B} (f : A → res B) l : (∀ a, wrong (f a)) → wrong (mapM (M:=res) f l).
Proof.
  intros H. induction l as [|a l IH]; [done|]. cbn [mapM]. apply wrong_bind; [done|]. intros b. by apply wrong_bind.
Qed.

Lemma value_wrong c cs s : wrong (v ← convert c s; check_choice cs s v).
Proof.
  apply wrong_bind.
  - destruct (convert c s) eqn:E; [done|]. by apply convert_error in E.
  - intros v. destruct (check_choice cs s v) eqn:E; [done|]. by apply check_choice_error in E.
Qed.
Lemma get_values_wrong n c cs l : wrong (get_values n c cs l).
Proof.
  pose proof (value_wrong c cs) as H. unfold get_values.
  destruct n, (remove_first "--" l) as [|s [|]]; first [done|apply H|apply wrong_fmap, wrong_mapM; intros; apply H].
Qed.
Lemma consume_positionals_wrong ts st : wrong (consume_positionals ts st).
Proof.
  unfold consume_positionals. apply wrong_bind; [|done]. generalize (match_partial (length (pending st)) (pending st) (pattern_text ts)).
  generalize (pending st). intros ps. revert ts st. induction ps as [|p ps IH]; intros ts st [|n counts]; cbn [take_positionals]; try done.
  apply wrong_bind; [apply get_values_wrong|]. intros v. apply IH.
Qed.
Lemma tokens_wrong P argv : wrong (tokens P argv).
Proof.
  induction argv as [|a argv IH]; cbn [tokens]; [done|]. destruct (String.eqb a "--"); [done|].
  apply wrong_bind; [|by intros; apply wrong_bind]. unfold classify. by repeat case_match.
Qed.

Lemma consume_optional_help o rest st : consume_optional o rest st = Raise (SystemExit 0) → helps (TOpt o) = true.
Proof.
  pose proof (λ c cs s, get_values_wrong One c cs [s]) as Hg.
  destruct o as [o e|[] [e|]|]; try done; cbn [consume_optional].
  - destruct (o_conv o) as [c|], e as [e|]; [| |done|done].
    + specialize (Hg c (o_choices o) e). destruct (get_values _ _ _ [e]); [done|]. cbn in Hg. by subst.
    + destruct rest as [|[s| |] rest]; try done. specialize (Hg c (o_choices o) s). destruct (get_values _ _ _ [s]); [done|]. cbn in Hg. by subst.
Qed.

Lemma loop_help n ts st : loop n ts st = Raise (SystemExit 0) → ∃ t, t ∈ ts ∧ helps t = true.
Proof.
  revert ts st. induction n as [|n IH]; intros ts st; cbn [loop]; [done|].
  destruct (existsb is_opt ts); [|done].
  assert (∀ x, x ∈ drop_to_opt ts → x ∈ ts) as Hd.
  { clear. induction ts as [|t ts IHt]; intros x; cbn [drop_to_opt]; [done|]. destruct (is_opt t); [done|]. intros ?%IHt. by right. }
  assert ((r ← consume_positionals ts st; let '(st, k) := r in
    match k with O => loop n (drop_to_opt ts) (add_extra st) | S _ => loop n (drop k ts) st end) = Raise (SystemExit 0) →
    ∃ t, t ∈ ts ∧ helps t = true) as Hp.
  { pose proof (consume_positionals_wrong ts st) as Hw. destruct (consume_positionals ts st) as [[st' k]|e]; cbn [mbind res_bind].
    - destruct k; intros (t & Ht & Hh)%IH; exists t; (split; [|done]); [by apply Hd|by eapply elem_of_drop_sub].
    - cbn in Hw. by subst. }
  destruct ts as [|[s| |o] rest]; [done|exact Hp..|].
  destruct (consume_optional o rest st) as [[st' k]|e] eqn:E; cbn [mbind res_bind].
  - intros (t & Ht & Hh)%IH. exists t. split; [|done]. right. by eapply elem_of_drop_sub.
  - intros [= ->]. exists (TOpt o). split; [left|]. by eapply consume_optional_help.
Qed.

Lemma prefix_of_help s : starts_with "--" s = true → starts_with s "--help" = true → s ≠ "--" → help_request s.
Proof.
  intros (u & ->)%starts_with_split (t & E)%starts_with_split Hne. right.
  rewrite str_app_assoc in E. change ("--" +:+ "help" = "--" +:+ u +:+ t) in E. apply (inj (String.append "--")) in E.
  destruct u as [|? u]; [done|]. rewrite str_app_cons in E. injection E as <- E.
  destruct u as [|? u]; [left|]. rewrite str_app_cons in E. injection E as <- E.
  destruct u as [|? u]; [right; left|]. rewrite str_app_cons in E. injection E as <- E.
  destruct u as [|? u]; [right; right; left|]. rewrite str_app_cons in E. injection E as <- E.
  destruct u as [|? u]; [right; right; right; left|]. by rewrite str_app_cons in E.
Qed.

Lemma exact_help P s e o : exact_option P s e = Some o → helps (TOpt o) = true → s = "--help" ∧ e = None ∨ s = "-h".
Proof.
  unfold exact_option. destruct (String.eqb_spec s "--help") as [->|_].
  - intros [= <-]. destruct e; [done|]. by left.
  - destruct (String.eqb_spec s "-h") as [->|_]; [by right|]. by destruct (find_option P s); [intros [= <-]|].
Qed.

Lemma classify_help P s t : classify P s = Ok t → helps t = true → s ≠ "--" → help_request s.
Proof.
  unfold classify. destruct (negb _); [by intros [= <-]|].
  destruct (exact_option P s None) as [o|] eqn:E.
  { intros [= <-] [[-> _]| ->]%(exact_help _ _ _ _ E) _; [|by left]. right. set_solver. }
  destruct (String.eqb s "-"); [by intros [= <-]|].
  destruct (split_at "=" s ≫= _) eqn:E'.
  { apply bind_Some in E' as ([name e] & Hs & Ho). intros [= <-] [[-> [=]]| ->]%(exact_help _ _ _ _ Ho) _. left.
    apply split_at_sound in Hs as ->. apply starts_with_app. }
  destruct (abbreviated P s) as [|o [|o' l]] eqn:Ea; [| |done].
  - destruct (match re_match negative_number s with Some _ => true | None => false end); [by intros [= <-]|].
    destruct (contains " " s); by intros [= <-].
  - intros [= <-] Hh Hne. unfold abbreviated in Ea. destruct (starts_with "--" s) eqn:Hs.
    + assert (o ∈ [o]) as Ho by left. rewrite <-Ea in Ho.
      destruct (split_at "=" s) as [[prefix e]|].
      * apply elem_of_app in Ho as [Ho|(x & -> & _)%list_elem_of_fmap]; [|done].
        destruct (starts_with prefix "--help"); [|by apply elem_of_nil in Ho]. by apply list_elem_of_singleton in Ho as ->.
      * apply elem_of_app in Ho as [Ho|(x & -> & _)%list_elem_of_fmap]; [|done].
        destruct (starts_with s "--help") eqn:Hp; [|by apply elem_of_nil in Ho]. by apply prefix_of_help.
    + destruct (starts_with "-h" s) eqn:Hh'; [by left|done].
Qed.

(** Status 0 without a namespace: help was asked for. *)
Lemma parse_help P argv : parse_args P argv = Raise (SystemExit 0) → ∃ arg, arg ∈ argv ∧ help_request arg.
Proof.
  intros H. assert (∃ ts t, tokens P argv = Ok ts ∧ t ∈ ts ∧ helps t = true) as (ts & t & Hts & Ht & Hh).
  { unfold parse_args in H. pose proof (tokens_wrong P argv) as Hw. destruct (tokens P argv) as [ts|e]; cbn [mbind res_bind] in H.
    2: { cbn in Hw. by subst. }
    exists ts. destruct (loop _ ts _) as [[st ts']|e] eqn:E; cbn [mbind res_bind] in H.
    - pose proof (consume_positionals_wrong ts' st) as Hc. destruct (consume_positionals ts' st) as [[st' k]|e]; cbn [mbind res_bind] in H.
      + by destruct (_ || _ || _).
      + cbn in Hc. by subst.
    - injection H as ->. apply loop_help in E as (t & ? & ?). by exists t. }
  clear H. revert ts Hts Ht. induction argv as [|a argv IH]; intros ts; cbn [tokens]; [intros [= <-] ?%elem_of_nil; done|].
  destruct (String.eqb_spec a "--") as [|Hne].
  - intros [= <-] [->|(s & -> & _)%list_elem_of_fmap]%elem_of_cons; done.
  - intros (t' & Ht' & (ts' & Hts & [= <-])%res_bind_ok)%res_bind_ok [->|Hin]%elem_of_cons.
    + exists a. split; [left|]. by eapply classify_help.
    + destruct (IH ts' Hts Hin) as (arg & ? & ?). exists arg. split; [by right|done].
Qed.
