(* ===== verification/PyRandom.v ===== *)
(** Python's [random.Random], as the interface the generators are written
    against.  The four operations that read the generator's state are a class;
    [randint], [choice] and [choices] are built on them as CPython's
    [random.py] builds them.  The laws are the documented ranges of the three
    draws, and every theorem about a generator is proved for any instance that
    obeys them.  [Mt19937] is an instance: CPython's Mersenne Twister with its
    seeding, so the model runs on a seed as the tools do. *)
From S2P Require Export Prelude PyFloat.
Local Open Scope Z_scope.

(** ** The interface *)

Class PyRandom (G : Type) := {
(** [random.Random(seed)] *)
rng_seed : Z → G;
(** [rng.random()] is [k * 2^-53]; this draws [k]. *)
rng_bits53 : G → Z * G;
(** [rng._randbelow(n)] for [n > 0] *)
rng_below : Z → G → Z * G;
(** [rng.getrandbits(k)] for [k >= 0] *)
rng_bits : Z → G → Z * G;
}.

Class PyRandomLaws (G : Type) `{PyRandom G} : Prop := {
  rng_bits53_range g : 0 ≤ (rng_bits53 g).1 < 2 ^ 53;
  rng_below_range n g : 0 < n → 0 ≤ (rng_below n g).1 < n;
  rng_bits_range k g : 0 ≤ k → 0 ≤ (rng_bits k g).1 < 2 ^ k;
}.

Section derived.
Context {G : Type} `{PyRandom G}.

(** [rng.random()] *)
Definition random (g : G) : pyfloat * G :=
  let '(k, g) := rng_bits53 g in (float_of k (-53), g).

(** [rng.randint(a, b)]: [randrange(a, b + 1)]. *)
Definition randint (a b : Z) (g : G) : res (Z * G) :=
  let width := b + 1 - a in
  if 0 <? width then let '(r, g) := rng_below width g in Ok (a + r, g)
  else Raise (ValueError "empty range for randrange()").

(** [rng.choice(seq)] *)
Definition choice {A} (l : list A) (g : G) : res (A * G) :=
  match l with
  | [] => Raise (IndexError "Cannot choose from an empty sequence")
  | _ =>
      let '(i, g) := rng_below (Z.of_nat (length l)) g in
      match l !! Z.to_nat i with
      | Some x => Ok (x, g)
      | None => Raise (IndexError "list index out of range")
      end
  end.

(** [bisect(cum_weights, x, 0, len - 1)]: the first index whose cumulated
    weight is above [x], the last index when none before it is. *)
Fixpoint bisect_weights {A} (acc : Z) (l : list (A * Z)) (x : pyfloat) : option A :=
  match l with
  | [] => None
  | [(v, _)] => Some v
  | (v, w) :: l =>
      if float_lt x (float_of_Z (acc + w)) then Some v
      else bisect_weights (acc + w) l x
  end.

(** [rng.choices(population, weights=weights, k=1)[0]] with integer weights:
    the float [random() * total] is looked up in the cumulated weights. *)
Definition choices1 {A} (l : list (A * Z)) (g : G) : res (A * G) :=
  let total := foldr Z.add 0 (snd <$> l) in
  if total <=? 0 then Raise (ValueError "Total of weights must be greater than zero")
  else
    let '(f, g) := random g in
    match bisect_weights 0 l (float_mul f (float_of_Z total)) with
    | Some x => Ok (x, g)
    | None => Raise (IndexError "list index out of range")
    end.
End derived.

(** ** The laws of the derived draws *)

Section laws.
Context {G : Type} `{PyRandomLaws G}.

Lemma randint_wp a b g (Q : Z * G → Prop) :
  a ≤ b → (∀ x g', a ≤ x ≤ b → Q (x, g')) → res_wp (randint a b g) Q.
Proof.
  intros Hab HQ. unfold randint. rewrite (proj2 (Z.ltb_lt _ _)) by lia.
  pose proof (rng_below_range (b + 1 - a) g ltac:(lia)).
  destruct (rng_below _ _) as [r g']. simpl in *. apply HQ. lia.
Qed.

Lemma choice_wp {A} (l : list A) g (Q : A * G → Prop) :
  l ≠ [] → (∀ x g', x ∈ l → Q (x, g')) → res_wp (choice l g) Q.
Proof.
  intros Hl HQ. unfold choice. destruct l as [|x0 l']; [done|].
  assert (0 < Z.of_nat (length (x0 :: l'))) as Hpos by (rewrite length_cons; lia).
  pose proof (rng_below_range _ g Hpos) as Hr. set (l := x0 :: l') in *.
  destruct (rng_below _ _) as [i g']. cbn [fst] in Hr.
  destruct (lookup_lt_is_Some_2 l (Z.to_nat i)) as [x Hx]; [lia|].
  rewrite Hx. apply HQ. by eapply list_elem_of_lookup_2.
Qed.

Lemma bisect_weights_elem {A} (l : list (A * Z)) acc x :
  l ≠ [] → ∃ v, bisect_weights acc l x = Some v ∧ v ∈ l.*1.
Proof.
  revert acc. induction l as [|[v w] l IH]; intros acc Hl; [done|].
  destruct l as [|vw l'].
  - exists v. split; [done|]. by apply list_elem_of_singleton.
  - set (l := vw :: l') in *. change (bisect_weights acc ((v, w) :: l) x) with
      (if float_lt x (float_of_Z (acc + w)) then Some v else bisect_weights (acc + w) l x).
    destruct (float_lt _ _).
    + exists v. split; [done|]. apply list_elem_of_here.
    + destruct (IH (acc + w)) as (v' & ? & ?); [done|].
      exists v'. split; [done|]. by apply list_elem_of_further.
Qed.

Lemma choices1_wp {A} (l : list (A * Z)) g (Q : A * G → Prop) :
  0 < foldr Z.add 0 (snd <$> l) → (∀ x g', x ∈ l.*1 → Q (x, g')) →
  res_wp (choices1 l g) Q.
Proof.
  intros Hw HQ. unfold choices1. rewrite (proj2 (Z.leb_gt _ _)) by lia.
  destruct (random g) as [f g'].
  destruct (bisect_weights_elem l 0
    (float_mul f (float_of_Z (foldr Z.add 0 (snd <$> l))))) as (v & -> & Hv).
  - intros ->. simpl in Hw. lia.
  - by apply HQ.
Qed.
End laws.

(** ** CPython's generator *)

Module Mt19937.
(** 624 words of 32 bits and the index of the next one. *)
Record mt := { mt_words : list Z; mt_index : nat }.

Definition N := 624%nat.
Definition M := 397%nat.
Definition word (x : Z) : Z := x `mod` 2 ^ 32.

(** [init_genrand(s)] *)
Definition init_genrand (s : Z) : list Z :=
  let fix go n i prev :=
    match n with
    | O => []
    | S n =>
        let x := word (1812433253 * Z.lxor prev (Z.shiftr prev 30) + i) in
        x :: go n (i + 1) x
    end in
  word s :: go (N - 1)%nat 1 (word s).

(** One pass of [init_by_array]: entry [i] is mixed with its predecessor,
    a multiplier and what [add] says for the step; after the last entry the
    first one is set from it and the pass goes on from entry 1. *)
Fixpoint mix (mult : Z) (add : nat → nat → Z) (n step i : nat) (ws : list Z) : list Z :=
  match n with
  | O => ws
  | S n =>
      let prev := nth (i - 1) ws 0 in
      let x := word (Z.lxor (nth i ws 0) (Z.lxor prev (Z.shiftr prev 30) * mult) + add step i) in
      let ws := <[i := x]> ws in
      if decide (S i < N)%nat then mix mult add n (S step) (S i) ws
      else mix mult add n (S step) 1 (<[0%nat := x]> ws)
  end.

(** The words of the absolute value of the seed, least significant first. *)
Definition seed_key (s : Z) : list Z :=
  let z := Z.abs s in
  (λ i, word (Z.shiftr z (32 * i))) <$> seqZ 0 (Z.max 1 (Z.log2 z / 32 + 1)).

Definition init_by_array (key : list Z) : list Z :=
  let ws := init_genrand 19650218 in
  let k := Nat.max N (length key) in
  let ws := mix 1664525
    (λ step _, let j := (step `mod` length key)%nat in nth j key 0 + Z.of_nat j) k 0 1 ws in
  let i := S (k `mod` (N - 1))%nat in
  let ws := mix 1566083941 (λ _ i, - Z.of_nat i) (N - 1) 0 i ws in
  <[0%nat := 2 ^ 31]> ws.

Definition seed (s : Z) : mt := {| mt_words := init_by_array (seed_key s); mt_index := N |}.

Definition twist (old next far : Z) : Z :=
  let y := Z.lor (Z.land old (2 ^ 31)) (Z.land next (2 ^ 31 - 1)) in
  Z.lxor (Z.lxor far (Z.shiftr y 1)) (if Z.odd y then 0x9908b0df else 0).

Definition twist_list (old next far : list Z) : list Z :=
  zip_with (λ on f, twist on.1 on.2 f) (zip old next) far.

(** A new block of 624 words: the word 397 places ahead is an old one for
    the first 227 entries and a new one after that. *)
Definition refill (ws : list Z) : list Z :=
  let a := twist_list (take 227 ws) (drop 1 ws) (drop M ws) in
  let b := twist_list (take 227 (drop 227 ws)) (drop 228 ws) a in
  let c := twist_list (take 169 (drop 454 ws)) (drop 455 ws) b in
  let n := a ++ b ++ c in
  n ++ [twist (nth 623 ws 0) (nth 0 n 0) (nth 396 n 0)].

Definition temper (y : Z) : Z :=
  let y := Z.lxor y (Z.shiftr y 11) in
  let y := Z.lxor y (Z.land (word (Z.shiftl y 7)) 0x9d2c5680) in
  let y := Z.lxor y (Z.land (word (Z.shiftl y 15)) 0xefc60000) in
  word (Z.lxor y (Z.shiftr y 18)).

Definition genrand (g : mt) : Z * mt :=
  let g := if decide (mt_index g < N)%nat then g
    else {| mt_words := refill (mt_words g); mt_index := 0 |} in
  (temper (nth (mt_index g) (mt_words g) 0),
   {| mt_words := mt_words g; mt_index := S (mt_index g) |}).

Definition bits53 (g : mt) : Z * mt :=
  let '(a, g) := genrand g in
  let '(b, g) := genrand g in
  (Z.shiftr a 5 * 2 ^ 26 + Z.shiftr b 6, g).

(** [getrandbits(k)]: whole words first, the last one shifted down. *)
Fixpoint getrandbits_go (n : nat) (k : Z) (g : mt) : Z * mt :=
  match n with
  | O => (0, g)
  | S n =>
      if k <=? 0 then (0, g)
      else
        let '(r, g) := genrand g in
        let r := if k <? 32 then Z.shiftr r (32 - k) else r in
        let '(hi, g) := getrandbits_go n (k - 32) g in
        (r + 2 ^ 32 * hi, g)
  end.
Definition getrandbits (k : Z) (g : mt) : Z * mt :=
  getrandbits_go (Z.to_nat (k / 32 + 1)) k g.

(** [_randbelow(n)]: draw [n.bit_length()] bits until the value is below
    [n].  CPython repeats without bound; a draw is rejected with probability
    below one half, and after [fuel] rejections the model answers 0. *)
Fixpoint randbelow_go (fuel : nat) (k n : Z) (g : mt) : Z * mt :=
  match fuel with
  | O => (0, g)
  | S fuel =>
      let '(r, g) := getrandbits k g in
      if r <? n then (r, g) else randbelow_go fuel k n g
  end.
Definition randbelow (n : Z) (g : mt) : Z * mt :=
  randbelow_go 1000 (Z.log2 n + 1) n g.
End Mt19937.

#[export] Instance mt_random : PyRandom Mt19937.mt := {|
  rng_seed := Mt19937.seed;
  rng_bits53 := Mt19937.bits53;
  rng_below := Mt19937.randbelow;
  rng_bits := Mt19937.getrandbits;
|}.

(** ** The instance obeys the laws *)

Section mt_laws.
Import Mt19937.

Lemma genrand_range g : 0 ≤ (genrand g).1 < 2 ^ 32.
Proof. unfold genrand. cbn [fst]. unfold temper. by apply Z.mod_pos_bound. Qed.

Lemma shiftr_range x n k : 0 ≤ k ≤ n → 0 ≤ x < 2 ^ n → 0 ≤ Z.shiftr x k < 2 ^ (n - k).
Proof.
  intros Hk Hx. rewrite Z.shiftr_div_pow2 by lia.
  assert (0 < 2 ^ k) by (apply Z.pow_pos_nonneg; lia). split.
  - apply Z.div_pos; lia.
  - apply Z.div_lt_upper_bound; [done|]. rewrite <-Z.pow_add_r by lia.
    replace (k + (n - k)) with n by lia. lia.
Qed.

Lemma bits53_range g : 0 ≤ (bits53 g).1 < 2 ^ 53.
Proof.
  unfold bits53. pose proof (genrand_range g) as H1. destruct (genrand g) as [a g1].
  pose proof (genrand_range g1) as H2. destruct (genrand g1) as [b g2]. cbn [fst] in *.
  pose proof (shiftr_range a 32 5 ltac:(lia) H1).
  pose proof (shiftr_range b 32 6 ltac:(lia) H2). lia.
Qed.

Lemma getrandbits_go_range n k g :
  0 ≤ k < 32 * Z.of_nat n → 0 ≤ (getrandbits_go n k g).1 < 2 ^ k.
Proof.
  revert k g. induction n as [|n IH]; intros k g Hk; [lia|].
  cbn [getrandbits_go]. destruct (Z.leb_spec k 0).
  { replace k with 0 by lia. cbn [fst]. lia. }
  pose proof (genrand_range g) as Hg. destruct (genrand g) as [r g1]. cbn [fst] in Hg.
  destruct (Z.ltb_spec k 32).
  - assert (∃ g2, getrandbits_go n (k - 32) g1 = (0, g2)) as [g2 ->].
    { destruct n; cbn [getrandbits_go]; [by eexists|]. rewrite (proj2 (Z.leb_le _ _)) by lia. by eexists. }
    cbn [fst]. pose proof (shiftr_range r 32 (32 - k) ltac:(lia) Hg) as Hs.
    replace (32 - (32 - k)) with k in Hs by lia. lia.
  - specialize (IH (k - 32) g1 ltac:(lia)). destruct (getrandbits_go _ _ _) as [hi g2].
    cbn [fst] in *.
    assert (2 ^ k = 2 ^ 32 * 2 ^ (k - 32)) as ->
      by (rewrite <-Z.pow_add_r by lia; f_equal; lia). nia.
Qed.

Lemma getrandbits_range k g : 0 ≤ k → 0 ≤ (getrandbits k g).1 < 2 ^ k.
Proof.
  intros Hk. apply getrandbits_go_range. split; [done|].
  pose proof (Z.div_mod k 32). pose proof (Z.mod_pos_bound k 32).
  assert (0 ≤ k / 32) by (apply Z.div_pos; lia). lia.
Qed.

Lemma randbelow_go_range fuel k n g :
  0 ≤ k → 0 < n → 0 ≤ (randbelow_go fuel k n g).1 < n.
Proof.
  intros Hk Hn. revert g. induction fuel as [|fuel IH]; intros g; [cbn [randbelow_go fst]; lia|].
  cbn [randbelow_go]. pose proof (getrandbits_range k g Hk).
  destruct (getrandbits k g) as [r g1]. cbn [fst] in *.
  destruct (Z.ltb_spec r n); [cbn [fst]; lia|apply IH].
Qed.
End mt_laws.

#[export] Instance mt_random_laws : PyRandomLaws Mt19937.mt.
Proof.
  split.
  - apply bits53_range.
  - intros n g Hn. apply randbelow_go_range; [|done]. pose proof (Z.log2_nonneg n). lia.
  - apply getrandbits_range.
Qed.

(** [random.Random(42)]: the first two 32-bit draws CPython gives. *)
Example mt_seed_42 :
  let '(a, g) := Mt19937.genrand (Mt19937.seed 42) in
  (a, (Mt19937.genrand g).1) = (2746317213, 478163327).
Proof. vm_compute. reflexivity. Qed.
