(* ===== verification/SrtDivide.v ===== *)
(** The divider reference of tb/stage5/ref/srt_divide.py: restoring binary
    long division of two 53-bit significands, one quotient bit per iteration,
    and the proof that it returns the correctly truncated quotient and the
    sticky bit of the remainder. *)
From S2P Require Import Prelude.
Local Open Scope Z_scope.

(** ** The code *)

(** One pass of the loop at lines 33-39 over the partial remainder [p] and
    the quotient [q]. *)
Definition srt_divide_step (b : Z) (s : Z * Z) : Z * Z :=
  let '(p, q) := s in
  let p := Z.shiftl p 1 in
  if p >=? b then (p - b, Z.lor (Z.shiftl q 1) 1) else (p, Z.shiftl q 1).

(** The integer bit, lines 24-29. *)
Definition srt_divide_init (a b : Z) : Z * Z :=
  if a >=? b then (a - b, 1) else (a, 0).

(** [for _ in range(n - 1)]: [range] of a negative number is empty. *)
Definition srt_divide (a b n : Z) : res (Z * bool) :=
  if negb ((0 <? a) && (a <? Z.shiftl 2 52) && (0 <? b) && (b <? Z.shiftl 2 52))
  then Raise (AssertionError "operands out of range")
  else if negb (a <? 2 * b) then Raise (AssertionError "precondition: A < 2B")
  else
    let '(p, q) :=
      Nat.iter (Z.to_nat (n - 1)) (srt_divide_step b) (srt_divide_init a b) in
    Ok (q, negb (p =? 0)).

(** ** The loop invariant *)

(** After [k] fractional bits: the quotient is exact up to [k] bits and the
    partial remainder is what is left, below the divisor. *)
Definition divides_upto (a b k : Z) (s : Z * Z) : Prop :=
  let '(p, q) := s in q * b + p = a * 2 ^ k ∧ 0 ≤ p < b.

Lemma srt_divide_init_inv a b :
  0 < a → a < 2 * b → divides_upto a b 0 (srt_divide_init a b).
Proof.
  intros. unfold srt_divide_init. rewrite Z.geb_leb.
  destruct (Z.leb_spec b a); simpl; lia.
Qed.

Lemma srt_divide_step_inv a b k s :
  0 ≤ k → divides_upto a b k s → divides_upto a b (k + 1) (srt_divide_step b s).
Proof.
  intros Hk. destruct s as [p q]. intros [Heq Hp]. unfold srt_divide_step.
  rewrite Z.geb_leb, lor_shiftl_1, !shiftl_1.
  assert (2 ^ (k + 1) = 2 * 2 ^ k) as Hpow by (rewrite Z.pow_add_r by lia; lia).
  destruct (Z.leb_spec b (2 * p)); unfold divides_upto; lia.
Qed.

Lemma srt_divide_iter_inv a b n :
  0 < a → a < 2 * b →
  divides_upto a b (Z.of_nat n)
    (Nat.iter n (srt_divide_step b) (srt_divide_init a b)).
Proof.
  intros. induction n as [|n IH].
  - by apply srt_divide_init_inv.
  - rewrite Nat2Z.inj_succ, <-Z.add_1_r. simpl.
    apply srt_divide_step_inv; [lia|done].
Qed.

(** ** Correctness *)

(** The operands the two assertions let through. *)
Definition divide_pre (a b : Z) : Prop :=
  0 < a < 2 ^ 53 ∧ 0 < b < 2 ^ 53 ∧ a < 2 * b.

Lemma srt_divide_run a b n :
  divide_pre a b →
  srt_divide a b n =
    Ok (a * 2 ^ Z.max 0 (n - 1) / b,
        negb ((a * 2 ^ Z.max 0 (n - 1)) `mod` b =? 0)).
Proof.
  intros ([? ?] & [? ?] & ?). unfold srt_divide.
  change (Z.shiftl 2 52) with (2 ^ 53).
  rewrite !(proj2 (Z.ltb_lt _ _)) by lia. simpl.
  pose proof (srt_divide_iter_inv a b (Z.to_nat (n - 1))) as Hinv.
  destruct (Nat.iter _ _ _) as [p q]. destruct Hinv as [Heq Hp]; [lia..|].
  replace (Z.of_nat (Z.to_nat (n - 1))) with (Z.max 0 (n - 1)) in Heq by lia.
  rewrite <-(Z.div_unique_pos _ b q p), <-(Z.mod_unique_pos _ b q p); [done|lia..].
Qed.

Lemma srt_divide_pre_dec a b n r : srt_divide a b n = Ok r → divide_pre a b.
Proof.
  unfold srt_divide, divide_pre. change (Z.shiftl 2 52) with (2 ^ 53).
  destruct (negb _) eqn:E; [done|]. destruct (negb (a <? 2 * b)) eqn:E'; [done|].
  zbool. lia.
Qed.

(** C2: On operands in the documented range the divider reference returns the
    quotient truncated to n bits, its leading bit the integer part, and the
    sticky bit is set exactly when the division has a remainder. *)
Theorem srt_divide_correct (a b n : Z) (Hpre : divide_pre a b) (Hn : 1 ≤ n) :
  ∃ Q sticky, srt_divide a b n = Ok (Q, sticky) ∧
    Q * b ≤ a * 2 ^ (n - 1) < (Q + 1) * b ∧
    (sticky = true ↔ Q * b ≠ a * 2 ^ (n - 1)) ∧
    0 ≤ Q < 2 ^ n ∧
    (Z.testbit Q (n - 1) = true ↔ b ≤ a).
Proof.
  rewrite srt_divide_run by done.
  replace (Z.max 0 (n - 1)) with (n - 1) by lia.
  destruct Hpre as (Ha & Hb & Hab).
  assert (2 ^ n = 2 * 2 ^ (n - 1)) as Hpow
    by (rewrite <-Z.pow_succ_r by lia; f_equal; lia).
  assert (0 < 2 ^ (n - 1)) as Hpos by (apply Z.pow_pos_nonneg; lia).
  set (N := a * 2 ^ (n - 1)).
  pose proof (Z.div_mod N b) as Hdm. pose proof (Z.mod_pos_bound N b) as Hm.
  assert (0 ≤ N / b) as HQ0 by (apply Z.div_pos; subst N; nia).
  assert (N / b < 2 ^ n) as HQ1
    by (apply Z.div_lt_upper_bound; subst N; [lia|rewrite Hpow; nia]).
  eexists _, _; split_and!; [done|nia|nia| |done|done|].
  - destruct (Z.eqb_spec (N `mod` b) 0); simpl; split; intros; try done; nia.
  - assert (b ≤ a ↔ 2 ^ (n - 1) ≤ N / b) as ->.
    { split; intros.
      - apply Z.div_le_lower_bound; subst N; nia.
      - destruct (Z_le_gt_dec b a) as [|Hlt]; [done|].
        assert (N / b < 2 ^ (n - 1))
          by (apply Z.div_lt_upper_bound; subst N; nia). lia. }
    apply testbit_top; lia.
Qed.

Lemma srt_divide_correct_witness :
  divide_pre (3 * 2 ^ 51) (2 ^ 52) ∧
  ∃ Q sticky, srt_divide (3 * 2 ^ 51) (2 ^ 52) 56 = Ok (Q, sticky) ∧
    Q * 2 ^ 52 ≤ 3 * 2 ^ 51 * 2 ^ (56 - 1) < (Q + 1) * 2 ^ 52 ∧
    (sticky = true ↔ Q * 2 ^ 52 ≠ 3 * 2 ^ 51 * 2 ^ (56 - 1)) ∧
    0 ≤ Q < 2 ^ 56 ∧ (Z.testbit Q (56 - 1) = true ↔ 2 ^ 52 ≤ 3 * 2 ^ 51).
Proof.
  assert (divide_pre (3 * 2 ^ 51) (2 ^ 52)) as H
    by (vm_compute; repeat split; congruence).
  split; [exact H|]. apply (srt_divide_correct _ _ _ H). lia.
Defined.

(** Outside the documented range the divider reference raises
    AssertionError, for one reason or the other. *)
Theorem srt_divide_rejects (a b n : Z) :
  srt_divide a b n =
    if decide (0 < a < 2 ^ 53 ∧ 0 < b < 2 ^ 53) then
      if decide (a < 2 * b) then
        Ok (a * 2 ^ Z.max 0 (n - 1) / b,
            bool_decide ((a * 2 ^ Z.max 0 (n - 1)) `mod` b ≠ 0))
      else Raise (AssertionError "precondition: A < 2B")
    else Raise (AssertionError "operands out of range").
Proof.
  case_decide as H1; [case_decide as H2|].
  - rewrite srt_divide_run by (unfold divide_pre; tauto).
    do 2 f_equal. rewrite bool_decide_not. f_equal.
    by destruct (Z.eqb_spec ((a * 2 ^ Z.max 0 (n - 1)) `mod` b) 0), (bool_decide_reflect ((a * 2 ^ Z.max 0 (n - 1)) `mod` b = 0)).
  - unfold srt_divide. change (Z.shiftl 2 52) with (2 ^ 53).
    rewrite !(proj2 (Z.ltb_lt _ _)) by lia.
    by rewrite (proj2 (Z.ltb_ge _ _)) by lia.
  - unfold srt_divide. change (Z.shiftl 2 52) with (2 ^ 53).
    destruct (negb _) eqn:E; [done|]. zbool. lia.
Qed.

(** The vectors of tests/test_srt_divide.py. *)
Example srt_divide_one : srt_divide (2 ^ 52) (2 ^ 52) 55 = Ok (2 ^ 54, false).
Proof. reflexivity. Qed.

Example srt_divide_four_sevenths :
  srt_divide (2 ^ 52) (2 ^ 52 + 2 ^ 51 + 2 ^ 50) 55 = Ok (0x0024924924924924, true).
Proof. reflexivity. Qed.

Example srt_divide_near_two :
  srt_divide (2 ^ 53 - 1) (2 ^ 52) 55 = Ok (0x7ffffffffffffc, false).
Proof. reflexivity. Qed.
