(* ===== verification/SrtSqrt.v ===== *)
(** The square-root reference of tb/stage5/ref/srt_sqrt.py: the digit-by-digit
    root of a 54-bit significand, one root bit per pair of input bits, and the
    proof that it returns the correctly truncated root and the sticky bit. *)
From S2P Require Import PyStr.
Local Open Scope Z_scope.

(** ** The code *)

(** One pass of the loop at lines 36-48. *)
Definition srt_sqrt_step (total a_padded : Z) (s : Z * Z) (i : Z) : Z * Z :=
  let '(q, r) := s in
  let pair := Z.land (Z.shiftr a_padded (2 * (total - 1 - i))) 3 in
  let r := Z.lor (Z.shiftl r 2) pair in
  let t := Z.lor (Z.shiftl q 2) 1 in
  if r >=? t then (Z.lor (Z.shiftl q 1) 1, r - t) else (Z.shiftl q 1, r).

Definition srt_sqrt (a n : Z) : res (Z * bool) :=
  if negb ((Z.shiftl 1 52 <=? a) && (a <? Z.shiftl 1 54))
  then Raise (AssertionError ("a=" +:+ fmt_hash_x a +:+ " out of range"))
  else
    let total := n + 26 in
    if 2 * total - 54 <? 0 then Raise (ValueError "negative shift count")
    else
      let a_padded := Z.shiftl a (2 * total - 54) in
      let '(q, r) := foldl (srt_sqrt_step total a_padded) (0, 0) (seqZ 0 total) in
      let Q := Z.shiftr q 26 in
      let sticky := negb (Z.land q (Z.shiftl 1 26 - 1) =? 0) || negb (r =? 0) in
      Ok (Q, sticky).

(** ** The loop invariant *)

(** [q] is the integer root of [A] and [r] what is left of it. *)
Definition root_of (A : Z) (s : Z * Z) : Prop :=
  let '(q, r) := s in q * q + r = A ∧ 0 ≤ r ≤ 2 * q ∧ 0 ≤ q.

Lemma root_of_digit A x s total ap i :
  Z.land (Z.shiftr ap (2 * (total - 1 - i))) 3 = x → 0 ≤ x < 4 →
  root_of A s → root_of (4 * A + x) (srt_sqrt_step total ap s i).
Proof.
  intros Hx Hb. destruct s as [q r]. intros (Heq & Hr & Hq).
  unfold srt_sqrt_step. rewrite Hx, Z.geb_leb, lor_shiftl_1, shiftl_1.
  rewrite (lor_shiftl_add r 2 x), (lor_shiftl_add q 2 1) by lia.
  change (2 ^ 2) with 4.
  destruct (Z.leb_spec (q * 4 + 1) (r * 4 + x)); unfold root_of; nia.
Qed.

(** The first [i] pairs of a number of [total] pairs. *)
Definition prefix_of_pairs (total ap i : Z) : Z := ap / 4 ^ (total - i).

Lemma prefix_of_pairs_step total ap i :
  0 ≤ i < total →
  prefix_of_pairs total ap (i + 1) =
    4 * prefix_of_pairs total ap i + Z.land (Z.shiftr ap (2 * (total - 1 - i))) 3.
Proof.
  intros Hi. unfold prefix_of_pairs.
  rewrite Z.shiftr_div_pow2 by lia.
  rewrite Z.pow_mul_r by lia. change (2 ^ 2) with 4.
  change 3 with (Z.shiftl 1 2 - 1). rewrite land_mask by lia. change (2 ^ 2) with 4.
  replace (total - (i + 1)) with (total - 1 - i) by lia.
  replace (total - i) with (Z.succ (total - 1 - i)) by lia.
  rewrite Z.pow_succ_r, (Z.mul_comm 4 (4 ^ _)) by lia.
  rewrite <-Z.div_div by lia. apply Z.div_mod. lia.
Qed.

Lemma srt_sqrt_loop total ap k :
  0 ≤ ap < 4 ^ total → 0 ≤ total → (Z.of_nat k ≤ total) →
  root_of (prefix_of_pairs total ap (Z.of_nat k))
    (foldl (srt_sqrt_step total ap) (0, 0) (seqZ 0 (Z.of_nat k))).
Proof.
  intros Hap Ht. induction k as [|k IH]; intros Hk.
  - simpl. unfold prefix_of_pairs.
    replace (total - Z.of_nat 0) with total by lia. rewrite Z.div_small by lia. lia.
  - rewrite seqZ_S, foldl_snoc, Z.add_0_l, Nat2Z.inj_succ, <-Z.add_1_r.
    rewrite prefix_of_pairs_step by lia.
    apply root_of_digit; [done| |apply IH; lia].
    change 3 with (Z.shiftl 1 2 - 1). rewrite land_mask by lia. by apply Z.mod_pos_bound.
Qed.

(** ** Correctness *)

Lemma prefix_of_pairs_all total ap : prefix_of_pairs total ap total = ap.
Proof. unfold prefix_of_pairs. rewrite Z.sub_diag. apply Z.div_1_r. Qed.

(** What a run on accepted operands computes, with the loop summarised. *)
Lemma srt_sqrt_run a n :
  2 ^ 52 ≤ a < 2 ^ 54 → 1 ≤ n →
  ∃ q r, root_of (a * 4 ^ (n - 1)) (q, r) ∧
    srt_sqrt a n = Ok (q / 2 ^ 26, negb (q `mod` 2 ^ 26 =? 0) || negb (r =? 0)).
Proof.
  intros Ha Hn. unfold srt_sqrt.
  change (Z.shiftl 1 52) with (2 ^ 52). change (Z.shiftl 1 54) with (2 ^ 54).
  rewrite (proj2 (Z.leb_le _ _)), (proj2 (Z.ltb_lt _ _)) by lia. cbn [andb negb].
  rewrite (proj2 (Z.ltb_ge _ _)) by lia.
  assert (Z.shiftl a (2 * (n + 26) - 54) = a * 4 ^ (n - 1)) as ->.
  { rewrite Z.shiftl_mul_pow2 by lia. change 4 with (2 ^ 2).
    rewrite <-Z.pow_mul_r by lia. do 2 f_equal. lia. }
  assert (0 ≤ a * 4 ^ (n - 1) < 4 ^ (n + 26)) as Hap.
  { split; [apply Z.mul_nonneg_nonneg; [lia|apply Z.pow_nonneg; lia]|].
    replace (n + 26) with (27 + (n - 1)) by lia. rewrite Z.pow_add_r by lia.
    apply Z.mul_lt_mono_pos_r; [apply Z.pow_pos_nonneg; lia|lia]. }
  pose proof (srt_sqrt_loop (n + 26) _ (Z.to_nat (n + 26)) Hap) as Hloop.
  rewrite Z2Nat.id, prefix_of_pairs_all in Hloop by lia.
  destruct (foldl _ _ _) as [q r]. specialize (Hloop ltac:(lia) ltac:(lia)).
  exists q, r. split; [done|]. by rewrite Z.shiftr_div_pow2, land_mask by lia.
Qed.

(** C3: On significands in [2^52, 2^54) the square-root reference returns the
    n-bit truncated root with its top bit set, and the sticky bit is set
    exactly when the root is inexact. *)
Theorem srt_sqrt_correct (a n : Z) (Ha : 2 ^ 52 ≤ a < 2 ^ 54) (Hn : 1 ≤ n) :
  ∃ Q sticky, srt_sqrt a n = Ok (Q, sticky) ∧
    let V := a * 4 ^ (n - 1) in
    (Q * 2 ^ 26) ^ 2 ≤ V < ((Q + 1) * 2 ^ 26) ^ 2 ∧
    (sticky = true ↔ (Q * 2 ^ 26) ^ 2 ≠ V) ∧
    2 ^ (n - 1) ≤ Q < 2 ^ n.
Proof.
  destruct (srt_sqrt_run a n Ha Hn) as (q & r & (Heq & Hr & Hq) & ->).
  set (V := a * 4 ^ (n - 1)) in *.
  pose proof (Z.div_mod q (2 ^ 26) ltac:(lia)) as Hdm.
  pose proof (Z.mod_pos_bound q (2 ^ 26) ltac:(lia)) as Hm.
  set (Q := q / 2 ^ 26) in *. set (m := q `mod` 2 ^ 26) in *.
  assert (0 ≤ Q) by (apply Z.div_pos; lia).
  set (P := 2 ^ (n - 1)).
  assert (0 < P) as HP by (apply Z.pow_pos_nonneg; lia).
  assert (2 ^ n = 2 * P) as Hpn by (unfold P; rewrite <-Z.pow_succ_r by lia; f_equal; lia).
  assert (4 ^ (n - 1) = P * P) as H4
    by (unfold P; rewrite <-Z.pow_mul_l; done).
  assert ((2 ^ 26 * P) * (2 ^ 26 * P) ≤ q * q + r < (2 ^ 27 * P) * (2 ^ 27 * P)) as HV.
  { rewrite Heq. subst V. rewrite H4.
    replace (2 ^ 26 * P * (2 ^ 26 * P)) with (2 ^ 52 * (P * P)) by ring.
    replace (2 ^ 27 * P * (2 ^ 27 * P)) with (2 ^ 54 * (P * P)) by ring.
    split; [apply Z.mul_le_mono_nonneg_r|apply Z.mul_lt_mono_pos_r]; nia. }
  assert (2 ^ 26 * P ≤ q < 2 ^ 27 * P) as Hqr by nia.
  exists Q, (negb (m =? 0) || negb (r =? 0)). split; [done|]. intros V'.
  change V' with V. rewrite !Z.pow_2_r. split_and!.
  - nia.
  - nia.
  - destruct (Z.eqb_spec m 0), (Z.eqb_spec r 0); simpl; split; intros; try done; nia.
  - nia.
  - nia.
Qed.

Lemma srt_sqrt_correct_witness :
  2 ^ 52 ≤ 9 * 2 ^ 50 < 2 ^ 54 ∧
  ∃ Q sticky, srt_sqrt (9 * 2 ^ 50) 55 = Ok (Q, sticky) ∧
    let V := 9 * 2 ^ 50 * 4 ^ (55 - 1) in
    (Q * 2 ^ 26) ^ 2 ≤ V < ((Q + 1) * 2 ^ 26) ^ 2 ∧
    (sticky = true ↔ (Q * 2 ^ 26) ^ 2 ≠ V) ∧ 2 ^ (55 - 1) ≤ Q < 2 ^ 55.
Proof.
  assert (2 ^ 52 ≤ 9 * 2 ^ 50 < 2 ^ 54) as H by lia.
  split; [exact H|]. apply (srt_sqrt_correct _ _ H). lia.
Defined.

(** The two ways the call raises: the range assertion, then a width below one
    bit, which asks Python for a negative shift. *)
Lemma srt_sqrt_raises a n :
  (¬ (2 ^ 52 ≤ a < 2 ^ 54) →
   srt_sqrt a n = Raise (AssertionError ("a=" +:+ fmt_hash_x a +:+ " out of range"))) ∧
  (2 ^ 52 ≤ a < 2 ^ 54 → n < 1 → srt_sqrt a n = Raise (ValueError "negative shift count")).
Proof.
  unfold srt_sqrt. change (Z.shiftl 1 52) with (2 ^ 52). change (Z.shiftl 1 54) with (2 ^ 54).
  split.
  - intros Ha. destruct (negb _) eqn:E; [done|]. zbool. lia.
  - intros Ha Hn. rewrite (proj2 (Z.leb_le _ _)), (proj2 (Z.ltb_lt _ (2 ^ 54))) by lia.
    cbn [andb negb]. by rewrite (proj2 (Z.ltb_lt _ _)) by lia.
Qed.

(** The vectors of tests/test_srt_sqrt.py. *)
Example srt_sqrt_two :
  srt_sqrt 0x0020000000000000 55 = Ok (0x005a827999fcef32, true).
Proof. reflexivity. Qed.

Example srt_sqrt_nine_fourths :
  srt_sqrt 0x0024000000000000 55 = Ok (0x0060000000000000, false).
Proof. reflexivity. Qed.

Example srt_sqrt_two_single :
  srt_sqrt 0x0020000000000000 26 = Ok (0x0000000002d413cc, true).
Proof. reflexivity. Qed.
