(* ===== verification/SrtVectors.v ===== *)
(** The test-vector generators of tb/stage5/ref: gen_fdiv_vectors.py and
    gen_fsqrt_vectors.py, which run the two references on directed and random
    significands and write one line of hexadecimal fields per case. *)
From S2P Require Import PyStr PyRandom SrtDivide SrtSqrt.
Local Open Scope Z_scope.

(** ** Lines of a vector file *)

(** The fields of one line, the operands a list: [a b] for the divider, [a]
    for the square root. *)
Record vec := Vec {
  vec_fmt : bool; vec_ops : list Z; vec_q : Z; vec_sticky : bool }.

Definition bit01 (b : bool) : Z := if b then 1 else 0.

(** [f"{a:014x} {b:014x} "] *)
Definition ops_text (xs : list Z) : string :=
  str_concat ((λ x, fmt_hex 14 x +:+ " ") <$> xs).

(** The format both [emit] functions use. *)
Definition render_vec (v : vec) : string :=
  fmt_bin 1 (bit01 (vec_fmt v)) +:+ " " +:+
  ops_text (vec_ops v) +:+
  fmt_hex 14 (vec_q v) +:+ " " +:+ fmt_bin 1 (bit01 (vec_sticky v)) +:+ newline.

(** A reader of such a line, by columns, for [k] operands. *)
Definition parse_bit (s : string) : option (bool * string) :=
  match s with
  | String "0" s => Some (false, s)
  | String "1" s => Some (true, s)
  | _ => None
  end.

Definition parse_hex14 (s : string) : option (Z * string) :=
  z ← int_of_hex (str_take 14 s); Some (z, str_drop 15 s).

Fixpoint parse_ops (k : nat) (s : string) : option (list Z * string) :=
  match k with
  | O => Some ([], s)
  | S k =>
      '(x, s) ← parse_hex14 s; '(xs, s) ← parse_ops k s; Some (x :: xs, s)
  end.

Definition parse_vec (k : nat) (s : string) : option vec :=
  '(f, s) ← parse_bit s;
  '(xs, s) ← parse_ops k (str_drop 1 s);
  '(q, s) ← parse_hex14 s;
  '(st, _) ← parse_bit s;
  Some (Vec f xs q st).

Definition fits_line (v : vec) : Prop :=
  Forall (λ x, 0 ≤ x < 16 ^ 14) (vec_ops v) ∧ 0 ≤ vec_q v < 16 ^ 14.

Lemma ops_text_cons x xs : ops_text (x :: xs) = (fmt_hex 14 x +:+ " ") +:+ ops_text xs.
Proof. done. Qed.

Lemma length_ops_text xs :
  Forall (λ x, 0 ≤ x < 16 ^ 14) xs → String.length (ops_text xs) = (15 * length xs)%nat.
Proof.
  induction 1 as [|x xs Hx _ IH]; [done|]. rewrite ops_text_cons.
  rewrite !str_length_app, IH, (length_fmt_hex 14 x) by (done || lia). simpl. lia.
Qed.

Lemma parse_hex14_fmt x t :
  0 ≤ x < 16 ^ 14 → parse_hex14 (fmt_hex 14 x +:+ " " +:+ t) = Some (x, t).
Proof.
  intros Hx. unfold parse_hex14.
  pose proof (length_fmt_hex 14 x ltac:(lia) Hx) as Hl.
  rewrite str_take_app by done. rewrite int_of_hex_fmt by lia.
  cbn [mbind option_bind].
  rewrite <-str_app_assoc, str_drop_app; [done|]. by rewrite str_length_app, Hl.
Qed.

Lemma parse_ops_fmt xs t :
  Forall (λ x, 0 ≤ x < 16 ^ 14) xs →
  parse_ops (length xs) (ops_text xs +:+ t) = Some (xs, t).
Proof.
  induction 1 as [|x xs Hx Hxs IH]; [done|]. rewrite ops_text_cons.
  cbn [length parse_ops]. rewrite !str_app_assoc, parse_hex14_fmt by done.
  cbn [mbind option_bind]. by rewrite IH.
Qed.

(** Reading back a line gives the case it was written from. *)
Lemma parse_render_vec v :
  fits_line v → parse_vec (length (vec_ops v)) (render_vec v) = Some v.
Proof.
  destruct v as [f xs q st]. intros [Hxs Hq]. cbn [vec_ops vec_q] in *.
  unfold render_vec, parse_vec. cbn [vec_fmt vec_ops vec_q vec_sticky].
  replace (fmt_bin 1 (bit01 f)) with (if f then "1" else "0") by (by destruct f).
  replace (fmt_bin 1 (bit01 st)) with (if st then "1" else "0") by (by destruct st).
  set (tail := fmt_hex 14 q +:+ " " +:+ (if st then "1" else "0") +:+ newline).
  assert (∀ t, parse_bit ((if f then "1" else "0") +:+ " " +:+ t) = Some (f, " " +:+ t))
    as -> by (by destruct f).
  cbn [mbind option_bind]. rewrite str_drop_app by done. rewrite parse_ops_fmt by done.
  cbn [mbind option_bind]. unfold tail. rewrite parse_hex14_fmt by done.
  cbn [mbind option_bind]. by destruct st.
Qed.

Lemma length_render_vec v :
  fits_line v → String.length (render_vec v) = (19 + 15 * length (vec_ops v))%nat.
Proof.
  destruct v as [f xs q st]. intros [Hxs Hq]. unfold render_vec.
  cbn [vec_fmt vec_ops vec_q vec_sticky] in *. rewrite !str_length_app.
  rewrite (length_fmt_hex 14 q) by (done || lia).
  replace (String.length (fmt_bin 1 (bit01 f))) with 1%nat by (by destruct f).
  replace (String.length (fmt_bin 1 (bit01 st))) with 1%nat by (by destruct st).
  rewrite length_ops_text by done.
  simpl. lia.
Qed.

(** ** The two generators *)

(** [f.write] of every line of a loop over [cases]. *)
Definition emit_all {C} (emit : string → C → res string) (f : string) (cases : list C)
  : res string := foldl (λ f c, f ← f; emit f c) (Ok f) cases.

Module Fdiv.
(** [make_sig], lines 23-25 (not called by the generator itself). *)
Definition make_sig (mant_bits val : Z) : Z :=
  Z.lor (Z.shiftl 1 52) (Z.land val (Z.shiftl 1 mant_bits - 1)).

Definition emit (f : string) (c : bool * Z * Z) : res string :=
  let '(fmt_d, a, b) := c in
  let n := if fmt_d then 56 else 27 in
  '(q, sticky) ← srt_divide a b n;
  mret (f +:+ render_vec (Vec fmt_d [a; b] q sticky)).

Definition directed_cases : list (bool * Z * Z) :=
  let one := Z.shiftl 1 52 in
  let a_3 := Z.lor (Z.shiftl 1 52) (Z.shiftl 1 51) in
  let b_2 := Z.shiftl 1 52 in
  let a_val := Z.shiftl 1 53 - 1 in
  let b_val := Z.shiftl 1 52 + 1 in
  let a_min := Z.shiftl 1 52 in
  let b_max := Z.shiftl 1 53 - 1 in
  let a_max := Z.shiftl 1 53 - 1 in
  let b_min := Z.shiftl 1 52 in
  let b6 := Z.lor (Z.shiftl 1 52) 0x123456 in
  let a6 := b6 + 1 in
  let b7 := Z.lor (Z.shiftl 1 52) 0xABCDEF in
  let a7 := b7 - 1 in
  let a8 := Z.lor (Z.shiftl 1 52) (Z.shiftl 0x7FFFFF 29) in
  let b8 := Z.lor (Z.shiftl 1 52) (Z.shiftl 0x400000 29) in
  let b9 := Z.shiftl 1 52 in
  let a9 := b9 + Z.shiftr b9 1 in
  let b10 := Z.lor (Z.shiftl 1 52) 0xDEADBEEF in
  let a10 := b10 in
  let a11 := Z.shiftl 1 52 in
  let b11 := Z.shiftl 1 53 - 3 in
  let a12 := Z.shiftl 1 53 - 1 in
  let b12 := Z.shiftl 1 53 - 1 in
  [(false, one, one); (true, one, one);
   (false, a_3, b_2); (true, a_3, b_2);
   (false, a_val, b_val); (true, a_val, b_val);
   (false, a_min, b_max); (true, a_min, b_max);
   (false, a_max, b_min); (true, a_max, b_min);
   (false, a6, b6); (true, a6, b6);
   (false, a7, b7); (true, a7, b7);
   (false, a8, b8);
   (true, a9, b9);
   (false, a10, b10); (true, a10, b10);
   (true, a11, b11);
   (false, a12, b12)].

Definition directed_vectors (f : string) : res string := emit_all emit f directed_cases.

Section random.
Context {G : Type} `{PyRandom G}.

(** One pass of the loop of [random_vectors]. *)
Definition random_step (fmt_d : bool) (f : string) (g : G) : res (string * G) :=
  let '(x, g) := rng_bits 52 g in
  let a := Z.lor (Z.shiftl 1 52) x in
  let '(y, g) := rng_bits 52 g in
  let b := Z.lor (Z.shiftl 1 52) y in
  a ← (if a >=? 2 * b then
         let a := a `mod` b + b in
         if Z.land a (Z.shiftl 1 52) =? 0
         then Raise (AssertionError ("a=" +:+ fmt_hash_x a +:+ " lost bit 52"))
         else Ok a
       else Ok a);
  if negb (a <? 2 * b) then Raise (AssertionError "")
  else f ← emit f (fmt_d, a, b); mret (f, g).

Definition random_vectors (f : string) (fmt_d : bool) (count : nat) (seed : Z) : res string :=
  '(f, _) ← Nat.iter count (λ s, '(f, g) ← s; random_step fmt_d f g) (Ok (f, rng_seed seed));
  mret f.

(** The contents of fdiv_vectors.hex. *)
Definition main : res string :=
  f ← directed_vectors "";
  f ← random_vectors f true 500 42;
  random_vectors f false 500 137.
End random.
End Fdiv.

Module Fsqrt.
Definition emit (f : string) (c : bool * Z) : res string :=
  let '(fmt_d, a) := c in
  let n := if fmt_d then 56 else 27 in
  '(q, sticky) ← srt_sqrt a n;
  mret (f +:+ render_vec (Vec fmt_d [a] q sticky)).

Definition directed_cases : list (bool * Z) :=
  [(false, Z.shiftl 1 52); (true, Z.shiftl 1 52);
   (false, Z.shiftl 1 53); (true, Z.shiftl 1 53);
   (false, Z.shiftl 1 53 - 1); (true, Z.shiftl 1 53 - 1);
   (false, Z.shiftl 1 54 - 1); (true, Z.shiftl 1 54 - 1);
   (true, Z.shiftl 1 53);
   (false, Z.lor (Z.shiftl 1 52) (Z.shiftl 1 50));
   (true, Z.lor (Z.shiftl 1 52) (Z.shiftl 1 50));
   (false, Z.shiftl 1 52 + 1); (true, Z.shiftl 1 52 + 1);
   (true, Z.shiftl 1 53 - 2);
   (false, Z.shiftl 1 53 + 1); (true, Z.shiftl 1 53 + 1);
   (true, Z.lor (Z.shiftl 1 52) 0xAAAAAAAAAAAAA);
   (true, Z.lor (Z.shiftl 1 53) 0x5555555555555);
   (false, Z.lor (Z.shiftl 1 52) (Z.shiftl 0x7FFFFF 29))].

Definition directed_vectors (f : string) : res string := emit_all emit f directed_cases.

Section random.
Context {G : Type} `{PyRandom G}.

Definition random_step (fmt_d : bool) (f : string) (g : G) : res (string * G) :=
  '(coin, g) ← randint 0 1 g;
  let '(a, g) :=
    if coin =? 0
    then let '(x, g) := rng_bits 52 g in (Z.lor (Z.shiftl 1 52) x, g)
    else let '(x, g) := rng_bits 53 g in (Z.lor (Z.shiftl 1 53) x, g) in
  if negb ((Z.shiftl 1 52 <=? a) && (a <? Z.shiftl 1 54))
  then Raise (AssertionError ("a=" +:+ fmt_hash_x a +:+ " out of range"))
  else f ← emit f (fmt_d, a); mret (f, g).

Definition random_vectors (f : string) (fmt_d : bool) (count : nat) (seed : Z) : res string :=
  '(f, _) ← Nat.iter count (λ s, '(f, g) ← s; random_step fmt_d f g) (Ok (f, rng_seed seed));
  mret f.

(** The contents of fsqrt_vectors.hex. *)
Definition main : res string :=
  f ← directed_vectors "";
  f ← random_vectors f true 500 42;
  random_vectors f false 500 137.
End random.
End Fsqrt.

(** ** What the files hold *)

(** [f'] is [f] with the lines of [k] cases satisfying [ok] appended. *)
Definition appends (ok : vec → Prop) (k : nat) (f f' : string) : Prop :=
  ∃ vs, f' = f +:+ str_concat (render_vec <$> vs) ∧ length vs = k ∧ Forall ok vs.

Lemma appends_nil ok f : appends ok 0 f f.
Proof. exists []. simpl. by rewrite str_app_nil_r. Qed.

Lemma appends_one (ok : vec → Prop) f v : ok v → appends ok 1 f (f +:+ render_vec v).
Proof.
  exists [v]. split_and!; [|done|by constructor]. simpl.
  by rewrite str_app_nil_r.
Qed.

Lemma appends_trans ok k1 k2 f1 f2 f3 :
  appends ok k1 f1 f2 → appends ok k2 f2 f3 → appends ok (k1 + k2) f1 f3.
Proof.
  intros (v1 & -> & <- & H1) (v2 & -> & <- & H2). exists (v1 ++ v2). split_and!.
  - by rewrite fmap_app, str_concat_app, str_app_assoc.
  - by rewrite length_app.
  - by apply Forall_app.
Qed.

(** A loop of [emit]s over cases that each append one good line. *)
Lemma emit_all_appends {C} (emit : string → C → res string) ok (cases : list C) f :
  (∀ c f, c ∈ cases → res_wp (emit f c) (appends ok 1 f)) →
  res_wp (emit_all emit f cases) (appends ok (length cases) f).
Proof.
  intros Hemit. unfold emit_all.
  induction cases as [|c cases IH] using rev_ind.
  - apply appends_nil.
  - rewrite foldl_snoc, res_wp_bind, length_app. change (length [c]) with 1%nat.
    assert (∀ c f, c ∈ cases → res_wp (emit f c) (appends ok 1 f)) as Hc.
    { intros c' f' ?. apply Hemit. set_solver. }
    specialize (IH Hc). apply res_wp_ok in IH as (f1 & -> & Hf1). cbn [res_wp mbind res_bind].
    assert (c ∈ cases ++ [c]) as Hin by set_solver.
    pose proof (Hemit c f1 Hin) as Hl. apply res_wp_ok in Hl as (f2 & -> & Hf2).
    by eapply appends_trans.
Qed.

(** A loop of random steps that each append one good line. *)
Lemma iter_appends {G} (step : string → G → res (string * G)) ok n f (g : G) :
  (∀ f g, res_wp (step f g) (λ s, appends ok 1 f s.1)) →
  res_wp (Nat.iter n (λ s, '(f, g) ← s; step f g) (Ok (f, g))) (λ s, appends ok n f s.1).
Proof.
  intros Hstep. induction n as [|n IH]; [apply appends_nil|].
  rewrite Nat.iter_succ, res_wp_bind.
  apply res_wp_ok in IH as ([f1 g1] & -> & Hf1). cbn [res_wp fst] in *.
  pose proof (Hstep f1 g1) as Hs. apply res_wp_ok in Hs as ([f2 g2] & -> & Hf2). cbn [res_wp fst] in *.
  replace (S n) with (n + 1)%nat by lia. by eapply appends_trans.
Qed.

(** Setting bit [k] of a [k]-bit number. *)
Lemma set_top_bit k x : 0 ≤ k → 0 ≤ x < 2 ^ k → Z.lor (Z.shiftl 1 k) x = 2 ^ k + x.
Proof. intros. rewrite lor_shiftl_add by done. lia. Qed.

Definition normalised (a : Z) : Prop := 2 ^ 52 ≤ a < 2 ^ 53.

(** The cases of the divider's file: normalised operands, and the quotient
    and sticky bit the reference returns for them at the width of the format. *)
Definition fdiv_vec_ok (v : vec) : Prop :=
  ∃ a b, vec_ops v = [a; b] ∧ normalised a ∧ normalised b ∧
    srt_divide a b (if vec_fmt v then 56 else 27) = Ok (vec_q v, vec_sticky v).

Definition fsqrt_vec_ok (v : vec) : Prop :=
  ∃ a, vec_ops v = [a] ∧ 2 ^ 52 ≤ a < 2 ^ 54 ∧
    srt_sqrt a (if vec_fmt v then 56 else 27) = Ok (vec_q v, vec_sticky v).

Lemma normalised_pre a b : normalised a → normalised b → divide_pre a b.
Proof. unfold normalised, divide_pre. lia. Qed.

Lemma fdiv_vec_fits v : fdiv_vec_ok v → fits_line v.
Proof.
  intros (a & b & Hops & Ha & Hb & Hdiv). unfold fits_line. rewrite Hops.
  rewrite srt_divide_run in Hdiv by (by apply normalised_pre).
  injection Hdiv as Hq _. unfold normalised in *. change (16 ^ 14) with (2 ^ 56).
  split; [repeat constructor; lia|]. rewrite <-Hq.
  set (m := Z.max 0 _). assert (0 ≤ 2 ^ m ≤ 2 ^ 55) as Hm.
  { split; [apply Z.pow_nonneg; lia|]. apply Z.pow_le_mono_r; [lia|].
    subst m. destruct (vec_fmt v); lia. }
  split; [apply Z.div_pos; nia|]. apply Z.div_lt_upper_bound; [lia|nia].
Qed.

Lemma fsqrt_vec_fits v : fsqrt_vec_ok v → fits_line v.
Proof.
  intros (a & Hops & Ha & Hs). unfold fits_line. rewrite Hops.
  assert (1 ≤ (if vec_fmt v then 56 else 27) ≤ 56) as Hn by (destruct (vec_fmt v); lia).
  destruct (srt_sqrt_run a (if vec_fmt v then 56 else 27) Ha ltac:(lia))
    as (q & r & (Heq & Hr & Hq) & Hrun).
  rewrite Hrun in Hs. injection Hs as HQ _. rewrite <-HQ.
  split; [repeat constructor; lia|]. change (16 ^ 14) with (2 ^ 56).
  set (n := if vec_fmt v then 56 else 27) in *.
  assert (0 < 4 ^ (n - 1) ≤ 4 ^ 55) as H4.
  { split; [apply Z.pow_pos_nonneg; lia|apply Z.pow_le_mono_r; lia]. }
  assert (q < 2 ^ 82) as Hq' by nia.
  split; [apply Z.div_pos; lia|]. apply Z.div_lt_upper_bound; lia.
Qed.

Lemma fdiv_emit_ok f fmt_d a b :
  normalised a → normalised b →
  res_wp (Fdiv.emit f (fmt_d, a, b)) (appends fdiv_vec_ok 1 f).
Proof.
  intros Ha Hb. unfold Fdiv.emit. rewrite res_wp_bind.
  rewrite srt_divide_run by (by apply normalised_pre). simpl.
  apply appends_one. exists a, b. split_and!; [done..|]. simpl.
  by rewrite srt_divide_run by (by apply normalised_pre).
Qed.

Lemma fsqrt_emit_ok f fmt_d a :
  2 ^ 52 ≤ a < 2 ^ 54 → res_wp (Fsqrt.emit f (fmt_d, a)) (appends fsqrt_vec_ok 1 f).
Proof.
  intros Ha. unfold Fsqrt.emit. rewrite res_wp_bind.
  destruct (srt_sqrt_run a (if fmt_d then 56 else 27) Ha) as (q & r & _ & Hrun);
    [destruct fmt_d; lia|].
  rewrite Hrun. simpl. apply appends_one. exists a. split; [done|]. by split; [|exact Hrun].
Qed.

Lemma fdiv_random_step_ok `{PyRandomLaws G} fmt_d f (g : G) :
  res_wp (Fdiv.random_step fmt_d f g) (λ s, appends fdiv_vec_ok 1 f s.1).
Proof.
  unfold Fdiv.random_step.
  pose proof (rng_bits_range 52 g ltac:(lia)). destruct (rng_bits 52 g) as [x g1].
  pose proof (rng_bits_range 52 g1 ltac:(lia)). destruct (rng_bits 52 g1) as [y g2].
  cbn [fst] in *. rewrite !set_top_bit by lia.
  rewrite Z.geb_leb, (proj2 (Z.leb_gt _ _)) by lia. cbn [mbind res_bind].
  rewrite (proj2 (Z.ltb_lt _ _)) by lia. cbn [negb]. rewrite res_wp_bind.
  apply res_wp_ok. destruct (proj1 (res_wp_ok _ _)
    (fdiv_emit_ok f fmt_d (2 ^ 52 + x) (2 ^ 52 + y) ltac:(unfold normalised; lia)
      ltac:(unfold normalised; lia))) as (f' & -> & Hf'). by exists f'.
Qed.

Lemma fsqrt_random_step_ok `{PyRandomLaws G} fmt_d f (g : G) :
  res_wp (Fsqrt.random_step fmt_d f g) (λ s, appends fsqrt_vec_ok 1 f s.1).
Proof.
  unfold Fsqrt.random_step. rewrite res_wp_bind. apply randint_wp; [lia|].
  intros coin g1 _. cbv beta iota.
  assert (∃ a g2, (if coin =? 0
     then let '(x, g) := rng_bits 52 g1 in (Z.lor (Z.shiftl 1 52) x, g)
     else let '(x, g) := rng_bits 53 g1 in (Z.lor (Z.shiftl 1 53) x, g)) = (a, g2)
     ∧ 2 ^ 52 ≤ a < 2 ^ 54) as (a & g2 & -> & Ha).
  { destruct (coin =? 0).
    - pose proof (rng_bits_range 52 g1 ltac:(lia)). destruct (rng_bits 52 g1) as [x g2].
      cbn [fst] in *. rewrite set_top_bit by lia. eexists _, _. split; [done|lia].
    - pose proof (rng_bits_range 53 g1 ltac:(lia)). destruct (rng_bits 53 g1) as [x g2].
      cbn [fst] in *. rewrite set_top_bit by lia. eexists _, _. split; [done|lia]. }
  change (Z.shiftl 1 52) with (2 ^ 52). change (Z.shiftl 1 54) with (2 ^ 54).
  rewrite (proj2 (Z.leb_le _ _)), (proj2 (Z.ltb_lt _ (2 ^ 54))) by lia. cbn [andb negb].
  rewrite res_wp_bind. destruct (proj1 (res_wp_ok _ _) (fsqrt_emit_ok f fmt_d a Ha))
    as (f' & -> & Hf'). done.
Qed.

(** What a run of a generator's [main] is, given its three stages. *)
Lemma three_stages ok k1 k2 k3 (m1 : res string) (m2 m3 : string → res string) :
  res_wp m1 (appends ok k1 "") →
  (∀ f, res_wp (m2 f) (appends ok k2 f)) → (∀ f, res_wp (m3 f) (appends ok k3 f)) →
  ∃ vs, (f ← m1; f ← m2 f; m3 f) = Ok (str_concat (render_vec <$> vs)) ∧
    length vs = (k1 + k2 + k3)%nat ∧ Forall ok vs.
Proof.
  intros H1 H2 H3. apply res_wp_ok in H1 as (f1 & -> & H1). cbn [mbind res_bind].
  specialize (H2 f1). apply res_wp_ok in H2 as (f2 & -> & H2). cbn [mbind res_bind].
  specialize (H3 f2). apply res_wp_ok in H3 as (f3 & -> & H3).
  destruct (appends_trans _ _ _ _ _ _ (appends_trans _ _ _ _ _ _ H1 H2) H3)
    as (vs & -> & Hlen & Hok). exists vs. by rewrite str_app_nil_l.
Qed.

Lemma random_vectors_ok {G} (step : string → G → res (string * G)) ok f n (g : G) :
  (∀ f g, res_wp (step f g) (λ s, appends ok 1 f s.1)) →
  res_wp ('(f, _) ← Nat.iter n (λ s, '(f, g) ← s; step f g) (Ok (f, g)); mret f)
    (appends ok n f).
Proof.
  intros Hstep. rewrite res_wp_bind.
  pose proof (iter_appends step ok n f g Hstep) as Hi.
  apply res_wp_ok in Hi as ([f1 g1] & -> & Hf1). done.
Qed.

Lemma fdiv_directed_normalised :
  Forall (λ c, normalised c.1.2 ∧ normalised c.2) Fdiv.directed_cases.
Proof. unfold normalised. apply (bool_decide_eq_true_1 _). vm_compute. reflexivity. Qed.

Lemma fsqrt_directed_in_range :
  Forall (λ c, 2 ^ 52 ≤ c.2 < 2 ^ 54) Fsqrt.directed_cases.
Proof. apply (bool_decide_eq_true_1 _). vm_compute. reflexivity. Qed.

(** C4: The divider's vector file, for any generator obeying the documented
    ranges: 1020 lines of 49 characters that read back as normalised operands
    with the quotient and sticky bit the divider must produce. *)
Theorem fdiv_main_correct `{PyRandomLaws G} :
  ∃ vs, Fdiv.main (G := G) = Ok (str_concat (render_vec <$> vs)) ∧ length vs = 1020%nat ∧
    Forall (λ v, fdiv_vec_ok v ∧ String.length (render_vec v) = 49%nat ∧
                 parse_vec 2 (render_vec v) = Some v) vs.
Proof.
  destruct (three_stages fdiv_vec_ok 20 500 500 (Fdiv.directed_vectors "")
    (λ f, Fdiv.random_vectors (G := G) f true 500 42)
    (λ f, Fdiv.random_vectors (G := G) f false 500 137)) as (vs & Hmain & Hlen & Hok).
  - unfold Fdiv.directed_vectors. change 20%nat with (length Fdiv.directed_cases).
    apply emit_all_appends. intros [[fmt_d a] b] f Hin.
    destruct (proj1 (list.Forall_forall _ _) fdiv_directed_normalised _ Hin).
    by apply fdiv_emit_ok.
  - intros f. apply random_vectors_ok, fdiv_random_step_ok.
  - intros f. apply random_vectors_ok, fdiv_random_step_ok.
  - exists vs. split; [exact Hmain|]. split; [exact Hlen|].
    revert Hok. apply Forall_impl. intros v Hv.
    pose proof (fdiv_vec_fits v Hv) as Hfit.
    assert (length (vec_ops v) = 2%nat) as Hops by (by destruct Hv as (? & ? & -> & _)).
    split; [done|]. split.
    + by rewrite length_render_vec, Hops by done.
    + rewrite <-Hops. by apply parse_render_vec.
Qed.

Lemma fdiv_main_correct_witness :
  ∃ vs, Fdiv.main (G := Mt19937.mt) = Ok (str_concat (render_vec <$> vs)) ∧
    length vs = 1020%nat ∧
    Forall (λ v, fdiv_vec_ok v ∧ String.length (render_vec v) = 49%nat ∧
                 parse_vec 2 (render_vec v) = Some v) vs.
Proof. exact (fdiv_main_correct (G := Mt19937.mt)). Defined.

(** C5: The square-root vector file, likewise: 1019 lines of 34 characters
    that read back as operands in range with the root and sticky bit the unit
    must produce. *)
Theorem fsqrt_main_correct `{PyRandomLaws G} :
  ∃ vs, Fsqrt.main (G := G) = Ok (str_concat (render_vec <$> vs)) ∧ length vs = 1019%nat ∧
    Forall (λ v, fsqrt_vec_ok v ∧ String.length (render_vec v) = 34%nat ∧
                 parse_vec 1 (render_vec v) = Some v) vs.
Proof.
  destruct (three_stages fsqrt_vec_ok 19 500 500 (Fsqrt.directed_vectors "")
    (λ f, Fsqrt.random_vectors (G := G) f true 500 42)
    (λ f, Fsqrt.random_vectors (G := G) f false 500 137)) as (vs & Hmain & Hlen & Hok).
  - unfold Fsqrt.directed_vectors. change 19%nat with (length Fsqrt.directed_cases).
    apply emit_all_appends. intros [fmt_d a] f Hin.
    apply fsqrt_emit_ok. exact (proj1 (list.Forall_forall _ _) fsqrt_directed_in_range _ Hin).
  - intros f. apply random_vectors_ok, fsqrt_random_step_ok.
  - intros f. apply random_vectors_ok, fsqrt_random_step_ok.
  - exists vs. split; [exact Hmain|]. split; [exact Hlen|].
    revert Hok. apply Forall_impl. intros v Hv.
    pose proof (fsqrt_vec_fits v Hv) as Hfit.
    assert (length (vec_ops v) = 1%nat) as Hops by (by destruct Hv as (? & -> & _)).
    split; [done|]. split.
    + by rewrite length_render_vec, Hops by done.
    + rewrite <-Hops. by apply parse_render_vec.
Qed.

Lemma fsqrt_main_correct_witness :
  ∃ vs, Fsqrt.main (G := Mt19937.mt) = Ok (str_concat (render_vec <$> vs)) ∧
    length vs = 1019%nat ∧
    Forall (λ v, fsqrt_vec_ok v ∧ String.length (render_vec v) = 34%nat ∧
                 parse_vec 1 (render_vec v) = Some v) vs.
Proof. exact (fsqrt_main_correct (G := Mt19937.mt)). Defined.

(** The case listed as a perfect square, 1.25, is not one: its root is
    inexact. *)
Example fsqrt_case_6_inexact :
  ∃ q, srt_sqrt (Z.lor (Z.shiftl 1 52) (Z.shiftl 1 50)) 56 = Ok (q, true).
Proof. eexists. vm_compute. reflexivity. Qed.

(** The first line of the file CPython's generator writes. *)
Example fdiv_first_line :
  res_wp (Fdiv.emit "" (true, 2 ^ 52, 2 ^ 52))
    (λ s, s = "1 10000000000000 10000000000000 80000000000000 0" +:+ newline).
Proof. vm_compute. reflexivity. Qed.
