(* ===== verification/Isa.v ===== *)
(** Abstract instructions: what a line of generated assembly means.  The
    encoders of Encoding.v turn an abstract instruction into the strings of an
    [AsmInstr]; [decode_insn] reads those strings back.  The specifications of the
    scenarios are stated on decoded programs: which registers a line reads and
    writes, and which memory it accesses. *)
From S2P Require Export Encoding.
Local Open Scope Z_scope.

(** ** Abstract syntax *)

Inductive rop := ADD | SUB | SLL | SRL | SRA | MUL | DIV | DIVU | REM | REMU.
Inductive iop := ADDI | SLLI | SRLI | SRAI.
Inductive uop := LUI | AUIPC.
Inductive bop := BEQ | BNE | BLT | BGE | BLTU | BGEU.
Inductive width := W8 | W16 | W32 | W64.
Inductive lrop := LR_W | LR_D.
Inductive amoop := SC_W | SC_D | AMOADD_W | AMOSWAP_W | AMOAND_W | AMOOR_W | AMOXOR_W
  | AMOMIN_W | AMOMAX_W | AMOMINU_W | AMOMAXU_W.
Inductive fop3 := FADD_S | FADD_D | FMUL_S | FMUL_D | FDIV_S | FDIV_D | FSUB_S | FSUB_D.
Inductive fprec := Sgl | Dbl.
Inductive sysop := ECALL | EBREAK | MRET.

Inductive insn :=
  | IR (op : rop) (rd rs1 rs2 : Reg)
  | II (op : iop) (rd rs1 : Reg) (imm : Z)
  | IU (op : uop) (rd : Reg) (imm : Z)
  | IJal (rd : Reg) (t : target)
  | IJalr (rd rs1 : Reg) (imm : Z)
  | IBr (op : bop) (rs1 rs2 : Reg) (t : target)
  | ILd (w : width) (rd base : Reg) (off : Z)
  | ISt (w : width) (rs2 base : Reg) (off : Z)
  | ILr (op : lrop) (aq rl : bool) (rd rs1 : Reg)
  | IAmo (op : amoop) (aq rl : bool) (rd rs2 rs1 : Reg)
  | IF3 (op : fop3) (rd rs1 rs2 : FReg) (rm : RoundingMode)
  | ISqrt (p : fprec) (rd rs1 : FReg) (rm : RoundingMode)
  | IFma (p : fprec) (rd rs1 rs2 rs3 : FReg) (rm : RoundingMode)
  | IFLd (p : fprec) (rd : FReg) (base : Reg) (off : Z)
  | IFSt (p : fprec) (rs2 : FReg) (base : Reg) (off : Z)
  | ICsrr (rd : Reg) (csr : Z)
  | ICsrw (rd : Reg) (csr : Z) (rs1 : Reg)
  | ISys (op : sysop)
  | ILine (text : string).

#[export] Instance rop_eq_dec : EqDecision rop.
Proof. solve_decision. Defined.
#[export] Instance iop_eq_dec : EqDecision iop.
Proof. solve_decision. Defined.
#[export] Instance bop_eq_dec : EqDecision bop.
Proof. solve_decision. Defined.
#[export] Instance fop3_eq_dec : EqDecision fop3.
Proof. solve_decision. Defined.
#[export] Instance width_eq_dec : EqDecision width.
Proof. solve_decision. Defined.

(** ** Encoding *)

Definition encode_r (op : rop) : arg → arg → arg → res AsmInstr :=
  match op with
  | ADD => enc.add | SUB => enc.sub | SLL => enc.sll | SRL => enc.srl | SRA => enc.sra
  | MUL => enc.mul | DIV => enc.div | DIVU => enc.divu | REM => enc.rem | REMU => enc.remu
  end.

Definition encode_i (op : iop) : arg → arg → Z → res AsmInstr :=
  match op with
  | ADDI => enc.addi | SLLI => enc.slli | SRLI => enc.srli | SRAI => enc.srai
  end.

Definition encode_b (op : bop) : arg → arg → target → res AsmInstr :=
  match op with
  | BEQ => enc.beq | BNE => enc.bne | BLT => enc.blt | BGE => enc.bge
  | BLTU => enc.bltu | BGEU => enc.bgeu
  end.

Definition encode_ld (w : width) : arg → arg → Z → res AsmInstr :=
  match w with W8 => enc.lb | W16 => enc.lh | W32 => enc.lw | W64 => enc.ld end.

Definition encode_st (w : width) : arg → arg → Z → res AsmInstr :=
  match w with W8 => enc.sb | W16 => enc.sh | W32 => enc.sw | W64 => enc.sd end.

Definition encode_amo (op : amoop) : arg → arg → arg → bool → bool → res AsmInstr :=
  match op with
  | SC_W => enc.sc_w | SC_D => enc.sc_d | AMOADD_W => enc.amoadd_w
  | AMOSWAP_W => enc.amoswap_w | AMOAND_W => enc.amoand_w | AMOOR_W => enc.amoor_w
  | AMOXOR_W => enc.amoxor_w | AMOMIN_W => enc.amomin_w | AMOMAX_W => enc.amomax_w
  | AMOMINU_W => enc.amominu_w | AMOMAXU_W => enc.amomaxu_w
  end.

Definition encode_f3 (op : fop3) : arg → arg → arg → RoundingMode → res AsmInstr :=
  match op with
  | FADD_S => enc.fadd_s | FADD_D => enc.fadd_d | FMUL_S => enc.fmul_s | FMUL_D => enc.fmul_d
  | FDIV_S => enc.fdiv_s | FDIV_D => enc.fdiv_d | FSUB_S => enc.fsub_s | FSUB_D => enc.fsub_d
  end.

Definition encode_insn (i : insn) : res AsmInstr :=
  match i with
  | IR op rd rs1 rs2 => encode_r op rd rs1 rs2
  | II op rd rs1 imm => encode_i op rd rs1 imm
  | IU LUI rd imm => enc.lui rd imm
  | IU AUIPC rd imm => enc.auipc rd imm
  | IJal rd t => enc.jal rd t
  | IJalr rd rs1 imm => enc.jalr rd rs1 imm
  | IBr op rs1 rs2 t => encode_b op rs1 rs2 t
  | ILd w rd base off => encode_ld w rd base off
  | ISt w rs2 base off => encode_st w rs2 base off
  | ILr LR_W aq rl rd rs1 => enc.lr_w rd rs1 aq rl
  | ILr LR_D aq rl rd rs1 => enc.lr_d rd rs1 aq rl
  | IAmo op aq rl rd rs2 rs1 => encode_amo op rd rs2 rs1 aq rl
  | IF3 op rd rs1 rs2 rm => encode_f3 op rd rs1 rs2 rm
  | ISqrt Sgl rd rs1 rm => enc.fsqrt_s rd rs1 rm
  | ISqrt Dbl rd rs1 rm => enc.fsqrt_d rd rs1 rm
  | IFma Sgl rd rs1 rs2 rs3 rm => enc.fmadd_s rd rs1 rs2 rs3 rm
  | IFma Dbl rd rs1 rs2 rs3 rm => enc.fmadd_d rd rs1 rs2 rs3 rm
  | IFLd Sgl rd base off => enc.flw rd base off
  | IFLd Dbl rd base off => enc.fld rd base off
  | IFSt Sgl rs2 base off => enc.fsw rs2 base off
  | IFSt Dbl rs2 base off => enc.fsd rs2 base off
  | ICsrr rd csr => enc.csrr rd csr
  | ICsrw rd csr rs1 => enc.csrw rd csr rs1
  | ISys ECALL => enc.ecall
  | ISys EBREAK => enc.ebreak
  | ISys MRET => enc.mret
  | ILine s => Ok (Asm "" [s])
  end.

(** ** Rendering *)

Definition rop_name (op : rop) : string :=
  match op with
  | ADD => "add" | SUB => "sub" | SLL => "sll" | SRL => "srl" | SRA => "sra"
  | MUL => "mul" | DIV => "div" | DIVU => "divu" | REM => "rem" | REMU => "remu"
  end.
Definition iop_name (op : iop) : string :=
  match op with ADDI => "addi" | SLLI => "slli" | SRLI => "srli" | SRAI => "srai" end.
Definition uop_name (op : uop) : string := match op with LUI => "lui" | AUIPC => "auipc" end.
Definition bop_name (op : bop) : string :=
  match op with
  | BEQ => "beq" | BNE => "bne" | BLT => "blt" | BGE => "bge" | BLTU => "bltu" | BGEU => "bgeu"
  end.
Definition ld_name (w : width) : string :=
  match w with W8 => "lb" | W16 => "lh" | W32 => "lw" | W64 => "ld" end.
Definition st_name (w : width) : string :=
  match w with W8 => "sb" | W16 => "sh" | W32 => "sw" | W64 => "sd" end.
Definition lr_name (op : lrop) : string := match op with LR_W => "lr.w" | LR_D => "lr.d" end.
Definition amo_name (op : amoop) : string :=
  match op with
  | SC_W => "sc.w" | SC_D => "sc.d" | AMOADD_W => "amoadd.w" | AMOSWAP_W => "amoswap.w"
  | AMOAND_W => "amoand.w" | AMOOR_W => "amoor.w" | AMOXOR_W => "amoxor.w"
  | AMOMIN_W => "amomin.w" | AMOMAX_W => "amomax.w" | AMOMINU_W => "amominu.w"
  | AMOMAXU_W => "amomaxu.w"
  end.
Definition f3_name (op : fop3) : string :=
  match op with
  | FADD_S => "fadd.s" | FADD_D => "fadd.d" | FMUL_S => "fmul.s" | FMUL_D => "fmul.d"
  | FDIV_S => "fdiv.s" | FDIV_D => "fdiv.d" | FSUB_S => "fsub.s" | FSUB_D => "fsub.d"
  end.
Definition sys_name (op : sysop) : string :=
  match op with ECALL => "ecall" | EBREAK => "ebreak" | MRET => "mret" end.
Definition prec {A} (s d : A) (p : fprec) : A := match p with Sgl => s | Dbl => d end.
Definition paren (r : Reg) : string := "(" +:+ Reg_asm r +:+ ")".

(** The line an abstract instruction stands for. *)
Definition render (i : insn) : AsmInstr :=
  match i with
  | IR op rd rs1 rs2 => Asm (rop_name op) [Reg_asm rd; Reg_asm rs1; Reg_asm rs2]
  | II op rd rs1 imm => Asm (iop_name op) [Reg_asm rd; Reg_asm rs1; str_Z imm]
  | IU op rd imm => Asm (uop_name op) [Reg_asm rd; str_Z imm]
  | IJal rd t => Asm "jal" [Reg_asm rd; str_target t]
  | IJalr rd rs1 imm => Asm "jalr" [Reg_asm rd; str_Z imm; paren rs1]
  | IBr op rs1 rs2 t => Asm (bop_name op) [Reg_asm rs1; Reg_asm rs2; str_target t]
  | ILd w rd base off => Asm (ld_name w) [Reg_asm rd; enc.mem_operand off base]
  | ISt w rs2 base off => Asm (st_name w) [Reg_asm rs2; enc.mem_operand off base]
  | ILr op aq rl rd rs1 =>
      Asm (lr_name op +:+ enc._amo_suffix aq rl) [Reg_asm rd; paren rs1]
  | IAmo op aq rl rd rs2 rs1 =>
      Asm (amo_name op +:+ enc._amo_suffix aq rl) [Reg_asm rd; Reg_asm rs2; paren rs1]
  | IF3 op rd rs1 rs2 rm =>
      Asm (f3_name op) ([FReg_asm rd; FReg_asm rs1; FReg_asm rs2] ++ enc.rm_operand rm)
  | ISqrt p rd rs1 rm =>
      Asm (prec "fsqrt.s" "fsqrt.d" p) ([FReg_asm rd; FReg_asm rs1] ++ enc.rm_operand rm)
  | IFma p rd rs1 rs2 rs3 rm =>
      Asm (prec "fmadd.s" "fmadd.d" p)
        ([FReg_asm rd; FReg_asm rs1; FReg_asm rs2; FReg_asm rs3] ++ enc.rm_operand rm)
  | IFLd p rd base off => Asm (prec "flw" "fld" p) [FReg_asm rd; enc.mem_operand off base]
  | IFSt p rs2 base off => Asm (prec "fsw" "fsd" p) [FReg_asm rs2; enc.mem_operand off base]
  | ICsrr rd csr => Asm "csrr" [Reg_asm rd; "0x" +:+ fmt_hex 3 csr]
  | ICsrw rd csr rs1 => Asm "csrrw" [Reg_asm rd; "0x" +:+ fmt_hex 3 csr; Reg_asm rs1]
  | ISys op => Asm (sys_name op) []
  | ILine s => Asm "" [s]
  end.

(** The immediates each encoder accepts. *)
Definition simm12 (z : Z) : Prop := -2048 ≤ z ≤ 2047.

Definition imm_ok (i : insn) : Prop :=
  match i with
  | II ADDI _ _ imm | IJalr _ _ imm => simm12 imm
  | II _ _ _ sh => 0 ≤ sh ≤ 63
  | IU _ _ imm => 0 ≤ imm < 2 ^ 20
  | IJal _ (Offset z) => -2 ^ 20 ≤ z < 2 ^ 20 ∧ z `mod` 2 = 0
  | IBr _ _ _ (Offset z) => -4096 ≤ z < 4096 ∧ z `mod` 2 = 0
  | ILd _ _ _ off | ISt _ _ _ off | IFLd _ _ _ off | IFSt _ _ _ off => simm12 off
  | _ => True
  end.

#[export] Instance imm_ok_dec i : Decision (imm_ok i).
Proof. destruct i as [|[]| |? []| |? ? ? []| | | | | | | | | | | | |]; simpl; apply _. Defined.

Lemma land_1_mod z : Z.land z 1 = z `mod` 2.
Proof. change 1 with (Z.ones 1). by rewrite Z.land_ones. Qed.

Lemma check_simm_ok value bits name lim :
  Z.shiftl 1 (bits - 1) = lim →
  _check_simm value bits name =
    if decide (- lim ≤ value < lim) then Ok tt
    else Raise (ValueError (name +:+ "=" +:+ str_Z value +:+ " out of range [" +:+
                 str_Z (- lim) +:+ ", " +:+ str_Z (lim - 1) +:+ "]")).
Proof.
  intros <-. unfold _check_simm. destruct (negb _) eqn:E; zbool; case_decide; done || lia.
Qed.

Lemma check_uimm_ok value bits name lim :
  Z.shiftl 1 bits = lim →
  _check_uimm value bits name =
    if decide (0 ≤ value < lim) then Ok tt
    else Raise (ValueError (name +:+ "=" +:+ str_Z value +:+ " out of range [0, " +:+
                 str_Z (lim - 1) +:+ "]")).
Proof.
  intros <-. unfold _check_uimm. destruct (negb _) eqn:E; zbool; case_decide; done || lia.
Qed.

(** Offsets of branches and jumps: the range of the field, then the parity. *)
Lemma check_branch_offset_ok z :
  (_check_branch_offset z = Ok tt ∧ -4096 ≤ z < 4096 ∧ z `mod` 2 = 0) ∨
  (∃ msg, _check_branch_offset z = Raise (ValueError msg)) ∧
    ¬ (-4096 ≤ z < 4096 ∧ z `mod` 2 = 0).
Proof.
  unfold _check_branch_offset. rewrite (check_simm_ok z 13 _ 4096), land_1_mod by done.
  case_decide; simpl.
  - destruct (Z.eqb_spec (z `mod` 2) 0); simpl.
    + by left.
    + right. split; [by eexists|lia].
  - right. split; [by eexists|lia].
Qed.

Lemma check_jal_offset_ok z :
  (_check_jal_offset z = Ok tt ∧ -2 ^ 20 ≤ z < 2 ^ 20 ∧ z `mod` 2 = 0) ∨
  (∃ msg, _check_jal_offset z = Raise (ValueError msg)) ∧
    ¬ (-2 ^ 20 ≤ z < 2 ^ 20 ∧ z `mod` 2 = 0).
Proof.
  unfold _check_jal_offset. rewrite (check_simm_ok z 21 _ (2 ^ 20)), land_1_mod by done.
  case_decide; simpl.
  - destruct (Z.eqb_spec (z `mod` 2) 0); simpl.
    + by left.
    + right. split; [by eexists|lia].
  - right. split; [by eexists|lia].
Qed.

(** What an encoder does on registers of the right class: it returns the line
    [a] on the immediates its field can hold and raises ValueError on the
    others. *)
Definition encodes_within (m : res AsmInstr) (P : Prop) (a : AsmInstr) : Prop :=
  (P ∧ m = Ok a) ∨ (¬ P ∧ ∃ msg, m = Raise (ValueError msg)).

Lemma encodes_simm z name k :
  encodes_within (_ ← _check_simm z 12 name; Ok k) (simm12 z) k.
Proof.
  rewrite (check_simm_ok z 12 name 2048) by done. unfold encodes_within, simm12.
  case_decide; [left; by split; [lia|]|right]. split; [lia|by eexists].
Qed.

Lemma encodes_uimm z bits lim name k :
  Z.shiftl 1 bits = lim →
  encodes_within (_ ← _check_uimm z bits name; Ok k) (0 ≤ z < lim) k.
Proof.
  intros Hl. rewrite (check_uimm_ok z bits name lim Hl). unfold encodes_within.
  case_decide; [left; by split; [lia|]|right]. split; [lia|by eexists].
Qed.

Lemma encodes_always k : encodes_within (Ok k) True k.
Proof. by left. Qed.

Lemma encodes_shift m rd rs1 sh :
  encodes_within (enc.shift m (AReg rd) (AReg rs1) sh) (0 ≤ sh ≤ 63)
    (Asm m [Reg_asm rd; Reg_asm rs1; str_Z sh]).
Proof.
  destruct (encodes_uimm sh 6 64 "shamt" (Asm m [Reg_asm rd; Reg_asm rs1; str_Z sh]) eq_refl)
    as [[? ?]|[? ?]]; [left|right]; (split; [lia|done]).
Qed.

Lemma encode_within i : encodes_within (encode_insn i) (imm_ok i) (render i).
Proof.
  destruct i as [[]|[]|[]|rd [z|s]| |[] rs1 rs2 [z|s]|[]|[]|[]|[]|[]|[]|[]|[]|[]| | |[]| ];
    first [apply encodes_always | apply encodes_simm | apply encodes_shift
          | by apply encodes_uimm | idtac].
  { destruct (check_jal_offset_ok z) as [(H & ?)|((msg & H) & ?)]; [left|right];
      (split; [done|]); simpl; rewrite H; [done|by eexists]. }
  all: destruct (check_branch_offset_ok z) as [(H & ?)|((msg & H) & ?)]; [left|right];
      (split; [done|]); cbn; rewrite H; [done|by eexists].
Qed.

Lemma encode_ok i : imm_ok i → encode_insn i = Ok (render i).
Proof. intros Hi. by destruct (encode_within i) as [[_ ?]|[? _]]. Qed.

(** ** Decoding *)

Definition Reg_of_name (s : string) : option Reg := find (λ r, String.eqb (Reg_asm r) s) Reg_all.
Definition FReg_of_name (s : string) : option FReg := find (λ r, String.eqb (FReg_asm r) s) FReg_all.
Definition paren_of_name (s : string) : option Reg :=
  find (λ r, String.eqb ("(" +:+ Reg_asm r +:+ ")") s) Reg_all.
Definition rm_of_name (s : string) : option RoundingMode :=
  find (λ m, String.eqb (RoundingMode_asm m) s) [RNE; RTZ; RDN; RUP; RMM].

Definition mem_of_operand (s : string) : option (Z * Reg) :=
  '(imm, r) ← split_at "(" s;
  z ← int_of_str imm; r ← paren_of_name (String "(" r); Some (z, r).

Definition target_of_operand (s : string) : target :=
  match int_of_str s with Some z => Offset z | None => Label s end.

Definition csr_of_operand (s : string) : option Z := int_of_hex (str_drop 2 s).

(** What a mnemonic says about its operands. *)
Inductive format :=
  | FmtR (op : rop) | FmtI (op : iop) | FmtU (op : uop) | FmtJal | FmtJalr
  | FmtB (op : bop) | FmtLd (w : width) | FmtSt (w : width)
  | FmtLr (op : lrop) (aq rl : bool) | FmtAmo (op : amoop) (aq rl : bool)
  | FmtF3 (op : fop3) | FmtSqrt (p : fprec) | FmtFma (p : fprec)
  | FmtFLd (p : fprec) | FmtFSt (p : fprec) | FmtCsrr | FmtCsrw
  | FmtSys (op : sysop) | FmtLine.

Definition orderings : list (string * (bool * bool)) :=
  [("", (false, false)); (".rl", (false, true)); (".aq", (true, false));
   (".aqrl", (true, true))].

Definition formats : list (string * format) :=
  [("add", FmtR ADD); ("sub", FmtR SUB); ("sll", FmtR SLL); ("srl", FmtR SRL);
   ("sra", FmtR SRA); ("mul", FmtR MUL); ("div", FmtR DIV); ("divu", FmtR DIVU);
   ("rem", FmtR REM); ("remu", FmtR REMU);
   ("addi", FmtI ADDI); ("slli", FmtI SLLI); ("srli", FmtI SRLI); ("srai", FmtI SRAI);
   ("lui", FmtU LUI); ("auipc", FmtU AUIPC); ("jal", FmtJal); ("jalr", FmtJalr);
   ("beq", FmtB BEQ); ("bne", FmtB BNE); ("blt", FmtB BLT); ("bge", FmtB BGE);
   ("bltu", FmtB BLTU); ("bgeu", FmtB BGEU);
   ("lb", FmtLd W8); ("lh", FmtLd W16); ("lw", FmtLd W32); ("ld", FmtLd W64);
   ("sb", FmtSt W8); ("sh", FmtSt W16); ("sw", FmtSt W32); ("sd", FmtSt W64);
   ("fadd.s", FmtF3 FADD_S); ("fadd.d", FmtF3 FADD_D); ("fmul.s", FmtF3 FMUL_S);
   ("fmul.d", FmtF3 FMUL_D); ("fdiv.s", FmtF3 FDIV_S); ("fdiv.d", FmtF3 FDIV_D);
   ("fsub.s", FmtF3 FSUB_S); ("fsub.d", FmtF3 FSUB_D);
   ("fsqrt.s", FmtSqrt Sgl); ("fsqrt.d", FmtSqrt Dbl);
   ("fmadd.s", FmtFma Sgl); ("fmadd.d", FmtFma Dbl);
   ("flw", FmtFLd Sgl); ("fld", FmtFLd Dbl); ("fsw", FmtFSt Sgl); ("fsd", FmtFSt Dbl);
   ("csrr", FmtCsrr); ("csrrw", FmtCsrw);
   ("ecall", FmtSys ECALL); ("ebreak", FmtSys EBREAK); ("mret", FmtSys MRET);
   ("", FmtLine)] ++
  ('(m, op) ← [("lr.w", LR_W); ("lr.d", LR_D)];
   '(s, (aq, rl)) ← orderings; [(m +:+ s, FmtLr op aq rl)]) ++
  ('(m, op) ← [("sc.w", SC_W); ("sc.d", SC_D); ("amoadd.w", AMOADD_W);
       ("amoswap.w", AMOSWAP_W); ("amoand.w", AMOAND_W); ("amoor.w", AMOOR_W);
       ("amoxor.w", AMOXOR_W); ("amomin.w", AMOMIN_W); ("amomax.w", AMOMAX_W);
       ("amominu.w", AMOMINU_W); ("amomaxu.w", AMOMAXU_W)];
   '(s, (aq, rl)) ← orderings; [(m +:+ s, FmtAmo op aq rl)]).

Definition format_of (m : string) : option format :=
  snd <$> find (λ p, String.eqb p.1 m) formats.

(** The rounding mode written last, the dynamic one when none is. *)
Definition rm_of_operands (ops : list string) : option RoundingMode :=
  match ops with [] => Some DYN | [s] => rm_of_name s | _ => None end.

Definition decode_insn (a : AsmInstr) : option insn :=
  f ← format_of (mnemonic a);
  match f, operands a with
  | FmtR op, [d; a; b] =>
      d ← Reg_of_name d; a ← Reg_of_name a; b ← Reg_of_name b; Some (IR op d a b)
  | FmtI op, [d; a; z] =>
      d ← Reg_of_name d; a ← Reg_of_name a; z ← int_of_str z; Some (II op d a z)
  | FmtU op, [d; z] => d ← Reg_of_name d; z ← int_of_str z; Some (IU op d z)
  | FmtJal, [d; t] => d ← Reg_of_name d; Some (IJal d (target_of_operand t))
  | FmtJalr, [d; z; a] =>
      d ← Reg_of_name d; z ← int_of_str z; a ← paren_of_name a; Some (IJalr d a z)
  | FmtB op, [a; b; t] =>
      a ← Reg_of_name a; b ← Reg_of_name b; Some (IBr op a b (target_of_operand t))
  | FmtLd w, [d; m] =>
      d ← Reg_of_name d; '(z, b) ← mem_of_operand m; Some (ILd w d b z)
  | FmtSt w, [s; m] =>
      s ← Reg_of_name s; '(z, b) ← mem_of_operand m; Some (ISt w s b z)
  | FmtLr op aq rl, [d; a] =>
      d ← Reg_of_name d; a ← paren_of_name a; Some (ILr op aq rl d a)
  | FmtAmo op aq rl, [d; b; a] =>
      d ← Reg_of_name d; b ← Reg_of_name b; a ← paren_of_name a;
      Some (IAmo op aq rl d b a)
  | FmtF3 op, d :: a :: b :: m =>
      d ← FReg_of_name d; a ← FReg_of_name a; b ← FReg_of_name b;
      m ← rm_of_operands m; Some (IF3 op d a b m)
  | FmtSqrt p, d :: a :: m =>
      d ← FReg_of_name d; a ← FReg_of_name a; m ← rm_of_operands m; Some (ISqrt p d a m)
  | FmtFma p, d :: a :: b :: c :: m =>
      d ← FReg_of_name d; a ← FReg_of_name a; b ← FReg_of_name b; c ← FReg_of_name c;
      m ← rm_of_operands m; Some (IFma p d a b c m)
  | FmtFLd p, [d; m] =>
      d ← FReg_of_name d; '(z, b) ← mem_of_operand m; Some (IFLd p d b z)
  | FmtFSt p, [s; m] =>
      s ← FReg_of_name s; '(z, b) ← mem_of_operand m; Some (IFSt p s b z)
  | FmtCsrr, [d; c] => d ← Reg_of_name d; c ← csr_of_operand c; Some (ICsrr d c)
  | FmtCsrw, [d; c; a] =>
      d ← Reg_of_name d; c ← csr_of_operand c; a ← Reg_of_name a; Some (ICsrw d c a)
  | FmtSys op, [] => Some (ISys op)
  | FmtLine, [s] => Some (ILine s)
  | _, _ => None
  end.

(** ** Round trip *)

Lemma Reg_of_asm r : Reg_of_name (Reg_asm r) = Some r.
Proof. by destruct r. Qed.
Lemma FReg_of_asm r : FReg_of_name (FReg_asm r) = Some r.
Proof. by destruct r. Qed.
Lemma paren_of_asm r : paren_of_name ("(" +:+ Reg_asm r +:+ ")") = Some r.
Proof. by destruct r. Qed.

Lemma mem_of_asm z r : mem_of_operand (enc.mem_operand z r) = Some (z, r).
Proof.
  unfold mem_of_operand, enc.mem_operand. rewrite str_app_cons, str_app_nil_l.
  rewrite split_at_app.
  - cbn [mbind option_bind]. rewrite int_of_str_Z. cbn [mbind option_bind].
    change (String "(" (Reg_asm r +:+ ")")) with ("(" +:+ Reg_asm r +:+ ")").
    by rewrite paren_of_asm.
  - eapply str_all_impl; [|apply str_Z_dec].
    intros [[] [] [] [] [] [] [] []]; simpl; done.
Qed.

Lemma rm_of_asm m : rm_of_operands (enc.rm_operand m) = Some m.
Proof. by destruct m. Qed.

Lemma csr_of_asm c : 0 ≤ c → csr_of_operand ("0x" +:+ fmt_hex 3 c) = Some c.
Proof.
  intros Hc. unfold csr_of_operand. rewrite !str_app_cons. cbn [str_drop].
  rewrite str_app_nil_l. by apply int_of_hex_fmt.
Qed.

(** The labels the decoder can tell from an offset, and CSR numbers. *)
Definition target_ok (t : target) : Prop :=
  match t with Offset _ => True | Label s => int_of_str s = None end.

Lemma target_of_asm t : target_ok t → target_of_operand (str_target t) = t.
Proof.
  destruct t as [z|s]; simpl; intros H; unfold target_of_operand.
  - by rewrite int_of_str_Z.
  - by rewrite H.
Qed.

Definition text_ok (i : insn) : Prop :=
  match i with
  | IJal _ t | IBr _ _ _ t => target_ok t
  | ICsrr _ c | ICsrw _ c _ => 0 ≤ c
  | _ => True
  end.

Lemma format_r op : format_of (rop_name op) = Some (FmtR op).
Proof. by destruct op. Qed.
Lemma format_i op : format_of (iop_name op) = Some (FmtI op).
Proof. by destruct op. Qed.
Lemma format_u op : format_of (uop_name op) = Some (FmtU op).
Proof. by destruct op. Qed.
Lemma format_b op : format_of (bop_name op) = Some (FmtB op).
Proof. by destruct op. Qed.
Lemma format_ld w : format_of (ld_name w) = Some (FmtLd w).
Proof. by destruct w. Qed.
Lemma format_st w : format_of (st_name w) = Some (FmtSt w).
Proof. by destruct w. Qed.
Lemma format_lr op aq rl :
  format_of (lr_name op +:+ enc._amo_suffix aq rl) = Some (FmtLr op aq rl).
Proof. by destruct op, aq, rl. Qed.
Lemma format_amo op aq rl :
  format_of (amo_name op +:+ enc._amo_suffix aq rl) = Some (FmtAmo op aq rl).
Proof. by destruct op, aq, rl. Qed.
Lemma format_f3 op : format_of (f3_name op) = Some (FmtF3 op).
Proof. by destruct op. Qed.
Lemma format_sqrt p : format_of (prec "fsqrt.s" "fsqrt.d" p) = Some (FmtSqrt p).
Proof. by destruct p. Qed.
Lemma format_fma p : format_of (prec "fmadd.s" "fmadd.d" p) = Some (FmtFma p).
Proof. by destruct p. Qed.
Lemma format_fld p : format_of (prec "flw" "fld" p) = Some (FmtFLd p).
Proof. by destruct p. Qed.
Lemma format_fst p : format_of (prec "fsw" "fsd" p) = Some (FmtFSt p).
Proof. by destruct p. Qed.
Lemma format_jal : format_of "jal" = Some FmtJal.
Proof. done. Qed.
Lemma format_jalr : format_of "jalr" = Some FmtJalr.
Proof. done. Qed.
Lemma format_csrr : format_of "csrr" = Some FmtCsrr.
Proof. done. Qed.
Lemma format_csrw : format_of "csrrw" = Some FmtCsrw.
Proof. done. Qed.
Lemma format_line : format_of "" = Some FmtLine.
Proof. done. Qed.
Lemma format_sys op : format_of (sys_name op) = Some (FmtSys op).
Proof. by destruct op. Qed.

(** Decode a rendered line: look its mnemonic up, then read its operands one
    by one. *)
Lemma obind_eq {A B} (m : option A) (f : A → option B) a r :
  m = Some a → f a = r → m ≫= f = r.
Proof. by intros -> <-. Qed.

Create HintDb decode discriminated.
#[export] Hint Constants Opaque : decode.
#[export] Hint Resolve Reg_of_asm FReg_of_asm paren_of_asm mem_of_asm int_of_str_Z rm_of_asm
  csr_of_asm format_r format_i format_u format_b format_ld format_st format_lr format_amo
  format_f3 format_sqrt format_fma format_fld format_fst format_jal format_jalr format_csrr
  format_csrw format_line format_sys : decode.

#[local] Opaque Reg_of_name FReg_of_name paren_of_name mem_of_operand int_of_str
  rm_of_operands csr_of_operand target_of_operand Reg_asm FReg_asm str_Z fmt_hex
  String.append format_of enc.mem_operand enc.rm_operand str_target.

Ltac decode_line :=
  unfold paren;
  repeat match goal with
  | |- mbind _ _ = _ => eapply obind_eq; [solve [auto with decode nocore]|cbv beta iota]
  end.

(** Reading a rendered line back gives the instruction it was rendered from. *)
Lemma decode_render i : text_ok i → decode_insn (render i) = Some i.
Proof.
  destruct i; intros Ht; unfold decode_insn;
    cbn [mnemonic operands render app text_ok] in *; decode_line;
    try (rewrite target_of_asm by done); reflexivity.
Qed.

#[local] Transparent Reg_of_name FReg_of_name paren_of_name mem_of_operand int_of_str
  rm_of_operands csr_of_operand target_of_operand Reg_asm FReg_asm str_Z fmt_hex
  String.append format_of enc.mem_operand enc.rm_operand str_target.

(** ** Claims about the encoder *)

(** C25: Every instruction with immediates in range is encoded, and the
    assembly line reads back as that instruction: mnemonic, registers,
    immediates, ordering bits and rounding mode. *)
Theorem encode_decode i :
  imm_ok i → text_ok i → ∃ a, encode_insn i = Ok a ∧ decode_insn a = Some i.
Proof.
  intros Himm Htext. exists (render i). split; [by apply encode_ok|by apply decode_render].
Qed.

Lemma encode_decode_witness :
  let i := IBr BGEU X5 X31 (Label ".Lbp_12") in
  imm_ok i ∧ text_ok i ∧ ∃ a, encode_insn i = Ok a ∧ decode_insn a = Some i.
Proof.
  split; [exact I|]. split; [reflexivity|].
  exact (encode_decode (IBr BGEU X5 X31 (Label ".Lbp_12")) I eq_refl).
Defined.

(** C26: On registers of the right class an encoder returns the line when the
    immediate fits its field (twelve-bit signed, twenty-bit unsigned, six-bit
    shift, even branch and jump offsets) and raises ValueError otherwise. *)
Theorem encode_range i :
  (imm_ok i ∧ encode_insn i = Ok (render i)) ∨
  (¬ imm_ok i ∧ ∃ msg, encode_insn i = Raise (ValueError msg)).
Proof. apply encode_within. Qed.
