(* ===== verification/RegFile.v ===== *)
(** The register state of tools/crv/regfile.py: which registers have been
    written, so may be read. *)
From S2P Require Export PyRandom Isa.
Local Open Scope Z_scope.

Definition _INITIAL_LIVE_GP : gset Reg := {[X0; X2]}.

(** The order of the key [lambda r: r.value]. *)
Definition Reg_le (r s : Reg) : Prop := Reg_value r ≤ Reg_value s.
Definition FReg_le (r s : FReg) : Prop := FReg_value r ≤ FReg_value s.
#[export] Instance Reg_le_dec : RelDecision Reg_le.
Proof. intros r s. unfold Reg_le. apply _. Defined.
#[export] Instance FReg_le_dec : RelDecision FReg_le.
Proof. intros r s. unfold FReg_le. apply _. Defined.

(** [sorted(live, key=lambda r: r.value)] *)
Definition sorted_regs (l : gset Reg) : list Reg := merge_sort Reg_le (elements l).
Definition sorted_fregs (l : gset FReg) : list FReg := merge_sort FReg_le (elements l).

Lemma elem_of_sorted_regs r l : r ∈ sorted_regs l ↔ r ∈ l.
Proof. unfold sorted_regs. rewrite merge_sort_Permutation. apply elem_of_elements. Qed.
Lemma elem_of_sorted_fregs r l : r ∈ sorted_fregs l ↔ r ∈ l.
Proof. unfold sorted_fregs. rewrite merge_sort_Permutation. apply elem_of_elements. Qed.

Lemma sorted_regs_nonempty r l : r ∈ l → sorted_regs l ≠ [].
Proof. intros Hr%elem_of_sorted_regs. by intros E; rewrite E in Hr; apply elem_of_nil in Hr. Qed.
Lemma sorted_fregs_nonempty r l : r ∈ l → sorted_fregs l ≠ [].
Proof. intros Hr%elem_of_sorted_fregs. by intros E; rewrite E in Hr; apply elem_of_nil in Hr. Qed.

(** ** class GPState *)

Module GPState.
Record t := { live : gset Reg }.

Definition init : t := {| live := _INITIAL_LIVE_GP |}.

Definition write (rd : Reg) (s : t) : t :=
  if decide (rd ≠ X0) then {| live := {[rd]} ∪ live s |} else s.

Definition is_live (r : Reg) (s : t) : bool := bool_decide (r ∈ live s).

Section rng.
Context {G : Type} `{PyRandom G}.
Definition random_live (s : t) (g : G) : res (Reg * G) := PyRandom.choice (sorted_regs (live s)) g.
Definition random_writable (s : t) (exclude_x0 : bool) (g : G) : res (Reg * G) :=
  let choices := if exclude_x0 then filter (λ r, r ≠ X0) Reg_all else Reg_all in
  PyRandom.choice choices g.
End rng.

(** The zero register is live: every set the scenarios use has it. *)
Definition ok (s : t) : Prop := X0 ∈ live s.

Lemma init_ok : ok init.
Proof. apply elem_of_union_l, elem_of_singleton_2, eq_refl. Qed.
Lemma write_ok rd s : ok s → ok (write rd s).
Proof. unfold ok, write. case_decide; [|done]. intros ?. by apply elem_of_union_r. Qed.

Lemma live_write rd s r : r ∈ live (write rd s) ↔ r ∈ live s ∨ (r = rd ∧ rd ≠ X0).
Proof.
  unfold write. case_decide; simpl.
  - rewrite elem_of_union, elem_of_singleton. split; [intros [->|?]|intros [?|[-> ?]]]; auto.
  - split; [by left|]. by intros [?|[? ?]].
Qed.
End GPState.

(** ** class FPState *)

Module FPState.
Record t := { live : gset FReg }.

Definition init : t := {| live := list_to_set FReg_all |}.
Definition write (rd : FReg) (s : t) : t := {| live := {[rd]} ∪ live s |}.

Section rng.
Context {G : Type} `{PyRandom G}.
Definition random_live (s : t) (g : G) : res (FReg * G) := PyRandom.choice (sorted_fregs (live s)) g.
Definition random_writable (s : t) (g : G) : res (FReg * G) := PyRandom.choice FReg_all g.
End rng.

(** A floating-point register is live: all of them are at the start. *)
Definition ok (s : t) : Prop := ∀ r, r ∈ live s.

Lemma fp_init_ok : ok init.
Proof. intros r. unfold init, live. apply elem_of_list_to_set, FReg_all_complete. Qed.
Lemma fp_write_ok rd s : ok s → ok (write rd s).
Proof. intros Hs r. simpl. specialize (Hs r). set_solver. Qed.
End FPState.
