(* ===== verification/Memory.v ===== *)
(** The memory layout of tools/crv/memory.py. *)
From S2P Require Export PyRandom.
Local Open Scope Z_scope.

Definition CODE_BASE : Z := 0.
Definition CODE_SIZE : Z := 64 * 1024.
Definition DATA_BASE : Z := 0x00014000.
Definition DATA_SIZE : Z := 4 * 1024.
Definition ATOMIC_BASE : Z := 0x00016000.
Definition ATOMIC_SIZE : Z := 4 * 1024.
Definition HALT_ADDR : Z := 0x40000000.

Module MemRange.
Record t := { base : Z; size : Z }.

Definition random_aligned {G} `{PyRandom G} (m : t) (alignment : Z) (g : G) : res (Z * G) :=
  if alignment =? 0 then Raise ZeroDivisionError
  else
    let max_off := size m / alignment - 1 in
    '(k, g) ← randint 0 max_off g;
    Ok (base m + k * alignment, g).
End MemRange.

Definition DATA : MemRange.t := {| MemRange.base := DATA_BASE; MemRange.size := DATA_SIZE |}.
Definition ATOMIC : MemRange.t := {| MemRange.base := ATOMIC_BASE; MemRange.size := ATOMIC_SIZE |}.

(** The byte ranges an access of [w] bytes at [a] may not leave. *)
Definition in_range (m : MemRange.t) (a w : Z) : Prop :=
  MemRange.base m ≤ a ∧ a + w ≤ MemRange.base m + MemRange.size m.

#[export] Instance in_range_dec m a w : Decision (in_range m a w).
Proof. unfold in_range. apply _. Defined.

Section aligned.
Context {G : Type} `{PyRandomLaws G}.

(** A random aligned address of a range that holds one access is aligned
    relative to the base and the access stays inside the range. *)
Theorem random_aligned_in_range (m : MemRange.t) al (g : G) :
  0 < al ≤ MemRange.size m →
  ∃ a g', MemRange.random_aligned m al g = Ok (a, g') ∧ in_range m a al ∧
    (al | a - MemRange.base m).
Proof.
  intros [Hal Hsz].
  enough (res_wp (MemRange.random_aligned m al g)
    (λ p, in_range m p.1 al ∧ (al | p.1 - MemRange.base m))) as Hwp.
  { apply res_wp_ok in Hwp as ([a g'] & ? & ? & ?). eauto. }
  unfold MemRange.random_aligned. destruct (Z.eqb_spec al 0); [lia|].
  assert (1 ≤ MemRange.size m / al) by (apply Z.div_le_lower_bound; lia).
  rewrite res_wp_bind. apply randint_wp; [lia|]. intros k g' Hk. simpl.
  pose proof (Z.mul_div_le (MemRange.size m) al Hal). split.
  - unfold in_range. nia.
  - exists k. lia.
Qed.
End aligned.

Lemma random_aligned_in_range_witness :
  0 < 8 ≤ MemRange.size DATA ∧
  ∃ a g', MemRange.random_aligned DATA 8 (Mt19937.seed 1) = Ok (a, g') ∧ in_range DATA a 8 ∧
    (8 | a - MemRange.base DATA).
Proof.
  assert (0 < 8 ≤ MemRange.size DATA) as Hal by (split; [done|by vm_compute]).
  split; [exact Hal|]. exact (random_aligned_in_range DATA 8 (Mt19937.seed 1) Hal).
Defined.
