(* ===== verification/Program.v ===== *)
(** What a generated program promises: the registers its lines read and
    write, and where its loads and stores land when it runs.  The scenarios'
    theorems are stated with these predicates. *)
From S2P Require Export RegFile Memory.
Local Open Scope Z_scope.

(** ** Registers read and written *)

Definition gp_dest (rd : Reg) : gset Reg := if decide (rd = X0) then ∅ else {[rd]}.

(** The integer registers a line reads. *)
Definition srcs (i : insn) : gset Reg :=
  match i with
  | IR _ _ rs1 rs2 | IBr _ rs1 rs2 _ | IAmo _ _ _ _ rs2 rs1 => {[rs1; rs2]}
  | II _ _ rs1 _ | IJalr _ rs1 _ | ILr _ _ _ _ rs1 | ICsrw _ _ rs1 => {[rs1]}
  | ILd _ _ base _ | IFLd _ _ base _ | IFSt _ _ base _ => {[base]}
  | ISt _ rs2 base _ => {[rs2; base]}
  | _ => ∅
  end.

(** The integer registers a line writes; a write to [x0] has no effect. *)
Definition dests (i : insn) : gset Reg :=
  match i with
  | IR _ rd _ _ | II _ rd _ _ | IU _ rd _ | IJal rd _ | IJalr rd _ _ | ILd _ rd _ _
  | ILr _ _ _ rd _ | IAmo _ _ _ rd _ _ | ICsrr rd _ | ICsrw rd _ _ => gp_dest rd
  | _ => ∅
  end.

(** Reading in textual order, every line reads registers written before it
    or live at the start. *)
Fixpoint def_before_use (live : gset Reg) (p : list insn) : Prop :=
  match p with
  | [] => True
  | i :: p => srcs i ⊆ live ∧ def_before_use (dests i ∪ live) p
  end.

#[export] Instance def_before_use_dec live p : Decision (def_before_use live p).
Proof. revert live. induction p as [|i p IH]; intros live; simpl; apply _. Defined.

Definition live_after (live : gset Reg) (p : list insn) : gset Reg :=
  foldl (λ l i, dests i ∪ l) live p.

Lemma def_before_use_app live p q :
  def_before_use live (p ++ q) ↔ def_before_use live p ∧ def_before_use (live_after live p) q.
Proof.
  revert live. induction p as [|i p IH]; intros live; simpl; [tauto|]. rewrite IH. tauto.
Qed.

Lemma live_after_app live p q : live_after live (p ++ q) = live_after (live_after live p) q.
Proof. apply foldl_app. Qed.

Lemma live_after_mono live p : live ⊆ live_after live p.
Proof.
  revert live. induction p as [|i p IH]; intros live; simpl; [done|].
  etrans; [apply union_subseteq_r|apply IH].
Qed.

Lemma live_after_elem L p i r : i ∈ p → r ∈ dests i → r ∈ live_after L p.
Proof.
  revert L. induction p as [|j p IH]; intros L Hi Hr; simpl.
  - by apply elem_of_nil in Hi.
  - apply elem_of_cons in Hi as [->|Hi]; [|by apply IH].
    apply live_after_mono, elem_of_union_l, Hr.
Qed.

Lemma def_before_use_mono L K p : L ⊆ K → def_before_use L p → def_before_use K p.
Proof.
  revert L K. induction p as [|i p IH]; intros L K HLK; simpl; [done|].
  intros [Hs Hp]. split; [by etrans|]. eapply IH; [|done]. by apply union_mono_l.
Qed.

(** No line of [p] writes one of the registers [rs]. *)
Definition preserves (rs : gset Reg) (p : list insn) : Prop := Forall (λ i, dests i ## rs) p.

Lemma gp_dest_disjoint (rd : Reg) (rs : gset Reg) : rd ∉ rs → gp_dest rd ## rs.
Proof. intros Hrd. unfold gp_dest. case_decide; set_solver. Qed.

#[export] Instance preserves_dec rs p : Decision (preserves rs p).
Proof. unfold preserves. apply _. Defined.

(** ** Loads and stores *)

Definition width_bytes (w : width) : Z :=
  match w with W8 => 1 | W16 => 2 | W32 => 4 | W64 => 8 end.

(** The bytes an instruction touches: how many, at which base and offset. *)
Definition access (i : insn) : option (Z * Reg * Z) :=
  match i with
  | ILd w _ base off | ISt w _ base off => Some (width_bytes w, base, off)
  | IFLd p _ base off | IFSt p _ base off => Some (prec 4 8 p, base, off)
  | ILr LR_W _ _ _ rs1 => Some (4, rs1, 0)
  | ILr LR_D _ _ _ rs1 => Some (8, rs1, 0)
  | IAmo op _ _ _ _ rs1 => Some (match op with SC_D => 8 | _ => 4 end, rs1, 0)
  | _ => None
  end.

Lemma access_width i w base off : access i = Some (w, base, off) → 0 < w ≤ 8 ∧ (w | 8).
Proof.
  destruct i as [| | | | | |[]|[]|[]|[]| | |?|[]|[]| | | | ]; intros ?; simplify_eq/=;
    (split; [lia|by apply Z.mod_divide]).
Qed.

(** ** Running straight-line code *)

(** Register contents as 64-bit words. *)
Definition regs := Reg → Z.
Definition word64 (z : Z) : Z := z `mod` 2 ^ 64.
Definition sext32 (z : Z) : Z := (z + 2 ^ 31) `mod` 2 ^ 32 - 2 ^ 31.

(** What one line does to the registers.  [lui] and [addi] compute addresses,
    so their results are given; of the other instructions the programs'
    addresses need only which registers they leave alone. *)
Definition reg_step (i : insn) (r r' : regs) : Prop :=
  (∀ x, x ∉ dests i → r' x = r x) ∧
  match i with
  | IU LUI rd imm => rd ≠ X0 → r' rd = word64 (sext32 (imm * 2 ^ 12))
  | II ADDI rd rs1 imm => rd ≠ X0 → r' rd = word64 (r rs1 + imm)
  | _ => True
  end.

(** [p] runs from [r], line after line, and reaches [r'] *)
Inductive runs : regs → list insn → regs → Prop :=
  | runs_nil r : runs r [] r
  | runs_cons r i r1 p r' : reg_step i r r1 → runs r1 p r' → runs r (i :: p) r'.

(** Whatever the registers hold at the start, every load and store the
    program reaches lies in one of the ranges [ms] and is aligned. *)
Definition accesses_in (ms : list MemRange.t) (p : list insn) : Prop :=
  ∀ r q i rest r', p = q ++ i :: rest → runs r q r' →
    match access i with
    | Some (w, base, off) =>
        let a := word64 (r' base + off) in
        (∃ m, m ∈ ms ∧ in_range m a w) ∧ (w | a)
    | None => True
    end.

Lemma runs_app r p q r' : runs r (p ++ q) r' ↔ ∃ r1, runs r p r1 ∧ runs r1 q r'.
Proof.
  revert r. induction p as [|i p IH]; intros r; simpl; split.
  - intros ?. exists r. split; [constructor|done].
  - intros (? & Hn & ?). by inversion Hn; subst.
  - inversion 1 as [|? ? r1 ? ? Hs Hr]; subst. apply IH in Hr as (r2 & ? & ?).
    exists r2. split; [by econstructor|done].
  - intros (r2 & Hp & ?). inversion Hp as [|? ? r1 ? ? Hs Hr]; subst.
    econstructor; [done|]. apply IH. eauto.
Qed.

(** Registers nobody writes keep their contents. *)
Lemma runs_preserves rs r p r' x : runs r p r' → preserves rs p → x ∈ rs → r' x = r x.
Proof.
  induction 1 as [|r i r1 p r' [Hs _] _ IH]; intros Hp Hx; [done|].
  apply Forall_cons_1 in Hp as [Hi Hp]. rewrite IH by done. apply Hs. set_solver.
Qed.

(** Every program runs, so the statements on runs are not vacuous. *)
Lemma runs_total r p : ∃ r', runs r p r'.
Proof.
  revert r. induction p as [|i p IH]; intros r; [eexists; constructor|].
  set (v := match i with
    | IU LUI _ imm => word64 (sext32 (imm * 2 ^ 12))
    | II ADDI _ rs1 imm => word64 (r rs1 + imm)
    | _ => 0
    end).
  destruct (IH (λ x, if decide (x ∈ dests i) then v else r x)) as [r' Hr'].
  exists r'. econstructor; [|done]. split.
  - intros x Hx. by rewrite decide_False.
  - destruct i as [|[]|[]| | | | | | | | | | | | | | | | ]; try done;
      (intros; rewrite decide_True; [done|]; unfold dests, gp_dest;
       rewrite decide_False by done; by apply elem_of_singleton).
Qed.

(** ** Programs with a pointer set up first *)

(** The two lines that load the address [z] into [rd]. *)
Definition load_addr (rd : Reg) (upper lower : Z) : list insn :=
  [IU LUI rd upper; II ADDI rd rd lower].

Lemma load_addr_runs rd upper lower z r r' :
  rd ≠ X0 → word64 (word64 (sext32 (upper * 2 ^ 12)) + lower) = z →
  runs r (load_addr rd upper lower) r' → r' rd = z ∧ ∀ x, x ≠ rd → r' x = r x.
Proof.
  intros Hrd <- H. unfold load_addr in H.
  inversion H as [|? ? r1 ? ? [Hf1 Hs1] H1]; subst.
  inversion H1 as [|? ? r2 ? ? [Hf2 Hs2] H2]; subst. inversion H2; subst.
  split; [by rewrite Hs2, Hs1|]. intros x Hx. unfold dests, gp_dest in *.
  rewrite Hf2, Hf1; [done|..]; case_decide; set_solver.
Qed.

(** A register [base] of [ptrs] points to the start of its range, and the
    offset keeps the access inside and aligned. *)
Definition access_ok (ptrs : list (Reg * MemRange.t)) (i : insn) : Prop :=
  match access i with
  | Some (w, base, off) =>
      ∃ m, (base, m) ∈ ptrs ∧ 0 ≤ off ∧ off + w ≤ MemRange.size m ∧ (w | off)
  | None => True
  end.

(** An eight-byte slot holds every access at its start. *)
Lemma access_ok_slot ptrs i m w base off :
  access i = Some (w, base, off) → (base, m) ∈ ptrs →
  0 ≤ off → off + 8 ≤ MemRange.size m → (8 | off) → access_ok ptrs i.
Proof.
  intros Hi Hm Hoff Hsz Hdiv. unfold access_ok. rewrite Hi.
  destruct (access_width _ _ _ _ Hi) as [Hw Hw8].
  exists m. split_and!; [done|done|lia|by etrans].
Qed.

Definition range_ok (m : MemRange.t) : Prop :=
  (8 | MemRange.base m) ∧ 0 ≤ MemRange.base m ∧ MemRange.base m + MemRange.size m ≤ 2 ^ 64.

Lemma DATA_ok : range_ok DATA.
Proof. unfold range_ok, DATA, DATA_BASE, DATA_SIZE; simpl. split; [by apply Z.mod_divide|lia]. Qed.
Lemma ATOMIC_ok : range_ok ATOMIC.
Proof. unfold range_ok, ATOMIC, ATOMIC_BASE, ATOMIC_SIZE; simpl. split; [by apply Z.mod_divide|lia]. Qed.

(** A set-up that leaves the base of each range in its register, then a body
    that never writes these registers and uses only them as bases. *)
Lemma accesses_in_body ptrs setup body :
  Forall range_ok ptrs.*2 →
  Forall (λ i, access i = None) setup →
  (∀ r r', runs r setup r' → Forall (λ p, r' p.1 = MemRange.base p.2) ptrs) →
  preserves (list_to_set ptrs.*1) body →
  Forall (access_ok ptrs) body →
  accesses_in ptrs.*2 (setup ++ body).
Proof.
  intros Hrng Hset Hinit Hpres Hacc r q i rest r' Hp Hr.
  destruct (access i) as [[[w base] off]|] eqn:Hi; [|done].
  assert (∃ q', q = setup ++ q' ∧ body = q' ++ i :: rest) as (q' & -> & ->).
  { apply app_eq_inv in Hp as [(l & -> & E)|(l & -> & E)].
    - destruct l as [|i' l]; simpl in E; [eexists []; rewrite !app_nil_r; by rewrite <-E|].
      injection E as <- _. exfalso.
      apply list.Forall_app in Hset as [_ Hset]. apply Forall_cons_1 in Hset as [Hset _]. congruence.
    - by exists l. }
  apply runs_app in Hr as (r1 & Hr1 & Hr2).
  apply list.Forall_app in Hacc as [_ Hacc]. apply Forall_cons_1 in Hacc as [Ha _].
  apply list.Forall_app in Hpres as [Hpres _].
  unfold access_ok in Ha. rewrite Hi in Ha. destruct Ha as (m & Hm & Hoff & Hsz & Hdiv).
  assert (r' base = MemRange.base m) as ->.
  { rewrite (runs_preserves _ _ _ _ base Hr2 Hpres).
    - specialize (Hinit _ _ Hr1). rewrite list.Forall_forall in Hinit. apply (Hinit _ Hm).
    - apply elem_of_list_to_set, list_elem_of_fmap. by exists (base, m). }
  rewrite list.Forall_forall in Hrng.
  assert (m ∈ ptrs.*2) as Hm2 by (apply list_elem_of_fmap; by exists (base, m)).
  destruct (Hrng m Hm2) as (Hb8 & Hb0 & Hbs).
  destruct (access_width _ _ _ _ Hi) as [Hw Hw8].
  unfold word64. rewrite Z.mod_small by lia. split.
  - exists m. split; [done|]. unfold in_range. lia.
  - apply Z.divide_add_r; [|done]. by etrans.
Qed.
