(* ===== verification/Patterns.v ===== *)
(** Shapes of instruction sequences: spacing between two lines of a kind,
    longest run of lines of a kind, a line that must follow another.  Each
    shape comes with the lemmas that extend it by one line. *)
From S2P Require Export Prelude.

Section patterns.
Context {A : Type}.
Implicit Types (P : A → Prop) (p : list A) (a : A).

(** Two lines of the kind are more than [d] apart. *)
Definition spaced P (d : nat) p : Prop :=
  ∀ i j a b, i < j → p !! i = Some a → p !! j = Some b → P a → P b → i + d < j.

(** The last line of the kind is followed by at least [n] others. *)
Definition far P (n : nat) p : Prop := ∀ i a, p !! i = Some a → P a → i + n < length p.

(** No [n + 1] lines in a row are of the kind. *)
Definition max_run P (n : nat) p : Prop :=
  ∀ i, ¬ ∀ k, k ≤ n → ∃ a, p !! (i + k) = Some a ∧ P a.

(** The list ends with at most [c] lines of the kind. *)
Definition tail_run P (c : nat) p : Prop :=
  ∀ i, (∀ j a, i ≤ j → p !! j = Some a → P a) → length p ≤ i + c.

Lemma lookup_snoc_cases p a i b :
  (p ++ [a]) !! i = Some b → p !! i = Some b ∨ (i = length p ∧ b = a).
Proof.
  intros [?|[? Hb]]%lookup_app_Some; [by left|right].
  destruct (i - length p) eqn:E; simplify_eq/=. split; [lia|done].
Qed.

Lemma spaced_nil P d : spaced P d [].
Proof. by intros i j a b _ Hi; rewrite lookup_nil in Hi. Qed.
Lemma far_nil P n : far P n [].
Proof. by intros i a Hi; rewrite lookup_nil in Hi. Qed.

Lemma spaced_snoc P d p a : spaced P d p → (P a → far P d p) → spaced P d (p ++ [a]).
Proof.
  intros Hs Hf i j x y Hij Hi Hj Hx Hy.
  apply lookup_snoc_cases in Hi as [Hi|[-> ->]], Hj as [Hj|[-> ->]].
  - eauto.
  - by apply (Hf Hy i x).
  - apply lookup_lt_Some in Hj. lia.
  - lia.
Qed.

Lemma far_snoc_no P n p a : far P n p → ¬ P a → far P (S n) (p ++ [a]).
Proof.
  intros Hf Ha i x [Hi|[-> ->]]%lookup_snoc_cases Hx; [|done].
  rewrite length_app. simpl. specialize (Hf i x Hi Hx). lia.
Qed.

Lemma far_snoc P p a : far P 0 (p ++ [a]).
Proof. intros i x Hi%lookup_lt_Some _. lia. Qed.

Lemma far_mono P n m p : m ≤ n → far P n p → far P m p.
Proof. intros ? Hf i x Hi Hx. specialize (Hf i x Hi Hx). lia. Qed.

Lemma max_run_nil P n : max_run P n [].
Proof. intros i Hall. destruct (Hall 0) as (a & Ha & _); [lia|]. by rewrite lookup_nil in Ha. Qed.
Lemma tail_run_nil P c : tail_run P c [].
Proof. intros i _. simpl. lia. Qed.

Lemma tail_run_snoc P c p a : tail_run P c p → tail_run P (S c) (p ++ [a]).
Proof.
  intros Ht i Hall. rewrite length_app. simpl.
  enough (length p ≤ i + c) by lia. apply Ht. intros j x Hij Hx.
  apply (Hall j); [done|]. by apply lookup_app_l_Some.
Qed.

Lemma tail_run_snoc_no P c p a : ¬ P a → tail_run P c (p ++ [a]).
Proof.
  intros Ha i Hall. rewrite length_app. simpl. destruct (decide (i ≤ length p)); [|lia].
  exfalso. apply Ha, (Hall (length p)); [done|]. by rewrite list_lookup_middle.
Qed.

Lemma max_run_snoc P n p a :
  max_run P n p → (P a → ∃ c, c < n ∧ tail_run P c p) → max_run P n (p ++ [a]).
Proof.
  intros Hm Ht i Hall. destruct (decide (i + n < length p)) as [Hlt|Hge].
  - apply (Hm i). intros k Hk. destruct (Hall k Hk) as (x & Hx & HP).
    apply lookup_snoc_cases in Hx as [Hx|[Hl ->]]; [eauto|lia].
  - destruct (Hall n) as (x & Hx & HP); [done|].
    apply lookup_snoc_cases in Hx as [Hx%lookup_lt_Some|[Hlen ->]]; [lia|].
    destruct (Ht HP) as (c & Hc & Htail).
    enough (length p ≤ i + c) by lia. apply Htail. intros j x Hij Hx.
    destruct (Hall (j - i)) as (y & Hy & HPy); [apply lookup_lt_Some in Hx; lia|].
    apply lookup_lt_Some in Hx as Hjlt.
    replace (i + (j - i)) with j in Hy by lia.
    apply lookup_snoc_cases in Hy as [Hy|[-> ->]]; [by simplify_eq|lia].
Qed.
End patterns.
