(* ===== verification/ScenarioBase.v ===== *)
(** The effects the scenarios share: the random generator and the two
    register states are passed along, an encoder's exception ends the run.
    The rules of [wp] are total: a program that satisfies one returns. *)
From S2P Require Export Program Patterns.
Local Open Scope Z_scope.

(** ** State and error monad *)

Record st (G : Type) := St { rng : G; gp : GPState.t; fp : FPState.t }.
Arguments St {G}. Arguments rng {G}. Arguments gp {G}. Arguments fp {G}.

Definition M (G A : Type) : Type := st G → res (A * st G).

#[export] Instance M_ret G : MRet (M G) := λ A a s, Ok (a, s).
#[export] Instance M_bind G : MBind (M G) := λ A B f m s,
  match m s with Ok (a, s') => f a s' | Raise e => Raise e end.

Section ops.
Context {G : Type} `{PyRandom G}.

Definition raise {A} (e : exn) : M G A := λ _, Raise e.

(** A call that does not touch the state, such as an encoder. *)
Definition lift {A} (m : res A) : M G A := λ s,
  match m with Ok a => Ok (a, s) | Raise e => Raise e end.

(** A draw from the generator. *)
Definition draw {A} (f : G → res (A * G)) : M G A := λ s,
  match f (rng s) with
  | Ok (a, g) => Ok (a, St g (gp s) (fp s))
  | Raise e => Raise e
  end.

Definition rng_choice {A} (l : list A) : M G A := draw (PyRandom.choice l).
Definition rng_randint (a b : Z) : M G Z := draw (randint a b).
Definition rng_choices {A} (l : list (A * Z)) : M G A := draw (choices1 l).
Definition rng_random : M G pyfloat := draw (λ g, Ok (random g)).

Definition gp_random_live : M G Reg := λ s, draw (GPState.random_live (gp s)) s.
Definition gp_write (rd : Reg) : M G unit := λ s,
  Ok (tt, St (rng s) (GPState.write rd (gp s)) (fp s)).
Definition gp_is_live (r : Reg) : M G bool := λ s, Ok (GPState.is_live r (gp s), s).
Definition gp_live : M G (gset Reg) := λ s, Ok (GPState.live (gp s), s).

Definition fp_random_live : M G FReg := λ s, draw (FPState.random_live (fp s)) s.
Definition fp_random_writable : M G FReg := λ s, draw (FPState.random_writable (fp s)) s.
Definition fp_write (rd : FReg) : M G unit := λ s,
  Ok (tt, St (rng s) (gp s) (FPState.write rd (fp s))).

(** [while c: body], at most [n] times.  The variables the loop assigns are
    [a]; running out of iterations is [NoProgress]. *)
Fixpoint while {A} (n : nat) (c : A → bool) (body : A → M G A) (a : A) : M G A :=
  if c a then
    match n with
    | O => raise NoProgress
    | S n => a ← body a; while n c body a
    end
  else mret a.

(** [for _ in range(n): body] *)
Fixpoint for_range {A} (n : nat) (body : A → M G A) (a : A) : M G A :=
  match n with
  | O => mret a
  | S n => a ← body a; for_range n body a
  end.
End ops.

(** Python's [len] *)
Definition len {A} (l : list A) : Z := Z.of_nat (length l).

Lemma len_app {A} (l k : list A) : len (l ++ k) = len l + len k.
Proof. unfold len. rewrite length_app. lia. Qed.
Lemma len_nonneg {A} (l : list A) : 0 ≤ len l.
Proof. unfold len. lia. Qed.
Lemma len_fmap {A B} (f : A → B) l : len (f <$> l) = len l.
Proof. unfold len. by rewrite length_fmap. Qed.

(** ** Weakest preconditions *)

Definition wp {G A} (m : M G A) (Q : A → st G → Prop) (s : st G) : Prop :=
  res_wp (m s) (λ p, Q p.1 p.2).

Section wp.
Context {G : Type} `{PyRandomLaws G}.
Implicit Types s : st G.

Lemma wp_ok {A} (m : M G A) Q s : wp m Q s ↔ ∃ a s', m s = Ok (a, s') ∧ Q a s'.
Proof.
  unfold wp. rewrite res_wp_ok. split.
  - intros ([a s'] & ? & ?). eauto.
  - intros (a & s' & ? & ?). by exists (a, s').
Qed.

Lemma wp_ret {A} (a : A) Q s : Q a s → wp (mret a) Q s.
Proof. done. Qed.

Lemma wp_bind {A B} (m : M G A) (f : A → M G B) Q s :
  wp m (λ a, wp (f a) Q) s → wp (m ≫= f) Q s.
Proof. unfold wp, mbind, M_bind. by destruct (m s) as [[a s']|e]. Qed.

Lemma wp_mono {A} (m : M G A) (Q R : A → st G → Prop) s :
  wp m Q s → (∀ a s', Q a s' → R a s') → wp m R s.
Proof. rewrite !wp_ok. intros (a & s' & ? & ?) HQR. eauto. Qed.

Lemma wp_lift {A} (m : res A) a Q s : m = Ok a → Q a s → wp (lift m) Q s.
Proof. intros ->. done. Qed.

Lemma wp_encode i Q s : imm_ok i → Q (render i) s → wp (lift (encode_insn i)) Q s.
Proof. intros Hi. by apply wp_lift, encode_ok. Qed.

Lemma wp_draw {A} (f : G → res (A * G)) Q s :
  res_wp (f (rng s)) (λ p, Q p.1 (St p.2 (gp s) (fp s))) → wp (draw f) Q s.
Proof. unfold wp, draw. by destruct (f (rng s)) as [[a g]|e]. Qed.

Lemma wp_choice {A} (l : list A) (Q : A → st G → Prop) s :
  l ≠ [] → (∀ x g, x ∈ l → Q x (St g (gp s) (fp s))) → wp (rng_choice l) Q s.
Proof. intros ? HQ. apply wp_draw. apply choice_wp; [done|]. intros x g Hx. by apply HQ. Qed.

Lemma wp_randint a b (Q : Z → st G → Prop) s :
  a ≤ b → (∀ x g, a ≤ x ≤ b → Q x (St g (gp s) (fp s))) → wp (rng_randint a b) Q s.
Proof. intros ? HQ. apply wp_draw. apply randint_wp; [done|]. intros x g Hx. by apply HQ. Qed.

Lemma wp_choices {A} (l : list (A * Z)) (Q : A → st G → Prop) s :
  0 < foldr Z.add 0 (snd <$> l) →
  (∀ x g, x ∈ l.*1 → Q x (St g (gp s) (fp s))) → wp (rng_choices l) Q s.
Proof. intros ? HQ. apply wp_draw. apply choices1_wp; [done|]. intros x g Hx. by apply HQ. Qed.

Lemma wp_random (Q : pyfloat → st G → Prop) s :
  (∀ f g, Q f (St g (gp s) (fp s))) → wp rng_random Q s.
Proof. intros HQ. apply wp_draw. simpl. apply HQ. Qed.

Lemma wp_gp_random_live (Q : Reg → st G → Prop) s :
  GPState.ok (gp s) →
  (∀ r g, r ∈ GPState.live (gp s) → Q r (St g (gp s) (fp s))) → wp gp_random_live Q s.
Proof.
  intros Hok HQ. unfold gp_random_live. apply (wp_choice (sorted_regs (GPState.live (gp s)))).
  - by eapply sorted_regs_nonempty.
  - intros x g Hx%elem_of_sorted_regs. by apply HQ.
Qed.

Lemma wp_gp_write rd (Q : unit → st G → Prop) s :
  Q tt (St (rng s) (GPState.write rd (gp s)) (fp s)) → wp (gp_write rd) Q s.
Proof. done. Qed.

Lemma wp_gp_live (Q : gset Reg → st G → Prop) s : Q (GPState.live (gp s)) s → wp gp_live Q s.
Proof. done. Qed.

Lemma wp_fp_random_live (Q : FReg → st G → Prop) s :
  FPState.ok (fp s) → (∀ r g, Q r (St g (gp s) (fp s))) → wp fp_random_live Q s.
Proof.
  intros Hok HQ. unfold fp_random_live. apply (wp_choice (sorted_fregs (FPState.live (fp s)))).
  - by apply (sorted_fregs_nonempty F0).
  - intros x g _. apply HQ.
Qed.

Lemma wp_fp_random_writable (Q : FReg → st G → Prop) s :
  (∀ r g, Q r (St g (gp s) (fp s))) → wp fp_random_writable Q s.
Proof.
  intros HQ. unfold fp_random_writable. apply (wp_choice FReg_all); [done|].
  intros x g _. apply HQ.
Qed.

Lemma wp_fp_write rd (Q : unit → st G → Prop) s :
  Q tt (St (rng s) (gp s) (FPState.write rd (fp s))) → wp (fp_write rd) Q s.
Proof. done. Qed.

(** A loop with a measure that each iteration lowers returns, and returns
    in a state where the condition is false. *)
Lemma wp_while {A} (I : A → st G → Prop) (measure : A → Z) n c body a s
    (Q : A → st G → Prop) :
  I a s → measure a ≤ Z.of_nat n →
  (∀ a s, I a s → c a = true →
     0 < measure a ∧ wp (body a) (λ a' s', I a' s' ∧ measure a' < measure a) s) →
  (∀ a s, I a s → c a = false → Q a s) →
  wp (while n c body a) Q s.
Proof.
  intros HI Hn Hbody HQ. revert a s HI Hn.
  induction n as [|n IH]; intros a s HI Hn; simpl; destruct (c a) eqn:Hc;
    try (by apply wp_ret, HQ).
  - exfalso. destruct (Hbody a s HI Hc). lia.
  - destruct (Hbody a s HI Hc) as [_ Hwp]. apply wp_bind.
    eapply wp_mono; [apply Hwp|]. intros a' s' [HI' Hm]. apply IH; [done|lia].
Qed.

Lemma wp_for_range {A} (I : Z → A → st G → Prop) n body a s (Q : A → st G → Prop) :
  I 0 a s →
  (∀ k a s, 0 ≤ k < Z.of_nat n → I k a s → wp (body a) (I (k + 1)) s) →
  (∀ a s, I (Z.of_nat n) a s → Q a s) →
  wp (for_range n body a) Q s.
Proof.
  intros HI Hbody HQ. revert I a s HI Hbody HQ.
  induction n as [|n IH]; intros I a s HI Hbody HQ; simpl.
  - by apply wp_ret, HQ.
  - apply wp_bind. eapply wp_mono; [apply (Hbody 0); [lia|done]|].
    intros a' s' HI'. apply (IH (λ k, I (k + 1))); [done| |].
    + intros k a1 s1 Hk. apply (Hbody (k + 1)). lia.
    + intros a1 s1 H1. apply HQ. by replace (Z.of_nat (S n)) with (Z.of_nat n + 1) by lia.
Qed.
End wp.

(** One step of a weakest-precondition proof: the rule for the head of the
    program, the new values introduced. *)
Ltac wp_step :=
  cbv beta;
  lazymatch goal with
  | |- wp (mbind _ _) _ _ => apply wp_bind
  | |- wp (mret _) _ _ => apply wp_ret
  | |- wp (rng_choice _) _ _ => apply wp_choice; [done|intros ? ? ?; cbn [rng gp fp]]
  | |- wp (rng_randint _ _) _ _ => apply wp_randint; [done|intros ? ? ?; cbn [rng gp fp]]
  | |- wp (rng_choices _) _ _ => apply wp_choices; [done|intros ? ? ?; cbn [rng gp fp]]
  | |- wp rng_random _ _ => apply wp_random; intros ? ?; cbn [rng gp fp]
  | |- wp gp_random_live _ _ =>
      apply wp_gp_random_live; [by eauto using GPState.write_ok|intros ? ? ?; cbn [rng gp fp] in *]
  | |- wp (gp_write _) _ _ => apply wp_gp_write; cbn [rng gp fp]
  | |- wp gp_live _ _ => apply wp_gp_live
  | |- wp fp_random_live _ _ =>
      apply wp_fp_random_live;
        [by eauto using FPState.fp_write_ok|intros ? ?; cbn [rng gp fp] in *]
  | |- wp fp_random_writable _ _ =>
      apply wp_fp_random_writable; intros ? ?; cbn [rng gp fp] in *
  | |- wp (fp_write _) _ _ => apply wp_fp_write; cbn [rng gp fp]
  | |- wp (if ?b then _ else _) _ _ => match type of b with bool => destruct b eqn:? end
  end.
Ltac wp_steps := repeat wp_step.

(** ** Emitted programs *)

(** An operation drawn from a list that mixes register and immediate forms. *)
Inductive aluop := OpR (op : rop) | OpI (op : iop).
#[export] Instance aluop_eq_dec : EqDecision aluop.
Proof. solve_decision. Defined.

(** [l[-n:]] *)
Definition last_n {A} (n : nat) (l : list A) : list A := drop (length l - n) l.

Lemma elem_of_last_n {A} n (l : list A) x : x ∈ last_n n l → x ∈ l.
Proof. unfold last_n. intros Hx. rewrite <-(take_drop (length l - n) l). set_solver. Qed.

Lemma length_last_n {A} n (l : list A) : length (last_n n l) = Nat.min n (length l).
Proof. unfold last_n. rewrite length_drop. lia. Qed.

Lemma last_n_nil {A} n (l : list A) : last_n (S n) l = [] → l = [].
Proof. intros E%(f_equal length). rewrite length_last_n in E. by destruct l. Qed.

Lemma last_n_last_n {A} n m (l : list A) : (n ≤ m)%nat → last_n n (last_n m l) = last_n n l.
Proof. intros. unfold last_n. rewrite drop_drop, length_drop. f_equal. lia. Qed.

Lemma last_n_app {A} n (l k : list A) : last_n n (last_n n l ++ k) = last_n n (l ++ k).
Proof.
  unfold last_n. rewrite !length_app, length_drop, !drop_app, drop_drop, length_drop.
  f_equal; f_equal; lia.
Qed.

(** The register states hold what the scenarios rely on. *)
Definition st_ok {G} (s : st G) : Prop := GPState.ok (gp s) ∧ FPState.ok (fp s).

(** A line [a] was emitted between [s] and [s']: it stands for an instruction
    whose immediates fit, that reads live registers only, whose destination is
    the only register made live, and that satisfies [P]. *)
Definition emits {G} (P : insn → Prop) (a : AsmInstr) (s s' : st G) : Prop :=
  ∃ i, a = render i ∧ imm_ok i ∧ text_ok i ∧ srcs i ⊆ GPState.live (gp s) ∧
    GPState.live (gp s') = dests i ∪ GPState.live (gp s) ∧ FPState.ok (fp s') ∧ P i.

(** [p] was emitted since the live registers were [L]. *)
Definition emitted {G} (L : gset Reg) (p : list insn) (s : st G) : Prop :=
  Forall imm_ok p ∧ Forall text_ok p ∧ def_before_use L p ∧
  GPState.live (gp s) = live_after L p ∧ st_ok s.

Lemma emitted_nil {G} (s : st G) : st_ok s → emitted (GPState.live (gp s)) [] s.
Proof. intros Hok. split_and!; [constructor|constructor|done|done|apply Hok..]. Qed.

Lemma emitted_app {G} L p q (s s' : st G) :
  emitted L p s → Forall imm_ok q → Forall text_ok q → def_before_use (GPState.live (gp s)) q →
  GPState.live (gp s') = live_after (GPState.live (gp s)) q → st_ok s' → emitted L (p ++ q) s'.
Proof.
  intros (? & ? & ? & Hl & ?) ? ? Hd Hl' ?. unfold emitted.
  rewrite !Forall_app, def_before_use_app, live_after_app, <-Hl. by split_and!.
Qed.

Lemma emitted_snoc {G} L p (P : insn → Prop) a (s s' : st G) :
  emitted L p s → emits P a s s' →
  ∃ i, a = render i ∧ P i ∧ emitted L (p ++ [i]) s'.
Proof.
  intros (Himm & Htext & Hdbu & Hlive & Hok) (i & -> & ? & ? & Hsrc & Hl & ? & ?).
  exists i. split; [done|]. split; [done|]. unfold emitted.
  rewrite !Forall_app, !Forall_singleton, def_before_use_app, live_after_app, <-Hlive.
  simpl. repeat split; try done.
  unfold GPState.ok. rewrite Hl. apply elem_of_union_r, Hok.
Qed.

Lemma emitted_mono {G} (P Q : insn → Prop) a (s s' : st G) :
  (∀ i, P i → Q i) → emits P a s s' → emits Q a s s'.
Proof. intros HPQ (i & ? & ? & ? & ? & ? & ? & ?). exists i. eauto 10. Qed.

(** The lines of an emitted program read back as the program. *)
Lemma mapM_decode_render p :
  Forall text_ok p → mapM decode_insn (render <$> p) = Some p.
Proof.
  intros Hp. apply mapM_Some. induction Hp as [|i p Hi _ IH]; simpl; constructor; [|done].
  by apply decode_render.
Qed.

Lemma live_write_dest rd s : GPState.live (GPState.write rd s) = gp_dest rd ∪ GPState.live s.
Proof.
  apply set_eq. intros r. rewrite GPState.live_write. unfold gp_dest.
  case_decide; set_solver.
Qed.

(** What every scenario promises of its result: the lines are those of a
    set-up and a body, and read back as them; all immediates fit their fields;
    in textual order no register is read before it is written; the body leaves
    the registers [rsv] alone. *)
Definition good_program (L rsv : gset Reg) (out : list AsmInstr) (setup body : list insn) : Prop :=
  out = render <$> setup ++ body ∧ mapM decode_insn out = Some (setup ++ body) ∧
  Forall text_ok (setup ++ body) ∧ Forall imm_ok (setup ++ body) ∧
  def_before_use L (setup ++ body) ∧ preserves rsv body.

Lemma good_program_intro L rsv setup body :
  Forall text_ok (setup ++ body) → Forall imm_ok (setup ++ body) →
  def_before_use L (setup ++ body) → Forall (λ i, dests i ## rsv) body →
  good_program L rsv (render <$> setup ++ body) setup body.
Proof. intros. split_and!; try done. by apply mapM_decode_render. Qed.

Lemma emitted_good {G} L rsv setup body (s : st G) :
  emitted L (setup ++ body) s → Forall (λ i, dests i ## rsv) body →
  good_program L rsv (render <$> setup ++ body) setup body.
Proof. intros (Himm & Htext & Hdbu & _ & _). by apply good_program_intro. Qed.

(** The state [generate_program] starts a scenario in. *)
Definition st_init {G} `{PyRandom G} (seed : Z) : st G :=
  St (rng_seed seed) GPState.init FPState.init.

Lemma st_init_ok {G} `{PyRandom G} seed : st_ok (st_init seed).
Proof. split; [apply GPState.init_ok|apply FPState.fp_init_ok]. Qed.

(** ** Filling a program

    The loop [while len(out) < length + k] whose iterations append at least
    one line: it ends with [length] lines more than the [k] it started with,
    or more when the last iteration overshoots. *)
Lemma wp_fill {G} `{PyRandomLaws G} {A} (I : A → st G → Prop) (lines : A → list AsmInstr)
    (over k length : Z) c (body : A → M G A) a s (Q : A → st G → Prop) :
  (∀ a, c a = (len (lines a) <? length + k)) → I a s → len (lines a) = k → 0 ≤ over →
  (∀ a s, I a s → wp (body a) (λ a' s', I a' s' ∧
     len (lines a) < len (lines a') ≤ len (lines a) + 1 + over) s) →
  (∀ a s, I a s → Z.max 0 length + k ≤ len (lines a) ≤ Z.max 0 length + k + over → Q a s) →
  wp (while (Z.to_nat length) c body a) Q s.
Proof.
  intros Hcond HI Hk Hover Hbody HQ.
  apply (wp_while (λ a s, I a s ∧ k ≤ len (lines a) ≤ Z.max 0 length + k + over)
    (λ a, length + k - len (lines a))).
  - split; [done|lia].
  - lia.
  - intros a1 s1 [HI1 Hle] Hc. rewrite Hcond in Hc. apply Z.ltb_lt in Hc. split; [lia|].
    eapply wp_mono; [by apply Hbody|]. intros a2 s2 [HI2 Hlen]. split; [split; [done|lia]|lia].
  - intros a1 s1 [HI1 Hle] Hc. rewrite Hcond in Hc. apply Z.ltb_ge in Hc. apply HQ; [done|lia].
Qed.

(** The registers a scenario draws destinations from. *)
Lemma wp_writable {G} `{PyRandomLaws G} (rsv : gset Reg) (Q : Reg → st G → Prop) s :
  filter (λ r, r ∉ rsv) Reg_all ≠ [] →
  (∀ r g, r ∉ rsv → Q r (St g (gp s) (fp s))) →
  wp (rng_choice (filter (λ r, r ∉ rsv) Reg_all)) Q s.
Proof.
  intros Hne HQ. apply wp_choice; [done|]. intros r g [Hr _]%list_elem_of_filter. by apply HQ.
Qed.

(** ** An arithmetic line

    The [_emit_alu] of four scenarios: an operation of [ops], a destination
    of [writable], live sources, an immediate in the field's range. *)

Definition is_shift (op : iop) : bool := match op with ADDI => false | _ => true end.

Definition emit_alu {G} `{PyRandom G} (ops : list aluop) (writable : list Reg) : M G AsmInstr :=
  op ← rng_choice ops;
  rd ← rng_choice writable;
  rs1 ← gp_random_live;
  match op with
  | OpI op =>
      imm ← (if is_shift op then rng_randint 0 63 else rng_randint (-2048) 2047);
      _ ← gp_write rd;
      lift (encode_i op (AReg rd) (AReg rs1) imm)
  | OpR op =>
      rs2 ← gp_random_live;
      _ ← gp_write rd;
      lift (encode_r op (AReg rd) (AReg rs1) (AReg rs2))
  end.

Definition alu_insn (ops : list aluop) (rsv : gset Reg) (i : insn) : Prop :=
  match i with
  | IR op rd _ _ => OpR op ∈ ops ∧ rd ∉ rsv
  | II op rd _ _ => OpI op ∈ ops ∧ rd ∉ rsv
  | _ => False
  end.

Lemma wp_alu_imm {G} `{PyRandomLaws G} op rd rs1 (Q : Z → st G → Prop) s :
  (∀ imm g, imm_ok (II op rd rs1 imm) → Q imm (St g (gp s) (fp s))) →
  wp (if is_shift op then rng_randint 0 63 else rng_randint (-2048) 2047) Q s.
Proof. intros HQ. destruct op; cbn [is_shift]; wp_steps; apply HQ; simpl; unfold simm12; lia. Qed.

Lemma emits_write {G} i (P : insn → Prop) rd (s : st G) g f :
  imm_ok i → text_ok i → srcs i ⊆ GPState.live (gp s) → dests i = gp_dest rd → FPState.ok f →
  P i → emits P (render i) s (St g (GPState.write rd (gp s)) f).
Proof. intros. exists i. split_and!; try done. cbn [gp]. rewrite live_write_dest. congruence. Qed.

Lemma emits_keep {G} i (P : insn → Prop) (s : st G) g f :
  imm_ok i → text_ok i → srcs i ⊆ GPState.live (gp s) → dests i = ∅ → FPState.ok f →
  P i → emits P (render i) s (St g (gp s) f).
Proof. intros. exists i. split_and!; try done. cbn [gp]. set_solver. Qed.

Lemma wp_emit_alu {G} `{PyRandomLaws G} ops rsv (s : st G) :
  ops ≠ [] → filter (λ r, r ∉ rsv) Reg_all ≠ [] → st_ok s →
  wp (emit_alu ops (filter (λ r, r ∉ rsv) Reg_all)) 
    (λ a s', emits (alu_insn ops rsv) a s s') s.
Proof.
  intros Hops Hw Hok. unfold emit_alu. apply wp_bind, wp_choice; [done|]. intros op g1 Hop.
  apply wp_bind, wp_writable; [done|]. intros rd g2 Hrd. destruct Hok. wp_steps.
  destruct op as [op|op].
  - wp_steps. apply (wp_encode (IR op rd r _)); [done|]. apply emits_write; try done. simpl. set_solver.
  - apply wp_bind, (wp_alu_imm op rd r). intros imm g3 Himm. wp_steps.
    apply (wp_encode (II op rd r imm)); [done|]. apply emits_write; try done. simpl. set_solver.
Qed.

(** ** Pointers

    The two lines that leave an address in a register: the low twelve bits are
    added with their sign, so bit 11 carries into the upper part. *)
Definition load_pointer {G} (reg : Reg) (base : Z) : M G (list AsmInstr) :=
  let upper := Z.land (Z.shiftr base 12) 0xFFFFF in
  let lower := Z.land base 0xFFF in
  let '(upper, lower) :=
    if negb (Z.land lower 0x800 =? 0) then (Z.land (upper + 1) 0xFFFFF, lower - 0x1000)
    else (upper, lower) in
  i1 ← lift (enc.lui reg upper);
  i2 ← lift (enc.addi reg reg lower);
  _ ← gp_write reg;
  mret [i1; i2].

(** The set-up code of a base whose bit 11 is clear. *)
Lemma wp_load_pointer {G} `{PyRandomLaws G} reg base L p s (Q : list AsmInstr → st G → Prop) :
  reg ≠ X0 → Z.land (Z.land base 0xFFF) 0x800 = 0 →
  emitted L p s →
  (∀ s', let q := load_addr reg (Z.land (Z.shiftr base 12) 0xFFFFF) (Z.land base 0xFFF) in
     emitted L (p ++ q) s' → Q (render <$> q) s') →
  wp (load_pointer reg base) Q s.
Proof.
  intros Hreg Hbit He HQ. unfold load_pointer. rewrite Hbit. cbn [negb Z.eqb].
  set (u := Z.land (Z.shiftr base 12) 0xFFFFF) in *. set (l := Z.land base 0xFFF) in *.
  assert (0 ≤ u < 2 ^ 20) as Hu.
  { unfold u. change 0xFFFFF with (Z.ones 20). rewrite Z.land_ones by lia. apply Z.mod_pos_bound. lia. }
  assert (simm12 l) as Hl.
  { assert (0 ≤ l < 2 ^ 12) as Hr.
    { unfold l. change 0xFFF with (Z.ones 12). rewrite Z.land_ones by lia. apply Z.mod_pos_bound. lia. }
    assert (Z.testbit l 11 = false) as Ht.
    { change 0x800 with (2 ^ 11) in Hbit. apply (f_equal (λ z, Z.testbit z 11)) in Hbit.
      rewrite Z.land_spec, Z.pow2_bits_true, Z.bits_0, andb_true_r in Hbit by lia. done. }
    assert (¬ 2 ^ 11 ≤ l) by (intros Hge; apply (testbit_top l 11) in Hge; [congruence|lia..]).
    unfold simm12. lia. }
  apply wp_bind, (wp_encode (IU LUI reg u)); [done|].
  apply wp_bind, (wp_encode (II ADDI reg reg l)); [done|].
  apply wp_bind, wp_gp_write, wp_ret. apply (HQ _). cbv zeta.
  destruct He as (Himm & Htext & Hdbu & Hlive & Hok).
  unfold emitted. rewrite !Forall_app, def_before_use_app, live_after_app, <-Hlive.
  assert (reg ∈ gp_dest reg) as Hin by (unfold gp_dest; rewrite decide_False by done; by apply elem_of_singleton).
  repeat split; try done; cbn [gp fp load_addr def_before_use live_after foldl dests srcs].
  - by apply Forall_cons_2; [|apply Forall_cons_2].
  - by apply Forall_cons_2; [|apply Forall_cons_2].
  - intros x ->%elem_of_singleton. by apply elem_of_union_l.
  - by rewrite live_write_dest, (assoc_L (∪)), (idemp_L (∪)).
  - apply GPState.write_ok, Hok.
  - apply Hok.
Qed.

(** The upper and lower parts a base is split in, with the carry. *)
Lemma split_base base :
  0 ≤ base < 2 ^ 31 - 2048 →
  ∃ upper lower, 0 ≤ upper < 2 ^ 19 ∧ simm12 lower ∧ upper * 2 ^ 12 + lower = base ∧
    (if negb (Z.land (Z.land base 0xFFF) 0x800 =? 0)
     then (Z.land (Z.land (Z.shiftr base 12) 0xFFFFF + 1) 0xFFFFF, Z.land base 0xFFF - 0x1000)
     else (Z.land (Z.shiftr base 12) 0xFFFFF, Z.land base 0xFFF)) = (upper, lower).
Proof.
  intros Hb. change 0xFFFFF with (Z.ones 20). change 0xFFF with (Z.ones 12).
  rewrite !Z.land_ones by lia. rewrite Z.shiftr_div_pow2 by lia.
  pose proof (Z.div_mod base (2 ^ 12) ltac:(lia)) as Hdm.
  pose proof (Z.mod_pos_bound base (2 ^ 12) ltac:(lia)) as Hm.
  set (q := base / 2 ^ 12) in *. set (l := base `mod` 2 ^ 12) in *.
  assert (0 ≤ q < 2 ^ 19) as Hq by lia. rewrite (Z.mod_small q) by lia.
  assert (Z.land l 0x800 = 0 ↔ l < 2 ^ 11) as Hbit.
  { change 0x800 with (2 ^ 11).
    pose proof (testbit_top l 11 ltac:(lia) ltac:(lia)) as Ht. split.
    - intros H0. apply Z.nle_gt. intros Hge%Ht.
      apply (f_equal (λ z, Z.testbit z 11)) in H0.
      rewrite Z.land_spec, Z.pow2_bits_true, Z.bits_0, Hge in H0 by lia. done.
    - intros Hlt. apply Z.bits_inj'. intros k Hk. rewrite Z.land_spec, Z.bits_0.
      destruct (decide (k = 11)) as [->|Hne].
      + rewrite (not_true_is_false (Z.testbit l 11)); [done|]. intros Hge%Ht. lia.
      + rewrite (Z.pow2_bits_false 11 k) by done. apply andb_false_r. }
  destruct (Z.eqb_spec (Z.land l 0x800) 0) as [E|E]; simpl.
  - apply Hbit in E. exists q, l. unfold simm12. split_and!; try done; lia.
  - assert (2 ^ 11 ≤ l) by (apply Z.nlt_ge; by intros ?%Hbit).
    rewrite Z.mod_small by lia. exists (q + 1), (l - 4096). unfold simm12.
    split_and!; try done; lia.
Qed.

(** C24: The lui/addi pair of the pointer set-up leaves exactly the base
    address in its register and changes no other, for every base below 2^31 -
    2048, the carry of bit 11 included. *)
Theorem load_pointer_correct {G} reg base (s : st G) :
  reg ≠ X0 → 0 ≤ base < 2 ^ 31 - 2048 →
  ∃ out s' p, load_pointer reg base s = Ok (out, s') ∧ mapM decode_insn out = Some p ∧
    Forall imm_ok p ∧ GPState.live (gp s') = {[reg]} ∪ GPState.live (gp s) ∧
    ∀ r r', runs r p r' → r' reg = base ∧ ∀ x, x ≠ reg → r' x = r x.
Proof.
  intros Hreg Hb. destruct (split_base base Hb) as (u & l & Hu & Hl & Hbase & Heq).
  exists (render <$> load_addr reg u l), (St (rng s) (GPState.write reg (gp s)) (fp s)),
    (load_addr reg u l).
  split_and!.
  - unfold load_pointer. rewrite Heq. unfold mbind, M_bind, lift.
    change (enc.lui reg u) with (encode_insn (IU LUI reg u)).
    change (enc.addi reg reg l) with (encode_insn (II ADDI reg reg l)).
    rewrite !encode_ok; [done|done|simpl; lia].
  - apply mapM_decode_render. by repeat constructor.
  - apply Forall_cons_2; [simpl; lia|]. by apply Forall_cons_2.
  - simpl. rewrite live_write_dest. unfold gp_dest. by rewrite decide_False.
  - intros r r'. apply load_addr_runs; [done|]. unfold sext32, word64.
    rewrite (Z.mod_small (u * 2 ^ 12 + 2 ^ 31)) by lia.
    replace (u * 2 ^ 12 + 2 ^ 31 - 2 ^ 31) with (u * 2 ^ 12) by lia.
    rewrite (Z.mod_small (u * 2 ^ 12)), Hbase by lia. apply Z.mod_small. lia.
Qed.

(** A base whose bit 11 is set takes the carry. *)
Lemma load_pointer_correct_witness :
  let s := st_init (G:=Mt19937.mt) 0 in
  X10 ≠ X0 ∧ 0 ≤ 0x14ABC < 2 ^ 31 - 2048 ∧
  ∃ out s' p, load_pointer X10 0x14ABC s = Ok (out, s') ∧ mapM decode_insn out = Some p ∧
    Forall imm_ok p ∧ GPState.live (gp s') = {[X10]} ∪ GPState.live (gp s) ∧
    ∀ r r', runs r p r' → r' X10 = 0x14ABC ∧ ∀ x, x ≠ X10 → r' x = r x.
Proof.
  split; [done|]. split; [lia|].
  exact (load_pointer_correct X10 0x14ABC _ ltac:(done) ltac:(lia)).
Defined.

(** Close [emits P (render i) s s'] for a known [i]. *)
Ltac emits_with i :=
  exists i; split; [reflexivity|]; split; [simpl; try done; unfold simm12 in *; lia|];
  split; [done|]; split; [simpl; set_solver|]; split;
  [cbn [gp fp rng dests]; rewrite ?live_write_dest; set_solver|].
