(* ===== verification/IntHazards.v ===== *)
(** The int_hazards scenario (tools/crv/scenarios/int_hazards.py): chains of
    register dependencies, loads and stores in the DATA region. *)
From S2P Require Export ScenarioBase.
Local Open Scope Z_scope.

Module int_hazards.
Definition _ALU_R : list rop := [ADD; SUB; SLL; SRL; SRA].
Definition _ALU_I : list iop := [ADDI; SLLI; SRLI; SRAI].
Definition _RESERVED : gset Reg := {[X0; X1; X2; X10]}.
Definition _WRITABLE : list Reg := filter (λ r, r ∉ _RESERVED) Reg_all.

(** [(min(DATA.size, 2048) // 8 - 1) * 8] *)
Definition _MAX_MEM_OFFSET : Z := (Z.min (MemRange.size DATA) 2048 / 8 - 1) * 8.

(** [0.70] *)
Definition f070 : pyfloat := float_div (float_of_Z 70) (float_of_Z 100).

Inductive mem_op := Mlw | Mld | Msw | Msd.
Inductive kind := Kalu_r | Kalu_i | Kmem.

Section generate.
Context {G : Type} `{PyRandom G}.

Definition _random_writable : M G Reg := rng_choice _WRITABLE.

Definition _pick_dependent_source (recent_writes : list Reg) : M G Reg :=
  live ← gp_live;
  let candidates := filter (λ r, r ∈ live ∧ r ≠ X0) (last_n 4 recent_writes) in
  match candidates with
  | [] => gp_random_live
  | _ => rng_choice candidates
  end.

(** [_pick_dependent_source(...) if dependent else gp.random_live(rng)] *)
Definition pick_source (dependent : bool) (recent_writes : list Reg) : M G Reg :=
  if dependent then _pick_dependent_source recent_writes else gp_random_live.

Definition _emit_alu_r (dependent : bool) (recent_writes : list Reg) : M G AsmInstr :=
  op ← rng_choice _ALU_R;
  rd ← _random_writable;
  rs1 ← pick_source dependent recent_writes;
  rs2 ← gp_random_live;
  _ ← gp_write rd;
  lift (encode_r op (AReg rd) (AReg rs1) (AReg rs2)).

Definition _emit_alu_i (dependent : bool) (recent_writes : list Reg) : M G AsmInstr :=
  op ← rng_choice _ALU_I;
  rd ← _random_writable;
  rs1 ← pick_source dependent recent_writes;
  imm ← (match op with
         | SLLI | SRLI | SRAI => rng_randint 0 63
         | ADDI => rng_randint (-2048) 2047
         end);
  _ ← gp_write rd;
  lift (encode_i op (AReg rd) (AReg rs1) imm).

(** The set-up lines and the pointer register. *)
Definition _setup_data_pointer : M G (list AsmInstr * Reg) :=
  let base := X10 in
  seq ← load_pointer base DATA_BASE;
  mret (seq, base).

Definition _emit_mem (ptr_reg : Reg) (dependent : bool) (recent_writes : list Reg) :
    M G AsmInstr :=
  op_choice ← rng_choice [Mlw; Mld; Msw; Msd];
  k ← rng_randint 0 (_MAX_MEM_OFFSET / 8);
  let offset := k * 8 in
  match op_choice with
  | Mlw => rd ← _random_writable; _ ← gp_write rd; lift (enc.lw (AReg rd) (AReg ptr_reg) offset)
  | Mld => rd ← _random_writable; _ ← gp_write rd; lift (enc.ld (AReg rd) (AReg ptr_reg) offset)
  | Msw => rs2 ← pick_source dependent recent_writes; lift (enc.sw (AReg rs2) (AReg ptr_reg) offset)
  | Msd => rs2 ← pick_source dependent recent_writes; lift (enc.sd (AReg rs2) (AReg ptr_reg) offset)
  end.

Definition emit (k : kind) (ptr : Reg) (dependent : bool) (recent_writes : list Reg) :
    M G AsmInstr :=
  match k with
  | Kalu_r => _emit_alu_r dependent recent_writes
  | Kalu_i => _emit_alu_i dependent recent_writes
  | Kmem => _emit_mem ptr dependent recent_writes
  end.

(** The bookkeeping after a line: the register its first operand names. *)
Definition note_write (instr : AsmInstr) (recent_writes : list Reg) : res (list Reg) :=
  if decide (mnemonic instr ∈
      ["add"; "sub"; "sll"; "srl"; "sra"; "addi"; "slli"; "srli"; "srai"; "lw"; "ld"])
  then
    match operands instr with
    | [] => Raise (IndexError "tuple index out of range")
    | rd_str :: _ =>
        match int_of_str (str_drop 1 rd_str) with
        | None => Raise (ValueError "invalid literal for int() with base 10")
        | Some rd_idx =>
            r ← Reg_of_value rd_idx;
            Ok (last_n 8 (recent_writes ++ [r]))
        end
    end
  else Ok recent_writes.

(** The lines of one iteration that emit a line of kind [k] and note what it
    wrote. *)
Definition append_line (ptr : Reg) (dependent : bool) (k : kind)
    '((out, recent_writes) : list AsmInstr * list Reg) : M G (list AsmInstr * list Reg) :=
  instr ← emit k ptr dependent recent_writes;
  recent_writes ← lift (note_write instr recent_writes);
  mret (out ++ [instr], recent_writes).

(** One iteration of the loop of [generate]. *)
Definition iteration (ptr : Reg) (vars : list AsmInstr * list Reg) :
    M G (list AsmInstr * list Reg) :=
  roll ← rng_random;
  let dependent := float_lt roll f070 in
  kind ← rng_choices [(Kalu_r, 35); (Kalu_i, 25); (Kmem, 40)];
  append_line ptr dependent kind vars.

Definition generate (length : Z) : M G (list AsmInstr) :=
  '(setup, ptr) ← _setup_data_pointer;
  '(out, _) ← while (Z.to_nat length)
      (λ '((out, _) : list AsmInstr * list Reg), len out <? length + len setup) (iteration ptr) (setup, []);
  mret out.
End generate.

(** ** Specification *)

(** The lines of a body: register and immediate arithmetic, and word and
    double loads and stores at the pointer. *)
Definition body_insn (i : insn) : Prop :=
  match i with
  | IR op rd _ _ => op ∈ _ALU_R ∧ rd ∉ _RESERVED
  | II op rd _ _ => op ∈ _ALU_I ∧ rd ∉ _RESERVED
  | ILd w rd base off =>
      (w = W32 ∨ w = W64) ∧ rd ∉ _RESERVED ∧ base = X10 ∧ 0 ≤ off ≤ _MAX_MEM_OFFSET ∧ (8 | off)
  | ISt w _ base off =>
      (w = W32 ∨ w = W64) ∧ base = X10 ∧ 0 ≤ off ≤ _MAX_MEM_OFFSET ∧ (8 | off)
  | _ => False
  end.

(** The registers the lines of a body write, in order. *)
Definition write_of (i : insn) : option Reg :=
  match i with
  | IR _ rd _ _ | II _ rd _ _ | ILd _ rd _ _ => Some rd
  | _ => None
  end.
Definition writes (body : list insn) : list Reg := omap write_of body.

(** The line reads one of [rs], or is a load (whose only source is the pointer). *)
Definition reads_one_of (rs : list Reg) (i : insn) : Prop :=
  match i with ILd _ _ _ _ => True | _ => ∃ r, r ∈ rs ∧ r ∈ srcs i end.

(** The line an emission of each kind makes. *)
Definition of_kind (k : kind) (i : insn) : Prop :=
  match k, i with
  | Kalu_r, IR _ _ _ _ | Kalu_i, II _ _ _ _ | Kmem, (ILd _ _ _ _ | ISt _ _ _ _) => True
  | _, _ => False
  end.

Definition setup : list insn := load_addr X10 0x14 0.

Section proofs.
Context {G : Type} `{PyRandomLaws G}.
Implicit Types s : st G.

Lemma wp_random_writable (Q : Reg → st G → Prop) s :
  (∀ r g, r ∉ _RESERVED → Q r (St g (gp s) (fp s))) → wp _random_writable Q s.
Proof. intros HQ. by apply wp_writable. Qed.

(** A source is a live register; a dependent one is among the last four
    registers written, when there is one. *)
Lemma wp_pick_source dep recent (Q : Reg → st G → Prop) s :
  st_ok s →
  (∀ r g, r ∈ GPState.live (gp s) →
     (dep = true → recent ≠ [] → Forall (λ r, r ∈ GPState.live (gp s) ∧ r ≠ X0) recent →
      r ∈ last_n 4 recent) →
     Q r (St g (gp s) (fp s))) →
  wp (pick_source dep recent) Q s.
Proof.
  intros [Hgp Hfp] HQ. unfold pick_source. destruct dep; [|by wp_steps; apply HQ].
  unfold _pick_dependent_source. wp_steps. cbv zeta.
  destruct (filter _ _) as [|c cs] eqn:E.
  - wp_steps. apply HQ; [done|]. intros _ Hne Hall. exfalso.
    destruct (last_n 4 recent) as [|c l] eqn:El.
    + by apply Hne, (last_n_nil 3).
    + assert (c ∈ recent) as Hr by (apply (elem_of_last_n 4); rewrite El; left).
      rewrite list.Forall_forall in Hall. destruct (Hall c Hr) as [Hl Hx].
      assert (c ∈ @nil Reg) as Hnil by (rewrite <-E; apply list_elem_of_filter; split; [done|left]).
      by apply elem_of_nil in Hnil.
  - rewrite <-E. apply wp_choice; [by rewrite E|]. intros r g [[Hl Hx] Hr]%list_elem_of_filter.
    by apply HQ.
Qed.

(** The specification of one emission: a line of the body of the kind asked
    for, dependent when asked to be. *)
Definition emission (k : kind) (dep : bool) (recent : list Reg) s (a : AsmInstr) s' : Prop :=
  emits (λ i, body_insn i ∧ of_kind k i ∧
    (dep = true → recent ≠ [] → Forall (λ r, r ∈ GPState.live (gp s) ∧ r ≠ X0) recent →
     reads_one_of (last_n 4 recent) i)) a s s'.

Lemma ih_wp_emit_alu_r dep recent s :
  st_ok s → wp (_emit_alu_r dep recent) (emission Kalu_r dep recent s) s.
Proof.
  intros Hok. unfold _emit_alu_r. wp_steps. apply wp_random_writable. intros rd g1 Hrd.
  wp_steps. apply wp_pick_source; [done|]. intros rs1 g2 Hrs1 Hdep. destruct Hok.
  wp_steps. apply (wp_encode (IR x rd rs1 _)); [done|].
  emits_with (IR x rd rs1 r). split; [done|]. split; [done|]. split; [done|].
  intros. exists rs1. split; [auto|]. simpl. set_solver.
Qed.

Lemma ih_wp_emit_alu_i dep recent s :
  st_ok s → wp (_emit_alu_i dep recent) (emission Kalu_i dep recent s) s.
Proof.
  intros Hok. unfold _emit_alu_i. wp_steps. apply wp_random_writable. intros rd g1 Hrd.
  wp_steps. apply wp_pick_source; [done|]. intros rs1 g2 Hrs1 Hdep. destruct Hok.
  apply wp_bind.
  apply (wp_mono _ (λ imm s', imm_ok (II x rd rs1 imm) ∧ gp s' = gp s ∧ fp s' = fp s)).
  { destruct x; wp_steps; simpl; unfold simm12; (split; [lia|done]). }
  intros imm s' (Himm & Hgp & Hfp). wp_steps. apply (wp_encode (II x rd rs1 imm)); [done|].
  exists (II x rd rs1 imm). split; [done|]. split; [done|]. split; [done|].
  split; [simpl; set_solver|]. cbn [gp fp rng]. rewrite Hgp, Hfp, live_write_dest.
  split; [done|]. split; [done|]. split; [done|]. split; [done|].
  intros. exists rs1. split; [auto|]. simpl. set_solver.
Qed.

Lemma ih_wp_emit_mem dep recent s :
  st_ok s → X10 ∈ GPState.live (gp s) →
  wp (_emit_mem X10 dep recent) (emission Kmem dep recent s) s.
Proof.
  intros Hok Hx10. unfold _emit_mem. wp_steps. destruct Hok as [Hgp Hfp].
  assert (0 ≤ x0 * 8 ≤ _MAX_MEM_OFFSET ∧ (8 | x0 * 8)) as [Hoff Hdiv].
  { change (_MAX_MEM_OFFSET / 8) with 255 in *. change _MAX_MEM_OFFSET with 2040.
    split; [lia|]. by exists x0. }
  assert (simm12 (x0 * 8)) by (unfold simm12; change _MAX_MEM_OFFSET with 2040 in *; lia).
  destruct x.
  1,2: wp_steps; apply wp_random_writable; intros rd g2 Hrd; wp_steps.
  3,4: wp_steps; apply wp_pick_source; [done|]; intros rs2 g2 Hrs2 Hdep.
  - apply (wp_encode (ILd W32 rd X10 (x0 * 8))); [done|].
    emits_with (ILd W32 rd X10 (x0 * 8)). split; [done|]. split; [simpl; eauto 10|done].
  - apply (wp_encode (ILd W64 rd X10 (x0 * 8))); [done|].
    emits_with (ILd W64 rd X10 (x0 * 8)). split; [done|]. split; [simpl; eauto 10|done].
  - apply (wp_encode (ISt W32 rs2 X10 (x0 * 8))); [done|].
    emits_with (ISt W32 rs2 X10 (x0 * 8)). split; [done|]. split; [simpl; eauto 10|]. split; [done|].
    intros. exists rs2. split; [auto|]. simpl. set_solver.
  - apply (wp_encode (ISt W64 rs2 X10 (x0 * 8))); [done|].
    emits_with (ISt W64 rs2 X10 (x0 * 8)). split; [done|]. split; [simpl; eauto 10|]. split; [done|].
    intros. exists rs2. split; [auto|]. simpl. set_solver.
Qed.

Lemma wp_emit k dep recent s :
  st_ok s → X10 ∈ GPState.live (gp s) → wp (emit k X10 dep recent) (emission k dep recent s) s.
Proof. intros. destruct k; [by apply ih_wp_emit_alu_r|by apply ih_wp_emit_alu_i|by apply ih_wp_emit_mem]. Qed.

(** The bookkeeping reads the written register back from the line. *)
Lemma note_write_render i recent :
  body_insn i →
  note_write (render i) recent =
    Ok (match write_of i with Some r => last_n 8 (recent ++ [r]) | None => recent end).
Proof.
  assert (∀ r, int_of_str (str_drop 1 (Reg_asm r)) = Some (Reg_value r)) as Hn by by intros [].
  assert (∀ r, Reg_of_value (Reg_value r) = Ok r) as Hv by by intros [].
  unfold note_write. destruct i; try done; cbn [body_insn write_of render operands mnemonic].
  - intros [Hop Hrd]. rewrite decide_True; [by rewrite Hn; cbn [mbind res_bind]; rewrite Hv|].
    destruct op; first [by_decide|absurd_decide Hop].
  - intros [Hop Hrd]. rewrite decide_True; [by rewrite Hn; cbn [mbind res_bind]; rewrite Hv|].
    destruct op; by_decide.
  - intros ([-> | ->] & _);
      (rewrite decide_True; [by rewrite Hn; cbn [mbind res_bind]; rewrite Hv|]); by_decide.
  - intros ([-> | ->] & _); (rewrite decide_False; [done|by_decide]).
Qed.

Lemma wp_setup s (Q : list AsmInstr * Reg → st G → Prop) :
  st_ok s →
  (∀ s', emitted (GPState.live (gp s)) setup s' → Q (render <$> setup, X10) s') →
  wp _setup_data_pointer Q s.
Proof.
  intros Hok HQ. unfold _setup_data_pointer. cbv zeta. apply wp_bind.
  eapply (wp_load_pointer X10 DATA_BASE _ []); [done|done|by apply emitted_nil|].
  intros s1. cbv zeta. intros He. apply wp_ret. apply (HQ s1 He).
Qed.

(** The loop keeps the lines emitted so far, all of them body lines, and the
    last eight registers they wrote. *)
Definition inv (L : gset Reg) '((out, recent) : list AsmInstr * list Reg) s : Prop :=
  ∃ body, out = render <$> setup ++ body ∧ recent = last_n 8 (writes body) ∧
    emitted L (setup ++ body) s ∧ Forall body_insn body.

Lemma body_insn_write i r : body_insn i → write_of i = Some r → r ∉ _RESERVED ∧ dests i = {[r]}.
Proof.
  assert (∀ rd, rd ∉ _RESERVED → gp_dest rd = {[rd]}) as Hd.
  { intros rd Hrd. unfold gp_dest. rewrite decide_False; [done|]. intros ->. by apply Hrd; by_decide. }
  destruct i; try done; simpl; intros Hb [= <-].
  - destruct Hb as [_ Hrd]. auto.
  - destruct Hb as [_ Hrd]. auto.
  - destruct Hb as (_ & Hrd & _). auto.
Qed.

Lemma writes_live L body :
  Forall body_insn body →
  Forall (λ r, r ∈ live_after L (setup ++ body) ∧ r ≠ X0) (writes body).
Proof.
  intros Hb. apply list.Forall_forall. intros r (i & Hi & Hw)%list_elem_of_omap.
  rewrite list.Forall_forall in Hb. destruct (body_insn_write i r (Hb i Hi) Hw) as [Hr Hd].
  split.
  - apply (live_after_elem _ _ i); [by apply elem_of_app; right|]. rewrite Hd. set_solver.
  - intros ->. apply Hr. by_decide.
Qed.

(** The line an iteration appends is of its kind and reads live registers; with
    the dependent flag set it reads one that the last four writing lines of the
    body wrote, once there is such a line. *)
Definition appends (L : gset Reg) (dep : bool) (k : kind) (vars vars' : list AsmInstr * list Reg) : Prop :=
  ∃ body i, vars.1 = render <$> setup ++ body ∧ vars'.1 = vars.1 ++ [render i] ∧ of_kind k i ∧
    srcs i ⊆ live_after L (setup ++ body) ∧
    (dep = true → writes body ≠ [] → reads_one_of (last_n 4 (writes body)) i).

Lemma wp_append_line L dep k vars s :
  inv L vars s →
  wp (append_line X10 dep k vars) (λ vars' s', inv L vars' s' ∧ appends L dep k vars vars') s.
Proof.
  destruct vars as [out recent]. intros (body & -> & -> & He & Hb). unfold append_line.
  destruct He as (Himm & Htext & Hdbu & Hlive & Hok). apply wp_bind.
  assert (X10 ∈ GPState.live (gp s)) as H10.
  { rewrite Hlive. apply (live_after_elem _ _ (IU LUI X10 0x14)); [apply list_elem_of_here|by_decide]. }
  eapply wp_mono; [by apply wp_emit|]. intros a s' Ha.
  eapply (emitted_snoc L (setup ++ body)) in Ha as (i & -> & (Hi & Hk & Hdep) & He'); [|done].
  pose proof (proj1 (proj2 (proj2 He'))) as Hsrc. rewrite def_before_use_app in Hsrc. destruct Hsrc as [_ [Hsrc _]].
  rewrite <-app_assoc in He'. apply wp_bind. eapply wp_lift; [by apply note_write_render|].
  apply wp_ret. split.
  - exists (body ++ [i]). split; [by rewrite !fmap_app, <-app_assoc|]. split; [|split].
    + unfold writes. rewrite omap_app. simpl.
      destruct (write_of i); [apply last_n_app|by rewrite app_nil_r].
    + done.
    + by apply Forall_app_2; [|apply Forall_singleton].
  - exists body, i. do 4 (split; [done|]). intros -> Hne.
    rewrite <-(last_n_last_n 4 8) by lia. apply Hdep; [done| |].
    + intros E. apply Hne. by apply (last_n_nil 7).
    + rewrite Hlive. eapply list.Forall_drop, writes_live. done.
Qed.

Lemma body_insn_reserved i : body_insn i → dests i ## _RESERVED.
Proof.
  intros Hi. destruct (write_of i) as [r|] eqn:E.
  - destruct (body_insn_write i r Hi E) as [? ->]. set_solver.
  - destruct i; try done; simpl; set_solver.
Qed.

Lemma body_insn_access i : body_insn i → access_ok [(X10, DATA)] i.
Proof.
  destruct i; try done.
  - intros (_ & _ & -> & ? & ?). eapply access_ok_slot; [done|by left|lia| |done].
    change _MAX_MEM_OFFSET with 2040 in *. simpl. unfold DATA_SIZE. lia.
  - intros (_ & -> & ? & ?). eapply access_ok_slot; [done|by left|lia| |done].
    change _MAX_MEM_OFFSET with 2040 in *. simpl. unfold DATA_SIZE. lia.
Qed.

Lemma ih_setup_points r r' :
  runs r setup r' → Forall (λ p, r' p.1 = MemRange.base p.2) [(X10, DATA)].
Proof. intros Hr%(load_addr_runs _ _ _ DATA_BASE); [|done..]. constructor; [apply Hr|done]. Qed.

(** Lines that keep off the reserved registers and use the pointer within
    bounds stay in the DATA region when they run after the set-up. *)
Lemma body_accesses (P : insn → Prop) body :
  (∀ i, P i → dests i ## _RESERVED ∧ access_ok [(X10, DATA)] i) →
  Forall P body → accesses_in [DATA] (setup ++ body).
Proof.
  intros HP Hb. apply (accesses_in_body [(X10, DATA)]).
  - constructor; [apply DATA_ok|done].
  - repeat constructor.
  - apply ih_setup_points.
  - revert Hb. apply Forall_impl. intros i [Hi _]%HP. revert Hi. unfold _RESERVED. set_solver.
  - revert Hb. apply Forall_impl. intros i Hi. by apply HP.
Qed.

Lemma ih_generate_spec length s :
  st_ok s →
  ∃ out s' body, generate length s = Ok (out, s') ∧
    good_program (GPState.live (gp s)) _RESERVED out setup body ∧
    len body = Z.max 0 length ∧ Forall body_insn body ∧ accesses_in [DATA] (setup ++ body).
Proof.
  intros Hs. set (L := GPState.live (gp s)).
  enough (wp (generate length) (λ out _, ∃ body, out = render <$> setup ++ body ∧
    len body = Z.max 0 length ∧ Forall body_insn body ∧ ∃ s', emitted (G:=G) L (setup ++ body) s') s)
    as (out & s' & Hgen & body & -> & Hlen & Hb & s1 & He)%wp_ok.
  { exists (render <$> setup ++ body), s', body. split_and!; try done.
    - eapply emitted_good; [done|]. revert Hb. apply Forall_impl. apply body_insn_reserved.
    - apply (body_accesses body_insn); auto using body_insn_reserved, body_insn_access. }
  unfold generate. apply wp_bind, wp_setup; [done|]. intros s1 He. apply wp_bind.
  apply (wp_while (λ vars s, inv L vars s ∧ len vars.1 ≤ Z.max 0 length + 2)
    (λ vars, length + 2 - len vars.1)).
  - split; [|simpl; unfold len; simpl; lia]. exists []. by rewrite app_nil_r.
  - simpl. unfold len. simpl. lia.
  - intros vars s2 [Hinv Hle] Hc. assert (len vars.1 < length + 2) as Hlt.
    { destruct vars. by apply Z.ltb_lt. }
    split; [lia|]. unfold iteration. wp_steps. cbv zeta.
    eapply wp_mono; [apply (wp_append_line L); by destruct vars|].
    intros vars' s3 [Hinv' (body & i & _ & -> & _)]. rewrite len_app.
    change (len [render i]) with 1. split; [split; [done|lia]|lia].
  - intros [out recent] s2 [(body & -> & _ & He2 & Hb) Hle] Hc. apply wp_ret.
    exists body. apply Z.ltb_ge in Hc. cbn [fst] in *. rewrite !len_fmap, !len_app in *.
    change (len setup) with 2 in *. pose proof (len_nonneg body). split_and!; [done|lia|done|eauto].
Qed.

(** C16: The int_hazards scenario returns a body of exactly the requested
    length; when the program runs every load and store it reaches is aligned
    and inside the DATA region, whatever the registers held. *)
Theorem int_hazards_generate length s :
  st_ok s →
  ∃ out s' body, generate length s = Ok (out, s') ∧
    good_program (GPState.live (gp s)) _RESERVED out setup body ∧
    len body = Z.max 0 length ∧ Forall body_insn body ∧ accesses_in [DATA] (setup ++ body).
Proof. exact (ih_generate_spec length s). Qed.

End proofs.
End int_hazards.

(** ** Concrete runs *)

Lemma int_hazards_generate_witness :
  let s := st_init (G:=Mt19937.mt) 0 in
  st_ok s ∧ ∃ out s' body, int_hazards.generate 20 s = Ok (out, s') ∧
    good_program (GPState.live (gp s)) int_hazards._RESERVED out int_hazards.setup body ∧
    len body = 20 ∧ Forall int_hazards.body_insn body ∧
    accesses_in [DATA] (int_hazards.setup ++ body).
Proof.
  split; [apply st_init_ok|]. exact (int_hazards.int_hazards_generate 20 _ (st_init_ok 0)).
Defined.

(** The loop after one addition. *)
Definition after_add : list insn := int_hazards.setup ++ [IR ADD X7 X0 X2].
Definition after_add_st : st Mt19937.mt :=
  St (Mt19937.seed 0) {| GPState.live := live_after _INITIAL_LIVE_GP after_add |} FPState.init.

Lemma after_add_inv :
  int_hazards.inv _INITIAL_LIVE_GP (render <$> after_add, [X7]) after_add_st.
Proof.
  exists [IR ADD X7 X0 X2]. split; [done|]. split; [done|]. split.
  - split; [by_decide|]. split; [by repeat constructor|]. split; [by_decide|].
    split; [done|]. split; [|apply FPState.fp_init_ok].
    apply (live_after_mono _ after_add X0). by_decide.
  - apply Forall_singleton. split; [left|by_decide].
Qed.

