(* ===== verification/MuldivInterleave.v ===== *)
(** The muldiv_interleave scenario (tools/crv/scenarios/muldiv_interleave.py):
    multiplications and divisions with dependent consumers, among loads. *)
From S2P Require Export IntHazards.
Local Open Scope Z_scope.

Module muldiv_interleave.
Definition _MULDIV_OPS : list rop := [MUL; DIV; DIVU; REM; REMU].
Definition _ALU_R : list rop := [ADD; SUB; SLL; SRL].
Definition _ALU_I : list iop := [ADDI; SLLI; SRLI; SRAI].
Definition _RESERVED : gset Reg := {[X0; X1; X2; X10]}.
Definition _WRITABLE : list Reg := filter (λ r, r ∉ _RESERVED) Reg_all.
Definition _MAX_MEM_OFFSET : Z := 2040.

(** [_ALU_R + _ALU_I] *)
Definition alu_ops : list aluop := (OpR <$> _ALU_R) ++ (OpI <$> _ALU_I).

Inductive kind := Kmuldiv | Kalu | Kmem.

(** The variables of the loop: the lines, the length of the current run of
    loads, the lines since the last multiplication or division. *)
Record vars := Vars { out : list AsmInstr; consec_mem : Z; since_muldiv : Z }.

Section generate.
Context {G : Type} `{PyRandom G}.

Definition _random_writable : M G Reg := rng_choice _WRITABLE.

Definition _emit_muldiv : M G (AsmInstr * Reg) :=
  op ← rng_choice _MULDIV_OPS;
  rd ← _random_writable;
  live ← gp_live;
  let live_nonzero := filter (λ r, r ≠ X0) (elements live) in
  let live_nonzero := match live_nonzero with [] => [X2] | _ => live_nonzero end in
  rs1 ← rng_choice (merge_sort Reg_le live_nonzero);
  rs2 ← rng_choice (merge_sort Reg_le live_nonzero);
  _ ← gp_write rd;
  i ← lift (encode_r op (AReg rd) (AReg rs1) (AReg rs2));
  mret (i, rd).

Definition _emit_dependent_consumer (src : Reg) : M G AsmInstr :=
  op ← rng_choice _ALU_R;
  rd ← _random_writable;
  rs2 ← gp_random_live;
  _ ← gp_write rd;
  lift (encode_r op (AReg rd) (AReg src) (AReg rs2)).

Definition _emit_alu : M G AsmInstr := emit_alu alu_ops _WRITABLE.

Definition _emit_mem (ptr : Reg) : M G AsmInstr :=
  k ← rng_randint 0 (_MAX_MEM_OFFSET / 8);
  let offset := k * 8 in
  op_choice ← rng_choice [W32; W64];
  rd ← _random_writable;
  _ ← gp_write rd;
  lift (match op_choice with
        | W32 => enc.lw (AReg rd) (AReg ptr) offset
        | _ => enc.ld (AReg rd) (AReg ptr) offset
        end).

Definition iteration (ptr : Reg) (v : vars) : M G vars :=
  if 2 <=? consec_mem v then
    i ← _emit_alu;
    mret (Vars (out v ++ [i]) 0 (since_muldiv v + 1))
  else
    k ← rng_choices [(Kmuldiv, 30); (Kalu, 30); (Kmem, 40)];
    let k := match k with
             | Kmuldiv => if since_muldiv v <? 4 then Kalu else Kmuldiv
             | _ => k
             end in
    match k with
    | Kmuldiv =>
        '(instr, rd) ← _emit_muldiv;
        n_consumers ← rng_randint 1 3;
        for_range (Z.to_nat n_consumers)
          (λ v, i ← _emit_dependent_consumer rd;
                mret (Vars (out v ++ [i]) (consec_mem v) (since_muldiv v + 1)))
          (Vars (out v ++ [instr]) 0 0)
    | Kalu =>
        i ← _emit_alu;
        mret (Vars (out v ++ [i]) 0 (since_muldiv v + 1))
    | Kmem =>
        i ← _emit_mem ptr;
        mret (Vars (out v ++ [i]) (consec_mem v + 1) (since_muldiv v + 1))
    end.

Definition generate (length : Z) : M G (list AsmInstr) :=
  '(setup, ptr) ← int_hazards._setup_data_pointer;
  v ← while (Z.to_nat length) (λ v, len (out v) <? length + len setup) (iteration ptr)
        (Vars setup 0 99);
  mret (out v).
End generate.

(** ** Specification *)

Definition is_muldiv (i : insn) : Prop :=
  match i with IR op _ _ _ => op ∈ _MULDIV_OPS | _ => False end.
Definition is_load (i : insn) : Prop := match i with ILd _ _ _ _ => True | _ => False end.

#[export] Instance is_muldiv_dec i : Decision (is_muldiv i).
Proof. destruct i; simpl; apply _. Defined.
#[export] Instance is_load_dec i : Decision (is_load i).
Proof. destruct i; simpl; apply _. Defined.

(** The lines of a body: a multiplication or division of two registers other
    than [x0], plain arithmetic, or a load at the pointer. *)
Definition muldiv_insn (i : insn) : Prop :=
  match i with
  | IR op rd rs1 rs2 => op ∈ _MULDIV_OPS ∧ rd ∉ _RESERVED ∧ rs1 ≠ X0 ∧ rs2 ≠ X0
  | _ => False
  end.
Definition load_insn (i : insn) : Prop :=
  match i with
  | ILd w rd base off =>
      (w = W32 ∨ w = W64) ∧ rd ∉ _RESERVED ∧ base = X10 ∧ 0 ≤ off ≤ _MAX_MEM_OFFSET ∧ (8 | off)
  | _ => False
  end.
Definition body_insn (i : insn) : Prop :=
  muldiv_insn i ∨ alu_insn alu_ops _RESERVED i ∨ load_insn i.

(** The line after each multiplication or division reads its result first. *)
Definition consumer (rd : Reg) (i : insn) : Prop :=
  match i with
  | IR op rd' rs1 _ => op ∈ _ALU_R ∧ rd' ∉ _RESERVED ∧ rs1 = rd
  | _ => False
  end.
Definition consumed (p : list insn) : Prop :=
  ∀ k op rd rs1 rs2, p !! k = Some (IR op rd rs1 rs2) → op ∈ _MULDIV_OPS →
    ∃ i, p !! S k = Some i ∧ consumer rd i.

(** The shape of the body when [c] lines of it end it as loads and [n] lines
    follow the last multiplication or division. *)
Definition shape (c n : Z) (p : list insn) : Prop :=
  0 ≤ c ∧ 0 ≤ n ∧ spaced is_muldiv 4 p ∧ far is_muldiv (Z.to_nat n) p ∧
  max_run is_load 2 p ∧ tail_run is_load (Z.to_nat c) p.

Lemma shape_nil : shape 0 99 [].
Proof.
  split_and!; try lia; [apply spaced_nil|apply far_nil|apply max_run_nil|apply tail_run_nil].
Qed.

Lemma load_not_muldiv i : is_load i → ¬ is_muldiv i.
Proof. by destruct i; simpl; intros ? ?. Qed.

Lemma shape_muldiv c n p i : shape c n p → 4 ≤ n → is_muldiv i → shape 0 0 (p ++ [i]).
Proof.
  intros (? & ? & Hs & Hf & Hm & Ht) Hn Hi.
  assert (¬ is_load i) as Hl by (by intros ?%load_not_muldiv). split_and!; try lia.
  - apply spaced_snoc; [done|]. intros _. eapply far_mono; [|done]. lia.
  - apply far_snoc.
  - by apply max_run_snoc.
  - by apply tail_run_snoc_no.
Qed.

Lemma shape_alu c n p i :
  shape c n p → ¬ is_muldiv i → ¬ is_load i → shape 0 (n + 1) (p ++ [i]).
Proof.
  intros (? & ? & Hs & Hf & Hm & Ht) Hi Hl. split_and!; try lia.
  - by apply spaced_snoc.
  - rewrite Z2Nat.inj_add, Nat.add_1_r by lia. by apply far_snoc_no.
  - by apply max_run_snoc.
  - by apply tail_run_snoc_no.
Qed.

Lemma shape_load c n p i : shape c n p → c < 2 → is_load i → shape (c + 1) (n + 1) (p ++ [i]).
Proof.
  intros (? & ? & Hs & Hf & Hm & Ht) Hc Hl.
  apply load_not_muldiv in Hl as Hi. split_and!; try lia.
  - by apply spaced_snoc.
  - rewrite Z2Nat.inj_add, Nat.add_1_r by lia. by apply far_snoc_no.
  - apply max_run_snoc; [done|]. intros _. exists (Z.to_nat c). split; [lia|done].
  - rewrite Z2Nat.inj_add, Nat.add_1_r by lia. by apply tail_run_snoc.
Qed.

Lemma consumed_snoc p i : consumed p → ¬ is_muldiv i → consumed (p ++ [i]).
Proof.
  intros Hp Hi k op rd rs1 rs2 [Hk|[-> <-]]%lookup_snoc_cases Hop; [|done].
  destruct (Hp _ _ _ _ _ Hk Hop) as (j & Hj & ?). exists j. split; [|done].
  by apply lookup_app_l_Some.
Qed.

Lemma consumed_pair p op rd rs1 rs2 i :
  consumed p → op ∈ _MULDIV_OPS → consumer rd i → consumed ((p ++ [IR op rd rs1 rs2]) ++ [i]).
Proof.
  intros Hp Hop Hi k op' rd' a b Hk Hop'.
  assert (¬ is_muldiv i) as Hni.
  { destruct i; try done. destruct Hi as [Hi _]. intros Hm. simpl in Hm.
    destruct op0; first [absurd_decide Hi|absurd_decide Hm]. }
  apply lookup_snoc_cases in Hk as [[Hk|[-> Heq]]%lookup_snoc_cases|[_ <-]]; [|simplify_eq|done].
  - destruct (Hp _ _ _ _ _ Hk Hop') as (j & Hj & ?). exists j. split; [|done].
    by do 2 apply lookup_app_l_Some.
  - exists i. split; [|done].
    replace (S (length p)) with (length (p ++ [IR op rd rs1 rs2])) by (rewrite length_app; simpl; lia).
    by rewrite list_lookup_middle.
Qed.

Lemma body_insn_alu_op i : alu_insn alu_ops _RESERVED i → ¬ is_muldiv i ∧ ¬ is_load i.
Proof.
  destruct i; try done; simpl; intros [Hop _]; (split; [|tauto]); [|tauto].
  intros Hm. destruct op; first [absurd_decide Hm|absurd_decide Hop].
Qed.

Lemma consumer_alu rd i : consumer rd i → alu_insn alu_ops _RESERVED i.
Proof.
  destruct i; try done. intros (Hop & Hrd & _). split; [|done].
  destruct op; first [by_decide|absurd_decide Hop].
Qed.

Section proofs.
Context {G : Type} `{PyRandomLaws G}.
Implicit Types s : st G.

Lemma wp_emit_muldiv s (Q : AsmInstr * Reg → st G → Prop) :
  st_ok s → X10 ∈ GPState.live (gp s) →
  (∀ op rd rs1 rs2 s', muldiv_insn (IR op rd rs1 rs2) →
     emits (λ i, i = IR op rd rs1 rs2) (render (IR op rd rs1 rs2)) s s' →
     Q (render (IR op rd rs1 rs2), rd) s') →
  wp _emit_muldiv Q s.
Proof.
  intros [Hgp Hfp] H10 HQ. unfold _emit_muldiv. wp_step. apply wp_choice; [done|].
  intros op g1 Hop. wp_step. apply wp_writable; [done|]. intros rd g2 Hrd. wp_steps. cbv zeta.
  assert (X10 ∈ filter (λ r, r ≠ X0) (elements (GPState.live (gp s)))) as Hin.
  { apply list_elem_of_filter. split; [done|]. by apply elem_of_elements. }
  destruct (filter _ _) as [|r0 l] eqn:E; [by apply elem_of_nil in Hin|]. rewrite <-E in *.
  assert (∀ r, r ∈ merge_sort Reg_le (filter (λ r, r ≠ X0) (elements (GPState.live (gp s)))) →
    r ≠ X0 ∧ r ∈ GPState.live (gp s)) as Hel.
  { intros r. rewrite merge_sort_Permutation, list_elem_of_filter, elem_of_elements. done. }
  assert (merge_sort Reg_le (filter (λ r, r ≠ X0) (elements (GPState.live (gp s)))) ≠ []) as Hne.
  { intros E0. rewrite <-(merge_sort_Permutation Reg_le), E0 in Hin. by apply elem_of_nil in Hin. }
  apply wp_choice; [done|]. intros rs1 g3 [Hn1 Hl1]%Hel.
  apply wp_bind, wp_choice; [done|]. intros rs2 g4 [Hn2 Hl2]%Hel. wp_steps.
  apply (wp_encode (IR op rd rs1 rs2)); [done|]. wp_steps. apply HQ; [done|].
  apply emits_write; try done. simpl. set_solver.
Qed.

Lemma wp_emit_dependent_consumer src s :
  st_ok s → src ∈ GPState.live (gp s) →
  wp (_emit_dependent_consumer src) (λ a s', emits (consumer src) a s s') s.
Proof.
  intros [Hgp Hfp] Hsrc. unfold _emit_dependent_consumer. wp_step. apply wp_choice; [done|].
  intros op g1 Hop. wp_step. apply wp_writable; [done|]. intros rd g2 Hrd. wp_steps.
  apply (wp_encode (IR op rd src r)); [done|]. apply emits_write; try done. simpl. set_solver.
Qed.

Lemma md_wp_emit_mem s :
  st_ok s → X10 ∈ GPState.live (gp s) →
  wp (_emit_mem X10) (λ a s', emits load_insn a s s') s.
Proof.
  intros [Hgp Hfp] H10. unfold _emit_mem. wp_step. apply wp_randint; [done|]. intros k g1 Hk.
  change (_MAX_MEM_OFFSET / 8) with 255 in Hk.
  wp_steps. apply wp_writable; [done|]. intros rd g3 Hrd. wp_steps.
  assert (load_insn (ILd x rd X10 (k * 8))) as Hl.
  { split; [|split_and!; try done; [unfold _MAX_MEM_OFFSET; lia..|by exists k]]. set_solver. }
  assert (imm_ok (ILd x rd X10 (k * 8))) by (simpl; unfold simm12; lia).
  assert (lift (G:=G) (match x with
    | W32 => enc.lw (AReg rd) (AReg X10) (k * 8)
    | _ => enc.ld (AReg rd) (AReg X10) (k * 8)
    end) = lift (encode_insn (ILd x rd X10 (k * 8)))) as ->.
  { by destruct Hl as [[-> | ->] _]. }
  apply wp_encode; [done|]. apply emits_write; try done. simpl. set_solver.
Qed.

(** What the loop keeps: the lines are the set-up and a body of the shape
    the counters say. *)
Definition inv (L : gset Reg) (v : vars) s : Prop :=
  ∃ body, out v = render <$> int_hazards.setup ++ body ∧
    emitted L (int_hazards.setup ++ body) s ∧ Forall body_insn body ∧
    shape (consec_mem v) (since_muldiv v) body ∧ consumed body.

Lemma emitted_setup_live L body s :
  emitted L (int_hazards.setup ++ body) s → X10 ∈ GPState.live (gp s).
Proof.
  intros (_ & _ & _ & -> & _).
  apply (live_after_elem _ _ (IU LUI X10 0x14)); [apply list_elem_of_here|by_decide].
Qed.

Lemma inv_ok L v s : inv L v s → st_ok s.
Proof. intros (body & _ & (_ & _ & _ & _ & Hok) & _). exact Hok. Qed.

Lemma inv_snoc L v s s' (P : insn → Prop) a c n :
  inv L v s → emits P a s s' →
  (∀ i body, P i → shape (consec_mem v) (since_muldiv v) body →
     body_insn i ∧ ¬ is_muldiv i ∧ shape c n (body ++ [i])) →
  inv L (Vars (out v ++ [a]) c n) s'.
Proof.
  intros (body & Hout & He & Hb & Hs & Hc) Ha HP.
  eapply emitted_snoc in Ha as (i & -> & Hi & He'); [|done].
  destruct (HP i body Hi Hs) as (? & ? & ?). rewrite <-app_assoc in He'.
  exists (body ++ [i]). split_and!; try done.
  - simpl. by rewrite Hout, !fmap_app, <-app_assoc.
  - by apply Forall_app_2; [|apply Forall_singleton].
  - by apply consumed_snoc.
Qed.

Lemma wp_emit_alu_inv L v s :
  inv L v s →
  wp _emit_alu (λ a s', inv L (Vars (out v ++ [a]) 0 (since_muldiv v + 1)) s') s.
Proof.
  intros Hinv. pose proof (inv_ok _ _ _ Hinv) as Hok.
  eapply wp_mono; [by apply wp_emit_alu|]. intros a s' Ha. eapply inv_snoc; [exact Hinv|exact Ha|].
  intros i body Hi Hs. destruct (body_insn_alu_op i Hi) as [Hm Hl].
  split_and!; [right; by left|done|]. by eapply shape_alu.
Qed.

(** A multiplication or division was emitted, its first consumer was not. *)
Definition pending (L : gset Reg) (rd : Reg) (v : vars) s : Prop :=
  ∃ body op rs1 rs2, out v = render <$> int_hazards.setup ++ body ++ [IR op rd rs1 rs2] ∧
    emitted L (int_hazards.setup ++ body ++ [IR op rd rs1 rs2]) s ∧
    muldiv_insn (IR op rd rs1 rs2) ∧ Forall body_insn body ∧
    shape (consec_mem v) (since_muldiv v) (body ++ [IR op rd rs1 rs2]) ∧ consumed body.

(** The first consumer settles the pending line, the others are arithmetic. *)
Lemma wp_consumer_pending L rd v s :
  pending L rd v s →
  wp (_emit_dependent_consumer rd)
    (λ a s', inv L (Vars (out v ++ [a]) 0 (since_muldiv v + 1)) s' ∧
       rd ∈ GPState.live (gp s')) s.
Proof.
  intros (body & op & rs1 & rs2 & Hout & He & Hm & Hb & Hs & Hc).
  set (m := IR op rd rs1 rs2) in *. pose proof Hm as (Hop & Hrd & Hn1 & Hn2).
  assert (rd ∈ GPState.live (gp s)) as Hlive.
  { destruct He as (_ & _ & _ & -> & _). apply (live_after_elem _ _ m).
    - apply elem_of_app; right. apply elem_of_app; right. apply list_elem_of_here.
    - simpl. unfold gp_dest. rewrite decide_False; [set_solver|]. intros ->. apply Hrd. by_decide. }
  eapply wp_mono; [apply wp_emit_dependent_consumer; [apply He|done]|]. intros a s' Ha.
  split; [|destruct Ha as (i & _ & _ & _ & _ & -> & _); set_solver].
  eapply (emitted_snoc L (int_hazards.setup ++ body ++ [m])) in Ha as (i & -> & Hi & He'); [|done].
  destruct (body_insn_alu_op i (consumer_alu _ _ Hi)) as [Hnm Hnl].
  exists ((body ++ [m]) ++ [i]). split_and!.
  - simpl. by rewrite Hout, !fmap_app, <-!app_assoc.
  - by rewrite <-!app_assoc in *.
  - rewrite !Forall_app, !Forall_singleton. split_and!; [done|by left|].
    right; left. by eapply consumer_alu.
  - by eapply shape_alu.
  - by apply consumed_pair.
Qed.

Lemma wp_consumer_inv L rd v s :
  inv L v s → rd ∈ GPState.live (gp s) →
  wp (_emit_dependent_consumer rd)
    (λ a s', inv L (Vars (out v ++ [a]) 0 (since_muldiv v + 1)) s' ∧
       rd ∈ GPState.live (gp s')) s.
Proof.
  intros Hinv Hrd. pose proof (inv_ok _ _ _ Hinv) as Hok.
  eapply wp_mono; [by apply wp_emit_dependent_consumer|]. intros a s' Ha.
  split; [|destruct Ha as (i & _ & _ & _ & _ & -> & _); set_solver].
  eapply inv_snoc; [exact Hinv|exact Ha|]. intros i body Hi%consumer_alu Hs.
  destruct (body_insn_alu_op i Hi) as [Hm Hl].
  split_and!; [right; by left|done|]. by eapply shape_alu.
Qed.

Lemma wp_consumers L rd n v s (Q : vars → st G → Prop) :
  (0 < n)%nat → consec_mem v = 0 → pending L rd v s →
  (∀ v' s', inv L v' s' → len (out v') = len (out v) + Z.of_nat n → Q v' s') →
  wp (for_range n
    (λ v, i ← _emit_dependent_consumer rd;
          mret (Vars (out v ++ [i]) (consec_mem v) (since_muldiv v + 1))) v) Q s.
Proof.
  intros Hn Hc0 Hp HQ.
  apply (wp_for_range (λ k v' s', len (out v') = len (out v) + k ∧
    if decide (k = 0) then v' = v ∧ s' = s
    else consec_mem v' = 0 ∧ inv L v' s' ∧ rd ∈ GPState.live (gp s'))).
  - split; [lia|]. by rewrite decide_True.
  - intros k v1 s1 Hk [Hlen Hc]. apply wp_bind. destruct (decide (k = 0)) as [->|Hk0].
    + destruct Hc as [-> ->]. eapply wp_mono; [by eapply wp_consumer_pending|].
      intros a s' Hinv. apply wp_ret. rewrite decide_False by lia. simpl.
      rewrite Hc0, len_app. change (len [a]) with 1. split; [lia|done].
    + destruct Hc as (Hc & Hinv & Hrd). eapply wp_mono; [by eapply wp_consumer_inv|].
      intros a s' [Hinv' Hrd']. apply wp_ret. rewrite decide_False by lia. simpl.
      rewrite Hc, len_app. change (len [a]) with 1. split; [lia|done].
  - intros v' s'. rewrite decide_False by lia. intros (Hlen & _ & Hinv & _). by apply HQ.
Qed.

Lemma md_wp_iteration L v s :
  inv L v s →
  wp (iteration X10 v)
    (λ v' s', inv L v' s' ∧ len (out v) < len (out v') ≤ len (out v) + 4) s.
Proof.
  intros Hinv. pose proof (inv_ok _ _ _ Hinv) as Hok. unfold iteration.
  assert (∀ g, wp (i ← _emit_alu; mret (Vars (out v ++ [i]) 0 (since_muldiv v + 1)))
    (λ v' s', inv L v' s' ∧ len (out v) < len (out v') ≤ len (out v) + 4)
    (St g (gp s) (fp s))) as Halu.
  { intros g. apply wp_bind. eapply wp_mono; [by apply (wp_emit_alu_inv L v)|].
    intros a s' ?. apply wp_ret. simpl. rewrite len_app. change (len [a]) with 1.
    split; [done|lia]. }
  destruct (2 <=? consec_mem v) eqn:Hc; zbool; [destruct s; apply Halu|].
  apply wp_bind, wp_choices; [done|]. intros k g Hk. cbv zeta.
  destruct k; [destruct (since_muldiv v <? 4) eqn:Hsince; zbool; [apply Halu|]|apply Halu|].
  - destruct Hinv as (body & Hout & He & Hb & Hs & Hcons).
    apply wp_bind, wp_emit_muldiv; [done|by eapply emitted_setup_live|].
    intros op rd rs1 rs2 s' Hm Hemit. apply wp_bind, wp_randint; [lia|]. intros n g' Hn.
    eapply (emitted_snoc L _ _ _ (St g (gp s) (fp s))) in Hemit as (i & _ & -> & He'); [|exact He].
    rewrite <-app_assoc in He'.
    apply (wp_consumers L rd); [lia|done| |].
    + exists body, op, rs1, rs2. split_and!; try done.
      * simpl. by rewrite Hout, !fmap_app, <-app_assoc.
      * eapply shape_muldiv; [done|done|]. apply Hm.
    + intros v' s1 Hinv'. simpl. rewrite len_app. change (len [_]) with 1. intros ->.
      split; [done|lia].
  - assert (X10 ∈ GPState.live (gp s)).
    { destruct Hinv as (body & _ & He & _). by eapply emitted_setup_live. }
    apply wp_bind. eapply wp_mono; [by apply md_wp_emit_mem|]. intros a s' Ha. apply wp_ret.
    simpl. rewrite len_app. change (len [a]) with 1. split; [|lia].
    eapply (inv_snoc L v (St g (gp s) (fp s))); [exact Hinv|exact Ha|]. intros i body Hi Hs.
    assert (is_load i) as Hl by (by destruct i).
    split_and!; [by do 2 right|by apply load_not_muldiv|]. by apply shape_load.
Qed.

Lemma md_wp_generate length s :
  st_ok s →
  wp (generate length) (λ out _, ∃ v s', out = muldiv_interleave.out v ∧
    inv (GPState.live (gp s)) v s' ∧
    Z.max 0 length + 2 ≤ len out ≤ Z.max 0 length + 5) s.
Proof.
  intros Hs. set (L := GPState.live (gp s)). unfold generate.
  apply wp_bind, int_hazards.wp_setup; [done|]. intros s1 He. apply wp_bind.
  apply (wp_fill (inv L) out 3 2).
  - done.
  - exists []. rewrite app_nil_r.
    split_and!; [done|done|done|apply shape_nil|]. by intros k op rd rs1 rs2 Hk; rewrite lookup_nil in Hk.
  - done.
  - done.
  - intros v s2 Hinv. eapply wp_mono; [by eapply md_wp_iteration|].
    intros v' s3 [Hinv' Hlen]. split; [done|lia].
  - intros v s2 Hinv Hlen. apply wp_ret. exists v, s2. split_and!; [done|done|lia|lia].
Qed.

Lemma md_body_insn_ok i : body_insn i → dests i ## _RESERVED ∧ access_ok [(X10, DATA)] i.
Proof.
  pose proof (λ rd, gp_dest_disjoint rd _RESERVED) as Hd.
  intros [Hi|[Hi|Hi]]; destruct i; try done.
  - split; [apply Hd, Hi|done].
  - split; [apply Hd, Hi|done].
  - split; [apply Hd, Hi|done].
  - destruct Hi as (_ & Hrd & -> & Hoff & Hdiv). split; [by apply Hd|].
    unfold _MAX_MEM_OFFSET in *.
    eapply access_ok_slot; [done|by left|lia| |done]. simpl. unfold DATA_SIZE. lia.
Qed.

Lemma md_generate_spec length s :
  st_ok s →
  ∃ out s' body, generate length s = Ok (out, s') ∧
    good_program (GPState.live (gp s)) _RESERVED out int_hazards.setup body ∧
    Z.max 0 length ≤ len body ≤ Z.max 0 length + 3 ∧ Forall body_insn body ∧
    spaced is_muldiv 4 body ∧ max_run is_load 2 body ∧ consumed body ∧
    accesses_in [DATA] (int_hazards.setup ++ body).
Proof.
  intros Hs. destruct (proj1 (wp_ok _ _ _) (md_wp_generate length s Hs)) as
    (out & s' & Hgen & v & s1 & -> & (body & Hout & He & Hb & Hshape & Hcons) & Hlen).
  exists (muldiv_interleave.out v), s', body. rewrite Hout, len_fmap, len_app in *.
  change (len int_hazards.setup) with 2 in *. destruct Hshape as (_ & _ & ? & _ & ? & _).
  split_and!; try done; try lia.
  - eapply emitted_good; [done|]. revert Hb. apply Forall_impl. intros i Hi. by apply md_body_insn_ok.
  - by apply (int_hazards.body_accesses body_insn body md_body_insn_ok).
Qed.

(** C15: The muldiv_interleave scenario returns a body at most three lines
    longer than requested, without x0 as an operand of a multiplication or
    division; two of these are more than four lines apart and each is
    followed at once by a line that reads its result; no three loads follow
    one another, and every load is aligned and inside the DATA region. *)
Theorem muldiv_interleave_generate length s :
  st_ok s →
  ∃ out s' body, generate length s = Ok (out, s') ∧
    good_program (GPState.live (gp s)) _RESERVED out int_hazards.setup body ∧
    Z.max 0 length ≤ len body ≤ Z.max 0 length + 3 ∧ Forall body_insn body ∧
    spaced is_muldiv 4 body ∧ max_run is_load 2 body ∧ consumed body ∧
    accesses_in [DATA] (int_hazards.setup ++ body).
Proof. exact (md_generate_spec length s). Qed.
End proofs.
End muldiv_interleave.

(** ** Concrete runs *)

Lemma muldiv_interleave_generate_witness :
  let s := st_init (G:=Mt19937.mt) 7 in
  st_ok s ∧ ∃ out s' body, muldiv_interleave.generate 30 s = Ok (out, s') ∧
    good_program (GPState.live (gp s)) muldiv_interleave._RESERVED out int_hazards.setup body ∧
    30 ≤ len body ≤ 33 ∧ Forall muldiv_interleave.body_insn body ∧
    spaced muldiv_interleave.is_muldiv 4 body ∧ max_run muldiv_interleave.is_load 2 body ∧
    muldiv_interleave.consumed body ∧
    accesses_in [DATA] (int_hazards.setup ++ body).
Proof.
  split; [apply st_init_ok|].
  exact (muldiv_interleave.muldiv_interleave_generate 30 _ (st_init_ok 7)).
Defined.
