(* ===== verification/MemOrdering.v ===== *)
(** The mem_ordering scenario (tools/crv/scenarios/mem_ordering.py): loads
    and stores in two memory regions, with arithmetic between them. *)
From S2P Require Export ScenarioBase.
Local Open Scope Z_scope.

Module mem_ordering.
Definition _ALU_R : list rop := [ADD; SUB].
Definition _ALU_I : list iop := [ADDI; SLLI; SRLI].
Definition _RESERVED : gset Reg := {[X0; X1; X2; X10; X11]}.
Definition _WRITABLE : list Reg := filter (λ r, r ∉ _RESERVED) Reg_all.
Definition _MAX_OFFSET : Z := 2040.

(** [_ALU_R + _ALU_I] *)
Definition alu_ops : list aluop := (OpR <$> _ALU_R) ++ (OpI <$> _ALU_I).

Inductive mem_op := Mlw | Mld | Msw | Msd.
Inductive kind := Kdata_mem | Katomic_mem | Kalu.

Section generate.
Context {G : Type} `{PyRandom G}.

Definition _random_writable : M G Reg := rng_choice _WRITABLE.

(** The local function of [_setup_pointers]. *)
Definition _load_addr : Reg → Z → M G (list AsmInstr) := load_pointer.

Definition _setup_pointers : M G (list AsmInstr * Reg * Reg) :=
  l1 ← _load_addr X10 DATA_BASE;
  l2 ← _load_addr X11 ATOMIC_BASE;
  mret (l1 ++ l2, X10, X11).

Definition _emit_mem (ptr : Reg) : M G AsmInstr :=
  k ← rng_randint 0 (_MAX_OFFSET / 8);
  let offset := k * 8 in
  op_choice ← rng_choice [Mlw; Mld; Msw; Msd];
  match op_choice with
  | Mlw => rd ← _random_writable; _ ← gp_write rd; lift (enc.lw (AReg rd) (AReg ptr) offset)
  | Mld => rd ← _random_writable; _ ← gp_write rd; lift (enc.ld (AReg rd) (AReg ptr) offset)
  | Msw => rs2 ← gp_random_live; lift (enc.sw (AReg rs2) (AReg ptr) offset)
  | Msd => rs2 ← gp_random_live; lift (enc.sd (AReg rs2) (AReg ptr) offset)
  end.

Definition _emit_alu : M G AsmInstr := emit_alu alu_ops _WRITABLE.

(** One iteration of the loop on the lines and the run of memory lines. *)
Definition iteration (data_ptr atomic_ptr : Reg) (v : list AsmInstr * Z) :
    M G (list AsmInstr * Z) :=
  let '(out, consec_mem) := v in
  if 3 <=? consec_mem then
    i ← _emit_alu; mret (out ++ [i], 0)
  else
    k ← rng_choices [(Kdata_mem, 40); (Katomic_mem, 20); (Kalu, 40)];
    match k with
    | Kdata_mem => i ← _emit_mem data_ptr; mret (out ++ [i], consec_mem + 1)
    | Katomic_mem => i ← _emit_mem atomic_ptr; mret (out ++ [i], consec_mem + 1)
    | Kalu => i ← _emit_alu; mret (out ++ [i], 0)
    end.

Definition generate (length : Z) : M G (list AsmInstr) :=
  '(setup, data_ptr, atomic_ptr) ← _setup_pointers;
  '(out, _) ← while (Z.to_nat length) (λ v : list AsmInstr * Z, len v.1 <? length + len setup)
      (iteration data_ptr atomic_ptr) (setup, 0);
  mret out.
End generate.

(** ** Specification *)

Definition setup : list insn := load_addr X10 0x14 0 ++ load_addr X11 0x16 0.

(** The pointers and the regions they point to. *)
Definition ptrs : list (Reg * MemRange.t) := [(X10, DATA); (X11, ATOMIC)].

Definition is_mem (i : insn) : Prop :=
  match i with ILd _ _ _ _ | ISt _ _ _ _ => True | _ => False end.

(** A load or store of a word or double at a pointer. *)
Definition mem_insn (i : insn) : Prop :=
  match i with
  | ILd w rd base off =>
      (w = W32 ∨ w = W64) ∧ rd ∉ _RESERVED ∧ base ∈ ptrs.*1 ∧ 0 ≤ off ≤ _MAX_OFFSET ∧ (8 | off)
  | ISt w _ base off =>
      (w = W32 ∨ w = W64) ∧ base ∈ ptrs.*1 ∧ 0 ≤ off ≤ _MAX_OFFSET ∧ (8 | off)
  | _ => False
  end.
Definition body_insn (i : insn) : Prop := alu_insn alu_ops _RESERVED i ∨ mem_insn i.

Section proofs.
Context {G : Type} `{PyRandomLaws G}.
Implicit Types s : st G.

Lemma wp_setup_pointers s (Q : list AsmInstr * Reg * Reg → st G → Prop) :
  st_ok s →
  (∀ s', emitted (GPState.live (gp s)) setup s' → Q (render <$> setup, X10, X11) s') →
  wp _setup_pointers Q s.
Proof.
  intros Hok HQ. unfold _setup_pointers.
  apply wp_bind. eapply (wp_load_pointer X10 DATA_BASE _ []); [done|done|by apply emitted_nil|].
  intros s1. cbv zeta. intros He1. apply wp_bind.
  eapply (wp_load_pointer X11 ATOMIC_BASE); [done|done|exact He1|].
  intros s2. cbv zeta. intros He2. apply wp_ret. apply (HQ s2 He2).
Qed.

Lemma mo_wp_emit_mem ptr s :
  st_ok s → ptr ∈ ptrs.*1 → ptr ∈ GPState.live (gp s) →
  wp (_emit_mem ptr) (λ a s', emits mem_insn a s s') s.
Proof.
  intros [Hgp Hfp] Hptr Hlive. unfold _emit_mem. apply wp_bind, wp_randint; [done|].
  intros k g1 Hk. change (_MAX_OFFSET / 8) with 255 in Hk. wp_step.
  assert (0 ≤ k * 8 ≤ _MAX_OFFSET) as Hoff by (unfold _MAX_OFFSET; lia).
  assert ((8 | k * 8)) as Hdiv by (by exists k).
  assert (simm12 (k * 8)) as Himm by (unfold simm12; lia).
  apply wp_choice; [done|]. intros op g2 _. cbn [gp fp].
  destruct op.
  1,2: apply wp_bind, wp_writable; [done|]; intros rd g3 Hrd; wp_steps.
  3,4: apply wp_bind, wp_gp_random_live; [done|]; intros r g3 Hr; cbn [gp fp] in *.
  - apply (wp_encode (ILd W32 rd ptr (k * 8))); [done|].
    apply emits_write; try done; [set_solver|]. split_and!; auto; lia.
  - apply (wp_encode (ILd W64 rd ptr (k * 8))); [done|].
    apply emits_write; try done; [set_solver|]. split_and!; auto; lia.
  - apply (wp_encode (ISt W32 r ptr (k * 8))); [done|].
    apply emits_keep; try done; [simpl in *; set_solver|]. split_and!; auto; lia.
  - apply (wp_encode (ISt W64 r ptr (k * 8))); [done|].
    apply emits_keep; try done; [simpl in *; set_solver|]. split_and!; auto; lia.
Qed.

(** The loop keeps the shape of the body: never more than three memory lines
    in a row, the current run counted in the second variable. *)
Definition inv (L : gset Reg) '((out, c) : list AsmInstr * Z) s : Prop :=
  ∃ body, out = render <$> setup ++ body ∧ emitted L (setup ++ body) s ∧
    Forall body_insn body ∧ 0 ≤ c ∧ max_run is_mem 3 body ∧ tail_run is_mem (Z.to_nat c) body.

Lemma mo_inv_alu L out c a s s' :
  inv L (out, c) s → emits (alu_insn alu_ops _RESERVED) a s s' → inv L (out ++ [a], 0) s'.
Proof.
  intros (body & -> & He & Hb & Hc & Hm & Ht) Ha.
  eapply emitted_snoc in Ha as (i & -> & Hi & He'); [|done]. rewrite <-app_assoc in He'.
  assert (¬ is_mem i) by (intros ?; by destruct i).
  exists (body ++ [i]). split_and!; [by rewrite !fmap_app, <-app_assoc|done| |done| |].
  - apply Forall_app_2; [done|]. apply Forall_singleton. by left.
  - by apply max_run_snoc.
  - by apply tail_run_snoc_no.
Qed.

Lemma inv_mem L out c a s s' :
  inv L (out, c) s → c < 3 → emits mem_insn a s s' → inv L (out ++ [a], c + 1) s'.
Proof.
  intros (body & -> & He & Hb & Hc & Hm & Ht) Hlt Ha.
  eapply emitted_snoc in Ha as (i & -> & Hi & He'); [|done]. rewrite <-app_assoc in He'.
  exists (body ++ [i]). split_and!; [by rewrite !fmap_app, <-app_assoc|done| |lia| |].
  - apply Forall_app_2; [done|]. apply Forall_singleton. by right.
  - apply max_run_snoc; [done|]. intros _. exists (Z.to_nat c). split; [lia|done].
  - rewrite Z2Nat.inj_add, Nat.add_1_r by lia. by apply tail_run_snoc.
Qed.

Lemma mo_wp_iteration L v s :
  inv L v s → wp (iteration X10 X11 v) (λ v' s', inv L v' s' ∧ len v'.1 = len v.1 + 1) s.
Proof.
  destruct v as [out c]. intros Hinv. simpl.
  assert (∃ body, emitted L (setup ++ body) s) as (body & He) by (destruct Hinv as (b & _ & ? & _); eauto).
  assert (st_ok s) as Hok by apply He.
  assert (∀ ptr, ptr ∈ ptrs.*1 → ptr ∈ GPState.live (gp s)) as Hptr.
  { intros ptr Hin. destruct He as (_ & _ & _ & -> & _).
    apply (live_after_elem _ _ (II ADDI ptr ptr 0)); unfold ptrs in Hin; simpl in Hin.
    - apply elem_of_app. left. unfold setup, load_addr. set_solver.
    - assert (ptr ≠ X0) by set_solver. simpl. unfold gp_dest. rewrite decide_False by done. set_solver. }
  assert (∀ g, wp (i ← _emit_alu; mret (out ++ [i], 0))
    (λ v' s', inv L v' s' ∧ len v'.1 = len out + 1) (St g (gp s) (fp s))) as Halu.
  { intros g. apply wp_bind. eapply wp_mono; [by apply wp_emit_alu|]. intros a s' Ha.
    apply wp_ret. cbn [fst]. rewrite len_app. split; [|done]. by eapply mo_inv_alu. }
  destruct (3 <=? c) eqn:Hc; zbool; [destruct s; apply Halu|].
  apply wp_bind, wp_choices; [done|]. intros k g Hk.
  assert (∀ ptr, ptr ∈ ptrs.*1 → wp (i ← _emit_mem ptr; mret (out ++ [i], c + 1))
    (λ v' s', inv L v' s' ∧ len v'.1 = len out + 1) (St g (gp s) (fp s))) as Hmem.
  { intros ptr Hin. apply wp_bind.
    eapply wp_mono; [apply mo_wp_emit_mem; [done|done|by apply Hptr]|]. intros a s' Ha.
    apply wp_ret. cbn [fst]. rewrite len_app. split; [|done]. by eapply inv_mem. }
  destruct k; [apply Hmem|apply Hmem|apply Halu]; unfold ptrs; set_solver.
Qed.

Lemma mo_wp_generate length s :
  st_ok s →
  wp (generate length) (λ out _, ∃ c s', inv (GPState.live (gp s)) (out, c) s' ∧
    len out = Z.max 0 length + 4) s.
Proof.
  intros Hs. set (L := GPState.live (gp s)). unfold generate.
  apply wp_bind, wp_setup_pointers; [done|]. intros s1 He. apply wp_bind.
  apply (wp_fill (inv L) fst 0 4).
  - done.
  - exists []. rewrite app_nil_r.
    split_and!; [done|done|done|done|apply max_run_nil|apply tail_run_nil].
  - done.
  - done.
  - intros v s2 Hinv. eapply wp_mono; [by eapply mo_wp_iteration|].
    intros v' s3 [Hinv' Hlen]. split; [done|lia].
  - intros [out c] s2 Hinv Hlen. apply wp_ret. exists c, s2. split; [done|]. simpl in Hlen. lia.
Qed.

Lemma mo_setup_points r r' :
  runs r setup r' → Forall (λ p, r' p.1 = MemRange.base p.2) ptrs.
Proof.
  unfold setup. rewrite runs_app. intros (r1 & H1 & H2).
  apply (load_addr_runs _ _ _ DATA_BASE) in H1 as [H1 _]; [|done..].
  apply (load_addr_runs _ _ _ ATOMIC_BASE) in H2 as [H2 Hf]; [|done..].
  repeat constructor; simpl; [by rewrite Hf|done].
Qed.

Lemma mo_body_insn_ok i : body_insn i → dests i ## _RESERVED ∧ access_ok ptrs i.
Proof.
  pose proof (λ rd, gp_dest_disjoint rd _RESERVED) as Hd.
  assert (∀ w base off, access i = Some (w, base, off) → base ∈ ptrs.*1 →
    0 ≤ off ≤ _MAX_OFFSET → (8 | off) → access_ok ptrs i) as Ha.
  { intros w base off Hi ([b m] & Hb & Hm)%list_elem_of_fmap Hoff Hdiv. simpl in Hb. subst b.
    unfold _MAX_OFFSET in Hoff. eapply access_ok_slot; [done|done|lia| |done].
    assert (MemRange.size m = 4096) as ->; [|lia]. unfold ptrs in Hm. set_solver. }
  intros [Hi|Hi]; destruct i; try done.
  - split; [apply Hd, Hi|done].
  - split; [apply Hd, Hi|done].
  - destruct Hi as (_ & Hrd & ? & ? & ?). split; [by apply Hd|by eapply Ha].
  - destruct Hi as (_ & ? & ? & ?). split; [simpl; set_solver|by eapply Ha].
Qed.

Lemma mo_generate_spec length s :
  st_ok s →
  ∃ out s' body, generate length s = Ok (out, s') ∧
    good_program (GPState.live (gp s)) _RESERVED out setup body ∧
    len body = Z.max 0 length ∧ Forall body_insn body ∧ max_run is_mem 3 body ∧
    accesses_in [DATA; ATOMIC] (setup ++ body).
Proof.
  intros Hs. destruct (proj1 (wp_ok _ _ _) (mo_wp_generate length s Hs)) as
    (out & s' & Hgen & c & s1 & (body & -> & He & Hb & _ & Hm & _) & Hlen).
  exists (render <$> setup ++ body), s', body. rewrite len_fmap, len_app in Hlen.
  change (len setup) with 4 in *. split_and!; try done; try lia.
  - eapply emitted_good; [done|]. revert Hb. apply Forall_impl. intros i Hi. by apply mo_body_insn_ok.
  - apply (accesses_in_body ptrs).
    + constructor; [apply DATA_ok|constructor; [apply ATOMIC_ok|constructor]].
    + repeat constructor.
    + apply mo_setup_points.
    + revert Hb. apply Forall_impl. intros i [Hi _]%mo_body_insn_ok. revert Hi.
      unfold _RESERVED, ptrs. set_solver.
    + revert Hb. apply Forall_impl. intros i Hi. by apply mo_body_insn_ok.
Qed.

(** C17: The mem_ordering scenario returns a body of the requested length
    with at most three memory lines in a row; when it runs every access is
    aligned and inside the DATA or the ATOMIC region. *)
Theorem mem_ordering_generate length s :
  st_ok s →
  ∃ out s' body, generate length s = Ok (out, s') ∧
    good_program (GPState.live (gp s)) _RESERVED out setup body ∧
    len body = Z.max 0 length ∧ Forall body_insn body ∧ max_run is_mem 3 body ∧
    accesses_in [DATA; ATOMIC] (setup ++ body).
Proof. exact (mo_generate_spec length s). Qed.
End proofs.
End mem_ordering.

(** ** A concrete run *)

Lemma mem_ordering_generate_witness :
  let s := st_init (G:=Mt19937.mt) 3 in
  st_ok s ∧ ∃ out s' body, mem_ordering.generate 25 s = Ok (out, s') ∧
    good_program (GPState.live (gp s)) mem_ordering._RESERVED out mem_ordering.setup body ∧
    len body = 25 ∧ Forall mem_ordering.body_insn body ∧ max_run mem_ordering.is_mem 3 body ∧
    accesses_in [DATA; ATOMIC] (mem_ordering.setup ++ body).
Proof.
  split; [apply st_init_ok|]. exact (mem_ordering.mem_ordering_generate 25 _ (st_init_ok 3)).
Defined.
