(* ===== verification/RawStress.v ===== *)
(** The raw_stress scenario (tools/crv/scenarios/raw_stress.py): a store
    followed at once by a load of the same bytes, at every access width. *)
From S2P Require Export ScenarioBase.
Local Open Scope Z_scope.

Module raw_stress.
Definition _RESERVED : gset Reg := {[X0; X1; X2; X10]}.
Definition _WRITABLE : list Reg := filter (λ r, r ∉ _RESERVED) Reg_all.

(** An entry of [_SIZES] is its width: the size in bytes, the store and the
    load are functions of it. *)
Definition _SIZES : list width := [W8; W16; W32; W64].
Definition _HOT_REGION : Z := 4096.

(** The offset of a slot, brought into the range of the field. *)
Definition slot_offset (sz_bytes k : Z) : Z :=
  let off := k * sz_bytes in
  if 2040 <? off then (off `mod` 2040) / sz_bytes * sz_bytes else off.

Section generate.
Context {G : Type} `{PyRandom G}.

Definition _random_writable : M G Reg := rng_choice _WRITABLE.

(** One iteration: the value, the store and the load.  The first draw of
    [rs2] is overwritten before it is used. *)
Definition iteration (out : list AsmInstr) : M G (list AsmInstr) :=
  w ← rng_choice _SIZES;
  let sz_bytes := width_bytes w in
  let max_slots := _HOT_REGION / sz_bytes - 1 in
  k ← rng_randint 0 max_slots;
  let off := slot_offset sz_bytes k in
  _ ← gp_random_live;
  rd ← _random_writable;
  val ← rng_randint (-2048) 2047;
  rs2 ← _random_writable;
  i1 ← lift (enc.addi (AReg rs2) (AReg X0) val);
  _ ← gp_write rs2;
  i2 ← lift (encode_st w (AReg rs2) (AReg X10) off);
  i3 ← lift (encode_ld w (AReg rd) (AReg X10) off);
  _ ← gp_write rd;
  mret (out ++ [i1; i2; i3]).

Definition generate (length : Z) : M G (list AsmInstr) :=
  out ← load_pointer X10 DATA_BASE;
  while (Z.to_nat length) (λ out, len out <? length + 2) iteration out.
End generate.

(** ** Specification *)

Definition setup : list insn := load_addr X10 0x14 0.

(** Write a value, store it, load it back. *)
Definition triple (p : list insn) : Prop :=
  ∃ w rd rs2 val off,
    p = [II ADDI rs2 X0 val; ISt w rs2 X10 off; ILd w rd X10 off] ∧
    rd ∉ _RESERVED ∧ rs2 ∉ _RESERVED ∧ simm12 val ∧
    0 ≤ off ≤ 2040 ∧ (width_bytes w | off).

(** Slots are aligned and in the range of the offset field. *)
Lemma slot_offset_ok w k :
  0 ≤ k → 0 ≤ slot_offset (width_bytes w) k ≤ 2040 ∧ (width_bytes w | slot_offset (width_bytes w) k).
Proof.
  intros Hk. unfold slot_offset. assert (0 < width_bytes w) as Hw by (by destruct w).
  set (b := width_bytes w) in *. destruct (2040 <? k * b) eqn:E; zbool.
  - pose proof (Z.mod_pos_bound (k * b) 2040 ltac:(lia)) as Hm.
    pose proof (Z.mul_div_le ((k * b) `mod` 2040) b Hw) as Hle.
    pose proof (Z.div_pos ((k * b) `mod` 2040) b ltac:(lia) Hw) as Hpos.
    split; [nia|]. by exists ((k * b) `mod` 2040 / b).
  - split; [nia|]. by exists k.
Qed.

Section proofs.
Context {G : Type} `{PyRandomLaws G}.
Implicit Types s : st G.

Definition inv (L : gset Reg) (n : Z) (out : list AsmInstr) s : Prop :=
  ∃ ts, out = render <$> setup ++ concat ts ∧ emitted L (setup ++ concat ts) s ∧
    Forall triple ts ∧ n = len ts.

Lemma len_triples ts : Forall triple ts → len (concat ts) = 3 * len ts.
Proof.
  induction 1 as [|t ts (w & rd & rs2 & val & off & -> & _) _ IH]; [done|].
  unfold len in *. simpl. lia.
Qed.

Lemma rs_wp_iteration L n out s :
  inv L n out s →
  wp (iteration out) (λ out' s', inv L (n + 1) out' s' ∧ len out' = len out + 3) s.
Proof.
  intros (ts & -> & He & Hts & ->). unfold iteration. pose proof He as (_ & _ & _ & Hlive & [Hgp Hfp]).
  assert (X10 ∈ GPState.live (gp s)) as H10.
  { rewrite Hlive. apply (live_after_elem _ _ (IU LUI X10 0x14)); [apply list_elem_of_here|by_decide]. }
  apply wp_bind, wp_choice; [done|]. intros w g1 _. cbv zeta.
  assert (0 ≤ _HOT_REGION / width_bytes w - 1) as Hslots by (by destruct w).
  apply wp_bind, wp_randint; [done|]. intros k g2 [Hk _].
  destruct (slot_offset_ok w k Hk) as [Hoff Hdiv]. set (off := slot_offset _ _) in *.
  wp_steps. apply wp_writable; [done|]. intros rd g3 Hrd. wp_steps.
  apply wp_writable; [done|]. intros rs2 g4 Hrs2.
  assert (imm_ok (ISt w rs2 X10 off) ∧ imm_ok (ILd w rd X10 off)) as [Hi2 Hi3]
    by (simpl; unfold simm12; lia).
  apply wp_bind, (wp_encode (II ADDI rs2 X0 x)); [simpl; unfold simm12; lia|]. wp_steps.
  apply (wp_encode (ISt w rs2 X10 off)); [done|]. apply wp_bind.
  apply (wp_encode (ILd w rd X10 off)); [done|]. wp_steps.
  rewrite len_app. split; [|done].
  set (t := [II ADDI rs2 X0 x; ISt w rs2 X10 off; ILd w rd X10 off]).
  exists (ts ++ [t]). rewrite concat_app. cbn [concat]. rewrite app_nil_r, app_assoc, len_app.
  split_and!.
  - by rewrite (fmap_app _ (setup ++ concat ts)).
  - eapply (emitted_app _ _ t); [exact He| | | | |].
    + apply Forall_cons_2; [simpl; unfold simm12; lia|]. by apply Forall_cons_2; [|apply Forall_cons_2].
    + by repeat constructor.
    + assert (X0 ∈ GPState.live (gp s)) by apply Hgp.
      assert (rs2 ≠ X0) as Hn by (intros ->; apply Hrs2; by_decide).
      simpl. unfold gp_dest. rewrite (decide_False (P:=rs2 = X0)) by done. set_solver.
    + simpl. rewrite !live_write_dest. set_solver.
    + split; [by do 2 apply GPState.write_ok|done].
  - apply Forall_app_2; [done|]. apply Forall_singleton. exists w, rd, rs2, x, off.
    split_and!; try done; unfold simm12; lia.
  - done.
Qed.

Lemma triple_ok t : triple t → Forall (λ i, dests i ## _RESERVED ∧ access_ok [(X10, DATA)] i) t.
Proof.
  intros (w & rd & rs2 & val & off & -> & Hrd & Hrs2 & _ & Hoff & Hdiv).
  pose proof (λ rd, gp_dest_disjoint rd _RESERVED) as Hd.
  assert (∃ m, (X10, m) ∈ [(X10, DATA)] ∧ 0 ≤ off ∧
    off + width_bytes w ≤ MemRange.size m ∧ (width_bytes w | off)) as Ha.
  { exists DATA. simpl. unfold DATA_SIZE.
    split_and!; [by left|lia|destruct w; simpl; lia|done]. }
  repeat apply Forall_cons_2; [split..|constructor];
    first [by apply Hd|exact Ha|done|simpl; set_solver].
Qed.

Lemma rs_generate_spec length s :
  st_ok s →
  ∃ out s' ts, generate length s = Ok (out, s') ∧
    good_program (GPState.live (gp s)) _RESERVED out setup (concat ts) ∧
    Forall triple ts ∧ len ts = (Z.max 0 length + 2) / 3 ∧
    accesses_in [DATA] (setup ++ concat ts).
Proof.
  intros Hs. set (L := GPState.live (gp s)).
  enough (wp (generate length) (λ out _, ∃ s', inv L ((Z.max 0 length + 2) / 3) out s') s)
    as (out & s' & Hgen & s1 & ts & -> & He & Hts & Hlen)%wp_ok.
  { assert (Forall (λ i, dests i ## _RESERVED ∧ access_ok [(X10, DATA)] i) (concat ts)) as Hok.
    { apply Forall_concat. revert Hts. apply Forall_impl. apply triple_ok. }
    exists (render <$> setup ++ concat ts), s', ts. split_and!; try done.
    - eapply emitted_good; [done|]. revert Hok. apply Forall_impl. by intros i [? _].
    - apply (accesses_in_body [(X10, DATA)]).
      + constructor; [apply DATA_ok|done].
      + repeat constructor.
      + intros r r' Hr%(load_addr_runs _ _ _ DATA_BASE); [|done..].
        constructor; [apply Hr|done].
      + revert Hok. apply Forall_impl. intros i [Hi _]. revert Hi. unfold _RESERVED. set_solver.
      + revert Hok. apply Forall_impl. by intros i [_ ?]. }
  unfold generate. apply wp_bind.
  eapply (wp_load_pointer X10 DATA_BASE L []); [done|done|by apply emitted_nil|].
  intros s1. cbv zeta. intros He.
  apply (wp_while (λ out s, ∃ n, inv L n out s ∧ len out = 3 * n + 2 ∧ 0 ≤ n ≤ (Z.max 0 length + 2) / 3)
    (λ out, length + 2 - len out)).
  - exists 0. split; [|split; [done|split; [done|apply Z.div_pos; lia]]].
    exists []. by rewrite app_nil_r.
  - unfold len. simpl. lia.
  - intros out s2 (n & Hinv & Hlen & Hn) Hc. apply Z.ltb_lt in Hc. split; [lia|].
    eapply wp_mono; [by apply rs_wp_iteration|]. intros out' s3 [Hinv' Hlen'].
    split; [|lia]. exists (n + 1). split; [done|]. split; [lia|]. split; [lia|].
    apply Z.div_le_lower_bound; lia.
  - intros out s2 (n & Hinv & Hlen & Hn) Hc. apply Z.ltb_ge in Hc. exists s2.
    assert ((Z.max 0 length + 2) / 3 ≤ n).
    { apply Z.lt_succ_r, Z.div_lt_upper_bound; lia. }
    by replace ((Z.max 0 length + 2) / 3) with n by lia.
Qed.

(** C18: The raw_stress scenario's body is a sequence of triples that write a
    value, store it and at once load the same bytes; offsets are aligned for
    their width and in the range of the field, and all accesses stay inside
    the DATA region. *)
Theorem raw_stress_generate length s :
  st_ok s →
  ∃ out s' ts, generate length s = Ok (out, s') ∧
    good_program (GPState.live (gp s)) _RESERVED out setup (concat ts) ∧
    Forall triple ts ∧ len ts = (Z.max 0 length + 2) / 3 ∧
    accesses_in [DATA] (setup ++ concat ts).
Proof. exact (rs_generate_spec length s). Qed.
End proofs.
End raw_stress.

(** ** A concrete run *)

Lemma raw_stress_generate_witness :
  let s := st_init (G:=Mt19937.mt) 11 in
  st_ok s ∧ ∃ out s' ts, raw_stress.generate 20 s = Ok (out, s') ∧
    good_program (GPState.live (gp s)) raw_stress._RESERVED out raw_stress.setup (concat ts) ∧
    Forall raw_stress.triple ts ∧ len ts = 7 ∧ accesses_in [DATA] (raw_stress.setup ++ concat ts).
Proof.
  split; [apply st_init_ok|]. exact (raw_stress.raw_stress_generate 20 _ (st_init_ok 11)).
Defined.
