(* ===== verification/FpArith.v ===== *)
(** The fp_arith scenario (tools/crv/scenarios/fp_arith.py): pipelined
    floating-point operations through all rounding modes in turn. *)
From S2P Require Export ScenarioBase.
Local Open Scope Z_scope.

Module fp_arith.
Definition _ALU_R : list rop := [ADD; SUB].
Definition _FP_BINARY_OPS : list fop3 := [FADD_S; FADD_D; FSUB_S; FSUB_D; FMUL_S; FMUL_D].
Definition _FP_TERNARY_OPS : list fprec := [Sgl; Dbl].
Definition _RM_CYCLE : list RoundingMode := [RNE; RTZ; RDN; RUP; RMM; DYN].
Definition _RESERVED : gset Reg := {[X0; X1; X2]}.
Definition _WRITABLE : list Reg := filter (λ r, r ∉ _RESERVED) Reg_all.

(** [_ALU_R + [addi]] *)
Definition alu_ops : list aluop := (OpR <$> _ALU_R) ++ [OpI ADDI].

(** [fmadd_s] and [fmadd_d] *)
Definition encode_fma (p : fprec) : arg → arg → arg → arg → RoundingMode → res AsmInstr :=
  match p with Sgl => enc.fmadd_s | Dbl => enc.fmadd_d end.

Inductive kind := Kfp_binary | Kfp_ternary | Kalu.

Section generate.
Context {G : Type} `{PyRandom G}.

Definition _random_writable : M G Reg := rng_choice _WRITABLE.

Definition _emit_fp_binary (rm : RoundingMode) : M G AsmInstr :=
  op ← rng_choice _FP_BINARY_OPS;
  rd ← fp_random_writable;
  rs1 ← fp_random_live;
  rs2 ← fp_random_live;
  _ ← fp_write rd;
  lift (encode_f3 op (AFReg rd) (AFReg rs1) (AFReg rs2) rm).

Definition _emit_fp_ternary (rm : RoundingMode) : M G AsmInstr :=
  op ← rng_choice _FP_TERNARY_OPS;
  rd ← fp_random_writable;
  rs1 ← fp_random_live;
  rs2 ← fp_random_live;
  rs3 ← fp_random_live;
  _ ← fp_write rd;
  lift (encode_fma op (AFReg rd) (AFReg rs1) (AFReg rs2) (AFReg rs3) rm).

Definition _emit_alu : M G AsmInstr := emit_alu alu_ops _WRITABLE.

(** [_RM_CYCLE[rm_idx % len(_RM_CYCLE)]] *)
Definition cycle_rm (rm_idx : nat) : RoundingMode :=
  nth (rm_idx mod length _RM_CYCLE) _RM_CYCLE DYN.

Definition iteration (v : list AsmInstr * nat) : M G (list AsmInstr * nat) :=
  let '(out, rm_idx) := v in
  let rm := cycle_rm rm_idx in
  k ← rng_choices [(Kfp_binary, 40); (Kfp_ternary, 20); (Kalu, 40)];
  match k with
  | Kfp_binary => i ← _emit_fp_binary rm; mret (out ++ [i], S rm_idx)
  | Kfp_ternary => i ← _emit_fp_ternary rm; mret (out ++ [i], S rm_idx)
  | Kalu => i ← _emit_alu; mret (out ++ [i], rm_idx)
  end.

Definition generate (length : Z) : M G (list AsmInstr) :=
  '(out, _) ← while (Z.to_nat length) (λ v : list AsmInstr * nat, len v.1 <? length)
      iteration ([], 0%nat);
  mret out.
End generate.

(** ** Specification *)

(** The rounding mode of a floating-point line. *)
Definition rm_of (i : insn) : option RoundingMode :=
  match i with IF3 _ _ _ _ rm | IFma _ _ _ _ _ rm => Some rm | _ => None end.

Definition fp_insn (i : insn) : Prop :=
  match i with
  | IF3 op _ _ _ _ => op ∈ _FP_BINARY_OPS
  | IFma _ _ _ _ _ _ => True
  | _ => False
  end.
Definition body_insn (i : insn) : Prop := alu_insn alu_ops _RESERVED i ∨ fp_insn i.

(** The rounding mode of the [k]-th floating-point line. *)
Definition expected_rm (k : nat) : RoundingMode :=
  match (k mod 6)%nat with 0 => RNE | 1 => RTZ | 2 => RDN | 3 => RUP | 4 => RMM | _ => DYN end%nat.

(** The floating-point lines go through the rounding modes in order. *)
Definition cycles (body : list insn) : Prop :=
  omap rm_of body = expected_rm <$> seq 0 (length (omap rm_of body)).

Lemma cycle_rm_expected k : cycle_rm k = expected_rm k.
Proof.
  unfold cycle_rm, expected_rm. cbn [_RM_CYCLE length]. pose proof (Nat.mod_upper_bound k 6 ltac:(done)).
  destruct (k mod 6)%nat as [|[|[|[|[|[]]]]]]; done || lia.
Qed.

Section proofs.
Context {G : Type} `{PyRandomLaws G}.
Implicit Types s : st G.

Lemma wp_emit_fp_binary rm s :
  st_ok s → wp (_emit_fp_binary rm) (λ a s', emits (λ i, fp_insn i ∧ rm_of i = Some rm) a s s') s.
Proof.
  intros [Hgp Hfp]. unfold _emit_fp_binary. wp_steps.
  apply (wp_encode (IF3 x r r0 r1 rm)); [done|].
  apply emits_keep; try done. by apply FPState.fp_write_ok.
Qed.

Lemma wp_emit_fp_ternary rm s :
  st_ok s → wp (_emit_fp_ternary rm) (λ a s', emits (λ i, fp_insn i ∧ rm_of i = Some rm) a s s') s.
Proof.
  intros [Hgp Hfp]. unfold _emit_fp_ternary. wp_steps.
  replace (lift _) with (lift (G:=G) (encode_insn (IFma x r r0 r1 r2 rm))) by (by destruct x).
  apply wp_encode; [done|].
  apply emits_keep; try done. by apply FPState.fp_write_ok.
Qed.

Definition inv (L : gset Reg) '((out, rm_idx) : list AsmInstr * nat) s : Prop :=
  ∃ body, out = render <$> body ∧ emitted L body s ∧ Forall body_insn body ∧
    length (omap rm_of body) = rm_idx ∧ cycles body.

Lemma fa_inv_alu L out n a s s' :
  inv L (out, n) s → emits (alu_insn alu_ops _RESERVED) a s s' → inv L (out ++ [a], n) s'.
Proof.
  intros (body & -> & He & Hb & Hn & Hc) Ha.
  eapply emitted_snoc in Ha as (i & -> & Hi & He'); [|done].
  assert (omap rm_of (body ++ [i]) = omap rm_of body) as Hom.
  { rewrite omap_app. simpl. destruct i; try done; by rewrite app_nil_r. }
  exists (body ++ [i]). unfold cycles. rewrite Hom.
  split_and!; [by rewrite fmap_app|done| |done|done].
  apply Forall_app_2; [done|]. apply Forall_singleton. by left.
Qed.

Lemma inv_fp L out n a s s' :
  inv L (out, n) s → emits (λ i, fp_insn i ∧ rm_of i = Some (cycle_rm n)) a s s' →
  inv L (out ++ [a], S n) s'.
Proof.
  rewrite cycle_rm_expected. intros (body & -> & He & Hb & Hn & Hc) Ha.
  eapply emitted_snoc in Ha as (i & -> & [Hi Hrm] & He'); [|done].
  assert (omap rm_of (body ++ [i]) = omap rm_of body ++ [expected_rm n]) as Hom.
  { rewrite omap_app. simpl. by rewrite Hrm. }
  exists (body ++ [i]). unfold cycles. rewrite Hom, length_app, Hn, Nat.add_1_r.
  split_and!; [by rewrite fmap_app|done| |done|].
  - apply Forall_app_2; [done|]. apply Forall_singleton. by right.
  - by rewrite seq_S, fmap_app, <-Hn, <-Hc.
Qed.

Lemma fa_wp_iteration L v s :
  inv L v s → wp (iteration v) (λ v' s', inv L v' s' ∧ len v'.1 = len v.1 + 1) s.
Proof.
  destruct v as [out n]. intros Hinv. simpl.
  assert (st_ok s) as Hok by (destruct Hinv as (b & _ & He & _); apply He).
  apply wp_bind, wp_choices; [done|]. intros k g _.
  destruct k; apply wp_bind.
  - eapply wp_mono; [by apply wp_emit_fp_binary|]. intros a s' Ha. apply wp_ret. cbn [fst].
    rewrite len_app. split; [|done]. by eapply inv_fp.
  - eapply wp_mono; [by apply wp_emit_fp_ternary|]. intros a s' Ha. apply wp_ret. cbn [fst].
    rewrite len_app. split; [|done]. by eapply inv_fp.
  - eapply wp_mono; [by apply wp_emit_alu|]. intros a s' Ha. apply wp_ret. cbn [fst].
    rewrite len_app. split; [|done]. by eapply fa_inv_alu.
Qed.

Lemma fa_body_insn_ok i : body_insn i → dests i ## _RESERVED.
Proof.
  pose proof (λ rd, gp_dest_disjoint rd _RESERVED) as Hd.
  intros [Hi|Hi]; destruct i; try done; try (apply Hd, Hi); simpl; set_solver.
Qed.

Lemma fa_generate_spec length s :
  st_ok s →
  ∃ out s' body, generate length s = Ok (out, s') ∧
    good_program (GPState.live (gp s)) _RESERVED out [] body ∧
    len body = Z.max 0 length ∧ Forall body_insn body ∧ cycles body.
Proof.
  intros Hs. set (L := GPState.live (gp s)).
  enough (wp (generate length) (λ out _, ∃ n s', inv L (out, n) s' ∧ len out = Z.max 0 length) s)
    as (out & s' & Hgen & n & s1 & (body & -> & He & Hb & _ & Hc) & Hlen)%wp_ok.
  { exists (render <$> body), s', body. rewrite len_fmap in Hlen. split_and!; try done.
    apply (emitted_good L _ [] body s1); [done|]. revert Hb. apply Forall_impl, fa_body_insn_ok. }
  unfold generate. apply wp_bind.
  apply (wp_fill (inv L) fst 0 0).
  - intros v. by rewrite Z.add_0_r.
  - exists []. split_and!; [done|by apply emitted_nil|done..].
  - done.
  - done.
  - intros v s2 Hinv. eapply wp_mono; [by eapply fa_wp_iteration|].
    intros v' s3 [Hinv' Hlen]. split; [done|lia].
  - intros [out n] s2 Hinv Hlen. apply wp_ret. exists n, s2. split; [done|]. simpl in Hlen. lia.
Qed.

(** C19: The fp_arith scenario returns a body of the requested length whose
    floating-point lines go through the rounding modes RNE, RTZ, RDN, RUP,
    RMM and DYN in this order, starting again after the last. *)
Theorem fp_arith_generate length s :
  st_ok s →
  ∃ out s' body, generate length s = Ok (out, s') ∧
    good_program (GPState.live (gp s)) _RESERVED out [] body ∧
    len body = Z.max 0 length ∧ Forall body_insn body ∧ cycles body.
Proof. exact (fa_generate_spec length s). Qed.
End proofs.
End fp_arith.

(** ** A concrete run *)

Lemma fp_arith_generate_witness :
  let s := st_init (G:=Mt19937.mt) 5 in
  st_ok s ∧ ∃ out s' body, fp_arith.generate 40 s = Ok (out, s') ∧
    good_program (GPState.live (gp s)) fp_arith._RESERVED out [] body ∧
    len body = 40 ∧ Forall fp_arith.body_insn body ∧ fp_arith.cycles body.
Proof.
  split; [apply st_init_ok|]. exact (fp_arith.fp_arith_generate 40 _ (st_init_ok 5)).
Defined.
