(* ===== verification/FdivFsqrt.v ===== *)
(** The fdiv_fsqrt scenario (tools/crv/scenarios/fdiv_fsqrt.py): iterative
    divisions and square roots against pipelined operations. *)
From S2P Require Export ScenarioBase.
Local Open Scope Z_scope.

Module fdiv_fsqrt.
Definition _ITERATIVE_OPS_BINARY : list fop3 := [FDIV_S; FDIV_D].
Definition _PIPELINE_OPS : list fop3 := [FADD_S; FMUL_S].
Definition _RESERVED : gset Reg := {[X0; X1; X2]}.
Definition _WRITABLE : list Reg := filter (λ r, r ∉ _RESERVED) Reg_all.

(** [0.5] *)
Definition f05 : pyfloat := float_div (float_of_Z 5) (float_of_Z 10).

Inductive kind := Kiterative | Kpipelined | Kalu.

Section generate.
Context {G : Type} `{PyRandom G}.

Definition _random_writable : M G Reg := rng_choice _WRITABLE.

Definition _emit_iterative : M G AsmInstr :=
  choice ← rng_randint 0 3;
  let rm := RNE in
  rd ← fp_random_writable;
  rs1 ← fp_random_live;
  _ ← fp_write rd;
  if choice =? 0 then
    rs2 ← fp_random_live; lift (enc.fdiv_s (AFReg rd) (AFReg rs1) (AFReg rs2) rm)
  else if choice =? 1 then
    rs2 ← fp_random_live; lift (enc.fdiv_d (AFReg rd) (AFReg rs1) (AFReg rs2) rm)
  else if choice =? 2 then lift (enc.fsqrt_s (AFReg rd) (AFReg rs1) rm)
  else lift (enc.fsqrt_d (AFReg rd) (AFReg rs1) rm).

(** The rounding mode is the default argument of the encoder. *)
Definition _emit_pipelined : M G AsmInstr :=
  op ← rng_choice _PIPELINE_OPS;
  rd ← fp_random_writable;
  rs1 ← fp_random_live;
  rs2 ← fp_random_live;
  _ ← fp_write rd;
  lift (encode_f3 op (AFReg rd) (AFReg rs1) (AFReg rs2) DYN).

Definition _emit_alu : M G AsmInstr :=
  rd ← _random_writable;
  rs1 ← gp_random_live;
  roll ← rng_random;
  if float_lt roll f05 then
    imm ← rng_randint (-2048) 2047;
    _ ← gp_write rd;
    lift (enc.addi (AReg rd) (AReg rs1) imm)
  else
    rs2 ← gp_random_live;
    _ ← gp_write rd;
    lift (enc.add (AReg rd) (AReg rs1) (AReg rs2)).

Definition iteration (out : list AsmInstr) : M G (list AsmInstr) :=
  k ← rng_choices [(Kiterative, 50); (Kpipelined, 30); (Kalu, 20)];
  i ← (match k with
       | Kiterative => _emit_iterative
       | Kpipelined => _emit_pipelined
       | Kalu => _emit_alu
       end);
  mret (out ++ [i]).

Definition generate (length : Z) : M G (list AsmInstr) :=
  while (Z.to_nat length) (λ out, len out <? length) iteration [].
End generate.

(** ** Specification *)

(** An iterative line rounds to nearest, a pipelined one as [frm] says; the
    arithmetic lines are [add] and [addi] off the reserved registers. *)
Definition iterative_insn (i : insn) : Prop :=
  match i with
  | IF3 op _ _ _ rm => op ∈ _ITERATIVE_OPS_BINARY ∧ rm = RNE
  | ISqrt _ _ _ rm => rm = RNE
  | _ => False
  end.
Definition pipelined_insn (i : insn) : Prop :=
  match i with IF3 op _ _ _ rm => op ∈ _PIPELINE_OPS ∧ rm = DYN | _ => False end.
Definition body_insn (i : insn) : Prop :=
  iterative_insn i ∨ pipelined_insn i ∨ alu_insn [OpR ADD; OpI ADDI] _RESERVED i.

Section proofs.
Context {G : Type} `{PyRandomLaws G}.
Implicit Types s : st G.

Lemma wp_emit_iterative s :
  st_ok s → wp _emit_iterative (λ a s', emits iterative_insn a s s') s.
Proof.
  intros [Hgp Hfp]. unfold _emit_iterative.
  wp_step. apply wp_randint; [done|]. intros c g _. cbv zeta. wp_steps.
  - apply (wp_encode (IF3 FDIV_S r r0 r1 RNE)); [done|].
    apply emits_keep; try done; [by apply FPState.fp_write_ok|]. split; [left|done].
  - apply (wp_encode (IF3 FDIV_D r r0 r1 RNE)); [done|].
    apply emits_keep; try done; [by apply FPState.fp_write_ok|]. split; [right; left|done].
  - apply (wp_encode (ISqrt Sgl r r0 RNE)); [done|].
    apply emits_keep; try done. by apply FPState.fp_write_ok.
  - apply (wp_encode (ISqrt Dbl r r0 RNE)); [done|].
    apply emits_keep; try done. by apply FPState.fp_write_ok.
Qed.

Lemma wp_emit_pipelined s :
  st_ok s → wp _emit_pipelined (λ a s', emits pipelined_insn a s s') s.
Proof.
  intros [Hgp Hfp]. unfold _emit_pipelined. wp_steps.
  apply (wp_encode (IF3 x r r0 r1 DYN)); [done|].
  apply emits_keep; try done. by apply FPState.fp_write_ok.
Qed.

Lemma wp_emit_alu_line s :
  st_ok s → wp _emit_alu (λ a s', emits (alu_insn [OpR ADD; OpI ADDI] _RESERVED) a s s') s.
Proof.
  intros [Hgp Hfp]. unfold _emit_alu. wp_step. apply wp_writable; [done|]. intros rd g Hrd.
  wp_steps.
  - apply (wp_encode (II ADDI rd r x)); [simpl; unfold simm12; lia|].
    apply emits_write; try done; [simpl; set_solver|].
    split; [right; left|done].
  - apply (wp_encode (IR ADD rd r r0)); [done|].
    apply emits_write; try done; [simpl; set_solver|]. split; [left|done].
Qed.

Definition inv (L : gset Reg) (out : list AsmInstr) s : Prop :=
  ∃ body, out = render <$> body ∧ emitted L body s ∧ Forall body_insn body.

Lemma fd_wp_iteration L out s :
  inv L out s → wp (iteration out) (λ out' s', inv L out' s' ∧ len out' = len out + 1) s.
Proof.
  intros (body & -> & He & Hb). assert (st_ok s) as Hok by apply He.
  apply wp_bind, wp_choices; [done|]. intros k g _. apply wp_bind.
  apply (wp_mono _ (λ a s', emits body_insn a s s')).
  { destruct k; (eapply wp_mono;
      [first [by apply wp_emit_iterative|by apply wp_emit_pipelined|by apply wp_emit_alu_line]|]);
      intros a s' Ha; (eapply emitted_mono; [|exact Ha]); unfold body_insn; auto. }
  intros a s' Ha. apply wp_ret. rewrite len_app. split; [|done].
  eapply emitted_snoc in Ha as (i & -> & Hi & He'); [|exact He].
  exists (body ++ [i]). split_and!; [by rewrite fmap_app|done|].
  apply Forall_app_2; [done|]. by apply Forall_singleton.
Qed.

Lemma fd_body_insn_ok i : body_insn i → dests i ## _RESERVED.
Proof.
  pose proof (λ rd, gp_dest_disjoint rd _RESERVED) as Hd.
  intros [Hi|[Hi|Hi]]; destruct i; try done; try (apply Hd, Hi); simpl; set_solver.
Qed.

Lemma fd_generate_spec length s :
  st_ok s →
  ∃ out s' body, generate length s = Ok (out, s') ∧
    good_program (GPState.live (gp s)) _RESERVED out [] body ∧
    len body = Z.max 0 length ∧ Forall body_insn body.
Proof.
  intros Hs. set (L := GPState.live (gp s)).
  enough (wp (generate length) (λ out _, ∃ s', inv L out s' ∧ len out = Z.max 0 length) s)
    as (out & s' & Hgen & s1 & (body & -> & He & Hb) & Hlen)%wp_ok.
  { exists (render <$> body), s', body. rewrite len_fmap in Hlen. split_and!; try done.
    apply (emitted_good L _ [] body s1); [done|]. revert Hb. apply Forall_impl, fd_body_insn_ok. }
  apply (wp_fill (inv L) id 0 0).
  - intros v. by rewrite Z.add_0_r.
  - exists []. split_and!; [done|by apply emitted_nil|done].
  - done.
  - done.
  - intros v s2 Hinv. eapply wp_mono; [by eapply fd_wp_iteration|].
    intros v' s3 [Hinv' Hlen]. split; [done|simpl; lia].
  - intros out s2 Hinv Hlen. exists s2. split; [done|]. simpl in Hlen. lia.
Qed.

(** C23: The fdiv_fsqrt scenario returns a body of the requested length:
    iterative lines round to nearest, pipelined ones use the dynamic mode,
    the filler keeps off the reserved registers. *)
Theorem fdiv_fsqrt_generate length s :
  st_ok s →
  ∃ out s' body, generate length s = Ok (out, s') ∧
    good_program (GPState.live (gp s)) _RESERVED out [] body ∧
    len body = Z.max 0 length ∧ Forall body_insn body.
Proof. exact (fd_generate_spec length s). Qed.
End proofs.
End fdiv_fsqrt.

(** ** A concrete run *)

Lemma fdiv_fsqrt_generate_witness :
  let s := st_init (G:=Mt19937.mt) 6 in
  st_ok s ∧ ∃ out s' body, fdiv_fsqrt.generate 15 s = Ok (out, s') ∧
    good_program (GPState.live (gp s)) fdiv_fsqrt._RESERVED out [] body ∧
    len body = 15 ∧ Forall fdiv_fsqrt.body_insn body.
Proof.
  split; [apply st_init_ok|]. exact (fdiv_fsqrt.fdiv_fsqrt_generate 15 _ (st_init_ok 6)).
Defined.
