(* ===== verification/Traps.v ===== *)
(** The traps scenario (tools/crv/scenarios/traps.py): a trap handler, then
    environment calls and breakpoints among arithmetic. *)
From S2P Require Export ScenarioBase.
Local Open Scope Z_scope.

Module traps.
Definition _ALU_R : list rop := [ADD; SUB].
Definition _ALU_I : list iop := [ADDI; SLLI; SRLI].
Definition _RESERVED : gset Reg := {[X0; X1; X2; X5; X6]}.
Definition _WRITABLE : list Reg := filter (λ r, r ∉ _RESERVED) Reg_all.
Definition _MTVEC : Z := 0x305.
Definition _MEPC : Z := 0x341.

(** [_ALU_R + _ALU_I] *)
Definition alu_ops : list aluop := (OpR <$> _ALU_R) ++ (OpI <$> _ALU_I).

(** [0.10] *)
Definition f010 : pyfloat := float_div (float_of_Z 10) (float_of_Z 100).

Definition handler_lines : list string :=
  ["    .option norvc";
   "    la      t0, .Ltrap_handler";
   "    csrw    mtvec, t0";
   "    j       .Lpost_handler";
   "    .align  2";
   ".Ltrap_handler:";
   "    csrr    t1, mepc";
   "    addi    t1, t1, 4";
   "    csrw    mepc, t1";
   "    mret";
   "    .align  2";
   ".Lpost_handler:"].

Definition _trap_handler_prologue : list AsmInstr := (λ line, Asm "" [line]) <$> handler_lines.

Section generate.
Context {G : Type} `{PyRandom G}.

(** One iteration on the lines and [trap_toggle]. *)
Definition iteration (v : list AsmInstr * nat) : M G (list AsmInstr * nat) :=
  let '(out, trap_toggle) := v in
  roll ← rng_random;
  if float_lt roll f010 then
    i ← lift (if Nat.even trap_toggle then enc.ecall else enc.ebreak);
    mret (out ++ [i], S trap_toggle)
  else
    i ← emit_alu alu_ops _WRITABLE;
    mret (out ++ [i], trap_toggle).

Definition generate (length : Z) : M G (list AsmInstr) :=
  let prologue := _trap_handler_prologue in
  _ ← gp_write X5;
  _ ← gp_write X6;
  '(out, _) ← while (Z.to_nat length)
      (λ v : list AsmInstr * nat, len v.1 <? length + len prologue) iteration (prologue, 0%nat);
  mret out.
End generate.

(** ** Specification *)

Definition prologue : list insn := ILine <$> handler_lines.

Definition trap_of (i : insn) : option sysop :=
  match i with ISys op => Some op | _ => None end.

(** The trap after [k] others. *)
Definition trap_at (k : nat) : sysop := if Nat.even k then ECALL else EBREAK.

Definition trap_insn (i : insn) : Prop :=
  match i with ISys op => op = ECALL ∨ op = EBREAK | _ => False end.
Definition body_insn (i : insn) : Prop := alu_insn alu_ops _RESERVED i ∨ trap_insn i.

(** The traps of the body alternate, an environment call first. *)
Definition alternates (body : list insn) : Prop :=
  omap trap_of body = trap_at <$> seq 0 (length (omap trap_of body)).

Section proofs.
Context {G : Type} `{PyRandomLaws G}.
Implicit Types s : st G.

Definition inv (L : gset Reg) '((out, n) : list AsmInstr * nat) s : Prop :=
  ∃ body, out = render <$> prologue ++ body ∧ emitted L (prologue ++ body) s ∧
    Forall body_insn body ∧ length (omap trap_of body) = n ∧ alternates body.

Lemma tr_inv_alu L out n a s s' :
  inv L (out, n) s → emits (alu_insn alu_ops _RESERVED) a s s' → inv L (out ++ [a], n) s'.
Proof.
  intros (body & -> & He & Hb & Hn & Hc) Ha.
  eapply emitted_snoc in Ha as (i & -> & Hi & He'); [|done]. rewrite <-app_assoc in He'.
  assert (omap trap_of (body ++ [i]) = omap trap_of body) as Hom.
  { rewrite omap_app. simpl. destruct i; try done; by rewrite app_nil_r. }
  exists (body ++ [i]). unfold alternates. rewrite Hom.
  split_and!; [by rewrite !fmap_app, <-app_assoc|done| |done|done].
  apply Forall_app_2; [done|]. apply Forall_singleton. by left.
Qed.

Lemma inv_trap L out n s :
  inv L (out, n) s → inv L (out ++ [render (ISys (trap_at n))], S n) s.
Proof.
  intros (body & -> & He & Hb & Hn & Hc). set (i := ISys (trap_at n)).
  assert (omap trap_of (body ++ [i]) = omap trap_of body ++ [trap_at n]) as Hom
    by by rewrite omap_app.
  exists (body ++ [i]). unfold alternates. rewrite Hom, length_app, Hn, Nat.add_1_r.
  split_and!; [by rewrite !fmap_app, <-app_assoc| | |done|].
  - rewrite app_assoc. eapply emitted_app; [exact He|by repeat constructor|by repeat constructor| | |apply He].
    + simpl. split; [set_solver|done].
    + simpl. set_solver.
  - apply Forall_app_2; [done|]. apply Forall_singleton. right. simpl. unfold trap_at.
    destruct (Nat.even n); auto.
  - by rewrite seq_S, fmap_app, <-Hn, <-Hc.
Qed.

Lemma tr_wp_iteration L v s :
  inv L v s → wp (iteration v) (λ v' s', inv L v' s' ∧ len v'.1 = len v.1 + 1) s.
Proof.
  destruct v as [out n]. intros Hinv. simpl.
  assert (st_ok s) as Hok by (destruct Hinv as (b & _ & He & _); apply He).
  apply wp_bind, wp_random. intros f g. destruct (float_lt f f010); apply wp_bind.
  - apply (wp_lift _ (render (ISys (trap_at n)))).
    { unfold trap_at. by destruct (Nat.even n). }
    apply wp_ret. cbn [fst]. rewrite len_app. split; [|done]. by apply inv_trap.
  - eapply wp_mono; [by apply wp_emit_alu|]. intros a s' Ha. apply wp_ret. cbn [fst].
    rewrite len_app. split; [|done]. by eapply tr_inv_alu.
Qed.

Lemma tr_body_insn_ok i : body_insn i → dests i ## _RESERVED.
Proof.
  pose proof (λ rd, gp_dest_disjoint rd _RESERVED) as Hd.
  intros [Hi|Hi]; destruct i; try done; try (apply Hd, Hi); simpl; set_solver.
Qed.

Lemma tr_generate_spec length s :
  st_ok s →
  ∃ out s' body, generate length s = Ok (out, s') ∧
    good_program ({[X5; X6]} ∪ GPState.live (gp s)) _RESERVED out prologue body ∧
    len body = Z.max 0 length ∧ Forall body_insn body ∧ alternates body.
Proof.
  intros Hs. set (L := {[X5; X6]} ∪ GPState.live (gp s)).
  enough (wp (generate length) (λ out _, ∃ n s', inv L (out, n) s' ∧
    len out = Z.max 0 length + 12) s)
    as (out & s' & Hgen & n & s1 & (body & -> & He & Hb & _ & Hc) & Hlen)%wp_ok.
  { exists (render <$> prologue ++ body), s', body. rewrite len_fmap, len_app in Hlen.
    change (len prologue) with 12 in Hlen. split_and!; try done; [|lia].
    eapply emitted_good; [done|]. revert Hb. apply Forall_impl, tr_body_insn_ok. }
  unfold generate. cbv zeta. do 2 apply wp_bind, wp_gp_write. apply wp_bind.
  apply (wp_fill (inv L) fst 0 12).
  - done.
  - exists []. rewrite app_nil_r. split_and!; [done| |done|done|done].
    set (s2 := St _ _ _). assert (st_ok s2) by (split; [do 2 apply GPState.write_ok|]; apply Hs).
    assert (emitted L [] s2) as He.
    { split; [done|]. split; [done|]. split; [done|]. split; [|done].
      unfold s2. cbn [gp live_after foldl]. rewrite !live_write_dest.
      unfold L, gp_dest. rewrite !decide_False by done. set_solver. }
    eapply (emitted_app _ []); [exact He|by repeat constructor|by repeat constructor| | |done].
    + simpl. repeat (split; [set_solver|]). done.
    + simpl. set_solver.
  - done.
  - done.
  - intros v s2 Hinv. eapply wp_mono; [by eapply tr_wp_iteration|].
    intros v' s3 [Hinv' Hlen]. split; [done|lia].
  - intros [out n] s2 Hinv Hlen. apply wp_ret. exists n, s2. split; [done|]. simpl in Hlen. lia.
Qed.
End proofs.
End traps.
