(* ===== verification/TrapRun.v ===== *)
(** The traps scenario when it runs: the lines of a program laid out in memory,
    a machine that fetches them, takes traps and returns from them, and the
    proof that a generated program runs to its end, each of its lines once. *)
From S2P Require Export Traps.
From S2P Require Import PyText.
Local Open Scope Z_scope.

(** ** Lines as an assembler reads them *)

Inductive op :=
  | Directive                          (** [.option norvc] *)
  | Mark (l : string)                  (** a label *)
  | Align                              (** [.align 2] *)
  | La (rd : Reg) (l : string)         (** two instructions *)
  | Jump (l : string)
  | CsrRead (rd : Reg) (csr : Z)
  | CsrWrite (csr : Z) (rs : Reg)
  | Mret
  | Code (i : insn).

(** A register by its ABI name, a comma after it or not. *)
Definition abi (s : string) : option Reg :=
  if bool_decide (s ∈ ["t0"; "t0,"]) then Some X5 else if bool_decide (s ∈ ["t1"; "t1,"]) then Some X6 else None.
Definition csr (s : string) : option Z :=
  if bool_decide (s ∈ ["mtvec"; "mtvec,"]) then Some traps._MTVEC
  else if bool_decide (s ∈ ["mepc"; "mepc,"]) then Some traps._MEPC else None.

Definition read_op (ws : list string) : option op :=
  match ws with
  | [".option"; "norvc"] => Some Directive
  | [".align"; "2"] => Some Align
  | ["la"; r; l] => rd ← abi r; Some (La rd l)
  | ["j"; l] => Some (Jump l)
  | ["csrr"; r; c] => rd ← abi r; n ← csr c; Some (CsrRead rd n)
  | ["csrw"; c; r] => n ← csr c; rs ← abi r; Some (CsrWrite n rs)
  | ["addi"; r; r'; n] => rd ← abi r; rs ← abi r'; imm ← int_of_str n; Some (Code (II ADDI rd rs imm))
  | ["mret"] => Some Mret
  | [l] => '(name, rest) ← split_at ":" l; if String.eqb rest "" then Some (Mark name) else None
  | _ => None
  end.

Definition op_of (i : insn) : option op :=
  match i with ILine s => read_op (words s) | _ => Some (Code i) end.

(** ** Memory

    Without compressed instructions an instruction is four bytes. *)

Definition size (a : Z) (o : op) : Z :=
  match o with
  | Directive | Mark _ => 0
  | Align => (- a) `mod` 4
  | La _ _ => 8
  | _ => 4
  end.

(** What is placed where, from the address [a] on. *)
Fixpoint place (a : Z) (os : list op) : list (Z * op) :=
  match os with [] => [] | o :: os => (a, o) :: place (a + size a o) os end.
(** The address after the last line. *)
Fixpoint limit (a : Z) (os : list op) : Z :=
  match os with [] => a | o :: os => limit (a + size a o) os end.

Definition address (m : list (Z * op)) (l : string) : option Z :=
  fst <$> find (λ x : Z * op, match x.2 with Mark l' => String.eqb l' l | _ => false end) m.

Definition executable (o : op) : Prop :=
  match o with Directive | Mark _ | Align => False | _ => True end.
(** The instruction at an address. *)
Definition fetches (m : list (Z * op)) (a : Z) (o : op) : Prop := (a, o) ∈ m ∧ executable o.

(** ** The machine *)

Record machine := Machine { pc : Z; gpr : regs; mtvec : Z; mepc : Z }.

Definition set_reg (rd : Reg) (v : Z) (r : regs) : regs :=
  λ x, if bool_decide (x = rd ∧ rd ≠ X0) then v else r x.

(** The low bits of [mtvec] select the mode, the lowest of [mepc] is zero. *)
Definition write_csr (n v pc' : Z) (s : machine) : machine :=
  if n =? traps._MTVEC then Machine pc' (gpr s) (v - v `mod` 4) (mepc s)
  else if n =? traps._MEPC then Machine pc' (gpr s) (mtvec s) (v - v `mod` 2)
  else Machine pc' (gpr s) (mtvec s) (mepc s).
Definition read_csr (n : Z) (s : machine) : Z :=
  if n =? traps._MTVEC then mtvec s else if n =? traps._MEPC then mepc s else 0.

(** Arithmetic, and what raises a trap. *)
Definition is_alu (i : insn) : Prop := match i with IR _ _ _ _ | II _ _ _ _ => True | _ => False end.

Inductive step (m : list (Z * op)) (s : machine) : machine → Prop :=
  | step_la rd l a : fetches m (pc s) (La rd l) → address m l = Some a →
      step m s (Machine (pc s + 8) (set_reg rd (word64 a) (gpr s)) (mtvec s) (mepc s))
  | step_jump l a : fetches m (pc s) (Jump l) → address m l = Some a →
      step m s (Machine a (gpr s) (mtvec s) (mepc s))
  | step_csrr rd n : fetches m (pc s) (CsrRead rd n) →
      step m s (Machine (pc s + 4) (set_reg rd (read_csr n s) (gpr s)) (mtvec s) (mepc s))
  | step_csrw n rs : fetches m (pc s) (CsrWrite n rs) → step m s (write_csr n (gpr s rs) (pc s + 4) s)
  | step_mret : fetches m (pc s) Mret → step m s (Machine (mepc s) (gpr s) (mtvec s) (mepc s))
  | step_trap o : fetches m (pc s) (Code (ISys o)) → o = ECALL ∨ o = EBREAK →
      step m s (Machine (mtvec s) (gpr s) (mtvec s) (pc s))
  | step_alu i r : fetches m (pc s) (Code i) → is_alu i → reg_step i (gpr s) r →
      step m s (Machine (pc s + 4) r (mtvec s) (mepc s)).

(** From [s] exactly the instructions [os] are executed, in this order and
    whatever their results are, and then [Q] holds. *)
Inductive executes (m : list (Z * op)) (Q : machine → Prop) : list op → machine → Prop :=
  | executes_done s : Q s → executes m Q [] s
  | executes_next o os s :
      fetches m (pc s) o → (∃ s', step m s s') → (∀ s', step m s s' → executes m Q os s') →
      executes m Q (o :: os) s.

(** ** What a generated program executes *)

Definition setup : list op := [La X5 ".Ltrap_handler"; CsrWrite traps._MTVEC X5; Jump ".Lpost_handler"].
Definition handler : list op :=
  [CsrRead X6 traps._MEPC; Code (II ADDI X6 X6 4); CsrWrite traps._MEPC X6; Mret].
(** A line of the body, and the handler after it when it traps. *)
Definition handled (i : insn) : list op :=
  Code i :: match i with ISys _ => handler | _ => [] end.

(** ** Lemmas *)

Lemma executes_app m Q R os os' s :
  executes m Q os s → (∀ s', Q s' → executes m R os' s') → executes m R (os ++ os') s.
Proof. induction 1 as [s HQ|o os s Hf Hs _ IH]; intros H; [by apply H|]. econstructor; [done..|]. intros s' ?. by apply IH. Qed.

Lemma executes_weaken m (Q R : machine → Prop) os s : executes m Q os s → (∀ s', Q s' → R s') → executes m R os s.
Proof. induction 1; intros HQ; econstructor; eauto. Qed.

Lemma size_nonneg a o : 0 ≤ size a o.
Proof. destruct o; cbn; try lia. apply Z.mod_pos_bound. lia. Qed.
Lemma size_executable a o : executable o → 4 ≤ size a o.
Proof. destruct o; cbn; try done; lia. Qed.

Lemma place_app a os os' : place a (os ++ os') = place a os ++ place (limit a os) os'.
Proof. revert a. induction os as [|o os IH]; intros a; [done|]. cbn. by rewrite IH. Qed.
Lemma limit_app a os os' : limit a (os ++ os') = limit (limit a os) os'.
Proof. revert a. induction os as [|o os IH]; intros a; [done|]. cbn. by rewrite IH. Qed.

Lemma place_above a os x o : (x, o) ∈ place a os → a ≤ x.
Proof.
  revert a. induction os as [|o' os IH]; intros a; cbn; [by intros ?%elem_of_nil|].
  intros [[= -> ->]|H%IH]%elem_of_cons; [done|]. pose proof (size_nonneg a o'). lia.
Qed.

(** One instruction at an address. *)
Lemma fetches_unique a os x o o' : fetches (place a os) x o → fetches (place a os) x o' → o = o'.
Proof.
  unfold fetches. revert a. induction os as [|o1 os IH]; intros a; cbn; [by intros [?%elem_of_nil _]|].
  intros [H Ho] [H' Ho']. apply elem_of_cons in H as [H|H], H' as [H'|H'].
  - congruence.
  - injection H as -> ->. apply place_above in H'. pose proof (size_executable a o1 Ho). lia.
  - injection H' as -> ->. apply place_above in H. pose proof (size_executable a o1 Ho'). lia.
  - by eapply IH.
Qed.

Lemma fetches_at a os1 o os2 x : executable o → x = limit a os1 → fetches (place a (os1 ++ o :: os2)) x o.
Proof. intros Ho ->. split; [|done]. rewrite place_app. apply elem_of_app. right. by left. Qed.

(** What the instruction [o] makes of the state. *)
Definition result (m : list (Z * op)) (s : machine) (o : op) (s' : machine) : Prop :=
  match o with
  | La rd l => ∃ a, address m l = Some a ∧
      s' = Machine (pc s + 8) (set_reg rd (word64 a) (gpr s)) (mtvec s) (mepc s)
  | Jump l => ∃ a, address m l = Some a ∧ s' = Machine a (gpr s) (mtvec s) (mepc s)
  | CsrRead rd n => s' = Machine (pc s + 4) (set_reg rd (read_csr n s) (gpr s)) (mtvec s) (mepc s)
  | CsrWrite n rs => s' = write_csr n (gpr s rs) (pc s + 4) s
  | Mret => s' = Machine (mepc s) (gpr s) (mtvec s) (mepc s)
  | Code (ISys o) => (o = ECALL ∨ o = EBREAK) ∧ s' = Machine (mtvec s) (gpr s) (mtvec s) (pc s)
  | Code i => is_alu i ∧ ∃ r, reg_step i (gpr s) r ∧ s' = Machine (pc s + 4) r (mtvec s) (mepc s)
  | _ => False
  end.

Lemma step_result a os s o s' : fetches (place a os) (pc s) o → step (place a os) s s' ↔ result (place a os) s o s'.
Proof.
  intros Hf. split.
  - intros Hs. destruct Hs as [rd l x H ?|l x H ?|rd n H|n rs H|H|o' H ?|i r H Hi ?];
      pose proof (fetches_unique _ _ _ _ _ Hf H) as ->; cbn [result]; eauto.
    destruct i; try done; split; [done|by exists r|done|by exists r].
  - intros Hr. destruct o as [| | |rd l|l|rd n|n rs| |i]; cbn [result] in Hr; try done.
    + destruct Hr as (x & Hx & ->). by eapply step_la.
    + destruct Hr as (x & Hx & ->). by eapply step_jump.
    + subst. by eapply step_csrr.
    + subst. by eapply step_csrw.
    + subst. by eapply step_mret.
    + destruct i; try (destruct Hr as [? (r & ? & ->)]; by eapply step_alu).
      destruct Hr as [? ->]. by eapply step_trap.
Qed.

Lemma executes_step a os Q o rest s :
  fetches (place a os) (pc s) o → (∃ s', result (place a os) s o s') →
  (∀ s', result (place a os) s o s' → executes (place a os) Q rest s') → executes (place a os) Q (o :: rest) s.
Proof.
  intros Hf [s0 Hs0] H. apply executes_next; [done| |].
  - exists s0. by apply (step_result _ _ _ o).
  - intros s' Hs. apply H. by apply (step_result _ _ _ o) in Hs.
Qed.

(** An instruction with one result. *)
Lemma executes_step_to a os Q o rest s s1 :
  fetches (place a os) (pc s) o → (∀ s', result (place a os) s o s' ↔ s' = s1) →
  executes (place a os) Q rest s1 → executes (place a os) Q (o :: rest) s.
Proof.
  intros Hf H Hr. apply executes_step; [done|by exists s1; apply H|]. by intros s' ->%H.
Qed.

Lemma reg_step_total i r : ∃ r', reg_step i r r'.
Proof. destruct (runs_total r [i]) as [r' Hr]. inversion Hr as [|? ? r1 ? ? Hs Hn]; subst. by exists r1. Qed.

(** *** The layout of a generated program *)

Definition prologue_ops : list op :=
  [Directive; La X5 ".Ltrap_handler"; CsrWrite traps._MTVEC X5; Jump ".Lpost_handler"; Align; Mark ".Ltrap_handler";
   CsrRead X6 traps._MEPC; Code (II ADDI X6 X6 4); CsrWrite traps._MEPC X6; Mret; Align; Mark ".Lpost_handler"].

Lemma prologue_read : mapM op_of traps.prologue = Some prologue_ops.
Proof. vm_compute. reflexivity. Qed.

Lemma body_read body : Forall traps.body_insn body → mapM op_of body = Some (Code <$> body).
Proof.
  induction 1 as [|i body Hi _ IH]; [done|]. cbn [mapM]. rewrite IH.
  by destruct Hi as [Hi|Hi], i.
Qed.

Lemma program_read body : Forall traps.body_insn body →
  mapM op_of (traps.prologue ++ body) = Some (prologue_ops ++ (Code <$> body)).
Proof. intros Hb. apply mapM_Some, Forall2_app; apply mapM_Some; [apply prologue_read|by apply body_read]. Qed.

Section layout.
Context (a : Z) (body : list insn) (Ha0 : 0 ≤ a).

Definition handler_at : Z := a + 16 + (- (a + 16)) `mod` 4.
Definition body_at : Z := handler_at + 16.
Definition end_at : Z := body_at + 4 * len body.
Let m := place a (prologue_ops ++ (Code <$> body)).

Lemma handler_aligned : handler_at `mod` 4 = 0 ∧ 0 ≤ handler_at.
Proof. unfold handler_at. Z.div_mod_to_equations. lia. Qed.

(** The addresses of the lines of the prologue. *)
Lemma limit_take n : limit a (take n prologue_ops) =
  default body_at ([a; a; a + 8; a + 12; a + 16; handler_at; handler_at;
                    handler_at + 4; handler_at + 8; handler_at + 12] !! n).
Proof.
  assert (a + 0 + 8 + 4 + 4 = a + 16) as E by lia.
  assert ((- (handler_at + 0 + 4 + 4 + 4 + 4)) `mod` 4 = 0) as E'.
  { pose proof handler_aligned. Z.div_mod_to_equations. lia. }
  unfold body_at. do 12 (destruct n as [|n]; [unfold prologue_ops; cbn [take limit size]; rewrite ?E;
    fold handler_at; rewrite ?E'; cbn [lookup list_lookup default from_option id]; lia|]).
  unfold prologue_ops. cbn [take limit size]. rewrite ?E. fold handler_at. rewrite ?E'. destruct n; cbn [take limit lookup list_lookup default from_option id]; lia.
Qed.

Lemma limit_prologue : limit a prologue_ops = body_at.
Proof. exact (limit_take 12). Qed.
Lemma limit_code x l : limit x (Code <$> l) = x + 4 * len l.
Proof.
  unfold len. revert x. induction l as [|i l IH]; intros x; cbn [fmap list_fmap limit size length]; [lia|]. rewrite IH. lia.
Qed.

Lemma limit_program : limit a (prologue_ops ++ (Code <$> body)) = end_at.
Proof. by rewrite limit_app, limit_prologue, limit_code. Qed.

Lemma handler_label : address m ".Ltrap_handler" = Some handler_at.
Proof. unfold m, address. cbn -[Z.modulo]. f_equal. exact (limit_take 5). Qed.
Lemma body_label : address m ".Lpost_handler" = Some body_at.
Proof. unfold m, address. cbn -[Z.modulo]. f_equal. exact (limit_take 11). Qed.

(** The [n]-th line of the prologue. *)
Lemma fetches_prologue n o x :
  prologue_ops !! n = Some o → executable o → x = limit a (take n prologue_ops) → fetches m x o.
Proof.
  intros Hn Ho Hx. unfold m. rewrite <-(take_drop_middle _ _ _ Hn), <-app_assoc. cbn [app].
  by apply fetches_at.
Qed.
Lemma fetches_body (n : nat) i x :
  body !! n = Some i → x = body_at + 4 * Z.of_nat n → fetches m x (Code i).
Proof.
  intros Hn ->. unfold m. rewrite <-(take_drop_middle _ _ _ Hn), fmap_app, fmap_cons, app_assoc.
  apply fetches_at; [done|]. rewrite limit_app, limit_prologue, limit_code. unfold len. rewrite length_take_le; [done|].
  apply lookup_lt_Some in Hn. lia.
Qed.

(** *** The run *)

Context (Hend : end_at < 2 ^ 64) (Hbody : Forall traps.body_insn body).

Lemma word64_small x : 0 ≤ x < 2 ^ 64 → word64 x = x.
Proof. apply Z.mod_small. Qed.

Lemma addresses : 0 ≤ a ∧ a + 16 ≤ handler_at ∧ handler_at + 16 = body_at ∧ body_at + 4 * len body = end_at ∧ 0 ≤ len body.
Proof. pose proof (len_nonneg body). unfold end_at, body_at, handler_at. Z.div_mod_to_equations. lia. Qed.

Lemma write_mtvec v pc' s : write_csr traps._MTVEC v pc' s = Machine pc' (gpr s) (v - v `mod` 4) (mepc s).
Proof. done. Qed.
Lemma write_mepc v pc' s : write_csr traps._MEPC v pc' s = Machine pc' (gpr s) (mtvec s) (v - v `mod` 2).
Proof. done. Qed.

(** The next instruction is the [n]-th of the prologue. *)
Ltac at_prologue n :=
  eapply executes_step_to; [eapply (fetches_prologue n); [reflexivity|done|cbn [pc]; rewrite limit_take; cbn; lia]| |].

Lemma setup_executes (r : regs) tv ep (Q : machine → Prop) :
  Q (Machine body_at (set_reg X5 handler_at r) handler_at ep) → executes m Q setup (Machine a r tv ep).
Proof.
  intros HQ. pose proof addresses. pose proof handler_aligned. unfold setup.
  at_prologue 1%nat.
  { intros s'. cbn [result]. fold m. rewrite handler_label. split; [by intros (? & [= <-] & ->)|]. intros ->. by eexists. }
  at_prologue 2%nat; [done|]. cbn [gpr pc mtvec mepc write_csr].
  at_prologue 3%nat.
  { intros s'. cbn [result]. fold m. rewrite body_label. split; [by intros (? & [= <-] & ->)|]. intros ->. by eexists. }
  apply executes_done. rewrite word64_small by lia. change (set_reg X5 handler_at r X5) with handler_at.
  rewrite write_mtvec. cbn [pc gpr mtvec mepc]. replace (handler_at - handler_at `mod` 4) with handler_at by lia. exact HQ.
Qed.

(** From a trap at [ep] to the line after it; of the registers [t1] alone changes. *)
Lemma handler_executes (r : regs) ep (Q : machine → Prop) :
  0 ≤ ep → ep + 4 < 2 ^ 64 → ep `mod` 2 = 0 →
  (∀ r', (∀ x, x ≠ X6 → r' x = r x) → Q (Machine (ep + 4) r' handler_at (ep + 4))) →
  executes m Q handler (Machine handler_at r handler_at ep).
Proof.
  intros Hep Hep4 Hep2 HQ. pose proof addresses. unfold handler.
  at_prologue 6%nat; [done|]. cbn [pc gpr mtvec mepc].
  apply executes_step; [eapply (fetches_prologue 7); [done|done|cbn [pc]; rewrite limit_take; cbn; lia]| |].
  { cbn [result gpr pc mtvec mepc].
    set (r1 := set_reg X6 _ r). destruct (reg_step_total (II ADDI X6 X6 4) r1) as [r2 Hr2].
    eexists. split; [done|]. by exists r2. }
  intros s' (_ & r1 & [Hr1 Hr1'] & ->). cbn [gpr pc mtvec mepc] in *.
  assert (r1 X6 = ep + 4) as E6.
  { rewrite Hr1' by done. change (word64 (ep + 4) = ep + 4). apply word64_small. lia. }
  at_prologue 8%nat; [done|]. rewrite write_mepc. cbn [pc gpr mtvec mepc]. rewrite E6. replace (ep + 4 - (ep + 4) `mod` 2) with (ep + 4) by (Z.div_mod_to_equations; lia).
  at_prologue 9%nat; [done|]. apply executes_done. apply HQ. intros x Hx. rewrite Hr1.
  - cbn. unfold set_reg. by rewrite bool_decide_false by tauto.
  - unfold dests, gp_dest. rewrite decide_False by done. set_solver.
Qed.

(** The registers that no line of [l] writes, but for [t1], are what they were. *)
Definition kept (l : list insn) (r r' : regs) : Prop := ∀ x, x ≠ X6 → Forall (λ i, x ∉ dests i) l → r' x = r x.

Lemma body_executes l k (r : regs) ep :
  body = k ++ l →
  executes m (λ z, pc z = end_at ∧ mtvec z = handler_at ∧ kept l r (gpr z)) (l ≫= handled)
    (Machine (body_at + 4 * len k) r handler_at ep).
Proof.
  revert k r ep. induction l as [|i l IH]; intros k r ep E.
  - apply executes_done. cbn. rewrite app_nil_r in E. subst k. by split_and!.
  - cbn [mbind list_bind]. unfold handled at 1.
    assert (fetches m (body_at + 4 * len k) (Code i)) as Hf.
    { apply (fetches_body (length k)); [|done]. rewrite E. by apply list_lookup_middle. }
    assert (body = (k ++ [i]) ++ l) as E' by by rewrite <-app_assoc.
    assert (body_at + 4 * len (k ++ [i]) = body_at + 4 * len k + 4) as Hk by (rewrite len_app; change (len [i]) with 1; lia).
    assert (traps.body_insn i) as Hi by (rewrite list.Forall_forall in Hbody; apply Hbody; rewrite E; set_solver).
    pose proof addresses. pose proof handler_aligned.
    assert (len k + 1 + len l = len body) as Hlen by (rewrite E', !len_app; change (len [i]) with 1; lia).
    pose proof (len_nonneg l). pose proof (len_nonneg k).
    assert (∀ r' q, (∀ x, x ≠ X6 → x ∉ dests i → r' x = r x) →
      executes m (λ z, pc z = end_at ∧ mtvec z = handler_at ∧ kept (i :: l) r (gpr z)) (l ≫= handled)
        (Machine (body_at + 4 * len k + 4) r' handler_at q)) as Hrest.
    { intros r' q Hr'. rewrite <-Hk. eapply executes_weaken; [by apply IH|]. intros z (Hz & Ht & Hkept). split_and!; [done..|].
      intros x Hx Hl. apply Forall_cons_iff in Hl as [Hxi Hxl]. rewrite Hkept, Hr' by done. done. }
    destruct Hi as [Hi|Hi].
    + destruct i; try done; (apply executes_step; [exact Hf| |]; cbn [result gpr pc mtvec mepc app]).
      1,3: match goal with |- context [reg_step ?i] => destruct (reg_step_total i r) as [r2 Hr2] end;
        eexists; split; [done|by exists r2].
      all: intros s' (_ & r1 & [Hr1 _] & ->); apply Hrest; auto.
    + destruct i as [| | | | | | | | | | | | | | | | |o|]; try done.
      cbn [app]. change (handler ++ ?z) with (handler ++ z).
      apply (executes_step_to _ _ _ _ _ _ (Machine handler_at r handler_at (body_at + 4 * len k))); [exact Hf| |].
      { intros s'. cbn [result gpr pc mtvec mepc]. split; [by intros [_ ->]|by intros ->]. }
      eapply executes_app; [eapply (handler_executes r (body_at + 4 * len k) (λ z, ∃ r', (∀ x, x ≠ X6 → r' x = r x) ∧
        z = Machine (body_at + 4 * len k + 4) r' handler_at (body_at + 4 * len k + 4)))|].
      * lia.
      * lia.
      * Z.div_mod_to_equations. lia.
      * intros r' Hr'. by exists r'.
      * intros s' (r' & Hr' & ->). apply Hrest. auto.
Qed.
End layout.

(** ** The property *)

(** C20: The traps scenario returns its handler set-up and a body of the
    requested length whose environment calls and breakpoints alternate; laid
    out from any address and run on a machine that takes traps, it executes
    the set-up, then each line of the body once and in order, with the four
    lines of the handler after every trap and nothing else, and reaches its
    end with every register that no line writes as it was. *)
Theorem traps_run {G} `{PyRandomLaws G} (length : Z) (s : st G) (a : Z) (r : regs) (tv ep : Z) :
  st_ok s → 0 ≤ a → a + 36 + 4 * Z.max 0 length < 2 ^ 64 →
  ∃ out s' body os,
    traps.generate length s = Ok (out, s') ∧
    good_program ({[X5; X6]} ∪ GPState.live (gp s)) traps._RESERVED out traps.prologue body ∧
    len body = Z.max 0 length ∧ Forall traps.body_insn body ∧ traps.alternates body ∧
    mapM op_of (traps.prologue ++ body) = Some os ∧
    executes (place a os)
      (λ z, pc z = limit a os ∧
        ∀ x, x ≠ X5 → x ≠ X6 → Forall (λ i, x ∉ dests i) body → gpr z x = r x)
      (setup ++ (body ≫= handled)) (Machine a r tv ep).
Proof.
  intros Hs Ha0 Hend. destruct (traps.tr_generate_spec length s Hs) as (out & s' & body & Hg & Hp & Hl & Hb & Halt).
  exists out, s', body, (prologue_ops ++ (Code <$> body)). split_and!; try done; [by apply program_read|].
  assert (end_at a body < 2 ^ 64) as He.
  { unfold end_at, body_at, handler_at. rewrite Hl. pose proof (Z.mod_pos_bound (- (a + 16)) 4). lia. }
  eapply executes_app; [by apply (setup_executes a body Ha0 He r tv ep (λ z, z = Machine (body_at a) (set_reg X5 (handler_at a) r) (handler_at a) ep))|].
  intros z ->. eapply executes_weaken.
  - pose proof (body_executes a body Ha0 He Hb body [] (set_reg X5 (handler_at a) r) ep eq_refl) as Hx.
    change (len []) with 0 in Hx. rewrite Z.mul_0_r, Z.add_0_r in Hx. exact Hx.
  - intros z (Hz & _ & Hk). split; [by rewrite limit_program|]. intros x H5 H6 Hx. rewrite (Hk x H6 Hx).
    unfold set_reg. by rewrite bool_decide_false by tauto.
Qed.

(** ** A concrete run *)

Lemma traps_run_witness :
  let s := st_init (G:=Mt19937.mt) 8 in
  st_ok s ∧ 0 ≤ 0x80000006 ∧ 0x80000006 + 36 + 4 * 30 < 2 ^ 64 ∧
  ∃ out s' body os, traps.generate 30 s = Ok (out, s') ∧
    good_program ({[X5; X6]} ∪ GPState.live (gp s)) traps._RESERVED out traps.prologue body ∧
    len body = 30 ∧ Forall traps.body_insn body ∧ traps.alternates body ∧
    mapM op_of (traps.prologue ++ body) = Some os ∧
    executes (place 0x80000006 os)
      (λ z, pc z = limit 0x80000006 os ∧
        ∀ x, x ≠ X5 → x ≠ X6 → Forall (λ i, x ∉ dests i) body → gpr z x = 0)
      (setup ++ (body ≫= handled)) (Machine 0x80000006 (λ _, 0) 0 0).
Proof.
  split; [apply st_init_ok|]. split; [lia|]. split; [lia|].
  apply (traps_run 30 _ 0x80000006 (λ _, 0) 0 0 (st_init_ok 8)); lia.
Defined.
