(* ===== verification/BranchPred.v ===== *)
(** The branch_pred scenario (tools/crv/scenarios/branch_pred.py): branches
    to labels planted a few lines further on. *)
From S2P Require Export ScenarioBase.
Local Open Scope Z_scope.

Module branch_pred.
Definition _ALU_R : list rop := [ADD; SUB; SLL; SRL; SRA].
Definition _ALU_I : list iop := [ADDI; SLLI; SRLI; SRAI].
Definition _BRANCH_OPS : list bop := [BEQ; BNE; BLT; BGE; BLTU; BGEU].
Definition _RESERVED : gset Reg := {[X0; X1; X2]}.
Definition _WRITABLE : list Reg := filter (λ r, r ∉ _RESERVED) Reg_all.

(** [0.30], [0.5] and [0.70] *)
Definition f030 : pyfloat := float_div (float_of_Z 30) (float_of_Z 100).
Definition f05 : pyfloat := float_div (float_of_Z 5) (float_of_Z 10).
Definition f070 : pyfloat := float_div (float_of_Z 70) (float_of_Z 100).

(** [f".Lbp_{label_idx}"] *)
Definition lname (label_idx : nat) : string := ".Lbp_" +:+ str_Z (Z.of_nat label_idx).

(** The variables of the first loop: the raw lines, the positions where
    labels are due, the next label number. *)
Record vars := Vars {
  raw : list AsmInstr; branch_schedule : list (Z * string); label_idx : nat }.

Section weave.
(** Put the label lines due at each position before the line there. *)
Context {A : Type} (line : string → A).

Definition labels_at (pos_to_labels : gmap Z (list string)) (i : Z) : list A :=
  line <$> default [] (pos_to_labels !! i).

Fixpoint weave (pos_to_labels : gmap Z (list string)) (i : Z) (raw : list A) : list A :=
  match raw with
  | [] => []
  | instr :: raw => labels_at pos_to_labels i ++ instr :: weave pos_to_labels (i + 1) raw
  end.
End weave.

(** [pos_to_labels.setdefault(effective, []).append(lname)] for each entry. *)
Definition schedule_labels (len_raw : Z) (sched : list (Z * string)) : gmap Z (list string) :=
  foldl (λ m '(pos, l),
    let effective := Z.min pos len_raw in
    <[effective := default [] (m !! effective) ++ [l]]> m) ∅ sched.

Section generate.
Context {G : Type} `{PyRandom G}.

Definition _random_writable : M G Reg := rng_choice _WRITABLE.

Definition _emit_alu_r : M G AsmInstr :=
  op ← rng_choice _ALU_R;
  rd ← _random_writable;
  rs1 ← gp_random_live;
  rs2 ← gp_random_live;
  _ ← gp_write rd;
  lift (encode_r op (AReg rd) (AReg rs1) (AReg rs2)).

Definition _emit_alu_i : M G AsmInstr :=
  op ← rng_choice _ALU_I;
  rd ← _random_writable;
  rs1 ← gp_random_live;
  imm ← (if is_shift op then rng_randint 0 63 else rng_randint (-2048) 2047);
  _ ← gp_write rd;
  lift (encode_i op (AReg rd) (AReg rs1) imm).

(** One iteration of the first loop. *)
Definition iteration (v : vars) : M G vars :=
  roll ← rng_random;
  if float_lt roll f030 then
    op ← rng_choice _BRANCH_OPS;
    let l := lname (label_idx v) in
    gap ← rng_randint 1 5;
    let target_pos := len (raw v) + gap in
    roll2 ← rng_random;
    '(rs1, rs2) ←
      (if float_lt roll2 f05 then mret (X0, X0)
       else rs1 ← gp_random_live; rs2 ← gp_random_live; mret (rs1, rs2));
    i ← lift (encode_b op (AReg rs1) (AReg rs2) (Label l));
    mret (Vars (raw v ++ [i]) (branch_schedule v ++ [(target_pos, l)]) (S (label_idx v)))
  else if float_lt roll f070 then
    i ← _emit_alu_r; mret (Vars (raw v ++ [i]) (branch_schedule v) (label_idx v))
  else
    i ← _emit_alu_i; mret (Vars (raw v ++ [i]) (branch_schedule v) (label_idx v)).

(** [AsmInstr("", (f"{lname}:",))] *)
Definition label_line (l : string) : AsmInstr := Asm "" [l +:+ ":"].

Definition generate (length : Z) : M G (list AsmInstr) :=
  i ← lift (enc.addi (AReg X5) (AReg X0) 42);
  _ ← gp_write X5;
  v ← while (Z.to_nat length) (λ v, len (raw v) <? length) iteration (Vars [i] [] 0);
  let pos_to_labels := schedule_labels (len (raw v)) (branch_schedule v) in
  mret (weave label_line pos_to_labels 0 (raw v) ++
        labels_at label_line pos_to_labels (len (raw v))).
End generate.

(** ** Weaving *)

Section weave_lemmas.
Context {A : Type} (line : string → A) (code : A → Prop) `{!∀ a, Decision (code a)}.
Context (m : gmap Z (list string)).

(** The whole of the output from position [i] on: the labels due at the end
    included. *)
Definition woven (i : Z) (p : list A) : list A :=
  weave line m i p ++ labels_at line m (i + len p).

Lemma woven_nil i : woven i [] = labels_at line m i.
Proof. unfold woven, len. simpl. by rewrite Z.add_0_r. Qed.

Lemma woven_cons i a p : woven i (a :: p) = labels_at line m i ++ a :: woven (i + 1) p.
Proof.
  unfold woven. simpl. rewrite <-app_assoc. simpl. do 3 f_equal.
  unfold len. rewrite length_cons. f_equal. lia.
Qed.

Context (line_not_code : ∀ l, ¬ code (line l)).

Lemma labels_at_not_code i : filter code (labels_at line m i) = [].
Proof.
  unfold labels_at. induction (default [] (m !! i)) as [|l ls IH]; [done|].
  rewrite fmap_cons, filter_cons_False; [done|apply line_not_code].
Qed.

(** Without the labels the output is the raw program. *)
Lemma filter_woven i p : Forall code p → filter code (woven i p) = p.
Proof.
  intros Hp. revert i. induction Hp as [|a p Ha _ IH]; intros i.
  - rewrite woven_nil. apply labels_at_not_code.
  - rewrite woven_cons, list.filter_app, labels_at_not_code. simpl.
    by rewrite filter_cons_True, IH.
Qed.

Lemma Forall_woven (P : A → Prop) i p :
  (∀ l, P (line l)) → Forall P p → Forall P (woven i p).
Proof.
  intros Hl Hp.
  assert (∀ j, Forall P (labels_at line m j)) as Hlab by (intros j; by apply Forall_fmap, Forall_true).
  revert i. induction Hp as [|a p Ha _ IH]; intros i; [by rewrite woven_nil|].
  rewrite woven_cons. by apply Forall_app_2; [|apply Forall_cons_2].
Qed.

(** A label due at [e] is found after the first [e - i] code lines. *)
Lemma woven_label i p e l :
  Forall code p → i ≤ e ≤ i + len p → l ∈ default [] (m !! e) →
  ∃ j, woven i p !! j = Some (line l) ∧ len (filter code (take j (woven i p))) = e - i.
Proof.
  intros Hp. revert i. induction Hp as [|a p Ha Hp IH]; intros i He Hl.
  - change (len (@nil A)) with 0 in He. replace e with i in * by lia. rewrite woven_nil.
    apply list_elem_of_lookup in Hl as [j Hj]. exists j. split.
    + unfold labels_at. by rewrite list_lookup_fmap, Hj.
    + assert (Forall (λ a, ¬ code a) (take j (labels_at line m i))) as Hn.
      { apply Forall_take, Forall_fmap. apply Forall_true. intros x. apply line_not_code. }
      assert (filter code (take j (labels_at line m i)) = []) as ->; [|unfold len; simpl; lia].
      induction Hn as [|x xs Hx _ IHn]; [done|]. by rewrite filter_cons_False.
  - destruct (decide (e = i)) as [->|Hne].
    + apply list_elem_of_lookup in Hl as [j Hj]. exists j. rewrite woven_cons.
      assert (j < length (labels_at line m i))%nat as Hlt.
      { unfold labels_at. rewrite length_fmap. by eapply lookup_lt_Some. }
      split.
      * rewrite lookup_app_l by done. unfold labels_at. by rewrite list_lookup_fmap, Hj.
      * rewrite take_app_le by lia.
        assert (filter code (take j (labels_at line m i)) = []) as ->; [|unfold len; simpl; lia].
        assert (filter code (labels_at line m i) = []) as Hn by apply labels_at_not_code.
        rewrite <-(take_drop j (labels_at line m i)), list.filter_app in Hn.
        by apply app_eq_nil in Hn as [-> _].
    + unfold len in He. rewrite length_cons in He.
      destruct (IH (i + 1)) as (j & Hj & Hlen); [unfold len; lia|done|].
      exists (length (labels_at line m i) + S j)%nat. rewrite woven_cons. split.
      * by rewrite lookup_app_r, Nat.add_sub' by lia.
      * rewrite take_app_add, list.filter_app, labels_at_not_code. simpl.
        rewrite filter_cons_True by done. unfold len in *. simpl. lia.
Qed.

(** When every branch at [k] has its label due one to five positions on, in
    the output the label comes after the branch, at most four code lines
    between them. *)
Context (tgt : A → option string) (tgt_line : ∀ l, tgt (line l) = None).

Definition linked (i : Z) (p : list A) : Prop :=
  ∀ k a l, p !! k = Some a → tgt a = Some l →
    ∃ e, i + Z.of_nat k < e ≤ i + Z.of_nat k + 5 ∧ e ≤ i + len p ∧ l ∈ default [] (m !! e).

Lemma woven_target i p idx a l :
  Forall code p → linked i p → woven i p !! idx = Some a → tgt a = Some l →
  ∃ j, (idx < j)%nat ∧ woven i p !! j = Some (line l) ∧
    len (filter code (take (j - S idx) (drop (S idx) (woven i p)))) ≤ 4.
Proof.
  intros Hp. revert i idx.
  assert (∀ i idx, labels_at line m i !! idx = Some a → tgt a = Some l → False) as Hno.
  { unfold labels_at. intros i idx Hx Ht. apply list_lookup_fmap_Some in Hx as (x & -> & _).
    by rewrite tgt_line in Ht. }
  induction Hp as [|b p Hb Hp IH]; intros i idx Hlink Hidx Ht.
  - rewrite woven_nil in Hidx. exfalso. by eapply Hno.
  - rewrite woven_cons in *. set (ls := labels_at line m i) in *.
    apply lookup_app_Some in Hidx as [Hidx|[Hge Hidx]]; [exfalso; by eapply Hno|].
    destruct (idx - length ls)%nat as [|d] eqn:Ed; simpl in Hidx.
    + injection Hidx as ->. assert (idx = length ls) as -> by lia.
      destruct (Hlink 0%nat a l) as (e & He1 & He2 & Hl); [done|done|].
      unfold len in He2. rewrite length_cons in He2.
      destruct (woven_label (i + 1) p e l) as (j & Hj & Hlen); [done|unfold len; lia|done|].
      exists (length ls + S j)%nat. split; [lia|]. split.
      * by rewrite lookup_app_r, Nat.add_sub' by lia.
      * rewrite drop_app_ge by lia. replace (S (length ls) - length ls)%nat with 1%nat by lia.
        replace (length ls + S j - S (length ls))%nat with j by lia. cbn [drop]. rewrite drop_0, Hlen. lia.
    + destruct (IH (i + 1) d) as (j & Hj & Hlj & Hlen); [|done|done|].
      { intros k x y Hk Hx. destruct (Hlink (S k) x y) as (e & He1 & He2 & Hl); [done|done|].
        exists e. unfold len in *. rewrite length_cons in He2. split_and!; [lia|lia|lia|done]. }
      exists (length ls + S j)%nat. split; [lia|]. split.
      * by rewrite lookup_app_r, Nat.add_sub' by lia.
      * rewrite drop_app_ge by lia. replace (S idx - length ls)%nat with (S (S d)) by lia.
        replace (length ls + S j - S idx)%nat with (j - S d)%nat by lia. done.
Qed.

Lemma woven_labels i p :
  Forall code p →
  filter (λ a, ¬ code a) (woven i p) = seqZ i (len p + 1) ≫= labels_at line m.
Proof.
  intros Hp. assert (∀ j, filter (λ a, ¬ code a) (labels_at line m j) = labels_at line m j) as Hl.
  { intros j. unfold labels_at. induction (default [] (m !! j)) as [|l ls IH]; [done|].
    rewrite fmap_cons, filter_cons_True by apply line_not_code. by rewrite IH. }
  revert i. induction Hp as [|a p Ha _ IH]; intros i.
  - rewrite woven_nil, Hl. unfold len. simpl. by rewrite app_nil_r.
  - rewrite woven_cons, list.filter_app, Hl, filter_cons_False by tauto.
    rewrite IH. unfold len. rewrite length_cons.
    rewrite (seqZ_cons i) by lia. simpl. do 3 f_equal; lia.
Qed.
End weave_lemmas.

Lemma NoDup_filter_lookup {A} (P : A → Prop) `{!∀ a, Decision (P a)} (l : list A) i j x :
  NoDup (filter P l) → l !! i = Some x → l !! j = Some x → P x → i = j.
Proof.
  revert i j. induction l as [|y l IH]; intros i j Hnd Hi Hj Hx; [by rewrite lookup_nil in Hi|].
  assert (∀ k, l !! k = Some x → x ∈ filter P l) as Hin.
  { intros k Hk. apply list_elem_of_filter. split; [done|]. by eapply list_elem_of_lookup_2. }
  destruct (decide (P y)).
  - rewrite filter_cons_True in Hnd by done. apply list.NoDup_cons in Hnd as [Hy Hnd].
    destruct i as [|i], j as [|j]; simplify_eq/=; try done; [by apply Hin in Hj|by apply Hin in Hi|].
    f_equal. by apply IH.
  - rewrite filter_cons_False in Hnd by done.
    destruct i as [|i], j as [|j]; simplify_eq/=; try done. f_equal. by apply IH.
Qed.

(** The dictionary holds at each position the labels due there, in order. *)
Lemma schedule_labels_lookup n sched e :
  default [] (schedule_labels n sched !! e) = (filter (λ p, Z.min p.1 n = e) sched).*2.
Proof.
  unfold schedule_labels. induction sched as [|[pos l] sched IH] using rev_ind.
  - done.
  - rewrite foldl_app, list.filter_app, fmap_app. simpl.
    destruct (decide (Z.min pos n = e)) as [<-|Hne].
    + rewrite lookup_insert_eq. simpl. rewrite IH, filter_cons_True; [done|done].
    + rewrite lookup_insert_ne by done. rewrite IH, filter_cons_False by done.
      by rewrite app_nil_r.
Qed.

(** ** Specification *)

Definition label (l : string) : insn := ILine (l +:+ ":").
Definition is_code (i : insn) : Prop := match i with ILine _ => False | _ => True end.
#[export] Instance is_code_dec i : Decision (is_code i).
Proof. destruct i; simpl; apply _. Defined.

(** The label a branch goes to. *)
Definition tgt (i : insn) : option string :=
  match i with IBr _ _ _ (Label l) => Some l | _ => None end.

Definition raw_insn (i : insn) : Prop :=
  match i with
  | IR op rd _ _ => op ∈ _ALU_R ∧ rd ∉ _RESERVED
  | II op rd _ _ => op ∈ _ALU_I ∧ rd ∉ _RESERVED
  | IBr op _ _ (Label l) => op ∈ _BRANCH_OPS ∧ ∃ k, l = lname k
  | _ => False
  end.

(** Every branch goes to a label planted after it, at most four instructions
    between them, and nowhere else; every label has its branch. *)
Definition forward (p : list insn) : Prop :=
  (∀ i op a b t, p !! i = Some (IBr op a b t) →
    ∃ l j, t = Label l ∧ (i < j)%nat ∧ p !! j = Some (label l) ∧
      (∀ j', p !! j' = Some (label l) → j' = j) ∧
      len (filter is_code (take (j - S i) (drop (S i) p))) ≤ 4) ∧
  (∀ j x, p !! j = Some (ILine x) →
    ∃ i op a b l, x = l +:+ ":" ∧ p !! i = Some (IBr op a b (Label l))).

(** One step of control: to the next line, or to the label of a branch. *)
Inductive control (p : list insn) : nat → nat → Prop :=
  | control_next i a : p !! i = Some a → control p i (S i)
  | control_taken i j op a b l :
      p !! i = Some (IBr op a b (Label l)) → p !! j = Some (label l) → control p i j.

(** Whatever the branches do, the line after the last one is reached. *)
Inductive reaches_end (p : list insn) : nat → Prop :=
  | at_end : reaches_end p (length p)
  | on_the_way i :
      (∃ j, control p i j) → (∀ j, control p i j → reaches_end p j) → reaches_end p i.

Lemma control_reaches_end p i :
  (∀ i j, control p i j → (i < j ≤ length p)%nat) → (i ≤ length p)%nat → reaches_end p i.
Proof.
  intros Hc. remember (length p - i)%nat as n eqn:En. revert i En.
  induction n as [n IH] using lt_wf_ind. intros i -> Hi.
  destruct (decide (i = length p)) as [->|Hne]; [constructor|]. apply on_the_way.
  - destruct (lookup_lt_is_Some_2 p i) as [a Ha]; [lia|]. exists (S i). by econstructor.
  - intros j Hj. pose proof (Hc i j Hj). apply (IH (length p - j)%nat); [lia|done|lia].
Qed.

Lemma control_nsteps p :
  (∀ i j, control p i j → (i < j ≤ length p)%nat) →
  ∀ n i j, nsteps (control p) n i j → (i ≤ length p)%nat → (i + n ≤ length p)%nat.
Proof.
  intros Hc n i j Hn. induction Hn as [i|n i k j Hik _ IH]; [lia|]. intros Hi.
  pose proof (Hc i k Hik). lia.
Qed.

(** So control only moves forward: it leaves the program in at most as many
    steps as it has lines. *)
Lemma forward_control p i j : forward p → control p i j → (i < j ≤ length p)%nat.
Proof.
  intros [Hf _]. destruct 1 as [i a Hi|i j op a b l Hi Hj].
  - apply lookup_lt_Some in Hi. lia.
  - destruct (Hf _ _ _ _ _ Hi) as (l' & j' & [= <-] & Hlt & _ & Huniq & _).
    rewrite (Huniq j Hj). specialize (Huniq j Hj). subst j'.
    apply lookup_lt_Some in Hj. lia.
Qed.

#[export] Instance lname_inj : Inj (=) (=) lname.
Proof.
  intros x y Hxy. unfold lname in Hxy. apply (f_equal (str_drop 5)) in Hxy.
  rewrite !str_app_cons in Hxy. cbn [str_drop] in Hxy. rewrite !str_app_nil_l in Hxy.
  apply (f_equal int_of_str) in Hxy. rewrite !int_of_str_Z in Hxy. simplify_eq. lia.
Qed.

Lemma raw_insn_code p : Forall raw_insn p → Forall is_code p.
Proof. apply Forall_impl. by intros []. Qed.

#[export] Instance label_inj : Inj (=) (=) label.
Proof.
  intros x y [= Hxy]. revert y Hxy. induction x as [|c x IH]; intros [|d y]; rewrite ?str_app_cons; simpl.
  - done.
  - intros [= _ Hy]. by destruct y.
  - intros [= _ Hx]. by destruct x.
  - intros [= -> Hxy]. f_equal. by apply IH.
Qed.

(** The labels of a schedule without duplicates occur once in the output. *)
Lemma woven_label_unique p sched n l j j' :
  Forall is_code p → NoDup sched.*2 →
  woven label (schedule_labels n sched) 0 p !! j = Some (label l) →
  woven label (schedule_labels n sched) 0 p !! j' = Some (label l) → j' = j.
Proof.
  intros Hp Hnd Hj Hj'. eapply (NoDup_filter_lookup (λ a, ¬ is_code a)); [|done|done|by intros []].
  rewrite woven_labels; [|by intros ? []|done].
  apply NoDup_bind.
  - unfold labels_at. intros e1 e2 a _ _. rewrite !schedule_labels_lookup.
    intros (x1 & -> & ([p1 y1] & -> & [Hp1 H1]%list_elem_of_filter)%list_elem_of_fmap)%list_elem_of_fmap.
    intros (x2 & Heq & ([p2 y2] & -> & [Hp2 H2]%list_elem_of_filter)%list_elem_of_fmap)%list_elem_of_fmap.
    apply label_inj in Heq. simpl in *. subst.
    apply list_elem_of_lookup in H1 as [k1 H1], H2 as [k2 H2].
    assert (k1 = k2) as ->; [|by simplify_eq].
    eapply (NoDup_lookup sched.*2 _ _ y2); [done|..]; by rewrite list_lookup_fmap, ?H1, ?H2.
  - intros e _. unfold labels_at. rewrite schedule_labels_lookup. apply NoDup_fmap_2; [apply _|].
    eapply sublist_NoDup; [done|]. apply fmap_sublist, sublist_filter.
  - apply NoDup_seqZ.
Qed.

(** Weaving lines that read and write nothing changes neither liveness. *)
Lemma def_before_use_filter L p :
  def_before_use L p ↔ def_before_use L (filter is_code p).
Proof.
  revert L. induction p as [|i p IH]; intros L; [done|]. destruct (decide (is_code i)) as [Hi|Hi].
  - rewrite filter_cons_True by done. simpl. by rewrite IH.
  - rewrite filter_cons_False by done. destruct i; try (by destruct Hi). simpl.
    rewrite (left_id_L ∅ (∪)), IH. split; [by intros [_ ?]|]. intros. split; [set_solver|done].
Qed.

Section proofs.
Context {G : Type} `{PyRandomLaws G}.
Implicit Types s : st G.

Lemma bp_wp_emit_alu_r s :
  st_ok s → wp _emit_alu_r (λ a s', emits (λ i, raw_insn i ∧ tgt i = None) a s s') s.
Proof.
  intros [Hgp Hfp]. unfold _emit_alu_r. wp_steps. apply wp_writable; [done|]. intros rd g1 Hrd.
  wp_steps. apply (wp_encode (IR x rd r r0)); [done|].
  apply emits_write; try done. simpl. set_solver.
Qed.

Lemma bp_wp_emit_alu_i s :
  st_ok s → wp _emit_alu_i (λ a s', emits (λ i, raw_insn i ∧ tgt i = None) a s s') s.
Proof.
  intros [Hgp Hfp]. unfold _emit_alu_i. wp_steps. apply wp_writable; [done|]. intros rd g1 Hrd.
  wp_step. wp_step. apply wp_bind, (wp_alu_imm x rd r). intros imm g2 Himm. wp_steps.
  apply (wp_encode (II x rd r imm)); [done|].
  apply emits_write; try done. simpl. set_solver.
Qed.

(** The raw lines, the schedule and the labels agree. *)
Definition inv (L : gset Reg) (v : vars) s : Prop :=
  ∃ p, raw v = render <$> p ∧ emitted L p s ∧ Forall raw_insn p ∧
    (branch_schedule v).*2 = lname <$> seq 0 (label_idx v) ∧
    (∀ k a l, p !! k = Some a → tgt a = Some l →
      ∃ e, Z.of_nat k < e ≤ Z.of_nat k + 5 ∧ (e, l) ∈ branch_schedule v) ∧
    (∀ l, l ∈ (branch_schedule v).*2 → ∃ k a, p !! k = Some a ∧ tgt a = Some l).

Lemma inv_plain L v a s s' :
  inv L v s → emits (λ i, raw_insn i ∧ tgt i = None) a s s' →
  inv L (Vars (raw v ++ [a]) (branch_schedule v) (label_idx v)) s'.
Proof.
  intros (p & Hraw & He & Hp & Hsched & Hlink & Hback) Ha.
  eapply emitted_snoc in Ha as (i & -> & [Hi Ht] & He'); [|exact He].
  exists (p ++ [i]). split_and!; simpl.
  - by rewrite Hraw, fmap_app.
  - done.
  - by apply Forall_app_2; [|apply Forall_singleton].
  - done.
  - intros k b l [Hk|[_ ->]]%lookup_snoc_cases Hl; [by eapply Hlink|congruence].
  - intros l Hl. destruct (Hback l Hl) as (k & b & Hk & Hb).
    exists k, b. split; [by apply lookup_app_l_Some|done].
Qed.

Lemma inv_branch L v op rs1 rs2 gap s s' :
  inv L v s → op ∈ _BRANCH_OPS → 1 ≤ gap ≤ 5 →
  let l := lname (label_idx v) in
  let i := IBr op rs1 rs2 (Label l) in
  emits (λ j, j = i) (render i) s s' →
  inv L (Vars (raw v ++ [render i]) (branch_schedule v ++ [(len (raw v) + gap, l)])
    (S (label_idx v))) s'.
Proof.
  intros (p & Hraw & He & Hp & Hsched & Hlink & Hback) Hop Hgap l i Ha.
  eapply emitted_snoc in Ha as (j & _ & -> & He'); [|exact He].
  exists (p ++ [i]). split_and!; cbn [raw branch_schedule label_idx].
  - by rewrite Hraw, fmap_app.
  - done.
  - apply Forall_app_2; [done|]. apply Forall_singleton. split; [done|]. by eexists.
  - by rewrite fmap_app, Hsched, seq_S, fmap_app.
  - intros k b l' [Hk|[-> ->]]%lookup_snoc_cases Hl.
    + destruct (Hlink k b l' Hk Hl) as (e & ? & ?). exists e. split; [done|]. set_solver.
    + injection Hl as <-. exists (len (raw v) + gap). rewrite Hraw, len_fmap.
      split; [unfold len; lia|]. set_solver.
  - rewrite fmap_app. intros l' [Hl|Hl]%elem_of_app.
    + destruct (Hback l' Hl) as (k & b & Hk & Hb).
      exists k, b. split; [by apply lookup_app_l_Some|done].
    + apply list_elem_of_singleton in Hl. simpl in Hl. subst l'.
      exists (length p), i. split; [by rewrite list_lookup_middle|done].
Qed.

Lemma target_ok_lname k : target_ok (Label (lname k)).
Proof.
  simpl. unfold lname. rewrite !str_app_cons. unfold int_of_str. simpl.
  by destruct (DecimalString.NilEmpty.uint_of_string _).
Qed.

Lemma bp_wp_iteration L v s :
  inv L v s → wp (iteration v) (λ v' s', inv L v' s' ∧ len (raw v') = len (raw v) + 1) s.
Proof.
  intros Hinv. assert (st_ok s) as Hok by (destruct Hinv as (p & _ & He & _); apply He).
  unfold iteration. wp_step. wp_step. wp_step.
  - do 2 wp_step. cbv zeta. do 5 wp_step.
    apply (wp_mono _ (λ r s', gp s' = gp s ∧ fp s' = fp s ∧
      r.1 ∈ GPState.live (gp s) ∧ r.2 ∈ GPState.live (gp s))).
    { pose proof Hok as [Hgp Hfp]. wp_steps; by split_and!. }
    intros [rs1 rs2] s' (Hgp & Hfp & Hr1 & Hr2). simpl in Hr1, Hr2. wp_step.
    set (i := IBr x rs1 rs2 (Label (lname (label_idx v)))).
    replace (lift _) with (lift (G:=G) (encode_insn i)) by (by destruct x).
    apply wp_encode; [done|]. wp_step. simpl. rewrite len_app. split; [|done].
    eapply inv_branch; [exact Hinv|done|done|]. exists i.
    split_and!; try done; [apply target_ok_lname|simpl; set_solver| |].
    + rewrite Hgp. simpl. set_solver.
    + rewrite Hfp. apply Hok.
  - wp_step; apply wp_bind.
    + eapply wp_mono; [by apply bp_wp_emit_alu_r|]. intros a s' Ha. wp_step. simpl.
      rewrite len_app. split; [|done]. by eapply inv_plain.
    + eapply wp_mono; [by apply bp_wp_emit_alu_i|]. intros a s' Ha. wp_step. simpl.
      rewrite len_app. split; [|done]. by eapply inv_plain.
Qed.

Lemma bp_wp_generate length s :
  st_ok s →
  wp (generate length) (λ out _, ∃ v s', inv (GPState.live (gp s)) v s' ∧
    len (raw v) = Z.max 1 length ∧
    out = weave label_line (schedule_labels (len (raw v)) (branch_schedule v)) 0 (raw v) ++
          labels_at label_line (schedule_labels (len (raw v)) (branch_schedule v)) (len (raw v))) s.
Proof.
  intros Hs. set (L := GPState.live (gp s)). unfold generate.
  set (i := II ADDI X5 X0 42). apply wp_bind, (wp_encode i); [simpl; unfold simm12; lia|].
  apply wp_bind, wp_gp_write. set (s0 := St _ _ _).
  assert (inv L (Vars [render i] [] 0) s0) as H0inv.
  { exists [i]. split_and!; try done.
    - eapply (emitted_app L [] [i] s); [by apply emitted_nil| | | | |].
      + apply Forall_singleton. simpl. unfold simm12. lia.
      + by apply Forall_singleton.
      + simpl. pose proof (proj1 Hs). unfold GPState.ok in *. set_solver.
      + unfold s0. cbn [gp]. by rewrite live_write_dest.
      + split; [apply GPState.write_ok|]; apply Hs.
    - apply Forall_singleton. split; [left|by_decide].
    - intros [|k] b l Hk Hl; by simplify_eq/=.
    - intros l Hl. by apply elem_of_nil in Hl. }
  apply wp_bind.
  apply (wp_while (λ v s, inv L v s ∧ 1 ≤ len (raw v) ≤ Z.max 1 length)
    (λ v, length - len (raw v))).
  - split; [exact H0inv|]. unfold len. simpl. lia.
  - unfold len. simpl. lia.
  - intros v s1 [Hinv Hle] Hc%Z.ltb_lt. split; [lia|].
    eapply wp_mono; [by eapply bp_wp_iteration|]. intros v' s2 [Hinv' Hlen].
    split; [split; [done|lia]|lia].
  - intros v s1 [Hinv Hle] Hc%Z.ltb_ge. apply wp_ret. exists v, s1. split_and!; [done|lia|done].
Qed.

(** Rendering commutes with weaving. *)
Lemma weave_render m i p :
  weave label_line m i (render <$> p) = render <$> weave label m i p.
Proof.
  revert i. induction p as [|a p IH]; intros i; [done|]. cbn [weave fmap list_fmap].
  rewrite fmap_app. f_equal; [|by rewrite IH].
  unfold labels_at. by rewrite <-list_fmap_compose.
Qed.

Lemma woven_render m p :
  weave label_line m 0 (render <$> p) ++ labels_at label_line m (len p) =
  render <$> woven label m 0 p.
Proof.
  unfold woven. rewrite fmap_app, weave_render. f_equal.
  unfold labels_at. by rewrite <-list_fmap_compose.
Qed.

Lemma woven_forward sched n p :
  Forall raw_insn p → sched.*2 = lname <$> seq 0 n →
  (∀ k a l, p !! k = Some a → tgt a = Some l →
    ∃ e, Z.of_nat k < e ≤ Z.of_nat k + 5 ∧ (e, l) ∈ sched) →
  (∀ l, l ∈ sched.*2 → ∃ k a, p !! k = Some a ∧ tgt a = Some l) →
  forward (woven label (schedule_labels (len p) sched) 0 p).
Proof.
  intros Hp Hsched Hlink Hback. set (m := schedule_labels (len p) sched).
  pose proof (raw_insn_code p Hp) as Hcode.
  assert (NoDup sched.*2) as Hnd by (rewrite Hsched; apply NoDup_fmap_2; [apply _|apply NoDup_seq]).
  assert (∀ l, ¬ is_code (label l)) as Hnc by (by intros l []).
  assert (linked m tgt 0 p) as Hl.
  { intros k a l Hk Ht. destruct (Hlink k a l Hk Ht) as (e & He & Hin).
    apply lookup_lt_Some in Hk. exists (Z.min e (len p)).
    split_and!; [unfold len; lia..|].
    unfold m. rewrite schedule_labels_lookup. apply list_elem_of_fmap.
    exists (e, l). split; [done|]. by apply list_elem_of_filter. }
  split.
  - intros i op a b t Hi.
    assert (Forall (λ i, match i with IBr _ _ _ (Offset _) => False | _ => True end)
      (woven label m 0 p)) as Hoff.
    { apply Forall_woven; [done|]. revert Hp. apply Forall_impl. intros []; try done. by destruct t0. }
    rewrite Forall_lookup in Hoff. specialize (Hoff _ _ Hi). destruct t as [z|l]; [done|].
    destruct (woven_target label is_code m Hnc tgt (λ _, eq_refl) 0 p i _ l Hcode Hl Hi eq_refl)
      as (j & Hij & Hj & Hlen).
    exists l, j. split_and!; try done. intros j' Hj'. by eapply woven_label_unique.
  - intros j x Hj.
    assert (ILine x ∈ filter (λ a, ¬ is_code a) (woven label m 0 p)) as Hin.
    { apply list_elem_of_filter. split; [by intros []|]. by eapply list_elem_of_lookup_2. }
    rewrite (woven_labels label is_code m Hnc) in Hin by done.
    apply list_elem_of_bind in Hin as (e & Hin & _). unfold labels_at in Hin.
    unfold m in Hin. rewrite schedule_labels_lookup in Hin.
    apply list_elem_of_fmap in Hin as (l & [= ->] & Hin).
    assert (l ∈ sched.*2) as Hl2.
    { apply list_elem_of_fmap in Hin as (y & -> & [_ Hy]%list_elem_of_filter).
      by apply list_elem_of_fmap_2. }
    destruct (Hback l Hl2) as (k & a & Hk & Ht).
    assert (a ∈ woven label m 0 p) as Ha.
    { apply list_elem_of_lookup_2 in Hk.
      rewrite <-(filter_woven label is_code m Hnc 0 p Hcode) in Hk.
      by apply list_elem_of_filter in Hk as [_ ?]. }
    apply list_elem_of_lookup in Ha as [i Hi]. destruct a as [| | | | |op a b [z|l']| | | | | | | | | | | | | ];
      simplify_eq/=. by exists i, op, a, b, l.
Qed.

Lemma raw_insn_ok i : raw_insn i → dests i ## _RESERVED.
Proof.
  pose proof (λ rd, gp_dest_disjoint rd _RESERVED) as Hd.
  intros Hi. destruct i; try done; try (apply Hd, Hi); simpl; set_solver.
Qed.

Lemma bp_generate_spec length s :
  st_ok s →
  ∃ out s' p, generate length s = Ok (out, s') ∧
    good_program (GPState.live (gp s)) _RESERVED out [] p ∧
    len (filter is_code p) = Z.max 1 length ∧ Forall raw_insn (filter is_code p) ∧
    forward p ∧ ∀ i j, control p i j → (i < j ≤ Datatypes.length p)%nat.
Proof.
  intros Hs. destruct (proj1 (wp_ok _ _ _) (bp_wp_generate length s Hs)) as
    (out & s' & Hgen & v & s1 & (p & Hraw & He & Hp & Hsched & Hlink & Hback) & Hlen & Hout).
  pose proof (raw_insn_code p Hp) as Hcode.
  assert (∀ l, ¬ is_code (label l)) as Hnc by (by intros l []).
  rewrite Hraw in Hout, Hlen. rewrite len_fmap in Hout, Hlen. rewrite woven_render in Hout.
  set (m := schedule_labels _ _) in Hout.
  exists out, s', (woven label m 0 p). rewrite (filter_woven label is_code m Hnc 0 p Hcode).
  assert (forward (woven label m 0 p)) as Hf by by eapply woven_forward.
  destruct He as (Himm & Htext & Hdbu & _ & _).
  split_and!; try done; [|by intros i j; apply forward_control].
  rewrite Hout. apply (good_program_intro _ _ []); simpl.
  - by apply Forall_woven.
  - by apply Forall_woven.
  - apply def_before_use_filter. by rewrite (filter_woven label is_code m Hnc 0 p Hcode).
  - apply Forall_woven; [intros l; simpl; set_solver|]. revert Hp. apply Forall_impl, raw_insn_ok.
Qed.

(** C13: The branch_pred scenario returns; without its labels the program has
    the requested length; every branch goes to a label planted exactly once,
    strictly after it, at most four instructions on; so control only moves
    forward and the generated test cannot loop. *)
Theorem branch_pred_generate length s :
  st_ok s →
  ∃ out s' p, generate length s = Ok (out, s') ∧
    good_program (GPState.live (gp s)) _RESERVED out [] p ∧
    len (filter is_code p) = Z.max 1 length ∧ Forall raw_insn (filter is_code p) ∧
    forward p ∧ ∀ i j, control p i j → (i < j ≤ Datatypes.length p)%nat.
Proof. exact (bp_generate_spec length s). Qed.

(** C14: Whatever the branches of a branch_pred program do, its end is
    reached: from the first line every execution leaves the program, in at
    most as many steps as it has lines. *)
Theorem branch_pred_reaches_end length s :
  st_ok s →
  ∃ out s' p, generate length s = Ok (out, s') ∧
    good_program (GPState.live (gp s)) _RESERVED out [] p ∧
    reaches_end p 0%nat ∧ ∀ n j, nsteps (control p) n 0%nat j → (n ≤ Datatypes.length p)%nat.
Proof.
  intros Hs. destruct (bp_generate_spec length s Hs) as (out & s' & p & Hg & Hp & _ & _ & _ & Hc).
  exists out, s', p. split; [done|]. split; [done|]. split.
  - apply control_reaches_end; [done|lia].
  - intros n j Hn. pose proof (control_nsteps p Hc n 0%nat j Hn ltac:(lia)). lia.
Qed.
End proofs.
End branch_pred.

(** ** A concrete run *)

#[local] Existing Instance branch_pred.is_code_dec.

Lemma branch_pred_generate_witness :
  let s := st_init (G:=Mt19937.mt) 2 in
  st_ok s ∧ ∃ out s' p, branch_pred.generate 30 s = Ok (out, s') ∧
    good_program (GPState.live (gp s)) branch_pred._RESERVED out [] p ∧
    len (filter branch_pred.is_code p) = 30 ∧
    Forall branch_pred.raw_insn (filter branch_pred.is_code p) ∧
    branch_pred.forward p ∧ ∀ i j, branch_pred.control p i j → (i < j ≤ length p)%nat.
Proof.
  split; [apply st_init_ok|]. exact (branch_pred.branch_pred_generate 30 _ (st_init_ok 2)).
Defined.

Lemma branch_pred_reaches_end_witness :
  let s := st_init (G:=Mt19937.mt) 2 in
  st_ok s ∧ ∃ out s' p, branch_pred.generate 30 s = Ok (out, s') ∧
    good_program (GPState.live (gp s)) branch_pred._RESERVED out [] p ∧
    branch_pred.reaches_end p 0%nat ∧ ∀ n j, nsteps (branch_pred.control p) n 0%nat j → (n ≤ length p)%nat.
Proof.
  split; [apply st_init_ok|]. exact (branch_pred.branch_pred_reaches_end 30 _ (st_init_ok 2)).
Defined.
