(* ===== verification/Generator.v ===== *)
(** The test generator (tools/crv/generator.py with the registry of
    tools/crv/scenarios/__init__.py): a scenario's lines between a prologue
    and an epilogue, as the text of an assembly file. *)
From S2P Require Export IntHazards.
From S2P Require Export MuldivInterleave.
From S2P Require Export MemOrdering.
From S2P Require Export RawStress.
From S2P Require Export FpArith.
From S2P Require Export FdivFsqrt.
From S2P Require Export Traps.
From S2P Require Export BranchPred.
Local Open Scope Z_scope.

(** ** The registry *)

Section registry.
Context {G : Type} `{PyRandom G}.

Definition _SCENARIOS : list (string * (Z → M G (list AsmInstr))) :=
  [("int_hazards", int_hazards.generate);
   ("muldiv_interleave", muldiv_interleave.generate);
   ("mem_ordering", mem_ordering.generate);
   ("fp_arith", fp_arith.generate);
   ("fdiv_fsqrt", fdiv_fsqrt.generate);
   ("branch_pred", branch_pred.generate);
   ("traps", traps.generate);
   ("raw_stress", raw_stress.generate)].

(** [_SCENARIOS[name]]; the message of the error names the scenario. *)
Definition get_scenario (name : string) : res (Z → M G (list AsmInstr)) :=
  match find (λ p, String.eqb p.1 name) _SCENARIOS with
  | Some (_, f) => Ok f
  | None => Raise (KeyError name)
  end.
End registry.

Definition all_scenarios : list string :=
  ["int_hazards"; "muldiv_interleave"; "mem_ordering"; "fp_arith"; "fdiv_fsqrt";
   "branch_pred"; "traps"; "raw_stress"].

(** ** The text of a program *)

Definition header_lines (scenario : string) (seed length : Z) : list string :=
  ["# Auto-generated by tools/crv/generator.py";
   "# scenario=" +:+ scenario +:+ " seed=" +:+ str_Z seed +:+ " length=" +:+ str_Z length;
   "# Re-run: make run-s5-crv_" +:+ scenario +:+ "_" +:+ str_Z seed;
   "";
   ".section .text";
   ".global main";
   "main:";
   "    addi    sp, sp, -16";
   "    sd      ra, 0(sp)"].

(** [_HEADER_TEMPLATE.format(...)] after [dedent] *)
Definition _HEADER_TEMPLATE (scenario : string) (seed length : Z) : string :=
  unlines (header_lines scenario seed length).

Definition footer_lines : list string :=
  ["ld      ra, 0(sp)";
   "addi    sp, sp, 16";
   "li      a0, 0           # CRV programs always pass at the asm level;";
   "                        # divergence is detected by trace_diff.py.";
   "ret"].

Definition _FOOTER : string := unlines footer_lines.

Definition indent : string := "        ".

(** What is written for one line of the body. *)
Definition write_line (instr : AsmInstr) : res string :=
  if String.eqb (mnemonic instr) "" then
    match operands instr with
    | [] => Raise (IndexError "tuple index out of range")
    | s :: _ => Ok (s +:+ newline)
    end
  else Ok (indent +:+ to_asm instr +:+ newline).

(** The content of the file; the directory and the file themselves are not
    modelled.  The file is opened only when the body is complete. *)
Definition generate_program {G} `{PyRandom G} (scenario : string) (seed length : Z) : res string :=
  fn ← get_scenario (G:=G) scenario;
  '(body, _) ← fn length (st_init seed);
  lines ← mapM (M:=res) write_line body;
  Ok (_HEADER_TEMPLATE scenario seed length +:+ str_concat lines +:+ _FOOTER).

(** ** Reading a program back *)

Definition read_line (s : string) : AsmInstr :=
  if String.eqb (str_take 8 s) indent then
    match split_at " " (str_drop 8 s) with
    | None => Asm (str_drop 8 s) []
    | Some (m, ops) => Asm m (split_operands ops)
    end
  else Asm "" [s].

(** The lines between the nine of the header and the five of the footer. *)
Definition read_program (text : string) : list AsmInstr :=
  let lines := split_all "010" text in
  read_line <$> take (length lines - 15) (drop 9 lines).

(** ** Lines that can be read back *)

Definition clean_char (c : Ascii.ascii) : bool :=
  negb (Ascii.eqb c " ") && negb (Ascii.eqb c ",") && negb (Ascii.eqb c "010").
Definition clean (s : string) : Prop := str_all clean_char s = true.

Lemma clean_app s t : clean s → clean t → clean (s +:+ t).
Proof. unfold clean. rewrite str_all_app. by intros -> ->. Qed.

Lemma clean_no_char c s : clean_char c = false → clean s → no_char c s.
Proof.
  intros Hc. apply str_all_impl. intros d Hd. apply negb_true_iff.
  destruct (Ascii.eqb_spec d c) as [->|]; [congruence|done].
Qed.

Lemma clean_str_Z z : clean (str_Z z).
Proof. eapply str_all_impl; [|apply str_Z_dec]. by intros [[] [] [] [] [] [] [] []]. Qed.

Lemma clean_Reg r : clean (Reg_asm r).
Proof. by destruct r. Qed.
Lemma clean_FReg r : clean (FReg_asm r).
Proof. by destruct r. Qed.
Lemma clean_paren r : clean (paren r).
Proof. by destruct r. Qed.
Lemma clean_rm rm : Forall clean (enc.rm_operand rm).
Proof. destruct rm; repeat constructor. Qed.
Lemma clean_mem z r : clean (enc.mem_operand z r).
Proof. unfold enc.mem_operand. apply clean_app; [apply clean_str_Z|]. by destruct r. Qed.

Lemma clean_csr c : 0 ≤ c → clean ("0x" +:+ fmt_hex 3 c).
Proof.
  intros Hc. apply clean_app; [done|].
  eapply str_all_impl; [|by apply fmt_hex_hex]. by intros [[] [] [] [] [] [] [] []].
Qed.

Definition readable (i : insn) : Prop :=
  text_ok i ∧
  match i with
  | IJal _ (Label l) | IBr _ _ _ (Label l) => clean l
  | ILine s => no_char "010" s ∧ str_take 8 s ≠ indent
  | _ => True
  end.

Create HintDb clean discriminated.
#[export] Hint Resolve clean_str_Z clean_Reg clean_FReg clean_paren clean_mem clean_csr clean_rm
  : clean.

Lemma render_clean i :
  readable i → (∃ s, i = ILine s) ∨
    (mnemonic (render i) ≠ "" ∧ clean (mnemonic (render i)) ∧ Forall clean (operands (render i))).
Proof.
  intros [Htext Hi].
  destruct i as [[]|[]|[]|rd [z|l]| |[] rs1 rs2 [z|l]|[]|[]|[] [] []|[] [] []|[]|[]|[]|[]|[]| | |[]|s];
    [right; split; [done|split; [done|]]..|left; by eexists];
    cbn [operands render prec app str_target] in *;
    repeat first [apply Forall_cons_2|apply Forall_nil_2|done]; auto with clean nocore.
Qed.

Lemma no_char_app c s t : no_char c s → no_char c t → no_char c (s +:+ t).
Proof. unfold no_char. rewrite str_all_app. by intros -> ->. Qed.

Lemma no_char_join c ops :
  c ≠ ","%char → c ≠ " "%char → Forall (no_char c) ops → no_char c (String.concat ", " ops).
Proof.
  intros H1 H2. induction 1 as [|s ops Hs Hops IH]; [done|]. destruct ops as [|s' ops]; [done|].
  change (String.concat ", " (s :: s' :: ops)) with
    (s +:+ (", " +:+ String.concat ", " (s' :: ops))).
  apply no_char_app; [done|]. apply no_char_app; [|done].
  unfold no_char. cbn [str_all]. destruct (Ascii.eqb_spec "," c), (Ascii.eqb_spec " " c); naive_solver.
Qed.

(** A line that is written can be read back. *)
Lemma read_write_line i :
  readable i → ∃ s, write_line (render i) = Ok (s +:+ newline) ∧ no_char "010" s ∧
    read_line s = render i.
Proof.
  intros Hi. destruct (render_clean i Hi) as [[s ->]|(Hne & Hm & Hops)].
  - destruct Hi as [_ [Hnl Hind]]. exists s. split_and!; [done|done|].
    unfold read_line. by destruct (String.eqb_spec (str_take 8 s) indent).
  - destruct (render i) as [m ops]. simpl in Hne, Hm, Hops.
    exists (indent +:+ to_asm (Asm m ops)). unfold write_line, read_line. cbn [mnemonic operands].
    destruct (String.eqb_spec m ""); [done|].
    rewrite str_take_app, str_drop_app, String.eqb_refl by done.
    split; [by rewrite str_app_assoc|]. unfold to_asm. cbn [mnemonic operands].
    assert (∀ c, clean_char c = false → no_char c m ∧ Forall (no_char c) ops) as Hno.
    { intros c Hc. split; [by apply clean_no_char|]. revert Hops. apply Forall_impl.
      intros s. by apply clean_no_char. }
    destruct ops as [|s ops].
    + split; [|by rewrite split_at_none by by apply Hno].
      apply no_char_app; [done|]. by apply Hno.
    + split.
      * apply no_char_app; [done|]. apply no_char_app; [by apply Hno|].
        apply (no_char_app _ " "); [done|]. apply no_char_join; [done|done|]. by apply Hno.
      * change (" " +:+ String.concat ", " (s :: ops)) with
          (String " " (String.concat ", " (s :: ops))).
        rewrite split_at_app by by apply Hno. by rewrite split_operands_join by (done || by apply Hno).
Qed.

Lemma write_lines p :
  Forall readable p → ∃ ss, mapM (M:=res) write_line (render <$> p) = Ok ((λ s, s +:+ newline) <$> ss) ∧
    Forall (no_char "010") ss ∧ read_line <$> ss = render <$> p.
Proof.
  induction 1 as [|i p Hi _ (ss & Hw & Hnl & Hr)]; [by exists []|].
  destruct (read_write_line i Hi) as (s & Hs & Hns & Hrs). exists (s :: ss). split_and!.
  - cbn [fmap list_fmap mapM]. rewrite Hs. cbn [mbind res_bind]. by rewrite Hw.
  - by constructor.
  - cbn [fmap list_fmap]. by rewrite Hrs, Hr.
Qed.

Lemma header_no_newline scenario seed length :
  no_char "010" scenario → Forall (no_char "010") (header_lines scenario seed length).
Proof.
  intros Hs. assert (∀ z, no_char "010" (str_Z z)) as Hz by (intros z; by apply clean_no_char, clean_str_Z).
  unfold header_lines. repeat apply Forall_cons_2; try done; repeat apply no_char_app; done.
Qed.

(** The lines of a program are found again in its text. *)
Lemma read_program_text scenario seed length p ss :
  no_char "010" scenario → Forall (no_char "010") ss → read_line <$> ss = render <$> p →
  read_program (_HEADER_TEMPLATE scenario seed length +:+
    str_concat ((λ s, s +:+ newline) <$> ss) +:+ _FOOTER) = render <$> p.
Proof.
  intros Hsc Hss Hr. unfold _HEADER_TEMPLATE, _FOOTER. fold (unlines ss).
  rewrite <-unlines_app, <-unlines_app. unfold read_program.
  rewrite split_all_unlines.
  - rewrite !length_app. simpl Datatypes.length at 1. rewrite <-Hr. f_equal.
    rewrite <-app_assoc, (drop_app_length' (header_lines _ _ _)) by done.
    rewrite <-app_assoc, take_app_length'; [done|]. simpl. lia.
  - apply Forall_app_2; [by apply header_no_newline|]. apply Forall_app_2; [done|].
    by repeat constructor.
Qed.

(** ** Every registered scenario *)

(** The registers a body may read without having written them: x0 and sp, and
    in the traps scenario the two the handler writes. *)
Definition entry_live (name : string) : gset Reg :=
  if String.eqb name "traps" then {[X0; X2; X5; X6]} else {[X0; X2]}.

(** The frame the prologue saved and the epilogue restores. *)
Definition frame : gset Reg := {[X0; X1; X2]}.

Definition good_body (live : gset Reg) (out : list AsmInstr) (p : list insn) : Prop :=
  out = render <$> p ∧ mapM decode_insn out = Some p ∧ Forall readable p ∧ Forall imm_ok p ∧
  def_before_use live p ∧ preserves frame p.

(** Lines without a label. *)
Definition plain (i : insn) : Prop :=
  match i with IJal _ _ | IBr _ _ _ _ | ILine _ => False | _ => True end.

Lemma plain_readable i : plain i → text_ok i → readable i.
Proof. by destruct i. Qed.

Lemma good_program_body L live rsv out setup body :
  good_program L rsv out setup body → L ⊆ live → frame ⊆ rsv →
  preserves frame setup →
  Forall (λ i, text_ok i → readable i) (setup ++ body) →
  good_body live out (setup ++ body).
Proof.
  intros (-> & Hdec & Htext & Himm & Hdbu & Hpres) HL Hrsv Hset Hread. split_and!; try done.
  - rewrite list.Forall_forall in *. intros i Hi. by apply Hread, Htext.
  - by eapply def_before_use_mono.
  - apply Forall_app_2; [done|]. revert Hpres. apply Forall_impl. intros i. set_solver.
Qed.

Lemma live_entry : _INITIAL_LIVE_GP ⊆ ({[X0; X2]} : gset Reg).
Proof. by_decide. Qed.

Section scenarios.
Context {G : Type} `{PyRandomLaws G}.
Implicit Types s : st G.

Definition scenario_ok (name : string) (f : Z → M G (list AsmInstr)) : Prop :=
  ∀ seed length, ∃ out s' p, f length (st_init seed) = Ok (out, s') ∧ good_body (entry_live name) out p.

Lemma int_hazards_ok : scenario_ok "int_hazards" int_hazards.generate.
Proof.
  intros seed length.
  destruct (int_hazards.ih_generate_spec length _ (st_init_ok seed)) as
    (out & s' & body & Hgen & Hgood & _ & Hb & _).
  exists out, s', (int_hazards.setup ++ body). split; [done|].
  eapply good_program_body; [done|apply live_entry|by_decide|by_decide|].
  apply Forall_app_2; [by repeat constructor|]. revert Hb. apply Forall_impl.
  intros i Hi. apply plain_readable. by destruct i.
Qed.

Lemma muldiv_interleave_ok : scenario_ok "muldiv_interleave" muldiv_interleave.generate.
Proof.
  intros seed length.
  destruct (muldiv_interleave.md_generate_spec length _ (st_init_ok seed)) as
    (out & s' & body & Hgen & Hgood & _ & Hb & _).
  exists out, s', (int_hazards.setup ++ body). split; [done|].
  eapply good_program_body; [done|apply live_entry|by_decide|by_decide|].
  apply Forall_app_2; [by repeat constructor|]. revert Hb. apply Forall_impl.
  intros i Hi. apply plain_readable. by destruct Hi as [Hi|[Hi|Hi]]; destruct i.
Qed.

Lemma mem_ordering_ok : scenario_ok "mem_ordering" mem_ordering.generate.
Proof.
  intros seed length.
  destruct (mem_ordering.mo_generate_spec length _ (st_init_ok seed)) as
    (out & s' & body & Hgen & Hgood & _ & Hb & _).
  exists out, s', (mem_ordering.setup ++ body). split; [done|].
  eapply good_program_body; [done|apply live_entry|by_decide|by_decide|].
  apply Forall_app_2; [by repeat constructor|]. revert Hb. apply Forall_impl.
  intros i Hi. apply plain_readable. by destruct Hi as [Hi|Hi]; destruct i.
Qed.

Lemma raw_stress_ok : scenario_ok "raw_stress" raw_stress.generate.
Proof.
  intros seed length.
  destruct (raw_stress.rs_generate_spec length _ (st_init_ok seed)) as
    (out & s' & ts & Hgen & Hgood & Hts & _).
  exists out, s', (raw_stress.setup ++ concat ts). split; [done|].
  eapply good_program_body; [done|apply live_entry|by_decide|by_decide|].
  apply Forall_app_2; [by repeat constructor|]. apply Forall_concat. revert Hts. apply Forall_impl.
  intros t (w & rd & rs2 & val & off & -> & _). by repeat constructor.
Qed.

Lemma fp_arith_ok : scenario_ok "fp_arith" fp_arith.generate.
Proof.
  intros seed length.
  destruct (fp_arith.fa_generate_spec length _ (st_init_ok seed)) as
    (out & s' & body & Hgen & Hgood & _ & Hb & _).
  exists out, s', body. split; [done|].
  apply (good_program_body _ _ _ _ [] body Hgood); [apply live_entry|by_decide|by_decide|].
  revert Hb. apply Forall_impl.
  intros i Hi. apply plain_readable. by destruct Hi as [Hi|Hi]; destruct i.
Qed.

Lemma fdiv_fsqrt_ok : scenario_ok "fdiv_fsqrt" fdiv_fsqrt.generate.
Proof.
  intros seed length.
  destruct (fdiv_fsqrt.fd_generate_spec length _ (st_init_ok seed)) as
    (out & s' & body & Hgen & Hgood & _ & Hb).
  exists out, s', body. split; [done|].
  apply (good_program_body _ _ _ _ [] body Hgood); [apply live_entry|by_decide|by_decide|].
  revert Hb. apply Forall_impl.
  intros i Hi. apply plain_readable. by destruct Hi as [Hi|[Hi|Hi]]; destruct i.
Qed.

Lemma clean_lname k : clean (branch_pred.lname k).
Proof. apply (clean_app ".Lbp_"); [done|]. apply clean_str_Z. Qed.

Lemma branch_pred_ok : scenario_ok "branch_pred" branch_pred.generate.
Proof.
  intros seed length.
  destruct (branch_pred.bp_generate_spec length _ (st_init_ok seed)) as
    (out & s' & p & Hgen & Hgood & _ & Hraw & [_ Hlab] & _).
  exists out, s', p. split; [done|].
  apply (good_program_body _ _ _ _ [] p Hgood); [apply live_entry|by_decide|by_decide|].
  rewrite Forall_forall in Hraw. apply list.Forall_forall. intros i Hi Htext.
  assert (branch_pred.is_code i → branch_pred.raw_insn i) as Hri.
  { intros Hc. apply Hraw. by apply list_elem_of_In, list_elem_of_filter. }
  split; [done|]. destruct i as [| | | | |op a b [z|l]| | | | | | | | | | | | |x]; try done;
    try by destruct (Hri I).
  - destruct (Hri I) as [_ [k ->]]. apply clean_lname.
  - apply list_elem_of_lookup in Hi as [j Hj].
    destruct (Hlab j x Hj) as (i & op & a & b & l & -> & Hbr).
    assert (branch_pred.raw_insn (IBr op a b (Label l))) as [_ [k ->]].
    { apply Hraw. apply list_elem_of_In, list_elem_of_filter. split; [done|].
      by eapply list_elem_of_lookup_2. }
    split; [|done]. apply no_char_app; [|done]. by apply clean_no_char, clean_lname.
Qed.

Lemma traps_ok : scenario_ok "traps" traps.generate.
Proof.
  intros seed length.
  destruct (traps.tr_generate_spec length _ (st_init_ok seed)) as
    (out & s' & body & Hgen & Hgood & _ & Hb & _).
  exists out, s', (traps.prologue ++ body). split; [done|].
  eapply good_program_body; [done|by_decide|by_decide|by_decide|].
  apply Forall_app_2; [by repeat constructor|]. revert Hb. apply Forall_impl.
  intros i Hi. apply plain_readable. by destruct Hi as [Hi|Hi]; destruct i.
Qed.

Lemma get_scenario_ok name :
  name ∈ all_scenarios → ∃ f, get_scenario (G:=G) name = Ok f ∧ scenario_ok name f.
Proof.
  intros Hn. unfold all_scenarios in Hn. repeat (apply elem_of_cons in Hn as [->|Hn];
    [eexists; split; [reflexivity|];
     auto using int_hazards_ok, muldiv_interleave_ok, mem_ordering_ok, fp_arith_ok,
       fdiv_fsqrt_ok, branch_pred_ok, traps_ok, raw_stress_ok|]).
  by apply elem_of_nil in Hn.
Qed.

Lemma generate_program_ok name seed length :
  name ∈ all_scenarios →
  ∃ text p, generate_program (G:=G) name seed length = Ok text ∧
    mapM decode_insn (read_program text) = Some p ∧ Forall imm_ok p ∧
    def_before_use (entry_live name) p ∧ preserves frame p.
Proof.
  intros Hn. destruct (get_scenario_ok name Hn) as (f & Hf & Hok).
  destruct (Hok seed length) as (out & s' & p & Hgen & -> & Hdec & Hread & Himm & Hdbu & Hpres).
  destruct (write_lines p Hread) as (ss & Hw & Hnl & Hrs).
  unfold generate_program. rewrite Hf. cbn [mbind res_bind]. rewrite Hgen.
  cbn [mbind res_bind]. rewrite Hw.
  eexists _, p. split; [done|]. rewrite (read_program_text _ _ _ p ss); [by split_and!| |done|done].
  unfold all_scenarios in Hn.
  repeat (apply elem_of_cons in Hn as [->|Hn]; [done|]). by apply elem_of_nil in Hn.
Qed.

(** C1: For every registered scenario, every seed and every length, the
    generator returns a program text whose body reads back as instructions
    with all immediates in range, that never read an integer register before
    an earlier line of the body wrote it, x0 and sp apart and, in the traps
    scenario only, x5 and x6, which the trap handler writes, and that leave
    x0, ra and sp to the prologue and epilogue. *)
Theorem generate_program_correct name seed length :
  name ∈ all_scenarios →
  ∃ text p, generate_program (G:=G) name seed length = Ok text ∧
    mapM decode_insn (read_program text) = Some p ∧ Forall imm_ok p ∧
    def_before_use (entry_live name) p ∧ preserves frame p.
Proof. apply generate_program_ok. Qed.

(** A scenario that is not registered is a KeyError, and nothing is
    generated. *)
Theorem generate_program_unknown name seed length :
  name ∉ all_scenarios → generate_program (G:=G) name seed length = Raise (KeyError name).
Proof.
  intros Hn. unfold generate_program, get_scenario.
  assert (find (λ p, String.eqb p.1 name) (_SCENARIOS (G:=G)) = None) as ->; [|done].
  unfold _SCENARIOS. cbn [find fst].
  repeat match goal with
  | |- context [String.eqb ?a name] =>
      destruct (String.eqb_spec a name) as [<-|_]; [exfalso; apply Hn; by_decide|]
  end. done.
Qed.
End scenarios.

(** ** Concrete runs *)

Lemma generate_program_correct_witness :
  "branch_pred" ∈ all_scenarios ∧
  ∃ text p, generate_program (G:=Mt19937.mt) "branch_pred" 4 30 = Ok text ∧
    mapM decode_insn (read_program text) = Some p ∧ Forall imm_ok p ∧
    def_before_use (entry_live "branch_pred") p ∧ preserves frame p.
Proof.
  assert ("branch_pred" ∈ all_scenarios) as Hn by by_decide.
  split; [exact Hn|]. exact (generate_program_correct "branch_pred" 4 30 Hn).
Defined.

Lemma generate_program_unknown_witness :
  "csr_stress" ∉ all_scenarios ∧
  generate_program (G:=Mt19937.mt) "csr_stress" 4 30 = Raise (KeyError "csr_stress").
Proof.
  assert ("csr_stress" ∉ all_scenarios) as Hn by by_decide.
  split; [exact Hn|]. exact (generate_program_unknown "csr_stress" 4 30 Hn).
Defined.
