(* ===== verification/TraceEvents.v ===== *)
(** Retire events and the line format of the normalised traces that
    tools/sail_trace_normalize.py and the Kronos simulator write and
    tools/trace_diff.py reads:
    [<pc_16hex>:<instr_8hex> [x<n>=<16hex>] [f<n>=<16hex>]
    [mem[<16hex>]=<16hex>] [csr[<3hex>]=<16hex>]]. *)
From S2P Require Export Regex.
Local Open Scope Z_scope.

(** ** Events *)

Inductive effect :=
  | XWrite (n v : Z)
  | FWrite (n v : Z)
  | MemWrite (a v : Z)
  | CsrWrite (a v : Z).

Record event := Event { ev_pc : Z; ev_instr : Z; ev_effects : list effect }.

#[export] Instance effect_eq_dec : EqDecision effect.
Proof. solve_decision. Defined.
#[export] Instance event_eq_dec : EqDecision event.
Proof. solve_decision. Defined.

(** The widths of the format. *)
Definition word64 (v : Z) : Prop := 0 ≤ v < 2 ^ 64.
Definition effect_ok (e : effect) : Prop :=
  match e with
  | XWrite n v | FWrite n v => 0 ≤ n ∧ word64 v
  | MemWrite a v => word64 a ∧ word64 v
  | CsrWrite a v => 0 ≤ a < 2 ^ 12 ∧ word64 v
  end.
Definition event_ok (ev : event) : Prop :=
  word64 (ev_pc ev) ∧ 0 ≤ ev_instr ev < 2 ^ 32 ∧ Forall effect_ok (ev_effects ev).

(** ** Text *)

Definition hex16 (v : Z) : string := fmt_hex 16 v.

Definition effect_text (e : effect) : string :=
  match e with
  | XWrite n v => "x" +:+ str_Z n +:+ "=" +:+ hex16 v
  | FWrite n v => "f" +:+ str_Z n +:+ "=" +:+ hex16 v
  | MemWrite a v => "mem[" +:+ hex16 a +:+ "]=" +:+ hex16 v
  | CsrWrite a v => "csr[" +:+ fmt_hex 3 a +:+ "]=" +:+ hex16 v
  end.

Definition effects_text (l : list effect) : string :=
  str_concat ((λ e, " " +:+ effect_text e) <$> l).

(** [<pc>:<instr>] *)
Definition key_text (pc instr : Z) : string := hex16 pc +:+ ":" +:+ fmt_hex 8 instr.

Definition event_text (ev : event) : string :=
  key_text (ev_pc ev) (ev_instr ev) +:+ effects_text (ev_effects ev).

Lemma join_effects h l :
  String.concat " " (h :: (effect_text <$> l)) = h +:+ effects_text l.
Proof.
  revert h. induction l as [|e l IH]; intros h; [by rewrite str_app_nil_r|].
  change (String.concat " " (h :: (effect_text <$> e :: l))) with
    (h +:+ " " +:+ String.concat " " (effect_text e :: (effect_text <$> l))).
  rewrite IH. unfold effects_text. cbn [fmap list_fmap str_concat foldr].
  by rewrite str_app_assoc.
Qed.

(** ** Characters of the pieces *)

Definition is_lower_hex (c : Ascii.ascii) : bool :=
  is_digit c || ((97 <=? code c) && (code c <=? 102)).

Lemma hex_digit_lower d : is_lower_hex (hex_digit d) = true.
Proof. unfold hex_digit. by repeat (case_match; try done). Qed.

Lemma hex_fixed_lower w z : str_all is_lower_hex (hex_fixed w z) = true.
Proof.
  revert z. induction w as [|w IH]; intros z; [done|]. cbn [hex_fixed].
  rewrite str_all_app, IH. simpl. by rewrite hex_digit_lower.
Qed.

Lemma fmt_hex_lower w z : 0 ≤ z → str_all is_lower_hex (fmt_hex w z) = true.
Proof. intros. unfold fmt_hex. rewrite (proj2 (Z.ltb_ge _ _)) by lia. apply hex_fixed_lower. Qed.

Lemma hex16_length v : word64 v → String.length (hex16 v) = 16%nat.
Proof. intros. apply length_fmt_hex; [lia|done]. Qed.

(** ** The effects of a line with some taken out

    [None] is an effect that was replaced by the empty string: the space before
    it stays. *)
Definition items_text (l : list (option effect)) : string :=
  str_concat ((λ o, " " +:+ from_option effect_text "" o) <$> l).

Lemma items_text_cons o l :
  items_text (o :: l) = " " +:+ from_option effect_text "" o +:+ items_text l.
Proof. unfold items_text. cbn [fmap list_fmap str_concat foldr]. by rewrite str_app_assoc. Qed.

Lemma items_text_app l k : items_text (l ++ k) = items_text l +:+ items_text k.
Proof. unfold items_text. by rewrite fmap_app, str_concat_app. Qed.

Lemma effects_text_cons e l : effects_text (e :: l) = " " +:+ effect_text e +:+ effects_text l.
Proof. unfold effects_text. cbn [fmap list_fmap str_concat foldr]. by rewrite str_app_assoc. Qed.

Lemma effects_items l : effects_text l = items_text (Some <$> l).
Proof. unfold effects_text, items_text. by rewrite <-list_fmap_compose. Qed.

Lemma effects_text_app l k : effects_text (l ++ k) = effects_text l +:+ effects_text k.
Proof. by rewrite !effects_items, fmap_app, items_text_app. Qed.

(** What follows an effect is the end of the line or a space. *)
Definition sep_head (s : string) : Prop := str_head s = None ∨ str_head s = Some " "%char.

Lemma items_sep l : sep_head (items_text l).
Proof. destruct l as [|o l]; [by left|]. right. by rewrite items_text_cons. Qed.
Lemma effects_sep l : sep_head (effects_text l).
Proof. rewrite effects_items. apply items_sep. Qed.

(** A character class holds at the pieces of an effect. *)
Lemma effect_text_all (p : Ascii.ascii → bool) e :
  effect_ok e →
  forallb (λ c, implb (is_lower_hex c) (p c)) all_ascii = true →
  (∀ c, one_of "xfmecsr[]=" c = true → p c = true) →
  str_all p (effect_text e) = true.
Proof.
  intros He Hp Hlit.
  assert (Hhex : ∀ w v, 0 ≤ v → str_all p (fmt_hex w v) = true).
  { intros w v Hv. by apply (str_all_ascii is_lower_hex p _ Hp), fmt_hex_lower. }
  assert (Hdec : ∀ n, 0 ≤ n → str_all p (str_Z n) = true).
  { intros n Hn. apply (str_all_ascii is_lower_hex p _ Hp), (str_all_impl is_digit _).
    - intros c Hc. unfold is_lower_hex. by rewrite Hc.
    - by apply str_Z_digits. }
  destruct e as [n v|n v|a v|a v]; cbn [effect_text]; unfold hex16, effect_ok, word64 in *;
    destruct_and?; rewrite !str_all_app; repeat (apply andb_true_intro; split);
    first [apply Hhex; lia|apply Hdec; lia|reflexivity|apply Hlit; reflexivity].
Qed.

Lemma key_text_all (p : Ascii.ascii → bool) pc instr :
  0 ≤ pc → 0 ≤ instr →
  forallb (λ c, implb (is_lower_hex c) (p c)) all_ascii = true →
  p ":"%char = true → str_all p (key_text pc instr) = true.
Proof.
  intros Hpc Hi Hp Hc.
  assert (Hhex : ∀ w v, 0 ≤ v → str_all p (fmt_hex w v) = true).
  { intros w v Hv. by apply (str_all_ascii is_lower_hex p _ Hp), fmt_hex_lower. }
  unfold key_text, hex16. rewrite !str_all_app, !Hhex by done. cbn [str_all]. by rewrite Hc.
Qed.

(** The two conditions on the class, by evaluation. *)
Lemma effect_text_class (p : Ascii.ascii → bool) e :
  effect_ok e →
  forallb (λ c, implb (is_lower_hex c || one_of "xfmecsr[]=" c) (p c))
    all_ascii = true →
  str_all p (effect_text e) = true.
Proof.
  intros He Hp. rewrite forallb_forall in Hp. apply effect_text_all; [done|..].
  - apply forallb_forall. intros c Hc. specialize (Hp c Hc). by destruct (is_lower_hex c).
  - apply ascii_impl, forallb_forall. intros c Hc. specialize (Hp c Hc).
    destruct (one_of _ c); [|done]. by rewrite orb_true_r in Hp.
Qed.

Lemma effect_no_space e : effect_ok e → no_space (effect_text e) = true.
Proof. intros. by apply effect_text_class. Qed.
Lemma key_no_space pc instr : 0 ≤ pc → 0 ≤ instr → no_space (key_text pc instr) = true.
Proof. intros. by apply key_text_all. Qed.

Lemma hex16_nonempty v : word64 v → hex16 v ≠ "".
Proof. intros Hv E. pose proof (hex16_length v Hv) as H. by rewrite E in H. Qed.

Lemma effect_ends e : effect_ok e → ends_solid (effect_text e) = true.
Proof.
  intros He. apply ends_solid_nonspace; [|by apply effect_no_space].
  by destruct e.
Qed.

Lemma key_nonempty pc instr : word64 pc → key_text pc instr ≠ "".
Proof.
  intros Hpc. unfold key_text. pose proof (hex16_nonempty pc Hpc). by destruct (hex16 pc).
Qed.

Lemma key_starts pc instr : word64 pc → 0 ≤ instr → starts_solid (key_text pc instr) = true.
Proof.
  intros Hpc Hi. pose proof (key_nonempty pc instr Hpc) as Hne.
  assert (no_space (key_text pc instr) = true) as Hs by (apply key_no_space; unfold word64 in *; lia).
  unfold no_space in Hs. destruct (key_text pc instr); [done|]. by apply andb_true_iff in Hs as [??].
Qed.

Lemma effects_ends h l :
  ends_solid h = true → Forall effect_ok l → ends_solid (h +:+ effects_text l) = true.
Proof.
  intros Hh Hl. revert h Hh. induction Hl as [|e l He _ IH]; intros h Hh.
  - by rewrite str_app_nil_r.
  - rewrite effects_text_cons, <-!str_app_assoc. apply IH.
    by apply ends_solid_app, effect_ends.
Qed.

Section event.
Context (ev : event) (Hok : event_ok ev).

Lemma event_starts : starts_solid (event_text ev) = true.
Proof. destruct Hok as (? & ? & _). apply starts_solid_app, key_starts; [done|lia]. Qed.

Lemma event_ends : ends_solid (event_text ev) = true.
Proof.
  destruct Hok as (Hpc & Hi & Hl). apply effects_ends; [|done].
  apply ends_solid_nonspace; [by apply key_nonempty|]. apply key_no_space; unfold word64 in *; lia.
Qed.

Lemma event_strip : strip (event_text ev) = event_text ev.
Proof. apply strip_solid; [apply event_starts|apply event_ends]. Qed.

Lemma event_nonempty : event_text ev ≠ "".
Proof. intros E. pose proof event_starts as H. by rewrite E in H. Qed.

Lemma event_no_linebreak : no_linebreak (event_text ev) = true.
Proof.
  destruct Hok as (Hpc & Hi & Hl). unfold no_linebreak, event_text. rewrite str_all_app.
  rewrite key_text_all by (done || unfold word64 in *; lia). cbn [andb].
  induction Hl as [|e l He _ IH]; [done|]. rewrite effects_text_cons, !str_all_app, IH.
  by rewrite effect_text_class.
Qed.
End event.

(** ** The text of an event determines it *)

Lemma hex16_inj a b : word64 a → word64 b → hex16 a = hex16 b → a = b.
Proof.
  intros Ha Hb E. apply (f_equal int_of_hex) in E. unfold hex16, word64 in *.
  rewrite !int_of_hex_fmt in E by lia. congruence.
Qed.

Lemma effect_text_inj e e' :
  effect_ok e → effect_ok e' → effect_text e = effect_text e' → e = e'.
Proof.
  assert (∀ n, 0 ≤ n → no_char "=" (str_Z n)) as Hdec.
  { intros n Hn. unfold no_char. by apply (str_all_ascii is_digit), str_Z_digits. }
  assert (∀ n n' v v', 0 ≤ n → 0 ≤ n' → word64 v → word64 v' →
    str_Z n +:+ "=" +:+ hex16 v = str_Z n' +:+ "=" +:+ hex16 v' → n = n' ∧ v = v') as Hreg.
  { intros n n' v v' Hn Hn' Hv Hv' H. apply (f_equal (split_at "=")) in H.
    rewrite !(str_app_cons "="), !split_at_app, !str_app_nil_l in H by (by apply Hdec). injection H as H1 H2.
    split; [by apply str_Z_inj|by apply hex16_inj]. }
  intros He He'. destruct e as [n v|n v|a v|a v], e' as [n' v'|n' v'|a' v'|a' v'];
    destruct He as [Hn Hv], He' as [Hn' Hv']; try done; cbn [effect_text]; rewrite !str_app_cons, !str_app_nil_l.
  - intros [= H]. by destruct (Hreg n n' v v') as [-> ->].
  - intros [= H]. by destruct (Hreg n n' v v') as [-> ->].
  - intros [= H]. apply str_app_inj_len in H as [H1 H2]; [|by rewrite !hex16_length].
    injection H2 as H2. apply hex16_inj in H1, H2; congruence || done.
  - intros [= H]. apply str_app_inj_len in H as [H1 H2]; [|by rewrite !length_fmt_hex by (done || lia)].
    injection H2 as H2. apply (f_equal int_of_hex) in H1. rewrite !int_of_hex_fmt in H1 by lia.
    injection H1 as ->. apply hex16_inj in H2; congruence || done.
Qed.

Lemma split_effects h l :
  no_char " " h → Forall effect_ok l →
  split_all " " (h +:+ effects_text l) = h :: (effect_text <$> l).
Proof.
  intros Hh Hl. revert h Hh. induction Hl as [|e l He _ IH]; intros h Hh.
  - rewrite str_app_nil_r. by apply split_all_none.
  - rewrite effects_text_cons, str_app_cons, str_app_nil_l, split_all_app by done.
    rewrite IH; [done|]. by apply effect_text_class.
Qed.

Lemma effects_text_inj h h' l l' :
  no_char " " h → no_char " " h' → Forall effect_ok l → Forall effect_ok l' →
  h +:+ effects_text l = h' +:+ effects_text l' → h = h' ∧ l = l'.
Proof.
  intros Hh Hh' Hl Hl' H. apply (f_equal (split_all " ")) in H. rewrite !split_effects in H by done.
  injection H as -> H. split; [done|]. revert l' Hl' H.
  induction Hl as [|e l He _ IH]; intros l' Hl' H; destruct Hl' as [|e' l' He' Hl']; try done.
  rewrite !fmap_cons in H. injection H as H1 H2. f_equal; [by apply effect_text_inj|by apply IH].
Qed.

Lemma hex16_no_space v : word64 v → no_char " " (hex16 v).
Proof.
  intros [Hv _]. unfold no_char, hex16. by apply (str_all_ascii is_lower_hex), fmt_hex_lower.
Qed.
