(* ===== verification/TraceDiff.v ===== *)
(** tools/trace_diff.py: the comparison of a Kronos retire trace with a Sail
    trace.  The definitions are the module's regular expressions and functions
    on text; the theorems say what they do on the lines the tools write, as
    operations on the events of [TraceEvents]. *)
From S2P Require Export TraceEvents.
Local Open Scope Z_scope.

Module trace_diff.

Definition HALT_ADDR : Z := 0x40000000.
Definition SIG_LO : Z := 0x0000000080002000.
Definition SIG_HI : Z := 0x0000000080004000.

Definition hexes (n : nat) : regex := RMany is_hex n (Some n).

Definition MEM_RE : regex :=
  RSeqs [RStr "mem["; RGroup 1 (hexes 16); RStr "]="; hexes 16].
Definition CSR_RE : regex :=
  RSeqs [RStar is_space; RStr "csr["; hexes 3; RStr "]="; hexes 16].
Definition INSTR_RE : regex :=
  RSeqs [RBegin; hexes 16; RStr ":"; RGroup 1 (RMany is_hex 1 (Some 8%nat)); RBoundary].
Definition EFFECT_RE : regex :=
  RAlt (RSeqs [RStr "x"; RPlus is_digit; RStr "="])
    (RAlt (RSeqs [RStr "f"; RPlus is_digit; RStr "="]) (RStr "mem[")).
Definition PC_RE : regex :=
  RSeqs [RBegin; RGroup 1 (hexes 16); RStr ":"; hexes 8; RGroup 2 (RStar not_newline)].

Definition HALT_SENTINEL : string := "mem[" +:+ fmt_hex 16 HALT_ADDR +:+ "]=".

(** [int(m.group(n), 16)]; the group holds hexadecimal digits. *)
Definition group_hex (n : nat) (m : found) : option Z := group n m ≫= int_of_hex.

Definition _csr_write_visible (line : string) : bool :=
  match re_match INSTR_RE line ≫= group_hex 1 with
  | None => false
  | Some instr =>
      if negb (Z.land instr 0x3 =? 0x3) then false
      else if negb (Z.land instr 0x7F =? 0x73) then false
      else
        let funct3 := Z.land (Z.shiftr instr 12) 0x7 in
        if (funct3 =? 0) || (funct3 =? 4) then false
        else if Z.land funct3 0x3 =? 0x1 then true
        else
          let rs1 := Z.land (Z.shiftr instr 15) 0x1F in
          negb (rs1 =? 0)
  end.

(** The inner function [_repl] of [strip_ignored]. *)
Definition _repl (m : found) : string :=
  match group_hex 1 m with
  | Some addr =>
      if (addr =? HALT_ADDR) || ((SIG_LO <=? addr) && (addr <? SIG_HI)) then ""
      else m_text m
  | None => m_text m
  end.

(** [re.sub(r"\s+", " ", s).strip()] *)
Definition collapse (s : string) : string :=
  strip (re_sub (RPlus is_space) (λ _, " ") s).

Definition strip_ignored (line : string) (strip_noeffect : bool) : string :=
  let had_mem := re_found MEM_RE line in
  let cleaned := re_sub MEM_RE _repl line in
  let cleaned := if _csr_write_visible cleaned then cleaned
                 else re_sub CSR_RE (λ _, "") cleaned in
  let cleaned := collapse cleaned in
  if had_mem && negb (re_found EFFECT_RE cleaned) then ""
  else if strip_noeffect && negb (re_found EFFECT_RE cleaned) then ""
  else cleaned.

(** The loop of [load]. *)
Fixpoint load_lines (strip_noeffect : bool) (lines : list string) : list string :=
  match lines with
  | [] => []
  | raw :: rest =>
      let raw := strip raw in
      if String.eqb raw "" then load_lines strip_noeffect rest
      else if contains HALT_SENTINEL raw then []
      else
        let s := strip_ignored raw strip_noeffect in
        if String.eqb s "" then load_lines strip_noeffect rest
        else s :: load_lines strip_noeffect rest
  end.

(** [load], on the text of the file. *)
Definition load (text : string) (strip_noeffect : bool) : list string :=
  load_lines strip_noeffect (splitlines text).

(** [line.split(" ", 1)[0]] *)
Definition pc_instr (line : string) : string := before_first " " line.
(** [line.split(":", 1)[0]] *)
Definition pc_only (line : string) : string := before_first ":" line.

Definition for_compare (line : string) : string :=
  match re_match PC_RE line with
  | Some m => strip (default "" (group 1 m) +:+ default "" (group 2 m))
  | None => line
  end.

(** [next((i for i, l in enumerate(b) if key(l) == k), None)] *)
Fixpoint find_key (key : string → string) (k : string) (b : list string) : option nat :=
  match b with
  | [] => None
  | l :: b => if String.eqb (key l) k then Some O else S <$> find_key key k b
  end.

(** Where the Sail trace begins to be compared. *)
Definition sail_start (a0 : string) (b : list string) : option nat :=
  match find_key pc_instr (pc_instr a0) b with
  | Some i => Some i
  | None => find_key pc_only (pc_only a0) b
  end.

(** The comparison loop: the first index below both lengths where the lines
    differ. *)
Fixpoint first_mismatch (i : nat) (a b : list string) : option (nat * string * string) :=
  match a, b with
  | x :: a, y :: b =>
      if String.eqb (for_compare x) (for_compare y) then first_mismatch (S i) a b
      else Some (i, x, y)
  | _, _ => None
  end.

Definition compare (a b : list string) : outcome :=
  match a with
  | [] => Outcome 1 [(Stderr, "MISMATCH: Kronos trace is empty")]
  | a0 :: _ =>
      match sail_start a0 b with
      | None => Outcome 1 [(Stdout, "SYNC FAIL: Kronos first instruction '" +:+ pc_instr a0
                                      +:+ "' not found in Sail trace")]
      | Some k =>
          let b := drop k b in
          match first_mismatch 0 a b with
          | Some (i, x, y) =>
              Outcome 1 [(Stdout, "MISMATCH at line " +:+ str_nat (i + 1));
                         (Stdout, "  kronos: " +:+ x); (Stdout, "  sail  : " +:+ y)]
          | None =>
              if (length a =? length b)%nat then Outcome 0 []
              else Outcome 1 [(Stdout, "MISMATCH length: kronos=" +:+ str_nat (length a)
                +:+ " sail=" +:+ str_nat (length b) +:+ " (first divergence after line "
                +:+ str_nat (Nat.min (length a) (length b)) +:+ ")")]
          end
      end
  end.

Section main.
(** [Path(p).read_text()] *)
Variable read_text : string → res string.

Definition main (argv : list string) : res outcome :=
  match argv with
  | [] => Raise (IndexError "list index out of range")
  | argv0 :: args =>
      let strip_noeffect := bool_decide ("--strip-noeffect" ∈ args) in
      let args := if strip_noeffect then filter (λ a, a ≠ "--strip-noeffect") args else args in
      match args with
      | [ka; sa] =>
          ta ← read_text ka;
          tb ← read_text sa;
          Ok (compare (load ta strip_noeffect) (load tb strip_noeffect))
      | _ => Ok (Outcome 2 [(Stderr, "Usage: " +:+ argv0
                +:+ " [--strip-noeffect] <kronos_trace> <sail_trace>")])
      end
  end.
End main.

(** The fixtures of tools/tests/test_trace_diff.py. *)
Example strip_sig :
  strip_ignored "0000000080000004:00100023 mem[0000000080002000]=0000000000000042" false = "".
Proof. vm_compute. reflexivity. Qed.
Example strip_csr :
  strip_ignored "0000000080000004:00100053 f1=3ff0000000000000 csr[001]=0000000000000001" false
  = "0000000080000004:00100053 f1=3ff0000000000000".
Proof. vm_compute. reflexivity. Qed.
Example keep_csr :
  strip_ignored "0000000080000004:34029073  csr[340]=0000000000000001" false
  = "0000000080000004:34029073 csr[340]=0000000000000001".
Proof. vm_compute. reflexivity. Qed.
Example compare_pc :
  for_compare "0000000080000004:34029073 csr[340]=0000000000000001"
  = "0000000080000004 csr[340]=0000000000000001".
Proof. vm_compute. reflexivity. Qed.
Example diff_mismatch :
  let t v := unlines ["0000000080000000:00000013"; "0000000080000004:00100093 x1=000000000000000" +:+ v] in
  main (λ p, Ok (t p)) ["trace_diff.py"; "1"; "2"] =
  Ok (Outcome 1 [(Stdout, "MISMATCH at line 2");
    (Stdout, "  kronos: 0000000080000004:00100093 x1=0000000000000001");
    (Stdout, "  sail  : 0000000080000004:00100093 x1=0000000000000002")]).
Proof. vm_compute. reflexivity. Qed.

(** ** The patterns on the pieces of a line *)

Lemma hit_hexes n b v t :
  (0 < n)%nat → 0 ≤ v < 16 ^ Z.of_nat n →
  hit (hexes n) b (fmt_hex n v +:+ t) (Found (fmt_hex n v) [] (last_or b (fmt_hex n v)) t).
Proof.
  intros Hn Hv. apply hit_many; [apply fmt_hex_hex; lia|..]; by rewrite length_fmt_hex.
Qed.

Lemma hit_hex16 b v t :
  word64 v → hit (hexes 16) b (hex16 v +:+ t) (Found (hex16 v) [] (last_or b (hex16 v)) t).
Proof. intros. apply hit_hexes; [lia|done]. Qed.

Lemma MEM_RE_hit b a v t :
  word64 a → word64 v →
  ∃ m, hit MEM_RE b (effect_text (MemWrite a v) +:+ t) m ∧
    m_text m = effect_text (MemWrite a v) ∧ group_hex 1 m = Some a.
Proof.
  intros Ha Hv. eexists. split; [|split].
  - unfold MEM_RE. cbn [effect_text]. rewrite !str_app_assoc.
    repeat first [by apply hit_hex16|hit_step].
  - cbn. by rewrite str_app_nil_r.
  - unfold group_hex, group. cbn. apply int_of_hex_fmt. unfold word64 in Ha. lia.
Qed.

Lemma CSR_RE_hit b a v t :
  effect_ok (CsrWrite a v) →
  ∃ m, hit (RSeqs [RStr "csr["; hexes 3; RStr "]="; hexes 16]) b (effect_text (CsrWrite a v) +:+ t) m ∧
    m_text m = effect_text (CsrWrite a v).
Proof.
  intros [Ha Hv]. eexists. split.
  - cbn [effect_text]. rewrite !str_app_assoc.
    repeat first [by apply hit_hex16|by apply hit_hexes; [lia|]|hit_step].
  - cbn. by rewrite str_app_nil_r.
Qed.

(** ** Removing memory writes *)

Definition ignored_mem (a : Z) : bool :=
  (a =? HALT_ADDR) || ((SIG_LO <=? a) && (a <? SIG_HI)).

Definition is_mem (e : effect) : bool := match e with MemWrite _ _ => true | _ => false end.

(** What [_repl] leaves of an effect. *)
Definition repl_item (e : effect) : option effect :=
  match e with
  | MemWrite a v => if ignored_mem a then None else Some e
  | _ => Some e
  end.

Lemma MEM_RE_quiet_key b pc instr t : 0 ≤ pc → 0 ≤ instr → quiet MEM_RE b (key_text pc instr) t.
Proof. intros. apply quiet_first; [done|]. by apply key_text_all. Qed.

Lemma MEM_RE_quiet_effect b e t :
  effect_ok e → is_mem e = false → quiet MEM_RE b (effect_text e) t.
Proof.
  intros He Hm. apply quiet_first; [done|].
  assert (forallb (λ c, implb (is_lower_hex c) (negb (first MEM_RE c))) all_ascii = true) as Hc by done.
  assert (Hhex : ∀ w v, 0 ≤ v → str_all (λ c, negb (first MEM_RE c)) (fmt_hex w v) = true).
  { intros w v Hv. by apply (str_all_ascii is_lower_hex _ _ Hc), fmt_hex_lower. }
  assert (Hdec : ∀ n, 0 ≤ n → str_all (λ c, negb (first MEM_RE c)) (str_Z n) = true).
  { intros n Hn. apply (str_all_ascii is_digit _); [done|]. by apply str_Z_digits. }
  destruct e as [n v|n v|a v|a v]; [..|done|]; cbn [effect_text]; unfold hex16, effect_ok, word64 in *;
    destruct He as [??]; rewrite !str_all_app; repeat (apply andb_true_intro; split);
    first [apply Hhex; lia|apply Hdec; lia|reflexivity].
Qed.

Lemma MEM_RE_sub_effects b l :
  Forall effect_ok l →
  sub_from MEM_RE _repl 0 b (effects_text l) = items_text (repl_item <$> l).
Proof.
  intros Hl. revert b. induction Hl as [|e l He _ IH]; intros b; [done|].
  rewrite effects_text_cons, fmap_cons, items_text_cons.
  rewrite (sub_from_quiet _ _ _ " ") by by apply quiet_first. f_equal.
  destruct (is_mem e) eqn:Hm.
  - destruct e as [| |a v|]; try done. destruct He as [Ha Hv].
    destruct (MEM_RE_hit (last_or b " ") a v (effects_text l) Ha Hv) as (m & Hm1 & Hm2 & Hm3).
    rewrite (sub_from_hit _ _ _ _ _ m) by done. rewrite IH. f_equal.
    unfold _repl, repl_item, ignored_mem. rewrite Hm3, Hm2. by case_match.
  - rewrite sub_from_quiet by by apply MEM_RE_quiet_effect. rewrite IH. f_equal.
    by destruct e.
Qed.

Lemma MEM_RE_found l b :
  Forall effect_ok l →
  match search_from MEM_RE b (effects_text l) with Some _ => true | None => false end = existsb is_mem l.
Proof.
  intros Hl. revert b. induction Hl as [|e l He _ IH]; intros b; [done|].
  rewrite effects_text_cons, (search_from_quiet _ _ " ") by by apply quiet_first.
  cbn [existsb]. destruct (is_mem e) eqn:Hm.
  - destruct e as [| |a v|]; try done. destruct He as [Ha Hv].
    destruct (MEM_RE_hit (last_or b " ") a v (effects_text l) Ha Hv) as (m & Hm1 & _).
    by rewrite (search_from_hit _ _ _ _ Hm1).
  - rewrite search_from_quiet by by apply MEM_RE_quiet_effect. apply IH.
Qed.

(** ** Removing CSR writes *)

Definition is_csr (e : effect) : bool := match e with CsrWrite _ _ => true | _ => false end.

(** No match of [CSR_RE] begins in text without white space and [s]. *)
Definition csr_free (c : Ascii.ascii) : bool := negb (is_space c) && negb (Ascii.eqb c "s").

Lemma CSR_RE_quiet b s t :
  str_all csr_free s = true → sep_head t → quiet CSR_RE b s t.
Proof.
  intros Hs Ht. revert b. induction s as [|c s IH]; intros b; [done|].
  cbn [str_all] in Hs. apply andb_true_iff in Hs as [Hc Hs]. cbn [quiet]. split; [|by apply IH].
  change (String c (s +:+ t)) with ("" +:+ String c (s +:+ t)).
  apply andb_true_iff in Hc as [Hc _]. unfold CSR_RE. cbn [RSeqs foldr].
  rewrite run_star_seq; [|done| |done|exact Hc].
  - match goal with |- _ <$> ?l = _ => assert (l = []) as ->; [|done] end.
    apply run_seq_nil, run_str_nil. cbn [starts_with].
    destruct (s +:+ t) as [|d u] eqn:E; [by destruct (Ascii.eqb _ _)|].
    cbn [starts_with]. destruct (Ascii.eqb "s" d) eqn:Ed; [|by rewrite andb_false_r].
    apply Ascii.eqb_eq in Ed as <-. destruct s as [|d s].
    + rewrite str_app_nil_l in E. subst t. by destruct Ht as [[=]|[=]].
    + rewrite str_app_cons in E. injection E as -> _. cbn in Hs. done.
  - by apply ascii_excl.
Qed.

Lemma CSR_RE_quiet_key b pc instr t :
  0 ≤ pc → 0 ≤ instr → sep_head t → quiet CSR_RE b (key_text pc instr) t.
Proof. intros. apply CSR_RE_quiet; [by apply key_text_all|done]. Qed.

Lemma CSR_RE_quiet_effect b e t :
  effect_ok e → is_csr e = false → sep_head t → quiet CSR_RE b (effect_text e) t.
Proof.
  intros He Hm Ht. apply CSR_RE_quiet; [|done].
  assert (forallb (λ c, implb (is_lower_hex c) (csr_free c)) all_ascii = true) as Hc by done.
  assert (Hhex : ∀ w v, 0 ≤ v → str_all csr_free (fmt_hex w v) = true).
  { intros w v Hv. by apply (str_all_ascii is_lower_hex _ _ Hc), fmt_hex_lower. }
  assert (Hdec : ∀ n, 0 ≤ n → str_all csr_free (str_Z n) = true).
  { intros n Hn. apply (str_all_ascii is_digit _); [done|]. by apply str_Z_digits. }
  destruct e as [n v|n v|a v|a v]; [..|done]; cbn [effect_text]; unfold hex16, effect_ok, word64 in *;
    destruct He as [??]; rewrite !str_all_app; repeat (apply andb_true_intro; split);
    first [apply Hhex; lia|apply Hdec; lia|reflexivity].
Qed.

(** [k] items taken out. *)
Definition blanks (k : nat) : string := items_text (replicate k None).

Lemma blanks_S k : blanks (S k) = " " +:+ blanks k.
Proof. unfold blanks. cbn [replicate]. by rewrite items_text_cons. Qed.
Lemma blanks_snoc k : blanks k +:+ " " = blanks (S k).
Proof. induction k as [|k IH]; [done|]. by rewrite (blanks_S (S k)), (blanks_S k) at 1; rewrite str_app_assoc, IH. Qed.
Lemma blanks_space k : str_all is_space (blanks k) = true.
Proof. induction k as [|k IH]; [done|]. by rewrite blanks_S, str_all_app, IH. Qed.

(** At a run of blanks [CSR_RE] takes them all before a CSR write. *)
Lemma CSR_RE_blanks b k t :
  default true (negb ∘ is_space <$> str_head t) = true →
  run CSR_RE b (blanks k +:+ t) =
    found_app (Found (blanks k) [] (last_or b (blanks k)) t) <$>
      run (RSeqs [RStr "csr["; hexes 3; RStr "]="; hexes 16]) (last_or b (blanks k)) t.
Proof.
  intros Ht. unfold CSR_RE. cbn [RSeqs foldr]. rewrite run_star_seq; [done|done| |apply blanks_space|done].
  by apply ascii_excl.
Qed.

Lemma effect_head_space e t :
  default true (negb ∘ is_space <$> str_head (effect_text e +:+ t)) = true.
Proof. by destruct e. Qed.

Lemma effect_head_csr e t :
  is_csr e = false → default true (negb ∘ Ascii.eqb "c" <$> str_head (effect_text e +:+ t)) = true.
Proof. by destruct e. Qed.

Lemma CSR_RE_blanks_quiet b k t :
  default true (negb ∘ is_space <$> str_head t) = true →
  default true (negb ∘ Ascii.eqb "c" <$> str_head t) = true →
  quiet CSR_RE b (blanks k) t.
Proof.
  intros Ht Hc. revert b. induction k as [|k IH]; intros b; [done|].
  rewrite blanks_S, str_app_cons, str_app_nil_l. cbn [quiet]. split; [|apply IH].
  change (String " " (blanks k +:+ t)) with ((" " +:+ blanks k) +:+ t).
  rewrite <-blanks_S, CSR_RE_blanks by done.
  match goal with |- _ <$> ?l = _ => assert (l = []) as ->; [|done] end.
  destruct t as [|c t]; [by apply run_nil_empty|]. apply run_nil_first; [done|].
  cbn [first RSeqs foldr nullable andb]. rewrite orb_false_r. by apply negb_true_iff in Hc.
Qed.

Lemma CSR_RE_sub_items b k items :
  Forall (λ o, ∀ e, o = Some e → effect_ok e) items →
  ∃ items', sub_from CSR_RE (λ _, "") 0 b (blanks k +:+ items_text items) = items_text items' ∧
    omap id items' = filter (λ e, is_csr e = false) (omap id items) ∧
    Forall (λ o, ∀ e, o = Some e → effect_ok e) items'.
Proof.
  intros Hl. revert b k. induction Hl as [|o items Ho _ IH]; intros b k.
  - exists (replicate k None). rewrite sub_from_quiet by by apply CSR_RE_blanks_quiet.
    cbn [items_text sub_from]. rewrite str_app_nil_r. split; [done|]. clear.
    induction k as [|k [IH1 IH2]]; [done|]. split; [done|]. by constructor.
  - destruct o as [e|].
    + specialize (Ho e eq_refl).
      rewrite items_text_cons, <-str_app_assoc, blanks_snoc. cbn [from_option].
      destruct (is_csr e) eqn:He.
      * destruct e as [| | |a v]; try done.
        destruct (CSR_RE_hit (last_or b (blanks (S k))) a v (items_text items) Ho) as (m & Hm & Hmt).
        rewrite <-str_app_assoc.
        destruct (IH (last_or b (blanks (S k) +:+ effect_text (CsrWrite a v))) 0%nat) as (items' & H1 & H2 & H3).
        exists items'. rewrite (sub_from_hit _ _ _ _ _
          (found_app (Found (blanks (S k)) [] (last_or b (blanks (S k))) (effect_text (CsrWrite a v) +:+ items_text items)) m)).
        -- rewrite <-H1. done.
        -- unfold hit. rewrite str_app_assoc, CSR_RE_blanks by apply effect_head_space.
           by apply head_fmap_Some.
        -- cbn. by rewrite Hmt.
        -- by rewrite blanks_S.
      * destruct (IH (last_or (last_or b (blanks (S k))) (effect_text e)) 0%nat) as (items' & H1 & H2 & H3).
        exists (replicate k None ++ Some e :: items'). split; [|split].
        -- rewrite sub_from_quiet by (apply CSR_RE_blanks_quiet; [apply effect_head_space|by apply effect_head_csr]).
           rewrite sub_from_quiet by (apply CSR_RE_quiet_effect; [done|done|apply items_sep]).
           change (blanks 0 +:+ items_text items) with (items_text items) in H1.
           rewrite H1, items_text_app, items_text_cons. cbn [from_option].
           change (items_text (replicate k None)) with (blanks k).
           by rewrite <-(str_app_assoc (blanks k)), blanks_snoc.
        -- rewrite omap_app. cbn [omap list_omap id]. rewrite filter_cons_True, H2 by done.
           assert (omap id (replicate k (@None effect)) = []) as ->; [|done].
           clear. by induction k.
        -- apply Forall_app. split; [apply Forall_replicate; by intros ? [=]|].
           constructor; [by intros ? [= <-]|done].
    + rewrite items_text_cons, <-str_app_assoc, blanks_snoc. cbn [from_option].
      rewrite str_app_nil_l. destruct (IH b (S k)) as (items' & H1 & H2 & H3). by exists items'.
Qed.

(** ** Collapsing white space *)

Lemma ws_quiet b s t : no_space s = true → quiet (RPlus is_space) b s t.
Proof. intros H. by apply quiet_first. Qed.

Lemma ws_hit b w t :
  str_all is_space w = true → w ≠ "" → default true (negb ∘ is_space <$> str_head t) = true →
  hit (RPlus is_space) b (w +:+ t) (Found w [] (last_or b w) t).
Proof. intros. apply hit_many; [done| |done]. destruct w; [done|cbn; lia]. Qed.

Lemma ws_sub_items b k items :
  Forall (λ o, ∀ e, o = Some e → effect_ok e) items →
  ∃ w, sub_from (RPlus is_space) (λ _, " ") 0 b (blanks k +:+ items_text items)
    = effects_text (omap id items) +:+ w ∧ str_all is_space w = true.
Proof.
  intros Hl. revert b k. induction Hl as [|o items Ho _ IH]; intros b k.
  - cbn [items_text omap list_omap]. destruct k as [|k]; [by exists ""|]. exists " ". split; [|done].
    rewrite (sub_from_hit _ _ _ _ _ (Found (blanks (S k)) [] (last_or b (blanks (S k))) "")); [done| |done|done].
    apply ws_hit; [apply blanks_space|done|done].
  - rewrite items_text_cons, <-str_app_assoc, blanks_snoc. destruct o as [e|].
    + specialize (Ho e eq_refl). cbn [from_option].
      destruct (IH (last_or (last_or b (blanks (S k))) (effect_text e)) 0%nat) as (w & Hw1 & Hw2).
      exists w. split; [|done].
      rewrite (sub_from_hit _ _ _ _ _ (Found (blanks (S k)) [] (last_or b (blanks (S k)))
        (effect_text e +:+ items_text items))); [|apply ws_hit; [apply blanks_space|done|apply effect_head_space]|done|done].
      rewrite sub_from_quiet by by apply ws_quiet, effect_no_space.
      change (blanks 0 +:+ items_text items) with (items_text items) in Hw1. rewrite Hw1.
      cbn [omap list_omap id]. by rewrite effects_text_cons, !str_app_assoc.
    + cbn [from_option]. rewrite str_app_nil_l. apply IH.
Qed.

Lemma omap_ok items :
  Forall (λ o, ∀ e, o = Some e → effect_ok e) items → Forall effect_ok (omap id items).
Proof.
  induction 1 as [|o items Ho _ IH]; [constructor|]. destruct o as [e|]; [|done].
  constructor; [by apply Ho|done].
Qed.

Lemma collapse_items pc instr items :
  word64 pc → 0 ≤ instr → Forall (λ o, ∀ e, o = Some e → effect_ok e) items →
  collapse (key_text pc instr +:+ items_text items) = key_text pc instr +:+ effects_text (omap id items).
Proof.
  intros Hpc Hi Hl. unfold collapse, re_sub.
  assert (0 ≤ pc) by (unfold word64 in Hpc; lia).
  rewrite sub_from_quiet by by apply ws_quiet, key_no_space.
  destruct (ws_sub_items (last_or None (key_text pc instr)) 0 items Hl) as (w & Hw1 & Hw2).
  change (blanks 0 +:+ items_text items) with (items_text items) in Hw1. rewrite Hw1, <-str_app_assoc.
  assert (starts_solid (key_text pc instr +:+ effects_text (omap id items)) = true) as Hst.
  { by apply starts_solid_app, key_starts. }
  unfold strip. rewrite lstrip_app_solid, rstrip_spaces by done.
  apply rstrip_solid, effects_ends; [|by apply omap_ok].
  apply ends_solid_nonspace; [by apply key_nonempty|by apply key_no_space].
Qed.

(** ** The visible effects *)

Definition visible (e : effect) : bool := negb (is_csr e).

Definition no_effect_char (c : Ascii.ascii) : bool :=
  negb (Ascii.eqb c "x") && negb (Ascii.eqb c "m") && negb (Ascii.eqb c "=").

Lemma f_digits_nil b s t :
  str_all no_effect_char s = true →
  default true ((λ c, negb (is_digit c) && negb (Ascii.eqb c "=")) <$> str_head t) = true →
  run (RSeqs [RPlus is_digit; RStr "="]) b (s +:+ t) = [].
Proof.
  intros Hs Ht. cbn [RSeqs foldr].
  destruct (run _ b (s +:+ t)) as [|m l] eqn:E; [done|exfalso].
  assert (m ∈ run (RSeq (RPlus is_digit) (RSeq (RStr "=") REmpty)) b (s +:+ t)) as Hm by (rewrite E; constructor).
  pose proof (run_sound _ _ _ _ Hm) as [Hsound _].
  apply run_seq_inv in Hm as (m1 & m2 & Hm1 & Hm2 & Htext & _).
  apply run_seq_inv in Hm2 as (m3 & m4 & Hm3 & Hm4 & Htext' & _).
  apply lit_text in Hm3. apply many_text in Hm1 as [Hd _].
  rewrite Htext, Htext', Hm3, str_app_assoc in Hsound. clear Htext Htext' Hm3 Hm4 E.
  revert s Hs Hsound. induction (m_text m1) as [|c ds IH]; intros s Hs Hsound.
  - rewrite str_app_nil_l in Hsound. destruct s as [|c s].
    + rewrite str_app_nil_l in Hsound. by subst t.
    + rewrite !str_app_cons in Hsound. injection Hsound as -> _. done.
  - cbn [str_all] in Hd. apply andb_true_iff in Hd as [Hc Hd].
    destruct s as [|c' s].
    + rewrite str_app_nil_l, str_app_cons in Hsound. subst t. apply andb_true_iff in Ht as [Ht _].
      by rewrite Hc in Ht.
    + rewrite !str_app_cons in Hsound. injection Hsound as -> Hsound.
      cbn [str_all] in Hs. apply andb_true_iff in Hs as [_ Hs]. by apply (IH Hd s).
Qed.

Lemma EFFECT_RE_quiet b s t :
  str_all no_effect_char s = true →
  default true ((λ c, negb (is_digit c) && negb (Ascii.eqb c "=")) <$> str_head t) = true →
  quiet EFFECT_RE b s t.
Proof.
  intros Hs Ht. revert b. induction s as [|c s IH]; intros b; [done|].
  cbn [str_all] in Hs. apply andb_true_iff in Hs as [Hc Hs]. cbn [quiet]. split; [|by apply IH].
  unfold no_effect_char in Hc. apply andb_true_iff in Hc as [[Hx Hm]%andb_true_iff He].
  apply negb_true_iff in Hx, Hm. rewrite Ascii.eqb_sym in Hx, Hm.
  unfold EFFECT_RE. apply run_alt_nil; [|apply run_alt_nil].
  - apply run_nil_first; [done|]. cbn [first RSeqs foldr nullable andb]. by rewrite orb_false_r.
  - destruct (Ascii.eqb_spec "f" c) as [<-|Ef].
    + change (String "f" (s +:+ t)) with ("f" +:+ (s +:+ t)). cbn [RSeqs foldr]. rewrite run_str_seq.
      pose proof (f_digits_nil (last_or b "f") s t Hs Ht) as Hf. cbn [RSeqs foldr] in Hf. by rewrite Hf.
    + apply run_nil_first; [done|]. cbn [first RSeqs foldr nullable andb]. rewrite orb_false_r.
      by destruct (Ascii.eqb_spec "f" c).
  - by apply run_nil_first.
Qed.

Lemma EFFECT_RE_quiet_key b pc instr t :
  0 ≤ pc → 0 ≤ instr → sep_head t → quiet EFFECT_RE b (key_text pc instr) t.
Proof.
  intros ?? Ht. apply EFFECT_RE_quiet; [by apply key_text_all|].
  by destruct Ht as [->| ->].
Qed.

Lemma EFFECT_RE_quiet_csr b a v t :
  effect_ok (CsrWrite a v) → sep_head t → quiet EFFECT_RE b (effect_text (CsrWrite a v)) t.
Proof.
  intros [Ha Hv] Ht. assert (∀ w z, 0 ≤ z → str_all no_effect_char (fmt_hex w z) = true) as Hhex.
  { intros w z Hz. by apply (str_all_ascii is_lower_hex), fmt_hex_lower. }
  unfold word64 in Hv. cbn [effect_text]. unfold hex16.
  repeat apply quiet_app.
  - by apply quiet_first.
  - apply EFFECT_RE_quiet; [apply Hhex; lia|done].
  - by apply quiet_first.
  - apply EFFECT_RE_quiet; [apply Hhex; lia|]. by destruct Ht as [->| ->].
Qed.

Lemma hit_reg_write c b n t :
  0 ≤ n → hit (RSeqs [RStr (String c ""); RPlus is_digit; RStr "="]) b
    (String c "" +:+ str_Z n +:+ "=" +:+ t)
    (Found (String c "" +:+ str_Z n +:+ "=") [] (Some "="%char) t).
Proof.
  intros Hn.
  assert (∀ m m', hit (RSeqs [RStr (String c ""); RPlus is_digit; RStr "="]) b
    (String c "" +:+ str_Z n +:+ "=" +:+ t) m → m = m' → hit (RSeqs [RStr (String c ""); RPlus is_digit; RStr "="]) b
    (String c "" +:+ str_Z n +:+ "=" +:+ t) m') as Hconv by by intros ?? ? <-.
  eapply Hconv.
  - repeat first [apply hit_many; [by apply str_Z_digits| |done]|hit_step].
    pose proof (str_Z_nonempty n). destruct (str_Z n); [done|cbn; lia].
  - unfold found_app. cbn [m_text m_groups m_before m_after]. by rewrite str_app_nil_r.
Qed.

Lemma EFFECT_RE_hit b e t :
  effect_ok e → visible e = true → ∃ m, hit EFFECT_RE b (effect_text e +:+ t) m.
Proof.
  intros He Hv. destruct e as [n v|n v|a v|a v]; [..|done]; cbn [effect_text]; rewrite !str_app_assoc.
  - destruct He as [Hn _]. eexists. apply hit_alt_l. by apply hit_reg_write.
  - destruct He as [Hn _]. eexists. apply hit_alt_r; [by apply run_nil_first|].
    apply hit_alt_l. by apply hit_reg_write.
  - eexists. apply hit_alt_r; [by apply run_nil_first|].
    apply hit_alt_r; [by apply run_nil_first|]. apply hit_str.
Qed.

Lemma EFFECT_RE_found pc instr l :
  word64 pc → 0 ≤ instr → Forall effect_ok l →
  re_found EFFECT_RE (key_text pc instr +:+ effects_text l) = existsb visible l.
Proof.
  intros Hpc Hi Hl. unfold re_found, re_search.
  rewrite search_from_quiet by (apply EFFECT_RE_quiet_key; [unfold word64 in Hpc; lia|done|apply effects_sep]).
  generalize (last_or None (key_text pc instr)). intros b. revert b.
  induction Hl as [|e l He _ IH]; intros b; [done|].
  rewrite effects_text_cons, (search_from_quiet _ _ " ") by by apply quiet_first.
  cbn [existsb]. destruct (visible e) eqn:Hv.
  - destruct (EFFECT_RE_hit (last_or b " ") e (effects_text l) He Hv) as (m & Hm).
    by rewrite (search_from_hit _ _ _ _ Hm).
  - destruct e as [| | |a v]; try done.
    rewrite search_from_quiet by (apply EFFECT_RE_quiet_csr; [done|apply effects_sep]). apply IH.
Qed.

(** ** What is kept of an event *)

(** The instruction word is a Zicsr instruction that writes its CSR: CSRRW and
    CSRRWI always, the set and clear forms when their source field is not zero
    (privileged specification, 9.1). *)
Definition zicsr_writes (instr : Z) : bool :=
  let opcode := instr `mod` 2 ^ 7 in
  let funct3 := (instr / 2 ^ 12) `mod` 2 ^ 3 in
  let rs1 := (instr / 2 ^ 15) `mod` 2 ^ 5 in
  (opcode =? 115) &&
  (bool_decide (funct3 ∈ [1; 5]) || (bool_decide (funct3 ∈ [2; 3; 6; 7]) && negb (rs1 =? 0))).

Lemma INSTR_RE_match pc instr t :
  word64 pc → 0 ≤ instr < 2 ^ 32 → sep_head t →
  re_match INSTR_RE (key_text pc instr +:+ t) ≫= group_hex 1 = Some instr.
Proof.
  intros Hpc Hi Ht. assert (String.length (fmt_hex 8 instr) = 8%nat) as Hlen by (apply length_fmt_hex; [lia|exact Hi]).
  assert (∃ m, hit INSTR_RE None (key_text pc instr +:+ t) m ∧ group_hex 1 m = Some instr) as (m & Hm & Hg).
  { eexists. split.
    - unfold INSTR_RE, key_text. rewrite !str_app_assoc.
      repeat first [by apply hit_hex16|
        apply hit_many; [apply fmt_hex_hex; lia|lia|exact Hlen]|hit_step].
      match goal with |- opt_word (last_or ?b ?w) ≠ _ => destruct (last_or_all is_hex b w) as (c & Hc & Hx) end;
        [|apply fmt_hex_hex; lia|].
      + intros E. by rewrite E in Hlen.
      + rewrite Hc. cbn [opt_word]. rewrite (ascii_impl is_hex is_word eq_refl c Hx).
        by destruct Ht as [->| ->].
    - unfold group_hex, group. cbn. apply int_of_hex_fmt. lia. }
  by rewrite (re_match_hit _ _ _ Hm).
Qed.

Lemma csr_write_visible_instr instr :
  0 ≤ instr →
  (if negb (Z.land instr 0x3 =? 0x3) then false
   else if negb (Z.land instr 0x7F =? 0x73) then false
   else
     let funct3 := Z.land (Z.shiftr instr 12) 0x7 in
     if (funct3 =? 0) || (funct3 =? 4) then false
     else if Z.land funct3 0x3 =? 0x1 then true
     else let rs1 := Z.land (Z.shiftr instr 15) 0x1F in negb (rs1 =? 0)) = zicsr_writes instr.
Proof.
  intros Hi. cbv zeta. unfold zicsr_writes.
  assert (∀ x k m, 0 ≤ k → m = Z.ones k → Z.land x m = x `mod` 2 ^ k) as Hland.
  { intros x k m Hk ->. by apply Z.land_ones. }
  rewrite (Hland instr 2 0x3), (Hland instr 7 0x7F), (Hland _ 3 0x7), (Hland _ 5 0x1F) by done.
  rewrite !Z.shiftr_div_pow2 by lia.
  set (f3 := (instr / 2 ^ 12) `mod` 2 ^ 3). set (rs1 := (instr / 2 ^ 15) `mod` 2 ^ 5).
  destruct (Z.eqb_spec (instr `mod` 2 ^ 7) 115) as [Hop|Hop]; cbn [andb].
  - assert (instr `mod` 2 ^ 2 = 3) as ->.
    { replace (instr `mod` 2 ^ 2) with ((instr `mod` 2 ^ 7) `mod` 2 ^ 2); [by rewrite Hop|].
      change (2 ^ 7) with (2 ^ 2 * 2 ^ 5). rewrite Z.rem_mul_r by lia.
      rewrite Z.mul_comm, Z.mod_add by lia. by apply Z.mod_mod. }
    change (negb (3 =? 3)) with false. cbn [negb].
    assert (0 ≤ f3 < 8) as Hf by (apply Z.mod_pos_bound; lia).
    assert (f3 = 0 ∨ f3 = 1 ∨ f3 = 2 ∨ f3 = 3 ∨ f3 = 4 ∨ f3 = 5 ∨ f3 = 6 ∨ f3 = 7) as H by lia.
    destruct H as [->|[->|[->|[->|[->|[->|[->| ->]]]]]]]; reflexivity.
  - by destruct (negb (_ =? 3)).
Qed.

Lemma csr_write_visible_line pc instr t :
  word64 pc → 0 ≤ instr < 2 ^ 32 → sep_head t →
  _csr_write_visible (key_text pc instr +:+ t) = zicsr_writes instr.
Proof.
  intros Hpc Hi Ht. unfold _csr_write_visible. rewrite INSTR_RE_match by done.
  apply csr_write_visible_instr. lia.
Qed.

(** The effects of an event that are compared: not the memory writes of the
    halt and signature regions; CSR writes on the instructions that make them
    explicitly. *)
Definition keep_effect (instr : Z) (e : effect) : bool :=
  match e with
  | MemWrite a _ => negb (ignored_mem a)
  | CsrWrite _ _ => zicsr_writes instr
  | _ => true
  end.

(** The line of an event after [strip_ignored]: [None] is the empty string. *)
Definition observe (strip_noeffect : bool) (ev : event) : option event :=
  let l := filter (λ e, keep_effect (ev_instr ev) e = true) (ev_effects ev) in
  if (existsb is_mem (ev_effects ev) || strip_noeffect) && negb (existsb visible l) then None
  else Some (Event (ev_pc ev) (ev_instr ev) l).

Lemma keep_repl instr (l : list effect) :
  (if zicsr_writes instr then omap id (repl_item <$> l)
   else filter (λ e, is_csr e = false) (omap id (repl_item <$> l)))
  = filter (λ e, keep_effect instr e = true) l.
Proof.
  induction l as [|e l IH]; [by case_match|]. rewrite filter_cons, <-IH.
  destruct e as [n v|n v|a v|a v]; cbn [fmap list_fmap omap list_omap repl_item id keep_effect].
  - rewrite decide_True by done. case_match; [done|]. by rewrite filter_cons_True.
  - rewrite decide_True by done. case_match; [done|]. by rewrite filter_cons_True.
  - destruct (ignored_mem a); cbn [id negb].
    + by rewrite decide_False by done.
    + rewrite decide_True by done. case_match; [done|]. by rewrite filter_cons_True.
  - destruct (zicsr_writes instr).
    + by rewrite decide_True by done.
    + rewrite decide_False by done. by rewrite filter_cons_False by done.
Qed.

Lemma repl_items_ok l :
  Forall effect_ok l → Forall (λ o, ∀ e, o = Some e → effect_ok e) (repl_item <$> l).
Proof.
  induction 1 as [|e l He _ IH]; [constructor|]. rewrite fmap_cons. constructor; [|done].
  intros e'. destruct e as [n v|n v|a v|a v]; cbn [repl_item]; try by intros [= <-].
  case_match; [done|]. by intros [= <-].
Qed.

Lemma observe_effects_ok instr l :
  Forall effect_ok l → Forall effect_ok (filter (λ e, keep_effect instr e = true) l).
Proof. intros H. rewrite list.Forall_forall in H |- *. intros e [_ He]%list_elem_of_filter. by apply H. Qed.

Lemma strip_ignored_text ev noeff :
  event_ok ev →
  strip_ignored (event_text ev) noeff = from_option event_text "" (observe noeff ev).
Proof.
  intros Hok. destruct ev as [pc instr l]. pose proof Hok as (Hpc & Hi & Hl).
  cbn [ev_pc ev_instr ev_effects] in *. unfold strip_ignored, event_text. cbn [ev_pc ev_instr ev_effects].
  assert (0 ≤ pc) as Hpc0 by (unfold word64 in Hpc; lia).
  assert (re_found MEM_RE (key_text pc instr +:+ effects_text l) = existsb is_mem l) as ->.
  { unfold re_found, re_search. rewrite search_from_quiet by (apply MEM_RE_quiet_key; lia).
    by apply MEM_RE_found. }
  assert (re_sub MEM_RE _repl (key_text pc instr +:+ effects_text l)
    = key_text pc instr +:+ items_text (repl_item <$> l)) as ->.
  { unfold re_sub. rewrite sub_from_quiet by (apply MEM_RE_quiet_key; lia).
    by rewrite MEM_RE_sub_effects. }
  rewrite csr_write_visible_line by (done || apply items_sep).
  assert (collapse (if zicsr_writes instr then key_text pc instr +:+ items_text (repl_item <$> l)
    else re_sub CSR_RE (λ _, "") (key_text pc instr +:+ items_text (repl_item <$> l)))
    = key_text pc instr +:+ effects_text (filter (λ e, keep_effect instr e = true) l)) as ->.
  { rewrite <-keep_repl. destruct (zicsr_writes instr).
    - apply collapse_items; [done|lia|by apply repl_items_ok].
    - unfold re_sub. rewrite sub_from_quiet by (apply CSR_RE_quiet_key; [done|lia|apply items_sep]).
      destruct (CSR_RE_sub_items (last_or None (key_text pc instr)) 0 (repl_item <$> l)) as (items' & H1 & H2 & H3);
        [by apply repl_items_ok|].
      change (blanks 0 +:+ items_text (repl_item <$> l)) with (items_text (repl_item <$> l)) in H1.
      rewrite H1, collapse_items, H2 by (done || lia). done. }
  rewrite EFFECT_RE_found by (done || lia || by apply observe_effects_ok).
  unfold observe. cbn [ev_pc ev_instr ev_effects].
  destruct (existsb is_mem l), noeff, (existsb visible _); reflexivity.
Qed.

(** ** The halt sentinel *)

Definition is_halt (e : effect) : bool :=
  match e with MemWrite a _ => a =? HALT_ADDR | _ => false end.

Definition halts (ev : event) : bool := existsb is_halt (ev_effects ev).

(** The events before the first write of the halt address. *)
Fixpoint before_halt (evs : list event) : list event :=
  match evs with
  | [] => []
  | ev :: evs => if halts ev then [] else ev :: before_halt evs
  end.

Lemma sentinel_mem a t :
  word64 a → starts_with HALT_SENTINEL ("mem[" +:+ hex16 a +:+ "]=" +:+ t) = (a =? HALT_ADDR).
Proof.
  intros Ha. rewrite <-!str_app_assoc.
  rewrite starts_with_eq by (rewrite !str_length_app, hex16_length by done; reflexivity).
  unfold HALT_SENTINEL. change (fmt_hex 16 HALT_ADDR) with (hex16 HALT_ADDR). rewrite <-str_app_assoc.
  destruct (Z.eqb_spec a HALT_ADDR) as [->|Hne]; [by apply String.eqb_refl|].
  apply String.eqb_neq. intros E. apply Hne. symmetry.
  apply str_app_inj_len in E as [E _]; [|rewrite !str_length_app, !hex16_length by done; reflexivity].
  apply str_app_inj_len in E as [_ E]; [|reflexivity]. by apply hex16_inj in E.
Qed.

Lemma contains_sentinel_em t : contains HALT_SENTINEL ("em[" +:+ t) = contains HALT_SENTINEL t.
Proof. reflexivity. Qed.

Lemma contains_sentinel_mem t :
  contains HALT_SENTINEL ("mem[" +:+ t) = starts_with HALT_SENTINEL ("mem[" +:+ t) || contains HALT_SENTINEL t.
Proof. rewrite <-contains_sentinel_em. reflexivity. Qed.

Lemma contains_sentinel_skip s t :
  no_char "m" s → contains HALT_SENTINEL (s +:+ t) = contains HALT_SENTINEL t.
Proof. apply contains_skip. Qed.

Lemma contains_sentinel_effects l :
  Forall effect_ok l → contains HALT_SENTINEL (effects_text l) = existsb is_halt l.
Proof.
  assert (∀ w v, 0 ≤ v → no_char "m" (fmt_hex w v)) as Hhex.
  { intros w v Hv. unfold no_char. by apply (str_all_ascii is_lower_hex), fmt_hex_lower. }
  assert (∀ v, word64 v → no_char "m" (hex16 v)) as Hhex16 by (intros v [??]; by apply Hhex).
  assert (∀ n, 0 ≤ n → no_char "m" (str_Z n)) as Hdec.
  { intros n Hn. unfold no_char. by apply (str_all_ascii is_digit), str_Z_digits. }
  induction 1 as [|e l He _ IH]; [reflexivity|].
  rewrite effects_text_cons, contains_sentinel_skip by done. cbn [existsb]. rewrite <-IH.
  destruct e as [n v|n v|a v|a v]; destruct He as [Hn Hv]; cbn [effect_text is_halt]; rewrite !str_app_assoc.
  - by rewrite !contains_sentinel_skip by (done || auto).
  - by rewrite !contains_sentinel_skip by (done || auto).
  - rewrite contains_sentinel_mem, sentinel_mem by done. f_equal.
    by rewrite !contains_sentinel_skip by (done || auto).
  - by rewrite !contains_sentinel_skip by (done || auto; apply Hhex; lia).
Qed.

Lemma contains_sentinel_event ev : event_ok ev → contains HALT_SENTINEL (event_text ev) = halts ev.
Proof.
  intros (Hpc & Hi & Hl). unfold event_text. unfold word64 in Hpc.
  rewrite contains_sentinel_skip by (apply key_text_all; done || lia).
  by apply contains_sentinel_effects.
Qed.

(** ** Loading a trace *)

Lemma observe_ok noeff ev ev' : event_ok ev → observe noeff ev = Some ev' → event_ok ev'.
Proof.
  intros (Hpc & Hi & Hl). unfold observe. case_match; [done|]. intros [= <-].
  split; [done|split; [done|by apply observe_effects_ok]].
Qed.

(** The events a trace is compared by. *)
Definition observed (noeff : bool) (evs : list event) : list event :=
  omap (observe noeff) (before_halt evs).

Lemma load_lines_events noeff evs :
  Forall event_ok evs →
  load_lines noeff (event_text <$> evs) = event_text <$> observed noeff evs.
Proof.
  unfold observed. induction 1 as [|ev evs Hok _ IH]; [done|].
  rewrite fmap_cons. cbn [load_lines before_halt]. rewrite event_strip by done.
  rewrite (proj2 (String.eqb_neq _ _) (event_nonempty ev Hok)), contains_sentinel_event by done.
  destruct (halts ev); [done|]. rewrite strip_ignored_text by done. cbn [omap list_omap].
  destruct (observe noeff ev) as [ev'|] eqn:Ho; cbn [from_option].
  - apply observe_ok in Ho; [|done].
    by rewrite (proj2 (String.eqb_neq _ _) (event_nonempty ev' Ho)), IH.
  - apply IH.
Qed.

Lemma load_events noeff evs :
  Forall event_ok evs →
  load (unlines (event_text <$> evs)) noeff = event_text <$> observed noeff evs.
Proof.
  intros H. unfold load. rewrite splitlines_unlines; [by apply load_lines_events|].
  apply Forall_fmap. revert H. apply Forall_impl. intros ev Hev. by apply event_no_linebreak.
Qed.

Lemma observed_ok noeff evs : Forall event_ok evs → Forall event_ok (observed noeff evs).
Proof.
  unfold observed. induction 1 as [|ev evs Hok _ IH]; [constructor|]. cbn [before_halt].
  destruct (halts ev); [constructor|]. cbn [omap list_omap].
  destruct (observe noeff ev) as [ev'|] eqn:Ho; [|done]. constructor; [|done]. by eapply observe_ok.
Qed.

(** ** The keys of a line and its compared part *)

Lemma key_no_char c pc instr :
  word64 pc → 0 ≤ instr → is_lower_hex c = false → c ≠ ":"%char → no_char c (key_text pc instr).
Proof.
  intros Hpc Hi Hc Hcol. assert (∀ w v, 0 ≤ v → no_char c (fmt_hex w v)) as Hhex.
  { intros w v Hv. unfold no_char. apply (str_all_impl is_lower_hex); [|by apply fmt_hex_lower].
    intros d Hd. destruct (Ascii.eqb_spec d c) as [->|]; [congruence|done]. }
  unfold no_char, key_text, hex16, word64 in *. rewrite !str_all_app, !Hhex by lia.
  cbn [str_all]. by destruct (Ascii.eqb_spec ":" c).
Qed.

Lemma pc_instr_event ev : event_ok ev → pc_instr (event_text ev) = key_text (ev_pc ev) (ev_instr ev).
Proof.
  intros (Hpc & Hi & _). unfold pc_instr, event_text.
  assert (no_char " " (key_text (ev_pc ev) (ev_instr ev))) as Hk by (apply key_no_char; done || lia).
  destruct (ev_effects ev) as [|e l].
  - rewrite str_app_nil_r. by apply before_first_none.
  - rewrite effects_text_cons, str_app_cons. by apply before_first_app.
Qed.

Lemma pc_only_event ev : event_ok ev → pc_only (event_text ev) = hex16 (ev_pc ev).
Proof.
  intros (Hpc & Hi & _). unfold pc_only, event_text, key_text. rewrite !str_app_assoc, (str_app_cons ":").
  apply before_first_app. unfold no_char, hex16. unfold word64 in Hpc.
  apply (str_all_ascii is_lower_hex); [done|apply fmt_hex_lower; lia].
Qed.

Lemma for_compare_event ev :
  event_ok ev → for_compare (event_text ev) = hex16 (ev_pc ev) +:+ effects_text (ev_effects ev).
Proof.
  intros (Hpc & Hi & Hl). unfold for_compare.
  assert (String.length (fmt_hex 8 (ev_instr ev)) = 8%nat) as Hlen by (apply length_fmt_hex; [lia|exact Hi]).
  assert (str_all not_newline (effects_text (ev_effects ev)) = true) as Hnl.
  { induction Hl as [|e l He _ IH]; [done|]. rewrite effects_text_cons, !str_all_app, IH.
    by rewrite effect_text_class. }
  assert (∃ m, hit PC_RE None (event_text ev) m ∧ group 1 m = Some (hex16 (ev_pc ev)) ∧
    group 2 m = Some (effects_text (ev_effects ev))) as (m & Hm & H1 & H2).
  { eexists. split.
    - unfold PC_RE, event_text, key_text. rewrite !str_app_assoc.
      rewrite <-(str_app_nil_r (effects_text (ev_effects ev))).
      repeat first [by apply hit_hex16|
        apply hit_many; [apply fmt_hex_hex; lia|lia|exact Hlen]|
        apply hit_many; [exact Hnl|lia|done]|hit_step].
    - done. }
  rewrite (re_match_hit _ _ _ Hm), H1, H2. cbn [default from_option].
  apply strip_solid.
  - apply starts_solid_app. pose proof (hex16_nonempty _ Hpc).
    assert (no_space (hex16 (ev_pc ev)) = true) as Hs.
    { unfold no_space, hex16, word64 in *. apply (str_all_ascii is_lower_hex); [done|apply fmt_hex_lower; lia]. }
    destruct (hex16 (ev_pc ev)); [done|]. by apply andb_true_iff in Hs as [??].
  - apply effects_ends; [|done]. apply ends_solid_nonspace; [by apply hex16_nonempty|].
    unfold no_space, hex16, word64 in *. apply (str_all_ascii is_lower_hex); [done|apply fmt_hex_lower; lia].
Qed.

(** ** What a comparison accepts *)

(** The part of an event that is compared. *)
Definition comparable (ev : event) : Z * list effect := (ev_pc ev, ev_effects ev).
Definition key (ev : event) : Z * Z := (ev_pc ev, ev_instr ev).

(** [post] is [b] from its first event with [P] on. *)
Definition starts_at (P : event → Prop) (b post : list event) : Prop :=
  ∃ pre e rest, b = pre ++ e :: rest ∧ post = e :: rest ∧ Forall (λ e, ¬ P e) pre ∧ P e.

(** Where the comparison with the Sail events begins: at the first event with
    the same program counter and instruction as the first Kronos event, or,
    when there is none, at the first with the same program counter. *)
Definition synced (a0 : event) (b post : list event) : Prop :=
  starts_at (λ e, key e = key a0) b post ∨
  (Forall (λ e, key e ≠ key a0) b ∧ starts_at (λ e, ev_pc e = ev_pc a0) b post).

(** The Kronos events [a] agree with the Sail events [b]. *)
Definition agree (a b : list event) : Prop :=
  ∃ a0 a' post, a = a0 :: a' ∧ synced a0 b post ∧ comparable <$> a = comparable <$> post.

Section find.
Context (f : string → string) (P : event → Prop) `{∀ e, Decision (P e)} (k : string).

Lemma find_key_spec b :
  Forall (λ e, f (event_text e) = k ↔ P e) b →
  match find_key f k (event_text <$> b) with
  | Some i => starts_at P b (drop i b)
  | None => Forall (λ e, ¬ P e) b
  end.
Proof.
  induction 1 as [|e b He _ IH]; [constructor|]. rewrite fmap_cons. cbn [find_key].
  destruct (String.eqb_spec (f (event_text e)) k) as [E|E].
  - exists [], e, b. rewrite <-He. by repeat split; try constructor.
  - assert (¬ P e) as HP by by rewrite <-He.
    destruct (find_key f k (event_text <$> b)) as [i|]; cbn [fmap option_fmap option_map].
    + destruct IH as (pre & e' & rest & H1 & H2 & H3 & H4). exists (e :: pre), e', rest.
      rewrite H1 at 1. split; [done|]. split; [done|]. split; [by constructor|done].
    + by constructor.
Qed.
End find.

Lemma starts_at_fun P b post post' : starts_at P b post → starts_at P b post' → post = post'.
Proof.
  intros (pre & e & rest & -> & -> & Hpre & He) (pre' & e' & rest' & Hb & -> & Hpre' & He').
  revert pre' Hb Hpre'. induction Hpre as [|x pre Hx Hpre IH]; intros pre' Hb Hpre'.
  - destruct Hpre' as [|y pre' Hy Hpre']; [by injection Hb as -> ->|]. by injection Hb as -> _.
  - destruct Hpre' as [|y pre' Hy Hpre']; [by injection Hb as -> _|].
    injection Hb as _ Hb. by apply (IH pre').
Qed.

Lemma starts_at_not P b post : starts_at P b post → ¬ Forall (λ e, ¬ P e) b.
Proof. intros (pre & e & rest & -> & _ & _ & He) [_ H]%Forall_app. by inversion H. Qed.

Lemma key_text_inj pc instr pc' instr' :
  word64 pc → word64 pc' → 0 ≤ instr < 2 ^ 32 → 0 ≤ instr' < 2 ^ 32 →
  key_text pc instr = key_text pc' instr' ↔ (pc, instr) = (pc', instr').
Proof.
  intros Hpc Hpc' Hi Hi'. split; [|by intros [= -> ->]]. unfold key_text. intros H.
  apply str_app_inj_len in H as [H1 H2]; [|by rewrite !hex16_length].
  apply hex16_inj in H1; [|done..]. injection H2 as H2. apply (f_equal int_of_hex) in H2.
  rewrite !str_app_nil_l, !int_of_hex_fmt in H2 by lia. congruence.
Qed.

Lemma sail_start_events a0 b :
  event_ok a0 → Forall event_ok b →
  match sail_start (event_text a0) (event_text <$> b) with
  | Some i => synced a0 b (drop i b)
  | None => ∀ post, ¬ synced a0 b post
  end.
Proof.
  intros Ha Hb. unfold sail_start. pose proof Ha as (Hpc & Hi & _).
  assert (Forall (λ e, pc_instr (event_text e) = pc_instr (event_text a0) ↔ key e = key a0) b) as F1.
  { revert Hb. apply Forall_impl. intros e He. rewrite !pc_instr_event by done.
    destruct He as (? & ? & _). by apply key_text_inj. }
  assert (Forall (λ e, pc_only (event_text e) = pc_only (event_text a0) ↔ ev_pc e = ev_pc a0) b) as F2.
  { revert Hb. apply Forall_impl. intros e He. rewrite !pc_only_event by done.
    destruct He as (? & ? & _). split; [by apply hex16_inj|by intros ->]. }
  pose proof (find_key_spec _ _ _ _ F1) as H1. pose proof (find_key_spec _ _ _ _ F2) as H2.
  destruct (find_key pc_instr _ _) as [i|]; [by left|].
  destruct (find_key pc_only _ _) as [i|]; [by right|].
  intros post [H|[_ H]]; by apply starts_at_not in H.
Qed.

Lemma synced_fun a0 b post post' : synced a0 b post → synced a0 b post' → post = post'.
Proof.
  intros [H|[Hn H]] [H'|[Hn' H']].
  - by eapply starts_at_fun.
  - by apply starts_at_not in H.
  - by apply starts_at_not in H'.
  - by eapply starts_at_fun.
Qed.

Lemma for_compare_eq e e' :
  event_ok e → event_ok e' →
  for_compare (event_text e) = for_compare (event_text e') ↔ comparable e = comparable e'.
Proof.
  intros He He'. rewrite !for_compare_event by done.
  destruct He as (Hpc & Hi & Hl), He' as (Hpc' & Hi' & Hl'). unfold comparable. split.
  - intros H. apply effects_text_inj in H as [H1 H2]; [|by auto using hex16_no_space..].
    apply hex16_inj in H1; [|done..]. congruence.
  - by intros [= -> ->].
Qed.

Lemma first_mismatch_events i a b :
  Forall event_ok a → Forall event_ok b →
  first_mismatch i (event_text <$> a) (event_text <$> b) = None ∧ length a = length b
  ↔ comparable <$> a = comparable <$> b.
Proof.
  intros Ha. revert i b. induction Ha as [|x a Hx _ IH]; intros i b Hb.
  - destruct b; cbn; split; try done; by intros [_ [=]].
  - destruct Hb as [|y b Hy Hb]; [split; [by intros [_ [=]]|done]|].
    rewrite !fmap_cons. cbn [first_mismatch length].
    destruct (String.eqb_spec (for_compare (event_text x)) (for_compare (event_text y))) as [E|E].
    + apply for_compare_eq in E; [|done..]. rewrite E. split.
      * intros [H1 [= H2]]. f_equal. by apply (IH (S i)).
      * intros [= H]. apply (IH (S i) b Hb) in H as [-> ->]. done.
    + split; [by intros [[=] _]|]. intros [= H1 H2 _]. destruct E. apply for_compare_eq; [done..|].
      unfold comparable. congruence.
Qed.

Lemma compare_events a b :
  Forall event_ok a → Forall event_ok b →
  exit_code (compare (event_text <$> a) (event_text <$> b)) = 0 ↔ agree a b.
Proof.
  intros Ha Hb. unfold compare. destruct a as [|a0 a].
  { split; [done|]. by intros (? & ? & ? & [=] & _). }
  inversion Ha as [|? ? Ha0 Ha']; subst. rewrite fmap_cons.
  pose proof (sail_start_events a0 b Ha0 Hb) as Hs.
  destruct (sail_start _ _) as [i|].
  - rewrite <-fmap_cons, <-fmap_drop.
    assert (Forall event_ok (drop i b)) as Hd by by apply Forall_drop.
    pose proof (first_mismatch_events 0 (a0 :: a) (drop i b) Ha Hd) as Hm.
    assert (agree (a0 :: a) b ↔ comparable <$> (a0 :: a) = comparable <$> drop i b) as ->.
    { split.
      - intros (? & ? & post & [= <- <-] & Hp & H). by rewrite (synced_fun _ _ _ _ Hs Hp).
      - intros H. by exists a0, a, (drop i b). }
    rewrite <-Hm, !length_fmap. destruct (first_mismatch _ _ _) as [[[j x] y]|].
    + split; [done|]. by intros [[=] _].
    + destruct (Nat.eqb_spec (length (a0 :: a)) (length (drop i b))) as [E|E]; cbn [exit_code].
      * split; done.
      * split; [done|]. by intros [_ H].
  - split; [done|]. intros (? & ? & post & [= <- <-] & Hp & _). by apply Hs in Hp.
Qed.

(** ** The tool *)

Definition flag : string := "--strip-noeffect".

(** The command line, with or without the flag. *)
Definition command (noeff : bool) (prog ka sa : string) : list string :=
  prog :: (if noeff then [flag] else []) ++ [ka; sa].

Lemma main_command read noeff prog ka sa ta tb :
  ka ≠ flag → sa ≠ flag → read ka = Ok ta → read sa = Ok tb →
  main read (command noeff prog ka sa) = Ok (compare (load ta noeff) (load tb noeff)).
Proof.
  intros Hka Hsa Hta Htb. unfold main, command. cbv zeta.
  destruct noeff; cbn [app].
  - rewrite bool_decide_true by constructor. fold flag.
    rewrite filter_cons_False by auto. rewrite !filter_cons_True by done. cbn [filter list_filter].
    by rewrite Hta, Htb.
  - rewrite bool_decide_false by set_solver. by rewrite Hta, Htb.
Qed.

Lemma first_mismatch_lookup i a b j x y :
  first_mismatch i a b = Some (j, x, y) ↔
  ∃ k, j = (i + k)%nat ∧ a !! k = Some x ∧ b !! k = Some y ∧ for_compare x ≠ for_compare y ∧
    ∀ h x' y', (h < k)%nat → a !! h = Some x' → b !! h = Some y' → for_compare x' = for_compare y'.
Proof.
  revert i b. induction a as [|x0 a IH]; intros i b.
  { split; [done|]. by intros (k & _ & H & _). }
  destruct b as [|y0 b].
  { split; [done|]. by intros (k & _ & _ & H & _). }
  cbn [first_mismatch]. destruct (String.eqb_spec (for_compare x0) (for_compare y0)) as [E|E].
  - rewrite IH. split.
    + intros (k & -> & Hx & Hy & Hne & Hlt). exists (S k). split; [lia|]. split; [done|]. split; [done|].
      split; [done|]. intros [|h] x' y' Hh; cbn [lookup list_lookup]; [by intros [= ->] [= ->]|].
      apply Hlt. lia.
    + intros ([|k] & -> & Hx & Hy & Hne & Hlt); [by injection Hx as ->; injection Hy as ->|].
      exists k. split; [lia|]. split; [done|]. split; [done|]. split; [done|].
      intros h x' y' Hh. apply (Hlt (S h)). lia.
  - split.
    + intros [= <- <- <-]. exists O. split; [lia|]. split; [done|]. split; [done|]. split; [done|]. lia.
    + intros ([|k] & -> & Hx & Hy & Hne & Hlt).
      * injection Hx as ->. injection Hy as ->. by rewrite Nat.add_0_r.
      * destruct E. apply (Hlt O); [lia|done..].
Qed.

Lemma first_mismatch_refl i a : first_mismatch i a a = None.
Proof. revert i. induction a as [|x a IH]; intros i; [done|]. cbn. by rewrite String.eqb_refl. Qed.

Lemma compare_refl a : a ≠ [] → compare a a = Outcome 0 [].
Proof.
  destruct a as [|x a]; [done|]. intros _. unfold compare.
  assert (sail_start x (x :: a) = Some O) as ->.
  { unfold sail_start. cbn [find_key]. by rewrite String.eqb_refl. }
  cbn [drop]. by rewrite first_mismatch_refl, Nat.eqb_refl.
Qed.

(** ** The properties *)

(** C6: On traces of well-formed events the comparison exits 0 exactly when,
    after dropping what is not compared and what follows the halt write, the
    Kronos events agree in program counter and effects, one for one, with the
    Sail events from the synchronisation point on. *)
Theorem trace_diff_exit_zero read noeff prog ka sa K S
  (Hka : ka ≠ flag) (Hsa : sa ≠ flag) (HK : Forall event_ok K) (HS : Forall event_ok S)
  (Hrk : read ka = Ok (unlines (event_text <$> K)))
  (Hrs : read sa = Ok (unlines (event_text <$> S))) :
  ∃ o, main read (command noeff prog ka sa) = Ok o ∧
    (exit_code o = 0 ↔ agree (observed noeff K) (observed noeff S)).
Proof.
  rewrite (main_command _ _ _ _ _ _ _ Hka Hsa Hrk Hrs). eexists. split; [done|].
  rewrite !load_events by done. by apply compare_events; apply observed_ok.
Qed.

(** A Kronos trace that starts one instruction late, with a decompressed
    instruction and a signature write, against its Sail trace. *)
Definition example_kronos : list event :=
  [Event 0x80000004 0x00100093 [XWrite 1 1];
   Event 0x80000008 0x00102023 [MemWrite 0x80002000 1];
   Event 0x8000000c 0x00108133 [XWrite 2 2]].
Definition example_sail : list event :=
  [Event 0x80000000 0x0040006f [];
   Event 0x80000004 0x00100093 [XWrite 1 1];
   Event 0x80000008 0xc390 [MemWrite 0x80002000 1];
   Event 0x8000000c 0x9106 [XWrite 2 2; CsrWrite 0x300 8];
   Event 0x80000010 0x00102023 [MemWrite 0x40000000 1];
   Event 0x80000014 0x0000006f []].

Lemma trace_diff_exit_zero_witness :
  ∃ o, main (λ p, Ok (unlines (event_text <$> (if String.eqb p "k" then example_kronos else example_sail))))
    (command false "trace_diff.py" "k" "s") = Ok o ∧
    (exit_code o = 0 ↔ agree (observed false example_kronos) (observed false example_sail)).
Proof.
  apply (trace_diff_exit_zero _ false "trace_diff.py" "k" "s" example_kronos example_sail).
  - discriminate.
  - discriminate.
  - unfold example_kronos. repeat (apply Forall_cons_2 || apply Forall_nil_2); (split; [|split]); cbn;
      try (split; lia); repeat (apply Forall_cons_2 || apply Forall_nil_2); cbn; unfold word64; lia.
  - unfold example_sail. repeat (apply Forall_cons_2 || apply Forall_nil_2); (split; [|split]); cbn;
      try (split; lia); repeat (apply Forall_cons_2 || apply Forall_nil_2); cbn; unfold word64; lia.
  - reflexivity.
  - reflexivity.
Defined.

Example example_agrees :
  main (λ p, Ok (unlines (event_text <$> (if String.eqb p "k" then example_kronos else example_sail))))
    (command false "trace_diff.py" "k" "s") = Ok (Outcome 0 []).
Proof. vm_compute. reflexivity. Qed.

(** On the line of an event strip_ignored removes exactly the memory
    writes of the halt and signature regions and the CSR writes of
    instructions that make none explicitly, keeps the order of the rest, and
    empties the line when a memory write was there or the flag is set and
    nothing but CSR writes is left. *)
Theorem strip_ignored_event ev noeff (Hok : event_ok ev) :
  strip_ignored (event_text ev) noeff = from_option event_text "" (observe noeff ev).
Proof. by apply strip_ignored_text. Qed.

Lemma strip_ignored_event_witness :
  strip_ignored "0000000080000008:00112023 mem[0000000080002000]=0000000000000001 x2=0000000000000002" true
  = "0000000080000008:00112023 x2=0000000000000002".
Proof.
  apply (strip_ignored_event (Event 0x80000008 0x00112023 [MemWrite 0x80002000 1; XWrite 2 2]) true).
  split; [|split]; cbn; try (split; lia).
  repeat (apply Forall_cons_2 || apply Forall_nil_2); cbn; unfold word64; lia.
Defined.

(** A trace compared with itself passes silently, whatever the text,
    unless nothing is left to compare, which is an error. *)
Theorem trace_diff_same read noeff prog ka sa t
  (Hka : ka ≠ flag) (Hsa : sa ≠ flag) (Hrk : read ka = Ok t) (Hrs : read sa = Ok t) :
  main read (command noeff prog ka sa) =
    Ok (if decide (load t noeff = [])
        then Outcome 1 [(Stderr, "MISMATCH: Kronos trace is empty")] else Outcome 0 []).
Proof.
  rewrite (main_command _ _ _ _ _ _ _ Hka Hsa Hrk Hrs). case_decide as H; [by rewrite H|].
  by rewrite compare_refl.
Qed.

Lemma trace_diff_same_witness :
  main (λ _, Ok "anything at all") (command true "trace_diff.py" "k" "s")
  = Ok (Outcome 1 [(Stderr, "MISMATCH: Kronos trace is empty")]).
Proof.
  apply (trace_diff_same (λ _, Ok "anything at all") true "trace_diff.py" "k" "s" "anything at all");
    [discriminate|discriminate|reflexivity|reflexivity].
Defined.

(** C30: The first line that differs after the synchronisation point is the
    one reported, by its number from 1 and with both lines, and the exit code
    is 1. *)
Theorem mismatch_reported a0 a b k i x y
  (Hsync : sail_start a0 b = Some k)
  (Hx : (a0 :: a) !! i = Some x) (Hy : b !! (k + i)%nat = Some y)
  (Hne : for_compare x ≠ for_compare y)
  (Hlt : ∀ j x' y', (j < i)%nat → (a0 :: a) !! j = Some x' → b !! (k + j)%nat = Some y' →
    for_compare x' = for_compare y') :
  compare (a0 :: a) b =
    Outcome 1 [(Stdout, "MISMATCH at line " +:+ str_nat (i + 1));
               (Stdout, "  kronos: " +:+ x); (Stdout, "  sail  : " +:+ y)].
Proof.
  unfold compare. rewrite Hsync.
  assert (first_mismatch 0 (a0 :: a) (drop k b) = Some (i, x, y)) as ->; [|done].
  apply first_mismatch_lookup. exists i. split; [done|]. split; [done|].
  rewrite lookup_drop. split; [done|]. split; [done|].
  intros j x' y' Hj Hx' Hy'. rewrite lookup_drop in Hy'. by eapply Hlt.
Qed.

Lemma mismatch_reported_witness :
  compare ["0000000080000000:00000013"; "0000000080000004:00100093 x1=0000000000000001"]
          ["0000000080000000:00000013"; "0000000080000004:00100093 x1=0000000000000002"]
  = Outcome 1 [(Stdout, "MISMATCH at line 2");
     (Stdout, "  kronos: 0000000080000004:00100093 x1=0000000000000001");
     (Stdout, "  sail  : 0000000080000004:00100093 x1=0000000000000002")].
Proof.
  apply (mismatch_reported _ _ _ 0 1); try (vm_compute; reflexivity).
  - vm_compute. discriminate.
  - intros [|j] x' y' Hj; [|lia]. cbn. by intros [= <-] [= <-].
Defined.

(** A line whose only effect is the write of an explicit CSR instruction
    is kept as it is without --strip-noeffect, and dropped with it. *)
Theorem csr_only_line_dropped pc instr a v
  (Hpc : word64 pc) (Hi : 0 ≤ instr < 2 ^ 32) (Ha : 0 ≤ a < 2 ^ 12) (Hv : word64 v)
  (Hz : zicsr_writes instr = true) :
  let ev := Event pc instr [CsrWrite a v] in
  strip_ignored (event_text ev) false = event_text ev ∧ strip_ignored (event_text ev) true = "".
Proof.
  intros ev. assert (event_ok ev) as Hok.
  { split; [done|]. split; [done|]. apply Forall_cons_2; [by split|apply Forall_nil_2]. }
  rewrite !strip_ignored_text by done. unfold observe, ev. cbn [ev_pc ev_instr ev_effects].
  rewrite filter_cons_True by done. by split.
Qed.

Lemma csr_only_line_dropped_witness :
  strip_ignored "0000000080000008:34029073 csr[340]=0000000000000001" false
    = "0000000080000008:34029073 csr[340]=0000000000000001" ∧
  strip_ignored "0000000080000008:34029073 csr[340]=0000000000000001" true = "".
Proof.
  apply (csr_only_line_dropped 0x80000008 0x34029073 0x340 1); unfold word64; try lia; reflexivity.
Defined.

End trace_diff.
