(* ===== verification/SailNormalize.v ===== *)
(** tools/sail_trace_normalize.py: from the instruction log of the Sail
    simulator to the trace format of [TraceEvents].  An [int()] that fails is a
    [ValueError]; one theorem says that none ever does. *)
From S2P Require Export TraceEvents.
From Stdlib Require Import DecimalString.
Local Open Scope Z_scope.

Module sail_trace_normalize.

Definition hex_digits : regex := RPlus is_hex.

Definition SAIL_COMMIT_RE : regex :=
  RSeqs [RBegin; RStr "["; RGroup 1 (RPlus is_digit); RStr "] ["; RClass (one_of "MSU");
         RStr "]: 0x"; RGroup 2 hex_digits; RStr " (0x"; RGroup 3 hex_digits; RStr ")"].
Definition REG_WRITE_RE : regex :=
  RSeqs [RBegin; RStr "x"; RGroup 1 (RPlus is_digit); RStr " <- 0x"; RGroup 2 hex_digits].
Definition FP_WRITE_RE : regex :=
  RSeqs [RBegin; RStr "f"; RGroup 1 (RPlus is_digit); RStr " <- 0x"; RGroup 2 hex_digits].
Definition MEM_WRITE_RE : regex :=
  RSeqs [RBegin; RStr "mem[W,0x"; RGroup 1 hex_digits; RStr "] <- 0x"; RGroup 2 hex_digits].
Definition CSR_WRITE_RE : regex :=
  RSeqs [RBegin; RStr "CSR "; RPlus (λ c, negb (is_space c)); RStr " (0x"; RGroup 1 hex_digits;
         RStr ") <- 0x"; RGroup 2 hex_digits].

(** [int(m.group(n), 16)] and [int(m.group(n))], without the interpreter's
    limit on the number of decimal digits. *)
Definition group_int16 (n : nat) (m : found) : res Z :=
  match group n m ≫= int_of_hex with
  | Some z => Ok z
  | None => Raise (ValueError "invalid literal for int() with base 16")
  end.
Definition group_int (n : nat) (m : found) : res Z :=
  match group n m ≫= int_of_str with
  | Some z => Ok z
  | None => Raise (ValueError "invalid literal for int() with base 10")
  end.

(** One turn of the loop of [_flush]: the part a line adds, if any. *)
Definition effect_part (effect_line : string) : res (option string) :=
  match re_match REG_WRITE_RE effect_line with
  | Some rm =>
      n ← group_int 1 rm; v ← group_int16 2 rm;
      Ok (if negb (n =? 0) then Some ("x" +:+ str_Z n +:+ "=" +:+ fmt_hex 16 v) else None)
  | None =>
  match re_match FP_WRITE_RE effect_line with
  | Some fm =>
      n ← group_int 1 fm; v ← group_int16 2 fm;
      Ok (Some ("f" +:+ str_Z n +:+ "=" +:+ fmt_hex 16 v))
  | None =>
  match re_match MEM_WRITE_RE effect_line with
  | Some mm =>
      a ← group_int16 1 mm; v ← group_int16 2 mm;
      Ok (Some ("mem[" +:+ fmt_hex 16 a +:+ "]=" +:+ fmt_hex 16 v))
  | None =>
  match re_match CSR_WRITE_RE effect_line with
  | Some cm =>
      a ← group_int16 1 cm; v ← group_int16 2 cm;
      Ok (Some ("csr[" +:+ fmt_hex 3 a +:+ "]=" +:+ fmt_hex 16 v))
  | None => Ok None
  end end end end.

Fixpoint effect_parts (effects : list string) : res (list string) :=
  match effects with
  | [] => Ok []
  | l :: effects =>
      p ← effect_part l;
      ps ← effect_parts effects;
      Ok (match p with Some p => p :: ps | None => ps end)
  end.

(** [_flush], whose argument is never empty. *)
Definition _flush (pending : Z * Z * list string) : res string :=
  let '(pc, instr, effects) := pending in
  parts ← effect_parts effects;
  Ok (String.concat " " ((fmt_hex 16 pc +:+ ":" +:+ fmt_hex 8 instr) :: parts)).

(** The variables [pending_pc], [pending_instr] and [pending_effects]; [None]
    is before the first commit line. *)
Definition state : Type := option (Z * Z * list string).

(** The [if pending_pc is not None] blocks that print. *)
Definition flush_pending (st : state) : res (list string) :=
  match st with
  | Some pending => out ← _flush pending; Ok [out]
  | None => Ok []
  end.

(** One turn of the loop of [main]: the new state and the printed lines. *)
Definition step (st : state) (raw : string) : res (state * list string) :=
  let line := rstrip_newline raw in
  match re_match SAIL_COMMIT_RE line with
  | Some m =>
      out ← flush_pending st;
      pc ← group_int16 2 m;
      instr ← group_int16 3 m;
      Ok (Some (pc, instr, []), out)
  | None =>
      match st with
      | Some (pc, instr, effects) => Ok (Some (pc, instr, effects ++ [line]), [])
      | None => Ok (None, [])
      end
  end.

Fixpoint loop (st : state) (raws : list string) : res (list string) :=
  match raws with
  | [] => flush_pending st
  | raw :: raws =>
      '(st, out) ← step st raw;
      rest ← loop st raws;
      Ok (out ++ rest)
  end.

(** [main], from the lines of standard input to the lines printed. *)
Definition main (stdin : list string) : res (list string) := loop None stdin.

Example sail_log :
  main ["boot"; "[0] [M]: 0x80000000 (0x0040006F) j 0x4" +:+ newline;
        "[1] [M]: 0x0000000080000004 (0x00100093) addi ra, zero, 0x1" +:+ newline;
        "x1 <- 0x0000000000000001" +:+ newline;
        "[2] [S]: 0x80000008 (0x4505) c.li a0, 0x1"; "x0 <- 0x1"; "CSR mstatus (0x300) <- 0x8";
        "mem[W,0x80001000] <- 0x2A"; "trap?"]
  = Ok ["0000000080000000:0040006f"; "0000000080000004:00100093 x1=0000000000000001";
        "0000000080000008:00004505 csr[300]=0000000000000008 mem[0000000080001000]=000000000000002a"].
Proof. vm_compute. reflexivity. Qed.

(** ** No conversion fails *)

Lemma int_of_hex_total t :
  str_all is_hex t = true → (1 ≤ String.length t)%nat → ∃ z, int_of_hex t = Some z.
Proof.
  intros Ht Hlen. assert (∀ acc, ∃ z, hex_value_from acc t = Some z) as Hall.
  { clear Hlen. induction t as [|c t IH]; intros acc; [by exists acc|].
    cbn [str_all] in Ht. apply andb_true_iff in Ht as [Hc Ht]. cbn [hex_value_from].
    unfold is_hex in Hc. destruct (hex_value c) as [d|]; [|done]. by apply IH. }
  unfold int_of_hex. destruct t; [cbn in Hlen; lia|apply Hall].
Qed.

Lemma int_of_str_total t :
  str_all is_digit t = true → (1 ≤ String.length t)%nat → ∃ z, int_of_str t = Some z.
Proof.
  intros Ht Hlen.
  assert (∀ c u, is_digit c = true → ∃ d, uint_of_char c (Some u) = Some d) as Hchar.
  { intros c u Hc.
    assert (match uint_of_char c (Some u) with Some _ => true | None => false end = true) as H.
    { revert c Hc. by apply ascii_impl. }
    destruct (uint_of_char c (Some u)) as [d|]; [by exists d|done]. }
  assert (∃ u, NilEmpty.uint_of_string t = Some u) as (u & Hu).
  { clear Hlen. induction t as [|c t IH]; [by eexists|].
    cbn [str_all] in Ht. apply andb_true_iff in Ht as [Hc Ht]. destruct (IH Ht) as (u & Hu).
    cbn [NilEmpty.uint_of_string]. rewrite Hu. by apply Hchar. }
  destruct t as [|c t]; [cbn in Hlen; lia|].
  assert (Ascii.eqb c "-" = false) as Hminus.
  { cbn [str_all] in Ht. apply andb_true_iff in Ht as [Hc _]. clear -Hc. revert c Hc. by apply ascii_excl. }
  unfold int_of_str, NilZero.int_of_string. rewrite Hminus. unfold NilZero.uint_of_string. rewrite Hu. by eexists.
Qed.

(** A group that is always set holds digits. *)
Ltac by_shapes := repeat (apply Forall_cons_2; [cbn; congruence|]); apply Forall_nil_2.

Lemma group_int16_total r line m n :
  re_match r line = Some m → n ≠ 0%nat → group_set r n = true →
  Forall (λ x, x.1 = n → x.2 = Some (is_hex, 1%nat)) (group_shapes r) →
  ∃ z, group_int16 n m = Ok z.
Proof.
  intros Hm Hn Hset Hsh. destruct (match_group _ _ _ _ _ _ Hm Hn Hset Hsh) as (t & Ht & Hall & Hlen).
  destruct (int_of_hex_total t Hall Hlen) as (z & Hz). exists z. unfold group_int16. rewrite Ht. cbn. by rewrite Hz.
Qed.

Lemma group_int_total r line m n :
  re_match r line = Some m → n ≠ 0%nat → group_set r n = true →
  Forall (λ x, x.1 = n → x.2 = Some (is_digit, 1%nat)) (group_shapes r) →
  ∃ z, group_int n m = Ok z.
Proof.
  intros Hm Hn Hset Hsh. destruct (match_group _ _ _ _ _ _ Hm Hn Hset Hsh) as (t & Ht & Hall & Hlen).
  destruct (int_of_str_total t Hall Hlen) as (z & Hz). exists z. unfold group_int. rewrite Ht. cbn. by rewrite Hz.
Qed.

Ltac int_total H :=
  first [eapply (group_int16_total _ _ _ _ H) | eapply (group_int_total _ _ _ _ H)];
  [discriminate|reflexivity|by_shapes].

Lemma effect_part_total l : ∃ p, effect_part l = Ok p.
Proof.
  unfold effect_part.
  destruct (re_match REG_WRITE_RE l) as [m|] eqn:H1.
  { assert (∃ z, group_int 1 m = Ok z) as (n & ->) by int_total H1.
    assert (∃ z, group_int16 2 m = Ok z) as (v & ->) by int_total H1. by eexists. }
  destruct (re_match FP_WRITE_RE l) as [m|] eqn:H2.
  { assert (∃ z, group_int 1 m = Ok z) as (n & ->) by int_total H2.
    assert (∃ z, group_int16 2 m = Ok z) as (v & ->) by int_total H2. by eexists. }
  destruct (re_match MEM_WRITE_RE l) as [m|] eqn:H3.
  { assert (∃ z, group_int16 1 m = Ok z) as (n & ->) by int_total H3.
    assert (∃ z, group_int16 2 m = Ok z) as (v & ->) by int_total H3. by eexists. }
  destruct (re_match CSR_WRITE_RE l) as [m|] eqn:H4; [|by eexists].
  assert (∃ z, group_int16 1 m = Ok z) as (n & ->) by int_total H4.
  assert (∃ z, group_int16 2 m = Ok z) as (v & ->) by int_total H4. by eexists.
Qed.

Lemma flush_total pending : ∃ s, _flush pending = Ok s.
Proof.
  destruct pending as [[pc instr] effects]. unfold _flush.
  assert (∃ ps, effect_parts effects = Ok ps) as (ps & ->); [|by eexists].
  induction effects as [|l effects (ps & IH)]; [by eexists|]. cbn [effect_parts].
  destruct (effect_part_total l) as (p & ->). cbn [mbind res_bind]. rewrite IH. by eexists.
Qed.

Lemma flush_pending_total st :
  ∃ out, flush_pending st = Ok out ∧ length out = match st with Some _ => 1%nat | None => 0%nat end.
Proof.
  destruct st as [pending|]; [|by exists []]. cbn. destruct (flush_total pending) as (s & ->).
  by exists [s].
Qed.

Definition is_commit (raw : string) : bool :=
  match re_match SAIL_COMMIT_RE (rstrip_newline raw) with Some _ => true | None => false end.

Lemma loop_total raws st :
  ∃ out, loop st raws = Ok out ∧
    length out = (match st with Some _ => 1 | None => 0 end + length (filter (λ r, is_commit r = true) raws))%nat.
Proof.
  revert st. induction raws as [|raw raws IH]; intros st.
  - destruct (flush_pending_total st) as (out & H & Hlen). exists out. split; [done|]. cbn. lia.
  - cbn [loop]. unfold step. rewrite filter_cons.
    destruct (re_match SAIL_COMMIT_RE (rstrip_newline raw)) as [m|] eqn:Hm.
    + destruct (flush_pending_total st) as (out & -> & Hlen). cbn [mbind res_bind].
      assert (∃ z, group_int16 2 m = Ok z) as (pc & ->) by int_total Hm.
      assert (∃ z, group_int16 3 m = Ok z) as (instr & ->) by int_total Hm. cbn [mbind res_bind].
      destruct (IH (Some (pc, instr, []))) as (rest & -> & Hrest). exists (out ++ rest). split; [done|].
      rewrite length_app, decide_True by (unfold is_commit; by rewrite Hm). cbn [length]. rewrite Hrest. destruct st; lia.
    + rewrite decide_False by (unfold is_commit; by rewrite Hm). destruct st as [[[pc instr] effects]|]; cbn [mbind res_bind].
      * destruct (IH (Some (pc, instr, effects ++ [rstrip_newline raw]))) as (rest & -> & Hrest). by exists rest.
      * destruct (IH None) as (rest & -> & Hrest). by exists rest.
Qed.

(** ** Well-formed logs *)

(** The lines Sail writes after a commit line: register, memory and CSR writes
    (the values in any number of digits, with more text after), and others. *)
Inductive sail_line :=
  | SailX (n : Z) (w : nat) (v : Z) (tail : string)
  | SailF (n : Z) (w : nat) (v : Z) (tail : string)
  | SailMem (wa : nat) (a : Z) (w : nat) (v : Z) (tail : string)
  | SailCsr (name : string) (wa : nat) (a : Z) (w : nat) (v : Z) (tail : string)
  | SailOther (text : string).

Record commit := Commit {
  c_step : Z; c_mode : Ascii.ascii;
  c_wpc : nat; c_pc : Z;
  c_winstr : nat; c_instr : Z;
  c_tail : string;
  c_lines : list sail_line;
}.

Definition sail_line_text (l : sail_line) : string :=
  match l with
  | SailX n w v tail => "x" +:+ str_Z n +:+ " <- 0x" +:+ fmt_hex w v +:+ tail
  | SailF n w v tail => "f" +:+ str_Z n +:+ " <- 0x" +:+ fmt_hex w v +:+ tail
  | SailMem wa a w v tail => "mem[W,0x" +:+ fmt_hex wa a +:+ "] <- 0x" +:+ fmt_hex w v +:+ tail
  | SailCsr name wa a w v tail =>
      "CSR " +:+ name +:+ " (0x" +:+ fmt_hex wa a +:+ ") <- 0x" +:+ fmt_hex w v +:+ tail
  | SailOther text => text
  end.

Definition commit_head_text (c : commit) : string :=
  "[" +:+ str_Z (c_step c) +:+ "] [" +:+ String (c_mode c) "" +:+ "]: 0x" +:+ fmt_hex (c_wpc c) (c_pc c)
  +:+ " (0x" +:+ fmt_hex (c_winstr c) (c_instr c) +:+ ")" +:+ c_tail c.

Definition commit_text (c : commit) : list string :=
  commit_head_text c :: (sail_line_text <$> c_lines c).

(** The digits of a value end where the tail begins. *)
Definition not_hex_head (t : string) : Prop := default true (negb ∘ is_hex <$> str_head t) = true.

Definition sail_line_ok (l : sail_line) : Prop :=
  match l with
  | SailX n _ v tail | SailF n _ v tail => 0 ≤ n ∧ word64 v ∧ not_hex_head tail
  | SailMem _ a _ v tail => word64 a ∧ word64 v ∧ not_hex_head tail
  | SailCsr name _ a _ v tail =>
      name ≠ "" ∧ no_space name = true ∧ 0 ≤ a < 2 ^ 12 ∧ word64 v ∧ not_hex_head tail
  | SailOther text =>
      re_match SAIL_COMMIT_RE text = None ∧ re_match REG_WRITE_RE text = None ∧
      re_match FP_WRITE_RE text = None ∧ re_match MEM_WRITE_RE text = None ∧
      re_match CSR_WRITE_RE text = None
  end.

Definition no_trailing_newline (s : string) : Prop := rstrip_newline s = s.

Definition commit_ok (c : commit) : Prop :=
  0 ≤ c_step c ∧ one_of "MSU" (c_mode c) = true ∧ word64 (c_pc c) ∧ 0 ≤ c_instr c < 2 ^ 32 ∧
  Forall sail_line_ok (c_lines c) ∧ Forall no_trailing_newline (commit_text c).

(** The effect of a line; writes of x0 have none. *)
Definition norm_line (l : sail_line) : option effect :=
  match l with
  | SailX n _ v _ => if decide (n = 0) then None else Some (XWrite n v)
  | SailF n _ v _ => Some (FWrite n v)
  | SailMem _ a _ v _ => Some (MemWrite a v)
  | SailCsr _ _ a _ v _ => Some (CsrWrite a v)
  | SailOther _ => None
  end.

Definition norm_commit (c : commit) : event :=
  Event (c_pc c) (c_instr c) (omap norm_line (c_lines c)).

(** ** The lines of a well-formed log match as they should *)

Lemma fmt_hex_nonempty w v : 0 ≤ v → (1 ≤ String.length (fmt_hex w v))%nat.
Proof.
  intros Hv. unfold fmt_hex. rewrite (proj2 (Z.ltb_ge _ _)) by lia.
  rewrite length_hex_fixed. unfold hex_ndigits. lia.
Qed.

Lemma hit_hex_digits b w v t :
  0 ≤ v → not_hex_head t → hit hex_digits b (fmt_hex w v +:+ t) (Found (fmt_hex w v) [] (last_or b (fmt_hex w v)) t).
Proof. intros Hv Ht. apply hit_many; [by apply fmt_hex_hex|by apply fmt_hex_nonempty|done]. Qed.

Lemma hit_int b n t :
  0 ≤ n → default true (negb ∘ is_digit <$> str_head t) = true →
  hit (RPlus is_digit) b (str_Z n +:+ t) (Found (str_Z n) [] (last_or b (str_Z n)) t).
Proof. intros Hn Ht. apply hit_many; [by apply str_Z_digits|apply str_Z_length|done]. Qed.

Ltac sail_hit :=
  repeat first [apply hit_hex_digits; [unfold word64 in *; lia|first [done|reflexivity]]
               |apply hit_int; [lia|reflexivity]|hit_step].

Lemma commit_match c :
  commit_ok c → ∃ m, re_match SAIL_COMMIT_RE (commit_head_text c) = Some m ∧
    group_int16 2 m = Ok (c_pc c) ∧ group_int16 3 m = Ok (c_instr c).
Proof.
  intros (Hs & Hm & Hpc & Hi & _).
  assert (∃ m, hit SAIL_COMMIT_RE None (commit_head_text c) m ∧ group 2 m = Some (fmt_hex (c_wpc c) (c_pc c)) ∧
    group 3 m = Some (fmt_hex (c_winstr c) (c_instr c))) as (m & Hh & H2 & H3).
  { eexists. split.
    - unfold SAIL_COMMIT_RE, commit_head_text, RClass.
      sail_hit. all: try done. cbn [str_all]. by rewrite Hm.
    - done. }
  exists m. split; [done|]. unfold group_int16. rewrite H2, H3. cbn [mbind option_bind].
  unfold word64 in Hpc. by rewrite !int_of_hex_fmt by lia.
Qed.

Lemma re_match_first r c p t :
  nullable r = false → first r c = false → re_match r (String c p +:+ t) = None.
Proof. intros Hn Hf. unfold re_match. rewrite str_app_cons. by rewrite run_nil_first. Qed.

Lemma effect_part_line l :
  sail_line_ok l → effect_part (sail_line_text l) = Ok (effect_text <$> norm_line l).
Proof.
  intros Hl. unfold effect_part. destruct l as [n w v tail|n w v tail|wa a w v tail|name wa a w v tail|text];
    cbn [sail_line_text norm_line].
  - destruct Hl as (Hn & Hv & Ht).
    assert (∃ m, hit REG_WRITE_RE None ("x" +:+ str_Z n +:+ " <- 0x" +:+ fmt_hex w v +:+ tail) m ∧
      group 1 m = Some (str_Z n) ∧ group 2 m = Some (fmt_hex w v)) as (m & Hh & H1 & H2).
    { eexists. split; [unfold REG_WRITE_RE; sail_hit|done]. }
    rewrite (re_match_hit _ _ _ Hh). unfold group_int, group_int16. rewrite H1, H2. cbn [mbind option_bind].
    unfold word64 in Hv. rewrite int_of_str_Z, int_of_hex_fmt by lia. cbn [mbind res_bind].
    destruct (Z.eqb_spec n 0) as [->|Hne]; [by rewrite decide_True|by rewrite decide_False].
  - destruct Hl as (Hn & Hv & Ht).
    assert (∃ m, hit FP_WRITE_RE None ("f" +:+ str_Z n +:+ " <- 0x" +:+ fmt_hex w v +:+ tail) m ∧
      group 1 m = Some (str_Z n) ∧ group 2 m = Some (fmt_hex w v)) as (m & Hh & H1 & H2).
    { eexists. split; [unfold FP_WRITE_RE; sail_hit|done]. }
    rewrite (re_match_first REG_WRITE_RE) by done.
    rewrite (re_match_hit _ _ _ Hh). unfold group_int, group_int16. rewrite H1, H2. cbn [mbind option_bind].
    unfold word64 in Hv. by rewrite int_of_str_Z, int_of_hex_fmt by lia.
  - destruct Hl as (Ha & Hv & Ht).
    assert (∃ m, hit MEM_WRITE_RE None ("mem[W,0x" +:+ fmt_hex wa a +:+ "] <- 0x" +:+ fmt_hex w v +:+ tail) m ∧
      group 1 m = Some (fmt_hex wa a) ∧ group 2 m = Some (fmt_hex w v)) as (m & Hh & H1 & H2).
    { eexists. split; [unfold MEM_WRITE_RE; sail_hit|done]. }
    rewrite (re_match_first REG_WRITE_RE), (re_match_first FP_WRITE_RE) by done.
    rewrite (re_match_hit _ _ _ Hh). unfold group_int16. rewrite H1, H2. cbn [mbind option_bind].
    unfold word64 in *. by rewrite !int_of_hex_fmt by lia.
  - destruct Hl as (Hne & Hname & Ha & Hv & Ht).
    assert (∃ m, hit CSR_WRITE_RE None ("CSR " +:+ name +:+ " (0x" +:+ fmt_hex wa a +:+ ") <- 0x" +:+ fmt_hex w v +:+ tail) m ∧
      group 1 m = Some (fmt_hex wa a) ∧ group 2 m = Some (fmt_hex w v)) as (m & Hh & H1 & H2).
    { eexists. split; [unfold CSR_WRITE_RE; sail_hit; [exact Hname|destruct name; [done|cbn; lia]|done]|done]. }
    rewrite (re_match_first REG_WRITE_RE), (re_match_first FP_WRITE_RE),
      (re_match_first MEM_WRITE_RE) by done.
    rewrite (re_match_hit _ _ _ Hh). unfold group_int16. rewrite H1, H2. cbn [mbind option_bind].
    unfold word64 in *. by rewrite !int_of_hex_fmt by lia.
  - destruct Hl as (_ & H1 & H2 & H3 & H4). by rewrite H1, H2, H3, H4.
Qed.

Lemma sail_line_not_commit l : sail_line_ok l → re_match SAIL_COMMIT_RE (sail_line_text l) = None.
Proof.
  intros Hl. destruct l; cbn [sail_line_text]; [by apply re_match_first..|].
  by destruct Hl.
Qed.

Lemma flush_commit c :
  commit_ok c → _flush (c_pc c, c_instr c, sail_line_text <$> c_lines c) = Ok (event_text (norm_commit c)).
Proof.
  intros (_ & _ & _ & _ & Hl & _). unfold _flush.
  assert (effect_parts (sail_line_text <$> c_lines c) = Ok (effect_text <$> omap norm_line (c_lines c))) as ->.
  { induction Hl as [|l ls Hok _ IH]; [done|]. rewrite fmap_cons. cbn [effect_parts].
    rewrite effect_part_line by done. cbn [mbind res_bind].
    rewrite IH. cbn [mbind res_bind omap list_omap]. by destruct (norm_line l). }
  cbn [mbind res_bind]. f_equal.
  change (fmt_hex 16 (c_pc c) +:+ ":" +:+ fmt_hex 8 (c_instr c)) with (key_text (c_pc c) (c_instr c)).
  apply join_effects.
Qed.

(** A raw line of the text. *)
Definition raw_line (s : string) : string := s +:+ newline.

Lemma rstrip_raw_line s : no_trailing_newline s → rstrip_newline (raw_line s) = s.
Proof.
  unfold raw_line, no_trailing_newline. intros Hs. rewrite <-Hs at 2. clear Hs. induction s as [|c s IH]; [done|].
  rewrite str_app_cons. cbn [rstrip_newline]. by rewrite IH.
Qed.

Lemma loop_lines pc instr effects ls raws :
  Forall sail_line_ok ls → Forall no_trailing_newline (sail_line_text <$> ls) →
  loop (Some (pc, instr, effects)) ((raw_line <$> (sail_line_text <$> ls)) ++ raws) =
  loop (Some (pc, instr, effects ++ (sail_line_text <$> ls))) raws.
Proof.
  intros Hl. revert effects. induction Hl as [|l ls Hok _ IH]; intros effects Hn.
  - by rewrite app_nil_r.
  - rewrite !fmap_cons in *. apply Forall_cons_iff in Hn as [Hn1 Hn]. cbn [app loop]. unfold step.
    rewrite rstrip_raw_line, sail_line_not_commit by done. cbn [mbind res_bind].
    rewrite IH by done. rewrite <-app_assoc. cbn [app]. by destruct (loop _ _).
Qed.

Lemma loop_log st out log :
  flush_pending st = Ok out → Forall commit_ok log →
  loop st (raw_line <$> (log ≫= commit_text)) = Ok (out ++ (event_text ∘ norm_commit <$> log)).
Proof.
  intros Hst Hlog. revert st out Hst. induction Hlog as [|c log Hc _ IH]; intros st out Hst.
  - cbn. by rewrite Hst, app_nil_r.
  - rewrite bind_cons. unfold commit_text at 1. rewrite fmap_app, fmap_cons. cbn [app loop].
    pose proof Hc as (_ & _ & _ & _ & Hl & Hn). unfold commit_text in Hn. apply Forall_cons_iff in Hn as [Hn1 Hn].
    destruct (commit_match c Hc) as (m & Hm & H2 & H3).
    unfold step. rewrite rstrip_raw_line, Hm, Hst, H2, H3 by done. cbn [mbind res_bind].
    rewrite loop_lines by done. cbn [app].
    rewrite (IH _ [event_text (norm_commit c)]); [done|]. cbn [flush_pending]. by rewrite flush_commit.
Qed.

Lemma norm_commit_ok c : commit_ok c → event_ok (norm_commit c).
Proof.
  intros (_ & _ & Hpc & Hi & Hl & _). split; [done|]. split; [done|]. cbn [ev_effects norm_commit].
  induction Hl as [|l ls Hok _ IH]; [constructor|]. cbn [omap list_omap].
  destruct (norm_line l) as [e|] eqn:He; [|done]. constructor; [|done].
  destruct l; cbn in He, Hok; [case_decide; [done|]|..]; try injection He as <-; cbn; naive_solver.
Qed.

Lemma loop_preamble pre raws :
  Forall (λ r, is_commit r = false) pre → loop None (pre ++ raws) = loop None raws.
Proof.
  induction 1 as [|r pre Hr _ IH]; [done|]. cbn [app loop]. unfold step.
  unfold is_commit in Hr. destruct (re_match SAIL_COMMIT_RE _); [done|]. cbn [mbind res_bind].
  rewrite IH. by destruct (loop None raws).
Qed.

(** The log as raw lines of standard input. *)
Definition log_stdin (pre : list string) (log : list commit) : list string :=
  pre ++ (raw_line <$> (log ≫= commit_text)).

Lemma main_log pre log :
  Forall (λ r, is_commit r = false) pre → Forall commit_ok log →
  main (log_stdin pre log) = Ok (event_text <$> (norm_commit <$> log)).
Proof.
  intros Hpre Hlog. unfold main, log_stdin. rewrite loop_preamble by done.
  rewrite (loop_log None []) by done. by rewrite <-list_fmap_compose.
Qed.

(** ** The properties *)

(** C29: On any input at all the normaliser returns, no conversion of a
    matched group failing, and prints one line for each line that matches the
    commit pattern. *)
Theorem sail_normalize_total stdin :
  ∃ out, main stdin = Ok out ∧
    length out = length (filter (λ r, is_commit r = true) stdin).
Proof. apply loop_total. Qed.

(** C28: A well-formed Sail log, after any lines before the first commit, is
    normalised to one line per commit with its effects in order, values
    padded to their width, without the writes of x0. *)
Theorem sail_normalize_log pre log
  (Hpre : Forall (λ r, is_commit r = false) pre) (Hlog : Forall commit_ok log) :
  main (log_stdin pre log) = Ok (event_text <$> (norm_commit <$> log)).
Proof. by apply main_log. Qed.

Definition example_log : list commit :=
  [Commit 0 "M" 8 0x80000000 8 0x0040006f " j 0x4" [];
   Commit 1 "M" 16 0x80000004 8 0x00100093 " addi ra, zero, 0x1" [SailX 1 16 1 ""];
   Commit 2 "S" 16 0x80000008 4 0x4501 " c.li a0, 0x0"
     [SailX 0 16 5 " (ignored)"; SailOther "trap?"; SailCsr "mstatus" 3 0x300 16 8 "";
      SailMem 8 0x80001000 16 42 " "; SailF 3 16 7 ""]].

Lemma example_log_ok : Forall commit_ok example_log.
Proof.
  unfold example_log. repeat (apply Forall_cons_2 || apply Forall_nil_2);
    repeat split; try (cbn; lia); try reflexivity;
    repeat (apply Forall_cons_2 || apply Forall_nil_2); try (vm_compute; reflexivity);
    cbn [sail_line_ok]; unfold word64; repeat split; try lia; try discriminate; vm_compute; reflexivity.
Defined.

Lemma sail_normalize_log_witness :
  main (log_stdin ["Running file"] example_log) =
  Ok ["0000000080000000:0040006f"; "0000000080000004:00100093 x1=0000000000000001";
      "0000000080000008:00004501 csr[300]=0000000000000008 mem[0000000080001000]=000000000000002a f3=0000000000000007"].
Proof.
  exact (sail_normalize_log ["Running file"] example_log
    ltac:(apply Forall_cons_2; [vm_compute; reflexivity|apply Forall_nil_2]) example_log_ok).
Defined.

End sail_trace_normalize.
