(* ===== verification/TracePipeline.v ===== *)
(** The two trace tools together, as tools/sail_trace.sh and the runners use
    them: the Sail log is normalised and the result is compared with the trace
    of the core. *)
From S2P Require Export TraceDiff.
From S2P Require Export SailNormalize.
From S2P Require Export Host.
Local Open Scope Z_scope.

(** [c] runs trace_diff.py: it compares the files it is given. *)
Definition compares (exec : program) (c : command) : Prop := ∀ f d o,
  trace_diff.main (read_from f) (argv c) = Ok o → exec c f d = (Ok (process_of o), (f, d)).

(** C7: The two trace tools together: the verdict on a core's trace against a
    raw Sail log is 0 exactly when its events agree with the commits of the
    log, writes of x0 and unknown lines left out. *)
Theorem cosim_verdict read noeff prog ka sa K pre log
  (Hka : ka ≠ trace_diff.flag) (Hsa : sa ≠ trace_diff.flag)
  (HK : Forall event_ok K)
  (Hpre : Forall (λ r, sail_trace_normalize.is_commit r = false) pre)
  (Hlog : Forall sail_trace_normalize.commit_ok log)
  (Hrk : read ka = Ok (unlines (event_text <$> K)))
  (Hrs : (unlines <$> sail_trace_normalize.main (sail_trace_normalize.log_stdin pre log)) = read sa) :
  ∃ o, trace_diff.main read (trace_diff.command noeff prog ka sa) = Ok o ∧
    (exit_code o = 0 ↔
     trace_diff.agree (trace_diff.observed noeff K)
       (trace_diff.observed noeff (sail_trace_normalize.norm_commit <$> log))).
Proof.
  rewrite sail_trace_normalize.main_log in Hrs by done.
  rewrite (trace_diff.main_command _ _ _ _ _ _ _ Hka Hsa Hrk (eq_sym Hrs)). eexists. split; [done|].
  assert (Forall event_ok (sail_trace_normalize.norm_commit <$> log)) as HS.
  { apply Forall_fmap. revert Hlog. apply Forall_impl. apply sail_trace_normalize.norm_commit_ok. }
  rewrite !trace_diff.load_events by done.
  by apply trace_diff.compare_events; apply trace_diff.observed_ok.
Qed.

(** A core that wrote 2 where Sail's log says 1. *)
Definition wrong_core : list event := [Event 0x80000004 0x00100093 [XWrite 1 2]].
Definition example_files (p : string) : res string :=
  if String.eqb p "k" then Ok (unlines (event_text <$> wrong_core))
  else unlines <$> sail_trace_normalize.main
         (sail_trace_normalize.log_stdin ["boot"] sail_trace_normalize.example_log).

Lemma cosim_verdict_witness :
  ∃ o, trace_diff.main example_files (trace_diff.command true "trace_diff.py" "k" "s") = Ok o ∧
    (exit_code o = 0 ↔
     trace_diff.agree (trace_diff.observed true wrong_core)
       (trace_diff.observed true (sail_trace_normalize.norm_commit <$> sail_trace_normalize.example_log))).
Proof.
  apply (cosim_verdict example_files true "trace_diff.py" "k" "s" wrong_core ["boot"] sail_trace_normalize.example_log).
  - discriminate.
  - discriminate.
  - apply Forall_cons_2; [|apply Forall_nil_2]. split; [|split]; cbn; try (split; lia).
    apply Forall_cons_2; [cbn; unfold word64; lia|apply Forall_nil_2].
  - apply Forall_cons_2; [vm_compute; reflexivity|apply Forall_nil_2].
  - apply sail_trace_normalize.example_log_ok.
  - reflexivity.
  - reflexivity.
Defined.

Example wrong_core_found :
  trace_diff.main example_files (trace_diff.command true "trace_diff.py" "k" "s")
  = Ok (Outcome 1 [(Stdout, "MISMATCH at line 1");
      (Stdout, "  kronos: 0000000080000004:00100093 x1=0000000000000002");
      (Stdout, "  sail  : 0000000080000004:00100093 x1=0000000000000001")]).
Proof. vm_compute. reflexivity. Qed.
