(* ===== verification/Coverage.v ===== *)
(** tools/crv_cov_merge.py, which merges the coverage reports of several runs,
    and tools/coverage_gate.py, which passes or fails a build on the merged
    report or on an LCOV file. *)
From S2P Require Export Percent PyNum PyDict Regex Host.
From Stdlib Require Import SpecFloat.
Local Open Scope Z_scope.

(** ** crv_cov_merge.py *)
Module crv_cov_merge.

(** One turn of the loop of [load]. *)
Definition load_line (result : list (string * Z)) (line : string) : res (list (string * Z)) :=
  match words (strip line) with
  | [name; val] => v ← py_int val; Ok (dict_set name v result)
  | _ => Ok result
  end.

Fixpoint load_lines (result : list (string * Z)) (lines : list string) : res (list (string * Z)) :=
  match lines with
  | [] => Ok result
  | line :: lines => result ← load_line result line; load_lines result lines
  end.

(** [load], on the text of the file. *)
Definition load (text : string) : res (list (string * Z)) := load_lines [] (splitlines text).

(** [merged[k] = merged.get(k, 0) | v] *)
Definition merge_bin (merged : list (string * Z)) (kv : string * Z) : list (string * Z) :=
  dict_set kv.1 (Z.lor (default 0 (dict_get kv.1 merged)) kv.2) merged.

Definition merge_data (merged data : list (string * Z)) : list (string * Z) :=
  foldl merge_bin merged data.

(** The line of a bin in the output file. *)
Definition bin_line (kv : string * Z) : string := pad_right 36 kv.1 +:+ " " +:+ str_Z kv.2 +:+ newline.

(** The group of a bin: [k.split(".")[0]]. *)
Definition bin_group (k : string) : string := before_first "." k.

(** The grouping loop: the group being counted, its hits and bins, and the
    groups already counted. *)
Definition stats_step (st : option (string * Z * Z) * list (string * Z * Z)) (kv : string * Z)
    : option (string * Z * Z) * list (string * Z * Z) :=
  let grp := bin_group kv.1 in
  match st with
  | (Some (g, h, t), done) =>
      if String.eqb grp g then (Some (g, h + kv.2, t + 1), done)
      else (Some (grp, kv.2, 1), done ++ [(g, h, t)])
  | (None, done) => (Some (grp, kv.2, 1), done)
  end.

Definition group_stats (merged : list (string * Z)) : list (string * Z * Z) :=
  match foldl stats_step (None, []) merged with
  | (Some last, done) => done ++ [last]
  | (None, done) => done
  end.

(** *** The table *)

(** An integer as an operand of float arithmetic. *)
Definition float_of_int (z : Z) : res pyfloat :=
  match float_of_Z z with
  | S754_infinity _ => Raise (OverflowError "int too large to convert to float")
  | x => Ok x
  end.

(** [100.0 * hit / total if total else 0.0] *)
Definition pct (hit total : Z) : res pyfloat :=
  if total =? 0 then Ok (float_of_Z 0)
  else _ ← float_of_int hit; _ ← float_of_int total; Ok (percent hit total).

(** The box-drawing character, beyond code point 255: the bytes UTF-8 writes. *)
Definition dash : string := String "226" (String "148" (String "128" "")).
Definition rule : string := repeat_str dash 60.

(** [f"{name:<22} {hit:>3}/{total:<3}  {pct:5.1f}%"] *)
Definition figures (name : string) (hit total : Z) (p : pyfloat) : string :=
  "  " +:+ pad_right 22 name +:+ " " +:+ pad_left 3 (str_Z hit) +:+ "/" +:+ pad_right 3 (str_Z total)
  +:+ "  " +:+ pad_left 5 (fmt_fixed 1 p) +:+ "%".

Definition group_line (g : string * Z * Z) : res string :=
  let '(grp, gh, gt) := g in
  p ← pct gh gt;
  n ← float_trunc (float_div p (float_of_Z 5));
  Ok (figures grp gh gt p +:+ "  " +:+ repeat_str full_block n).

Definition total_line (merged : list (string * Z)) : res string :=
  let hit := Z.of_nat (length (filter (λ kv, kv.2 ≠ 0) merged)) in
  let total := Z.of_nat (length merged) in
  p ← pct hit total; Ok (figures "TOTAL" hit total p).

Definition summary (merged : list (string * Z)) (out : string) : host unit :=
  print (newline +:+ "Coverage summary");;
  print rule;;
  print_lines group_line (group_stats merged);;
  print rule;;
  print_lines total_line [merged];;
  print (newline +:+ "Merged coverage written to " +:+ out).

(** *** The run *)

Fixpoint merge_files (merged : list (string * Z)) (inputs : list string) : host (list (string * Z)) :=
  match inputs with
  | [] => mret merged
  | f :: inputs => λ w,
      if exists_ f w
      then (text ← read_text f; data ← lift (load text); merge_files (merge_data merged data) inputs) w
      else (put Stderr ("[crv_cov_merge] WARNING: " +:+ f +:+ " not found, skipping");; merge_files merged inputs) w
  end.

Definition main (inputs : list string) (out : string) : host Z :=
  merged ← merge_files [] inputs;
  match merged with
  | [] => put Stderr "[crv_cov_merge] ERROR: no coverage data loaded";; mret 1
  | _ =>
      mkdir (parent out);;
      write_text out (str_concat (bin_line <$> merged));;
      summary merged out;;
      mret 0
  end.

Example merge_two :
  let w := World (list_to_map [("a", unlines ["grp.x  0"; ""; "grp.y  1"]); ("b", unlines ["grp.x 1"; "other.z 0"; "noise"])])
    ∅ [] [] in
  let '(r, w') := main ["a"; "c"; "b"] "cov/m.txt" w in
  r = Ok 0 ∧
  files w' !! "cov/m.txt" = Some (unlines ["grp.x                                1";
    "grp.y                                1"; "other.z                              0"]) ∧
  log w' = [(Stderr, "[crv_cov_merge] WARNING: c not found, skipping"); (Stdout, newline +:+ "Coverage summary"); (Stdout, rule);
    (Stdout, "  grp                      2/2    100.0%  " +:+ repeat_str full_block 20);
    (Stdout, "  other                    0/1      0.0%  "); (Stdout, rule);
    (Stdout, "  TOTAL                    2/3     66.7%"); (Stdout, newline +:+ "Merged coverage written to cov/m.txt")].
Proof. vm_compute. auto. Qed.

Example stats_two : group_stats [("grp.x", 1); ("grp.y", 0); ("other.z", 0)] = [("grp", 1, 2); ("other", 0, 1)].
Proof. reflexivity. Qed.

End crv_cov_merge.

(** ** coverage_gate.py *)
Module coverage_gate.

(** One turn of the loop of [load_excludes]. *)
Definition exclude_line (excluded : gset string) (line : string) : gset string :=
  let line := strip line in
  if String.eqb line "" || starts_with "#" line then excluded else {[line]} ∪ excluded.

Record counts := Counts { total : Z; hit : Z; misses : list string }.

(** One turn of the loop of [run_functional]. *)
Definition functional_line (excluded : gset string) (c : counts) (raw : string) : counts :=
  let line := strip raw in
  if String.eqb line "" || starts_with "#" line then c
  else
    match rsplit1 line with
    | [name; val] =>
        let name := strip name in
        let val := strip val in
        if bool_decide (name ∈ excluded) then c
        else if negb (String.eqb val "0")
        then Counts (total c + 1) (hit c + 1) (misses c)
        else Counts (total c + 1) (hit c) (misses c ++ [name])
    | _ => c
    end.

Definition DA_RE : regex :=
  RSeqs [RBegin; RStr "DA:"; RGroup 1 (RPlus is_digit); RStr ","; RGroup 2 (RPlus is_digit)].

(** One turn of the loop of [run_line]: [skip], [total] and [hit]. *)
Definition info_line (st : bool * Z * Z) (line : string) : bool * Z * Z :=
  let '(skip, total, hit) := st in
  if starts_with "SF:" line then (starts_with "../tb/" (strip (str_drop 3 line)), total, hit)
  else if skip then st
  else
    match re_match DA_RE line with
    | Some m =>
        (skip, total + 1,
         match group 2 m ≫= int_of_str with
         | Some n => if 0 <? n then hit + 1 else hit
         | None => hit
         end)
    | None => st
    end.

(** The last lines of [run_functional] and [run_line]: the percentage against
    the threshold. *)
Definition passes (threshold : pyfloat) (hit total : Z) : bool :=
  float_le threshold (percent hit total).

Definition report (what : string) (threshold : pyfloat) (hit total : Z) (tail : string) : string :=
  (if passes threshold hit total then "PASS" else "FAIL") +:+ ": " +:+ what +:+ " coverage "
  +:+ str_Z hit +:+ "/" +:+ str_Z total +:+ " = " +:+ fmt_fixed 1 (percent hit total)
  +:+ "%  (threshold " +:+ fmt_fixed 0 threshold +:+ "%)" +:+ tail.

Record args := Args {
  functional : option string;
  exclude_bins : option string;
  threshold : option pyfloat;
  info_file : option string;
}.

Section files.
(** The lines of an opened file. *)
Variable open : string → res (list string).

Definition load_excludes (path : option string) : res (gset string) :=
  match path with
  | None => Ok ∅
  | Some path => lines ← open path; Ok (foldl exclude_line ∅ lines)
  end.

Definition run_functional (a : args) (file : string) : res outcome :=
  excluded ← load_excludes (exclude_bins a);
  let threshold := default (float_of_Z 100) (threshold a) in
  lines ← open file;
  let c := foldl (functional_line excluded) (Counts 0 0 []) lines in
  if total c =? 0 then
    Ok (Outcome 2 [(Stderr, "ERROR: no bins found in functional coverage file.")])
  else
    Ok (Outcome (if passes threshold (hit c) (total c) then 0 else 1)
      ((Stdout, report "functional" threshold (hit c) (total c)
          ("  excluded " +:+ str_nat (size excluded)))
       :: ((λ m, (Stdout, "  MISS: " +:+ m)) <$> misses c))).

Definition run_line (a : args) (file : string) : res outcome :=
  let threshold := default (float_of_Z 95) (threshold a) in
  lines ← open file;
  let '(_, total, hit) := foldl info_line (false, 0, 0) lines in
  if total =? 0 then
    Ok (Outcome 2 [(Stderr, "ERROR: no DA lines in coverage file — was it built with --coverage-line?")])
  else
    Ok (Outcome (if passes threshold hit total then 0 else 1)
      [(Stdout, report "line" threshold hit total "")]).

(** A command-line argument that is there and not empty. *)
Definition truthy (o : option string) : bool :=
  match o with Some s => negb (String.eqb s "") | None => false end.

(** Without a file the help text of the parser, left out here, is printed. *)
Definition main (a : args) : res outcome :=
  if truthy (functional a) then run_functional a (default "" (functional a))
  else if truthy (info_file a) then run_line a (default "" (info_file a))
  else Ok (Outcome 2 []).
End files.

Example gate_fails :
  main (λ p, Ok (if String.eqb p "m" then ["grp.a   1" +:+ newline; "# c"; "grp.b 0"; "grp.c 0" +:+ newline]
                 else ["grp.c" +:+ newline; ""; "# x"]))
    (Args (Some "m") (Some "x") (Some (float_of_Z 90)) None)
  = Ok (Outcome 1 [(Stdout, "FAIL: functional coverage 1/2 = 50.0%  (threshold 90%)  excluded 1");
                   (Stdout, "  MISS: grp.b")]).
Proof. vm_compute. reflexivity. Qed.

Example gate_line :
  main (λ _, Ok ["SF:rtl/a.sv"; "DA:1,1"; "DA:2,3,x"; "end_of_record"; "SF:../tb/t.sv"; "DA:1,0"])
    (Args None None None (Some "i"))
  = Ok (Outcome 0 [(Stdout, "PASS: line coverage 2/2 = 100.0%  (threshold 95%)")]).
Proof. vm_compute. reflexivity. Qed.

End coverage_gate.

(** ** From the reports of several runs to the verdict *)
Module coverage.
Import crv_cov_merge.
Import coverage_gate.

(** A report: the bins of a run and whether they were hit, each bin once. *)
Abbreviation report_t := (list (string * bool)%type).

(** A bin's name: no white space, and no comment. *)
Definition bin_ok (k : string) : Prop := k ≠ "" ∧ no_space k = true ∧ starts_with "#" k = false.
Definition report_ok (r : report_t) : Prop := NoDup r.*1 ∧ Forall bin_ok r.*1.

(** The line of a bin, with at least a space before the flag. *)
Definition report_line (gap : string → nat) (kb : string * bool) : string :=
  kb.1 +:+ spaces (S (gap kb.1)) +:+ (if kb.2 then "1" else "0").

Definition report_text (gap : string → nat) (r : report_t) : string := unlines (report_line gap <$> r).

(** The bins of the reports, and those that some report says are hit. *)
Definition known (rs : list report_t) (k : string) : Prop := ∃ r, r ∈ rs ∧ k ∈ r.*1.
Definition covered (rs : list report_t) (k : string) : Prop := ∃ r, r ∈ rs ∧ (k, true) ∈ r.

(** *** The merge *)

Lemma bin_ok_no_char k c : is_space c = true → bin_ok k → no_char c k.
Proof.
  intros Hc (_ & Hk & _). unfold no_char, no_space in *. revert Hk. apply str_all_impl.
  intros d Hd. destruct (Ascii.eqb_spec d c) as [->|]; [by rewrite Hc in Hd|done].
Qed.

Lemma bin_solid k : bin_ok k → starts_solid k = true ∧ ends_solid k = true.
Proof.
  intros (Hne & Hk & _). split; [|by apply ends_solid_nonspace].
  unfold no_space in Hk. destruct k; [done|]. by apply andb_true_iff in Hk as [??].
Qed.

(** A line of two words. *)
Lemma two_words_line k n v :
  bin_ok k → v ≠ "" → no_space v = true →
  strip (k +:+ spaces (S n) +:+ v) = k +:+ spaces (S n) +:+ v.
Proof.
  intros Hk Hv Hvs. destruct (bin_solid k Hk) as [Hs _].
  apply strip_solid; [by apply starts_solid_app|]. by do 2 apply ends_solid_app; apply ends_solid_nonspace.
Qed.

Lemma spaces_no_linebreak n : no_linebreak (spaces n) = true.
Proof. induction n as [|n IH]; [done|]. exact IH. Qed.

Lemma report_line_no_linebreak gap kb : bin_ok kb.1 → no_linebreak (report_line gap kb) = true.
Proof.
  intros (_ & Hk & _). unfold report_line, no_linebreak. rewrite !str_all_app.
  rewrite (str_all_ascii (λ c, negb (is_space c)) _ kb.1); [|reflexivity|exact Hk].
  fold (no_linebreak (spaces (S (gap kb.1)))). rewrite spaces_no_linebreak. by destruct kb.2.
Qed.

Definition flag_bins (r : report_t) : list (string * Z) := prod_map id Z.b2z <$> r.

Lemma flag_bins_keys r : (flag_bins r).*1 = r.*1.
Proof. unfold flag_bins. rewrite <-list_fmap_compose. by apply list_fmap_ext. Qed.

Lemma load_line_report gap d kb :
  bin_ok kb.1 → load_line d (report_line gap kb) = Ok (dict_set kb.1 (Z.b2z kb.2) d).
Proof.
  intros Hk. destruct kb as [k b]. cbn [fst] in Hk. unfold load_line, report_line. cbn [fst snd].
  rewrite two_words_line by (done || by destruct b).
  destruct Hk as (Hne & Hs & _). rewrite words_two by (done || by destruct b). by destruct b.
Qed.

Lemma load_report gap r : report_ok r → load (report_text gap r) = Ok (flag_bins r).
Proof.
  intros [Hnd Hok]. unfold load, report_text. rewrite Forall_fmap in Hok.
  rewrite splitlines_unlines.
  - assert (∀ d, load_lines d (report_line gap <$> r) = Ok (foldl (λ d '(k, v), dict_set k v d) d (flag_bins r))) as Hl.
    { clear Hnd. induction r as [|kb r IH]; intros d; [done|].
      apply Forall_cons_iff in Hok as [Hk Hok]. specialize (IH Hok). rewrite fmap_cons. cbn [load_lines].
      rewrite load_line_report by done. cbn [mbind res_bind]. rewrite IH. unfold flag_bins. rewrite fmap_cons.
      by destruct kb. }
    rewrite Hl, dict_of_list; [done|]. by rewrite app_nil_l, flag_bins_keys.
  - apply Forall_fmap. revert Hok. apply Forall_impl. intros kb Hk. by apply report_line_no_linebreak.
Qed.

Definition value (k : string) (d : list (string * Z)) : Z := default 0 (dict_get k d).

Lemma value_cons k k' v d : value k ((k', v) :: d) = if decide (k = k') then v else value k d.
Proof. unfold value. cbn. by case_decide. Qed.

Lemma value_merge_bin k k' v d :
  value k (merge_bin d (k', v)) = if decide (k = k') then Z.lor (value k d) v else value k d.
Proof.
  unfold value, merge_bin. cbn [fst snd]. case_decide as E.
  - subst. by rewrite dict_get_set_eq.
  - by rewrite dict_get_set_ne by congruence.
Qed.

Lemma merge_value k merged data :
  NoDup data.*1 → value k (merge_data merged data) = Z.lor (value k merged) (value k data).
Proof.
  unfold merge_data. revert merged. induction data as [|[k' v] data IH]; intros merged Hnd.
  - by rewrite Z.lor_0_r.
  - cbn [fmap list_fmap] in Hnd. apply list.NoDup_cons in Hnd as [Hk Hnd]. cbn [foldl]. rewrite IH by done.
    rewrite value_merge_bin, value_cons. destruct (decide (k = k')) as [->|Hne]; [|done].
    assert (value k' data = 0) as ->; [|by rewrite Z.lor_0_r].
    unfold value. by rewrite (proj2 (dict_get_None k' data) Hk).
Qed.

Lemma merge_keys k merged data :
  k ∈ (merge_data merged data).*1 ↔ k ∈ merged.*1 ∨ k ∈ data.*1.
Proof.
  unfold merge_data. revert merged. induction data as [|[k' v] data IH]; intros merged; cbn.
  - split; [by left|]. by intros [?|?%elem_of_nil].
  - rewrite IH. unfold merge_bin. cbn [fst]. rewrite dict_set_keys, elem_of_cons. tauto.
Qed.

Lemma merge_NoDup merged data : NoDup merged.*1 → NoDup (merge_data merged data).*1.
Proof.
  unfold merge_data. revert merged. induction data as [|kv data IH]; intros merged H; [done|].
  cbn [foldl]. by apply IH, dict_set_NoDup.
Qed.

Lemma value_flag_bins k r :
  NoDup r.*1 → value k (flag_bins r) = if decide ((k, true) ∈ r) then 1 else 0.
Proof.
  intros Hnd. unfold value. case_decide as H.
  - rewrite (dict_get_NoDup k 1); [done|by rewrite flag_bins_keys|].
    apply list_elem_of_fmap. by exists (k, true).
  - destruct (dict_get k (flag_bins r)) as [v|] eqn:Hg; [|done]. apply dict_get_elem in Hg.
    apply list_elem_of_fmap in Hg as ([k' b] & [= -> ->] & Hin). by destruct b.
Qed.

(** What the merged report says. *)
Definition merges (rs : list report_t) (merged : list (string * Z)) : Prop :=
  NoDup merged.*1 ∧ (∀ k, k ∈ merged.*1 ↔ known rs k) ∧
  (∀ k, (value k merged = 1 ∧ covered rs k) ∨ (value k merged = 0 ∧ ¬ covered rs k)).

Lemma merges_nil : merges [] [].
Proof.
  split; [apply NoDup_nil_2|]. split.
  - intros k. split; [by intros ?%elem_of_nil|]. by intros (r & ?%elem_of_nil & _).
  - intros k. right. split; [done|]. by intros (r & ?%elem_of_nil & _).
Qed.

Lemma merges_snoc rs r merged :
  report_ok r → merges rs merged → merges (rs ++ [r]) (merge_data merged (flag_bins r)).
Proof.
  intros [Hnd _] (Hm & Hk & Hv). split; [by apply merge_NoDup|]. split.
  - intros k. rewrite merge_keys, Hk, flag_bins_keys. unfold known. split.
    + intros [(r' & ? & ?)|?]; [exists r'|exists r]; rewrite elem_of_app, list_elem_of_singleton; auto.
    + intros (r' & [?| ->%list_elem_of_singleton]%elem_of_app & ?); [left; by exists r'|by right].
  - intros k. rewrite merge_value by by rewrite flag_bins_keys. rewrite value_flag_bins by done.
    assert (covered (rs ++ [r]) k ↔ covered rs k ∨ (k, true) ∈ r) as ->.
    { unfold covered. split.
      - intros (r' & [?| ->%list_elem_of_singleton]%elem_of_app & ?); [left; by exists r'|by right].
      - intros [(r' & ? & ?)|?]; [exists r'|exists r]; rewrite elem_of_app, list_elem_of_singleton; auto. }
    case_decide as Hin.
    + left. split; [|by right]. by destruct (Hv k) as [[-> _]|[-> _]].
    + destruct (Hv k) as [[-> ?]|[-> ?]]; [left; split; [done|by left]|right; split; [done|tauto]].
Qed.

(** An input of the merge: a file with the text of a report, or no file. *)
Definition input_is (gap : string → nat) (w : world) (f : string) (o : option report_t) : Prop :=
  match o with Some r => files w !! f = Some (report_text gap r) | None => exists_ f w = false end.

Lemma merge_files_reports gap fs (os : list (option report_t)) rs merged w :
  Forall2 (input_is gap w) fs os →
  Forall (λ o, ∀ r, o = Some r → report_ok r) os → merges rs merged →
  ∃ merged' l, merge_files merged fs w = (Ok merged', logged l w) ∧ merges (rs ++ omap id os) merged'.
Proof.
  intros Hfs. remember w as w0 eqn:Ew. rewrite Ew in Hfs.
  assert (files w0 = files w ∧ dirs w0 = dirs w) as Hsame by by subst. clear Ew.
  revert rs merged w0 Hsame. induction Hfs as [|f o fs os Hf _ IH]; intros rs merged w0 Hsame Hok Hm.
  - exists merged, []. by rewrite app_nil_r, logged_nil.
  - apply Forall_cons_iff in Hok as [Ho Hok]. cbn [merge_files]. unfold exists_, is_dir. destruct Hsame as [Hfi Hdi].
    rewrite Hfi, Hdi. change (String.eqb f "." || String.eqb f "/" || bool_decide (f ∈ dirs w)) with (is_dir f w).
    destruct o as [r|]; cbn [input_is] in Hf.
    + specialize (Ho r eq_refl). rewrite Hf, bool_decide_true, orb_true_r by done.
      rewrite (host_bind_ok _ _ w0 (report_text gap r) w0) by (unfold read_text; by rewrite Hfi, Hf).
      rewrite (host_bind_ok _ _ w0 (flag_bins r) w0) by (unfold lift; by rewrite load_report).
      destruct (IH (rs ++ [r]) _ w0 (conj Hfi Hdi) Hok (merges_snoc _ _ _ Ho Hm)) as (m' & l & -> & Hm').
      exists m', l. split; [done|]. by rewrite <-app_assoc in Hm'.
    + unfold exists_ in Hf. rewrite Hf.
      set (e := (Stderr, "[crv_cov_merge] WARNING: " +:+ f +:+ " not found, skipping")).
      rewrite (host_bind_ok _ _ w0 tt (logged [e] w0)) by done.
      destruct (IH rs merged (logged [e] w0)) as (m' & l & -> & Hm'); [done..|].
      exists m', (e :: l). by rewrite logged_app.
Qed.

(** *** The gate *)

(** The bins that count. *)
Definition counted (ex : gset string) (d : list (string * Z)) : list (string * Z) :=
  filter (λ kv, kv.1 ∉ ex) d.

Definition bin_text (kv : string * Z) : string := pad_right 36 kv.1 +:+ " " +:+ str_Z kv.2.

Lemma bin_text_two kv : ∃ n, bin_text kv = kv.1 +:+ spaces (S n) +:+ str_Z kv.2.
Proof.
  unfold bin_text, pad_right. exists (36 - String.length kv.1)%nat.
  by rewrite str_app_assoc, <-(str_app_assoc (spaces _)), spaces_snoc.
Qed.

Lemma strip_newline s : starts_solid s = true → ends_solid s = true → strip (s +:+ newline) = s.
Proof.
  intros H1 H2. unfold strip. rewrite lstrip_app_solid by done.
  by rewrite rstrip_spaces, rstrip_solid.
Qed.

Lemma str_Z_bit v : v = 0 ∨ v = 1 → str_Z v = if v =? 0 then "0" else "1".
Proof. by intros [->| ->]. Qed.

Lemma starts_with_hash_app k t : k ≠ "" → starts_with "#" k = false → starts_with "#" (k +:+ t) = false.
Proof. by destruct k. Qed.

Lemma functional_line_bin ex c kv :
  bin_ok kv.1 → kv.2 = 0 ∨ kv.2 = 1 →
  functional_line ex c (bin_text kv +:+ newline) =
    if decide (kv.1 ∈ ex) then c
    else if kv.2 =? 0 then Counts (total c + 1) (hit c) (misses c ++ [kv.1])
    else Counts (total c + 1) (hit c + 1) (misses c).
Proof.
  intros Hk Hv. destruct (bin_text_two kv) as (n & ->). pose proof (bin_solid _ Hk) as [Hs He].
  destruct Hk as (Hne & Hns & Hc).
  assert (str_Z kv.2 ≠ "" ∧ no_space (str_Z kv.2) = true) as [Hv1 Hv2] by by destruct Hv as [->| ->].
  unfold functional_line.
  rewrite strip_newline by (by apply starts_solid_app || (by do 2 apply ends_solid_app; apply ends_solid_nonspace)).
  rewrite starts_with_hash_app by done.
  assert (String.eqb (kv.1 +:+ spaces (S n) +:+ str_Z kv.2) "" = false) as -> by by destruct kv.1.
  cbn [orb]. rewrite rsplit1_two by done. rewrite (strip_solid kv.1) by done.
  rewrite (str_Z_bit _ Hv). rewrite bool_decide_decide. destruct (decide (kv.1 ∈ ex)); [done|].
  by destruct (kv.2 =? 0).
Qed.

Lemma functional_bins ex d c :
  Forall bin_ok d.*1 → Forall (λ kv, kv.2 = 0 ∨ kv.2 = 1) d →
  let c' := foldl (functional_line ex) c ((λ s, s +:+ newline) <$> (bin_text <$> d)) in
  total c' = total c + Z.of_nat (length (counted ex d)) ∧
  hit c' = hit c + Z.of_nat (length (filter (λ kv, kv.2 ≠ 0) (counted ex d))) ∧
  misses c' = misses c ++ (filter (λ kv, kv.2 = 0) (counted ex d)).*1.
Proof.
  intros Hk Hv. cbv zeta. rewrite Forall_fmap in Hk. revert c.
  induction Hv as [|kv d Hv _ IH]; intros c; [split_and!; cbn; [lia|lia|by rewrite app_nil_r]|].
  apply Forall_cons_iff in Hk as [Hk1 Hk]. rewrite !fmap_cons. cbn [foldl].
  rewrite functional_line_bin by done. unfold counted in *. rewrite filter_cons.
  destruct (decide (kv.1 ∈ ex)) as [Hin|Hin].
  - rewrite decide_False by tauto. by apply IH.
  - rewrite decide_True by done. rewrite !filter_cons. destruct (Z.eqb_spec kv.2 0) as [E|E].
    + rewrite (decide_False (P := kv.2 ≠ 0)), (decide_True (P := kv.2 = 0)) by tauto.
      destruct (IH Hk (Counts (total c + 1) (hit c) (misses c ++ [kv.1]))) as (H1 & H2 & H3).
      rewrite H1, H2, H3. cbn [total hit misses length]. rewrite <-app_assoc, fmap_cons. split; [lia|]. split; [lia|done].
    + rewrite (decide_True (P := kv.2 ≠ 0)), (decide_False (P := kv.2 = 0)) by tauto.
      destruct (IH Hk (Counts (total c + 1) (hit c + 1) (misses c))) as (H1 & H2 & H3).
      rewrite H1, H2, H3. cbn [total hit misses length]. split; [lia|]. split; [lia|done].
Qed.

Lemma filter_length_all {A} (P : A → Prop) `{∀ x, Decision (P x)} (l : list A) :
  length (filter P l) = length l ↔ ∀ x, x ∈ l → P x.
Proof.
  induction l as [|x l IH]; [split; [by intros _ ? ?%elem_of_nil|done]|].
  pose proof (length_filter P l). rewrite filter_cons. case_decide as Hx; cbn [length].
  - split.
    + intros [= Hl] y [->|Hy]%elem_of_cons; [done|]. by apply IH.
    + intros Hall. f_equal. apply IH. intros y Hy. apply Hall. by constructor.
  - split; [lia|]. intros Hall. destruct Hx. apply Hall. constructor.
Qed.

Lemma bin_text_no_newline kv :
  bin_ok kv.1 → kv.2 = 0 ∨ kv.2 = 1 → no_char "010" (bin_text kv).
Proof.
  intros Hk Hv. destruct (bin_text_two kv) as (n & ->). unfold no_char.
  rewrite !str_all_app. pose proof (bin_ok_no_char kv.1 "010" eq_refl Hk) as Hn. unfold no_char in Hn.
  rewrite Hn. assert (str_all (λ d, negb (Ascii.eqb d "010")) (spaces (S n)) = true) as ->.
  { induction (S n) as [|j IH]; [done|]. exact IH. }
  by destruct Hv as [->| ->].
Qed.

Lemma report_not_miss what threshold hit total tail k :
  (Stdout, ("  MISS: " +:+ k)) ≠ (Stdout, report what threshold hit total tail).
Proof. intros [= H]. unfold report in H. by destruct (passes threshold hit total). Qed.

Section closed.
Context (rs : list report_t) (merged : list (string * Z)).
Hypothesis (Hm : merges rs merged) (Hrs : Forall report_ok rs).

Lemma merged_entry k v : (k, v) ∈ merged ↔ known rs k ∧ v = value k merged.
Proof.
  destruct Hm as (Hnd & Hk & _). split.
  - intros Hin. split; [apply Hk; by apply (list_elem_of_fmap_2 fst) in Hin|].
    unfold value. by rewrite (dict_get_NoDup _ _ _ Hnd Hin).
  - intros [Hkn ->]. apply Hk in Hkn. unfold value.
    destruct (dict_get k merged) as [v|] eqn:Hg; [by apply dict_get_elem|].
    by apply dict_get_None in Hg.
Qed.

Lemma merged_covered k v : (k, v) ∈ merged → (v = 1 ∧ covered rs k) ∨ (v = 0 ∧ ¬ covered rs k).
Proof. intros [_ ->]%merged_entry. apply Hm. Qed.

Lemma merged_bits : Forall (λ kv, kv.2 = 0 ∨ kv.2 = 1) merged.
Proof. apply list.Forall_forall. intros [k v] Hin. apply merged_covered in Hin. cbn. tauto. Qed.

Lemma merged_bins_ok : Forall bin_ok merged.*1.
Proof.
  apply list.Forall_forall. intros k Hk. apply (proj1 (proj2 Hm)) in Hk as (r & Hr & Hk).
  rewrite list.Forall_forall in Hrs. destruct (Hrs r Hr) as [_ Hok]. by rewrite list.Forall_forall in Hok; apply Hok.
Qed.

Lemma merged_lines : file_lines (str_concat (bin_line <$> merged)) = (λ s, s +:+ newline) <$> (bin_text <$> merged).
Proof.
  assert (str_concat (bin_line <$> merged) = unlines (bin_text <$> merged)) as ->.
  { unfold unlines. rewrite <-list_fmap_compose. f_equal. apply list_fmap_ext. intros i kv _.
    unfold bin_line, bin_text. cbn [compose]. by rewrite !str_app_assoc. }
  apply file_lines_unlines. rewrite Forall_fmap. apply list.Forall_forall. intros kv Hkv.
  pose proof merged_bits as Hb. pose proof merged_bins_ok as Ho. rewrite Forall_fmap in Ho.
  rewrite list.Forall_forall in Hb, Ho. by apply bin_text_no_newline; [apply Ho|apply Hb].
Qed.

(** The verdict on the merged file at the default threshold: the status, and a
    line for each bin that was missed and for no other. *)
Definition closed (ex : gset string) (o : outcome) : Prop :=
  (exit_code o = 0 ↔ (∃ k, known rs k ∧ k ∉ ex) ∧ ∀ k, known rs k → k ∉ ex → covered rs k) ∧
  (exit_code o = 2 ↔ ∀ k, known rs k → k ∈ ex) ∧
  (exit_code o = 0 ∨ exit_code o = 1 ∨ exit_code o = 2) ∧
  (∀ k, (Stdout, ("  MISS: " +:+ k)) ∈ printed o ↔ known rs k ∧ (k ∉ ex) ∧ (¬ covered rs k)) ∧
  NoDup (printed o).

Lemma counted_elem ex k v : (k, v) ∈ counted ex merged ↔ (k, v) ∈ merged ∧ k ∉ ex.
Proof. unfold counted. rewrite list_elem_of_filter. cbn. tauto. Qed.

Lemma known_entry k : known rs k → (k, value k merged) ∈ merged.
Proof. intros Hk. by apply merged_entry. Qed.

(** No bin is counted. *)
Lemma counted_none ex : counted ex merged = [] → ∀ k, known rs k → k ∈ ex.
Proof.
  intros E k Hk. destruct (decide (k ∈ ex)) as [|Hne]; [done|exfalso].
  apply (not_elem_of_nil (k, value k merged)). rewrite <-E. apply counted_elem. split; [|done]. by apply known_entry.
Qed.
Lemma counted_some ex : counted ex merged ≠ [] → ∃ k, known rs k ∧ k ∉ ex.
Proof.
  destruct (counted ex merged) as [|[k v] l] eqn:El; [done|]. intros _.
  assert ((k, v) ∈ counted ex merged) as [Hkv Hx]%counted_elem by (rewrite El; constructor).
  exists k. by apply merged_entry in Hkv as [? _].
Qed.

(** Every counted bin was hit. *)
Lemma counted_hit ex :
  (∀ kv, kv ∈ counted ex merged → kv.2 ≠ 0) ↔ ∀ k, known rs k → k ∉ ex → covered rs k.
Proof.
  split.
  - intros Hall k Hk Hx. pose proof (known_entry k Hk) as Hkv.
    destruct (merged_covered _ _ Hkv) as [[_ ?]|[Hz _]]; [done|].
    destruct (Hall (k, value k merged)); [by apply counted_elem|done].
  - intros Hall [k v] [Hkv Hx]%counted_elem Hz. cbn in Hz.
    destruct (merged_covered _ _ Hkv) as [[? _]|[_ Hn]]; [congruence|].
    apply Hn, Hall; [|done]. by apply merged_entry in Hkv as [? _].
Qed.

(** The bins that are printed as missed. *)
Lemma counted_missed ex k :
  k ∈ (filter (λ kv, kv.2 = 0) (counted ex merged)).*1 ↔ known rs k ∧ (k ∉ ex) ∧ (¬ covered rs k).
Proof.
  rewrite list_elem_of_fmap. split.
  - intros ([k' v] & -> & [Hv [Hkv Hx]%counted_elem]%list_elem_of_filter). cbn in *. subst v.
    pose proof (merged_covered _ _ Hkv). apply merged_entry in Hkv as [? _]. intuition congruence.
  - intros (Hk & Hx & Hc). exists (k, value k merged). split; [done|].
    pose proof (known_entry k Hk) as Hkv.
    apply list_elem_of_filter. split; [|by apply counted_elem]. cbn.
    destruct (merged_covered _ _ Hkv) as [[_ ?]|[? _]]; done.
Qed.

Lemma missed_NoDup ex : NoDup (filter (λ kv, kv.2 = 0) (counted ex merged)).*1.
Proof.
  eapply sublist_NoDup; [apply (proj1 Hm)|]. apply fmap_sublist.
  etrans; [apply sublist_filter|]. unfold counted. apply sublist_filter.
Qed.

Lemma gate_closed open m x ex :
  m ≠ "" → open m = Ok (file_lines (str_concat (bin_line <$> merged))) → load_excludes open x = Ok ex →
  Z.of_nat (length merged) < 2 ^ 46 →
  ∃ o, coverage_gate.main open (Args (Some m) x None None) = Ok o ∧ closed ex o.
Proof.
  intros Hne Hopen Hex Hsize. unfold coverage_gate.main. cbn [functional truthy].
  rewrite (proj2 (String.eqb_neq _ _) Hne). cbn [negb default from_option id]. unfold run_functional.
  cbn [exclude_bins threshold default from_option id]. rewrite Hex. cbn [mbind res_bind]. rewrite Hopen. cbn [mbind res_bind]. rewrite merged_lines.
  destruct (functional_bins ex merged (Counts 0 0 []) merged_bins_ok merged_bits) as (H1 & H2 & H3).
  destruct (foldl _ _ _) as [tot hits miss]. cbn [total hit misses] in *. rewrite Z.add_0_l in H1, H2. rewrite app_nil_l in H3.
  subst tot hits miss. pose proof (counted_none ex) as Hnone. pose proof (counted_some ex) as Hsome.
  pose proof (counted_hit ex) as Hcov. pose proof (counted_missed ex) as Hmiss. pose proof (missed_NoDup ex) as Hnd.
  assert (length (counted ex merged) ≤ length merged)%nat as Hl by apply length_filter.
  revert Hnone Hsome Hcov Hmiss Hnd Hl. generalize (counted ex merged) as l. intros l Hnone Hsome Hcov Hmiss Hnd Hl.
  destruct (Z.eqb_spec (Z.of_nat (length l)) 0) as [E|E]; (eexists; split; [done|]; unfold closed; cbn [exit_code printed]).
  - destruct l; [|cbn in E; lia]. specialize (Hnone eq_refl).
    split; [split; [done|]; intros [(k & Hk & Hn) _]; destruct Hn; by apply Hnone|].
    split; [done|]. split; [auto|]. split; [|apply NoDup_singleton]. intros k. split.
    + intros Hk. apply list_elem_of_singleton in Hk. discriminate.
    + intros (Hk & Hx & _). destruct Hx. by apply Hnone.
  - destruct Hsome as (k0 & Hk0 & Hx0); [by destruct l|].
    unfold passes. set (hits := filter (λ kv, kv.2 ≠ 0) l).
    assert (length hits ≤ length l)%nat as Hh by apply length_filter. rewrite percent_threshold by lia.
    assert (Hhit : 100 * Z.of_nat (length l) ≤ 100 * Z.of_nat (length hits) ↔ ∀ kv, kv ∈ l → kv.2 ≠ 0).
    { rewrite <-(filter_length_all (λ kv, kv.2 ≠ 0)). fold hits. split; lia. }
    rewrite <-Hcov, <-Hhit. split; [|split; [|split]].
    + destruct (Z.leb_spec (100 * Z.of_nat (length l)) (100 * Z.of_nat (length hits))) as [Hle|Hgt].
      * split; [|done]. intros _. split; [by exists k0|done].
      * split; [done|]. intros [_ Hc]. lia.
    + split; [by case_match|]. intros Hall. by destruct Hx0; apply Hall.
    + case_match; auto.
    + split.
      * intros k. rewrite elem_of_cons, <-Hmiss, list_elem_of_fmap. split.
        -- intros [Hk|(k' & Hk & Hin)]; [by apply report_not_miss in Hk|].
           assert (k = k') as -> by (injection Hk; done). done.
        -- intros Hk. right. by exists k.
      * apply list.NoDup_cons. split.
        -- intros (k & Hk & _)%list_elem_of_fmap. symmetry in Hk. by apply report_not_miss in Hk.
        -- apply NoDup_fmap_2; [|done]. intros k k' Ekk. injection Ekk. done.
Qed.
End closed.

Lemma known_length rs merged :
  merges rs merged → (length merged ≤ length (rs ≫= λ r, r.*1))%nat.
Proof.
  intros (Hnd & Hk & _). rewrite <-(length_fmap fst). apply submseteq_length, NoDup_submseteq; [done|].
  intros k (r & Hr & Hin)%Hk. apply list_elem_of_bind. by exists r.
Qed.

(** *** The line gate *)

(** The records of an LCOV file that matter, and the others. *)
Inductive record :=
  | Source (path : string)
  | Line (n count : Z) (tail : string)
  | Other (text : string).

Definition record_text (r : record) : string :=
  match r with
  | Source path => "SF:" +:+ path
  | Line n count tail => "DA:" +:+ str_Z n +:+ "," +:+ str_Z count +:+ tail
  | Other text => text
  end.

Definition record_ok (r : record) : Prop :=
  match r with
  | Source path => True
  | Line n count tail =>
      0 ≤ n ∧ 0 ≤ count ∧ default true (negb ∘ is_digit <$> str_head tail) = true
  | Other text => starts_with "SF:" text = false ∧ re_match DA_RE (text +:+ newline) = None
  end.

(** The execution counts of the lines outside the test benches. *)
Fixpoint line_counts (skip : bool) (rs : list record) : list Z :=
  match rs with
  | [] => []
  | Source path :: rs => line_counts (starts_with "../tb/" (strip path)) rs
  | Line _ count _ :: rs => if skip then line_counts skip rs else count :: line_counts skip rs
  | Other _ :: rs => line_counts skip rs
  end.

Lemma strip_add_newline s : strip (s +:+ newline) = strip s.
Proof.
  unfold strip. induction s as [|c s IH]; [done|]. rewrite str_app_cons. cbn [lstrip].
  destruct (is_space c); [done|]. rewrite <-str_app_cons. by apply rstrip_spaces.
Qed.

Lemma DA_RE_match n count tail :
  record_ok (Line n count tail) →
  ∃ m, re_match DA_RE (record_text (Line n count tail) +:+ newline) = Some m ∧ group 2 m = Some (str_Z count).
Proof.
  intros (Hn & Hc & Ht). cbn [record_text]. rewrite !str_app_assoc.
  eexists. split.
  - apply re_match_hit. unfold DA_RE.
    repeat first [apply hit_many; [by apply str_Z_digits|apply str_Z_length|]|hit_step].
    all: first [done|destruct tail; [done|exact Ht]].
  - done.
Qed.

Lemma info_lines skip tot hits rs :
  Forall record_ok rs →
  let st := foldl info_line (skip, tot, hits) ((λ s, s +:+ newline) <$> (record_text <$> rs)) in
  st.1.2 = tot + Z.of_nat (length (line_counts skip rs)) ∧
  st.2 = hits + Z.of_nat (length (filter (λ c, 0 < c) (line_counts skip rs))).
Proof.
  intros Hrs. cbv zeta. revert skip tot hits. induction Hrs as [|r rs Hr _ IH]; intros skip tot hits; [cbn; lia|].
  rewrite !fmap_cons. cbn [foldl]. destruct r as [path|n count tail|text]; cbn [line_counts].
  - cbn [record_text]. rewrite str_app_assoc.
    assert (info_line (skip, tot, hits) ("SF:" +:+ path +:+ newline)
      = (starts_with "../tb/" (strip path), tot, hits)) as ->.
    { unfold info_line. rewrite starts_with_app, str_drop_app by done. by rewrite strip_add_newline. }
    apply IH.
  - assert (info_line (skip, tot, hits) (record_text (Line n count tail) +:+ newline)
      = if skip then (skip, tot, hits) else (skip, tot + 1, if 0 <? count then hits + 1 else hits)) as ->.
    { destruct (DA_RE_match n count tail Hr) as (m & Hm & Hg). unfold info_line.
      assert (starts_with "SF:" (record_text (Line n count tail) +:+ newline) = false) as -> by done.
      rewrite Hm, Hg. cbn [mbind option_bind]. by rewrite int_of_str_Z. }
    destruct skip; [apply IH|]. cbn [line_counts]. rewrite filter_cons.
    destruct (IH false (tot + 1) (if 0 <? count then hits + 1 else hits)) as [-> ->].
    destruct (Z.ltb_spec 0 count); [rewrite decide_True by done|rewrite decide_False by lia]; cbn [length]; lia.
  - assert (info_line (skip, tot, hits) (record_text (Other text) +:+ newline) = (skip, tot, hits)) as ->.
    { destruct Hr as [Hsf Hm]. cbn [record_text] in *. unfold info_line.
      assert (starts_with "SF:" (text +:+ newline) = false) as ->.
      { destruct text as [|a [|b [|c text]]]; try done; cbn in Hsf |- *;
          repeat (case_match; try done). }
      rewrite Hm. by destruct skip. }
    apply IH.
Qed.

(** *** The summary table *)

Definition sum_of (l : list Z) : Z := foldr Z.add 0 l.

Definition stats_total (st : option (string * Z * Z) * list (string * Z * Z)) : Z * Z :=
  let l := st.2 ++ match st.1 with Some g => [g] | None => [] end in
  (sum_of ((λ g, g.1.2) <$> l), sum_of (snd <$> l)).

Lemma sum_of_app l k : sum_of (l ++ k) = sum_of l + sum_of k.
Proof. induction l as [|x l IH]; [done|]. cbn [app sum_of foldr]. unfold sum_of in *. lia. Qed.

Lemma stats_step_total st kv :
  stats_total (stats_step st kv) = ((stats_total st).1 + kv.2, (stats_total st).2 + 1).
Proof.
  destruct st as [[[[g h] t]|] done]; unfold stats_total, stats_step.
  - destruct (String.eqb _ g); cbn [fst snd]; rewrite !fmap_app, !sum_of_app; cbn; f_equal; lia.
  - cbn [fst snd]. rewrite !fmap_app, !sum_of_app. cbn. f_equal; lia.
Qed.

Lemma group_stats_sums merged :
  sum_of ((λ g, g.1.2) <$> group_stats merged) = sum_of (snd <$> merged) ∧
  sum_of (snd <$> group_stats merged) = Z.of_nat (length merged).
Proof.
  assert (∀ st, stats_total (foldl stats_step st merged)
    = ((stats_total st).1 + sum_of (snd <$> merged), (stats_total st).2 + Z.of_nat (length merged))) as H.
  { induction merged as [|kv merged IH]; intros st.
    - cbn [foldl fmap list_fmap length]. destruct (stats_total st). cbn. f_equal; lia.
    - cbn [foldl]. rewrite IH, stats_step_total. cbn [fst snd fmap list_fmap length].
      change (sum_of (kv.2 :: ?l)) with (kv.2 + sum_of l). f_equal; [unfold sum_of; cbn [foldr]; lia|lia]. }
  specialize (H (None, [])). unfold stats_total in H at 1. unfold group_stats.
  destruct (foldl stats_step (None, []) merged) as [[g|] done]; cbn [fst snd] in H; [|rewrite app_nil_r in H];
    injection H as H1 H2; rewrite H1, H2; cbn; lia.
Qed.

(** The figures of a group: no more hits than bins. *)
Lemma group_stats_bounds merged :
  Forall (λ kv, kv.2 = 0 ∨ kv.2 = 1) merged →
  Forall (λ g : string * Z * Z, 0 ≤ g.1.2 ≤ g.2 ∧ 0 < g.2 ≤ Z.of_nat (length merged)) (group_stats merged).
Proof.
  intros Hbits.
  assert (Forall (λ g : string * Z * Z, 0 ≤ g.1.2 ≤ g.2 ∧ 0 < g.2) (group_stats merged)) as Hok.
  { assert (∀ st : option (string * Z * Z) * list (string * Z * Z),
      Forall (λ g : string * Z * Z, 0 ≤ g.1.2 ≤ g.2 ∧ 0 < g.2) (st.2 ++ match st.1 with Some g => [g] | None => [] end) →
      let st' := foldl stats_step st merged in
      Forall (λ g : string * Z * Z, 0 ≤ g.1.2 ≤ g.2 ∧ 0 < g.2) (st'.2 ++ match st'.1 with Some g => [g] | None => [] end)) as H.
    { induction Hbits as [|kv merged Hkv _ IH]; intros st Hst; [done|]. cbn [foldl]. apply IH.
      destruct st as [[[[g h] n]|] done]; unfold stats_step; cbn [fst snd] in *.
      - apply Forall_app in Hst as [H1 H2]. apply Forall_cons_iff in H2 as [H2 _]. cbn in H2.
        destruct (String.eqb _ g); cbn [fst snd]; rewrite ?Forall_app; split_and?; try done; (apply Forall_cons_2; [cbn; lia|apply Forall_nil_2]).
      - rewrite app_nil_r in Hst. apply Forall_app. split; [done|]. apply Forall_cons_2; [cbn; lia|apply Forall_nil_2]. }
    specialize (H (None, []) (Forall_nil_2 _)). unfold group_stats. cbv zeta in H.
    destruct (foldl stats_step (None, []) merged) as [[g|] done]; [exact H|]. cbn [fst snd] in H. by rewrite app_nil_r in H. }
  destruct (group_stats_sums merged) as [_ Hsum]. rewrite <-Hsum. clear Hsum.
  assert (∀ l : list (string * Z * Z), Forall (λ g, 0 ≤ g.1.2 ≤ g.2 ∧ 0 < g.2) l →
    0 ≤ sum_of (snd <$> l) ∧ ∀ g, g ∈ l → g.2 ≤ sum_of (snd <$> l)) as Hle.
  { intros l Hl. induction Hl as [|g l Hg _ [IH1 IH2]]; [split; [done|by intros g ?%elem_of_nil]|].
    change (sum_of (snd <$> (g :: l))) with (g.2 + sum_of (snd <$> l)). split; [lia|].
    intros g' [->|Hin]%elem_of_cons; [lia|]. specialize (IH2 g' Hin). lia. }
  destruct (Hle _ Hok) as [_ Hle']. rewrite list.Forall_forall in Hok |- *. intros g Hg. specialize (Hok g Hg). specialize (Hle' g Hg). lia.
Qed.

(** The percentages the table prints are numbers, and so are its bars. *)
Lemma pct_ok h n : 0 ≤ h ≤ n → 0 < n < 2 ^ 46 →
  pct h n = Ok (percent h n) ∧ ∃ b, float_trunc (float_div (percent h n) (float_of_Z 5)) = Ok b.
Proof.
  intros Hh Hn. split.
  - unfold pct. rewrite (proj2 (Z.eqb_neq n 0)) by lia. unfold float_of_int. rewrite (float_of_Z_fl n) by lia.
    destruct (Z.eq_dec h 0) as [->|]; [done|]. by rewrite (float_of_Z_fl h) by lia.
  - unfold percent. destruct (Z.eq_dec h 0) as [->|Hne]; [rewrite (float_of_Z_fl n) by lia; by eexists|].
    rewrite float_mul_exact, (float_of_Z_fl n), (float_of_Z_fl 5) by lia.
    pose proof (sig_normal (100 * h) ltac:(lia)) as N1. pose proof (sig_normal n ltac:(lia)) as N2.
    pose proof (log2_small (100 * h) ltac:(lia)). pose proof (log2_small n ltac:(lia)).
    assert (∀ q k z e f, normal q → z = q ∨ z = q + 1 → -300 ≤ e ≤ 300 → k = 0 ∨ k = 1 →
      float_div (if z <? 2 ^ 53 then fl z (e + k) else fl (2 ^ 52) (e + k + 1)) (fl (sig 5) (expo 5)) = f →
      ∃ b, float_trunc f = Ok b) as Hnext.
    { intros q k z e f [Hq1 Hq2] Hz He Hk <-. pose proof (sig_normal 5 ltac:(lia)) as N5.
      assert (expo 5 = -50) as E5 by done. rewrite E5.
      destruct (Z.ltb_spec z (2 ^ 53)).
      - destruct (float_div_cases z (e + k) (sig 5) (-50)) as (q' & k' & z' & _ & _ & _ & _ & ->); [split; lia|done|lia|].
        destruct (z' <? 2 ^ 53); by eexists.
      - destruct (float_div_cases (2 ^ 52) (e + k + 1) (sig 5) (-50)) as (q' & k' & z' & _ & _ & _ & _ & ->); [split; lia|done|lia|].
        destruct (z' <? 2 ^ 53); by eexists. }
    destruct (float_div_cases (sig (100 * h)) (expo (100 * h)) (sig n) (expo n)) as (q & k & z & Hq & Hk & _ & Hz & ->);
      [done|done|unfold expo; lia|].
    eapply (Hnext q k z (expo (100 * h) - expo n - 53)); [done|done|unfold expo; lia|done|reflexivity].
Qed.

Lemma print_lines_all {A} (f : A → res string) l w :
  (∀ x, x ∈ l → ∃ t, f x = Ok t) → ∃ k, print_lines f l w = (Ok tt, logged k w).
Proof.
  intros Hf. assert (∃ ts, Forall2 (λ x t, f x = Ok t) l ts) as (ts & Hts).
  { induction l as [|x l IH]; [by exists []|]. destruct (Hf x) as (t & Ht); [left|].
    destruct IH as (ts & Hts); [intros; apply Hf; by right|]. exists (t :: ts). by constructor. }
  eexists. by apply print_lines_ok.
Qed.

(** The table is printed whole. *)
Lemma summary_ok merged out w :
  Forall (λ kv, kv.2 = 0 ∨ kv.2 = 1) merged → merged ≠ [] → Z.of_nat (length merged) < 2 ^ 46 →
  ∃ k, summary merged out w = (Ok tt, logged k w).
Proof.
  intros Hbits Hne Hsize. unfold summary.
  rewrite (host_bind_ok _ _ w tt (logged [(Stdout, newline +:+ "Coverage summary")] w)) by done.
  rewrite (host_bind_ok _ _ _ tt (logged [(Stdout, rule)] (logged [(Stdout, newline +:+ "Coverage summary")] w))) by done.
  rewrite logged_app. set (w1 := logged _ w).
  destruct (print_lines_all group_line (group_stats merged) w1) as (k1 & E1).
  { intros [[grp gh] gt] Hg. pose proof (group_stats_bounds merged Hbits) as Hb. rewrite list.Forall_forall in Hb.
    destruct (Hb _ Hg) as [H1 H2]. cbn in H1, H2. unfold group_line. destruct (pct_ok gh gt) as (-> & b & Eb); [lia|lia|].
    cbn [mbind res_bind]. rewrite Eb. by eexists. }
  rewrite (host_bind_ok _ _ _ _ _ E1). rewrite (host_bind_ok _ _ _ tt (logged [(Stdout, rule)] (logged k1 w1))) by done.
  destruct (print_lines_all total_line [merged] (logged [(Stdout, rule)] (logged k1 w1))) as (k2 & E2).
  { intros m ->%list_elem_of_singleton. unfold total_line.
    destruct (pct_ok (Z.of_nat (length (filter (λ kv : string * Z, kv.2 ≠ 0) merged))) (Z.of_nat (length merged))) as (-> & _).
    - pose proof (length_filter (λ kv : string * Z, kv.2 ≠ 0) merged). lia.
    - destruct merged; [done|]. cbn [length] in *. lia.
    - by eexists. }
  rewrite (host_bind_ok _ _ _ _ _ E2). unfold w1. rewrite !logged_app.
  match goal with |- context [print ?t (logged ?k w)] => exists (k ++ [(Stdout, t)]); rewrite <-(logged_app k [(Stdout, t)]) end. done.
Qed.

(** ** The properties *)



(** C36: With a threshold that is a whole number from 1 to 100, or none (95),
    the line gate on an LCOV file passes exactly when the executed lines
    outside ../tb/ reach the threshold percentage of the counted ones, the
    binary floating-point quotient never deciding otherwise, and exits 2 when
    there are none. *)
Theorem line_gate open (f : string) rs c
  (Hf : f ≠ "") (Hopen : open f = Ok ((λ s, s +:+ newline) <$> (record_text <$> rs)))
  (Hrs : Forall record_ok rs) (Hc : 1 ≤ default 95 c ≤ 100)
  (Hsize : Z.of_nat (length (line_counts false rs)) < 2 ^ 46) :
  let l := line_counts false rs in
  let executed := filter (λ n, 0 < n) l in
  ∃ o, coverage_gate.main open (Args None None (float_of_Z <$> c) (Some f)) = Ok o ∧
    exit_code o =
      match l with
      | [] => 2
      | _ => if default 95 c * Z.of_nat (length l) <=? 100 * Z.of_nat (length executed) then 0 else 1
      end.
Proof.
  intros l executed. fold l in Hsize. unfold coverage_gate.main. cbn [functional truthy info_file].
  rewrite (proj2 (String.eqb_neq _ _) Hf). cbn [negb default from_option id]. unfold run_line.
  cbn [threshold]. rewrite Hopen. cbn [mbind res_bind].
  destruct (info_lines false 0 0 rs Hrs) as [H1 H2]. fold l in H1, H2. fold executed in H2.
  destruct (foldl info_line _ _) as [[skip tot] hits]. cbn [fst snd] in H1, H2.
  rewrite Z.add_0_l in H1, H2. subst tot hits.
  assert (length executed ≤ length l)%nat as He by apply length_filter.
  assert (default (float_of_Z 95) (float_of_Z <$> c) = float_of_Z (default 95 c)) as -> by by destruct c.
  destruct l as [|n l'] eqn:El; [by eexists|].
  assert (Z.of_nat (length (n :: l')) ≠ 0) as Hne by (cbn; lia).
  rewrite (proj2 (Z.eqb_neq _ _) Hne). eexists. split; [done|]. cbn [exit_code]. unfold passes.
  rewrite percent_threshold by lia. done.
Qed.

(** Two lines of the design, one of them executed, and a test bench. *)
Definition example_info : list record :=
  [Source "rtl/a.sv"; Line 1 3 ""; Line 2 0 ",x"; Other "end_of_record"; Source "../tb/t.sv"; Line 1 0 ""].

Lemma line_gate_witness :
  ∃ o, coverage_gate.main (λ _, Ok ((λ s, s +:+ newline) <$> (record_text <$> example_info)))
    (Args None None (Some (float_of_Z 50)) (Some "cov.info")) = Ok o ∧ exit_code o = 0.
Proof.
  apply (line_gate (λ _, Ok ((λ s, s +:+ newline) <$> (record_text <$> example_info)))
    "cov.info" example_info (Some 50)); [discriminate|reflexivity| |cbn; lia|vm_compute; reflexivity].
  unfold example_info. repeat (apply Forall_cons_2 || apply Forall_nil_2); cbn; repeat split; lia.
Defined.

(** Whatever the merged bins, the groups of the merge summary add up:
    their hits to the sum of the flags, their sizes to the number of bins. *)
Theorem summary_adds_up merged :
  sum_of ((λ g, g.1.2) <$> group_stats merged) = sum_of (snd <$> merged) ∧
  sum_of (snd <$> group_stats merged) = Z.of_nat (length merged).
Proof. apply group_stats_sums. Qed.

End coverage.
