(* ===== verification/RtlRules.v ===== *)
(** scripts/check_rtl_rules.py: the line-based checker of the SystemVerilog
    coding rules.  A file is scanned line by line with a state of counters and
    a stack of open [begin] blocks; each line adds the violations it shows. *)
From S2P Require Export Regex Dirs.
Local Open Scope Z_scope.

Module check_rtl_rules.

(** ** The patterns *)

Definition blank : regex := RStar is_space.
Definition alts (l : list string) : regex :=
  match l with
  | [] => RNot REmpty
  | w :: l => foldl (λ r w, RAlt r (RStr w)) (RStr w) l
  end.
(** [^\s*w\b] *)
Definition keyword (w : string) : regex := RSeqs [RBegin; blank; RStr w; RBoundary].

Definition ALWAYS_RE : regex :=
  RSeqs [RBegin; blank; RStr "always_"; RGroup 1 (alts ["ff"; "comb"; "latch"]); RBoundary].
Definition AUTOMATIC_RE : regex :=
  RSeqs [RBegin; blank; RStr "automatic"; RPlus is_space; RGroup 1 (alts ["logic"; "int"; "bit"; "reg"]); RBoundary].
Definition FUNCTION_RE : regex := keyword "function".
Definition ENDFUNCTION_RE : regex := keyword "endfunction".
Definition TASK_RE : regex := keyword "task".
Definition ENDTASK_RE : regex := keyword "endtask".
Definition GENERATE_RE : regex := keyword "generate".
Definition ENDGENERATE_RE : regex := keyword "endgenerate".
Definition DECL_RE : regex :=
  RSeqs [RBegin; blank; RGroup 1 (alts ["logic"; "int"; "bit"; "reg"; "enum"; "struct"]); RBoundary].
Definition HISTORY_RE : regex :=
  RSeqs [RBegin; blank; RStr "//"; blank;
    RGroup 1 (RAlt
      (RSeqs [RStr "Stage"; RPlus is_space; RPlus is_digit;
              RClass (λ c, (97 <=? code c) && (code c <=? 122)); blank; RStr ":"])
      (RSeqs [RStr "Fix"; RPlus is_space; RStr "#"; RPlus is_digit; blank; RStr ":"]))].
Definition IF_BARE_RE : regex :=
  RSeqs [RBegin; RGroup 1 blank; ROpt (RSeqs [RStr "end"; RPlus is_space]);
    ROpt (RSeqs [RStr "else"; RPlus is_space]); RStr "if"; blank; RStr "(";
    RStar (λ c, negb (Ascii.eqb c ")")); RStr ")"; blank; REnd].
Definition IF_RESET_RE : regex :=
  RSeqs [RBegin; blank; RStr "if"; blank; RStr "("; blank; RStr "!rst_ni"; blank; RStr ")"].
Definition BEGIN_NAMED_RE : regex :=
  RSeqs [RBoundary; RStr "begin"; blank; RStr ":"; blank; RPlus is_word].
Definition BEGIN_PLAIN_RE : regex :=
  RSeqs [RBoundary; RStr "begin"; RBoundary; RNot (RSeqs [blank; RStr ":"])].
Definition END_RE : regex :=
  RSeqs [RBoundary; RStr "end"; RBoundary; RNot (RClass is_word)].

Definition matches (r : regex) (line : string) : bool :=
  match re_match r line with Some _ => true | None => false end.

(** ** The scan *)

Inductive rule := R2 | R1R3 | History | MultiIf.
#[export] Instance rule_eq_dec : EqDecision rule.
Proof. solve_decision. Defined.

Record state := State {
  seen_first_always : bool;
  in_function : Z;
  in_task : Z;
  in_generate : Z;
  begin_stack : list bool;    (** the last opened first *)
}.

Definition init : state := State false 0 0 0 [].

(** [if OPEN.match(line): n += 1] then [if CLOSE.match(line): n = max(0, n - 1)] *)
Definition count (open close : regex) (line : string) (n : Z) : Z :=
  let n := if matches open line then n + 1 else n in
  if matches close line then Z.max 0 (n - 1) else n.

(** [line.split("//", 1)[0]] *)
Fixpoint no_comment (line : string) : string :=
  match line with
  | "" => ""
  | String c t => if starts_with "//" line then "" else String c (no_comment t)
  end.

(** The pushes of named, then of plain blocks, then the pops. *)
Definition scan_begins (code : string) (stack : list bool) : list bool :=
  let stack := replicate (length (re_findall BEGIN_NAMED_RE code)) true ++ stack in
  let stack := replicate (length (re_findall BEGIN_PLAIN_RE code)) false ++ stack in
  drop (length (re_findall END_RE code)) stack.

(** The counters and the stack, before the line is judged. *)
Definition enter (line : string) (st : state) : state :=
  State (seen_first_always st)
    (count FUNCTION_RE ENDFUNCTION_RE line (in_function st))
    (count TASK_RE ENDTASK_RE line (in_task st))
    (count GENERATE_RE ENDGENERATE_RE line (in_generate st))
    (scan_begins (no_comment line) (begin_stack st)).

(** Whether a declaration is allowed where the state says. *)
Definition exempt (st : state) : bool :=
  negb ((in_function st =? 0) && (in_task st =? 0) && (in_generate st =? 0))
  || existsb id (begin_stack st).

(** The loop over the lines after a bare [if]: whether it reports. *)
Fixpoint if_ahead (ahead : list string) : bool :=
  match ahead with
  | [] => false
  | a :: ahead =>
      let s := strip a in
      if String.eqb s "" then if_ahead ahead
      else if starts_with "begin" s then false
      else if ends_with ";" s || ends_with "," s || starts_with "&" s || starts_with "|" s then
        if contains "begin" s || ends_with ") begin" s then false else if_ahead ahead
      else true
  end.

(** One turn of the loop of [check_file]: the rules the line breaks, given the
    lines after it. *)
Definition check_line (raw : string) (after : list string) (st : state) : state * list rule :=
  let line := rstrip raw in
  let st := enter line st in
  let r2 := if matches AUTOMATIC_RE line then [R2] else [] in
  let '(st, decl) :=
    if matches ALWAYS_RE line
    then (State true (in_function st) (in_task st) (in_generate st) (begin_stack st), [])
    else (st, if seen_first_always st && matches DECL_RE line && negb (exempt st) then [R1R3] else []) in
  let history := if matches HISTORY_RE line then [History] else [] in
  let multi := if matches IF_BARE_RE line && negb (matches IF_RESET_RE line) && if_ahead (take 3 after)
               then [MultiIf] else [] in
  (st, r2 ++ decl ++ history ++ multi).

Fixpoint check_lines (n : nat) (st : state) (lines : list string) : list (nat * rule) :=
  match lines with
  | [] => []
  | raw :: after =>
      let '(st, rules) := check_line raw after st in
      ((λ r, (n, r)) <$> rules) ++ check_lines (S n) st after
  end.

Definition rule_text (r : rule) : string :=
  match r with
  | R2 => "R2: `automatic` on variable declaration"
  | R1R3 => "R1/R3: declaration after first `always_*` (must move to module-scope decl block at top of module)"
  | History => "history-prefix comment (strip `Stage NX:` / `Fix #N:` per CLAUDE.md)"
  | MultiIf => "multi-line `if` without `begin`/`end` (wrap body or use single-line form)"
  end.

Definition violation_text (path : string) (v : nat * rule) : string :=
  path +:+ ":" +:+ str_nat v.1 +:+ ": " +:+ rule_text v.2.

(** What reading a file gives: its text, or an [OSError]. *)
Inductive contents := Text (text : string) | CannotRead (exc : string).

Definition check_file (path : string) (c : contents) : list string :=
  match c with
  | Text text => violation_text path <$> check_lines 1 init (splitlines text)
  | CannotRead exc => [path +:+ ": cannot read: " +:+ exc]
  end.

(** ** The staged lines *)

Definition hunk_re : regex :=
  RSeqs [RBegin; RStr "@@ -"; RPlus is_digit; ROpt (RSeqs [RStr ","; RPlus is_digit]); RStr " +";
    RGroup 1 (RPlus is_digit); ROpt (RSeqs [RStr ","; RGroup 2 (RPlus is_digit)]); RStr " @@"].
Definition line_re : regex :=
  RSeqs [RBegin; RGroup 1 (RPlus (λ c, negb (Ascii.eqb c ":"))); RStr ":"; RGroup 2 (RPlus is_digit); RStr ":"].

Definition group_nat (n : nat) (m : found) : option Z := group n m ≫= int_of_str.

(** [range(start, start + count)] *)
Definition range (start count : Z) : list Z := (λ i, start + Z.of_nat i) <$> seq 0 (Z.to_nat count).

(** The lines a line of the diff adds. *)
Definition hunk_lines (raw : string) : list Z :=
  match re_match hunk_re raw with
  | Some m =>
      match group_nat 1 m with
      | Some start => range start (default 1 (group_nat 2 m))
      | None => []
      end
  | None => []
  end.

(** The lines a diff adds. *)
Definition added_lines (stdout : string) : gset Z := list_to_set (splitlines stdout ≫= hunk_lines).

(** The filter of [main] on the violations of a staged file. *)
Definition staged_filter (added : gset Z) (vs : list string) : list string :=
  filter (λ v, match re_match line_re v ≫= group_nat 2 with
    Some n => bool_decide (n ∈ added) | None => false end = true) vs.

(** ** The run *)

Section run.
Context `{Scandir}.
(** The programs installed, git among them. *)
Variable exec : program.

Record args := Args { paths : list string; staged : bool }.

Definition git_names : command := cmd ["git"; "diff"; "--cached"; "--name-only"; "--diff-filter=ACMR"].
Definition git_diff (path : string) : command :=
  cmd ["git"; "diff"; "--cached"; "--unified=0"; "--no-color"; "--"; path].

(** [check_file], reading the file. *)
Definition contents_of (path : string) (w : world) : contents :=
  match files w !! path with Some t => Text t | None => CannotRead (open_error path w) end.
Definition check_path (path : string) : host (list string) := λ w, (Ok (check_file path (contents_of path w)), w).

Definition staged_added_lines (path : string) : host (gset Z) :=
  p ← check_call exec (git_diff path); mret (added_lines (stdout p)).

(** [gather_files], [body] being the loop that draws from it. *)
Definition gather_files (a : args) (body : string → host (list string)) : host (list string) :=
  if staged a then
    p ← check_call exec git_names;
    collect (λ line w,
      let p := Path line in
      if String.eqb (suffix p) ".sv" && exists_ p w then body p w else (Ok [], w)) (splitlines (stdout p))
  else
    match paths a with
    | [] => collect (λ root w, collect body (rglob root ".sv" w) w) ["rtl"; "tb"]
    | ps =>
        collect (λ raw w,
          let p := Path raw in
          if is_dir p w then collect body (rglob p ".sv" w) w
          else if String.eqb (suffix p) ".sv" then body p w else (Ok [], w)) ps
    end.

(** The loop of [main]. *)
Definition file_violations (a : args) (path : string) : host (list string) :=
  vs ← check_path path;
  if staged a then added ← staged_added_lines path; mret (staged_filter added vs) else mret vs.

(** What [main] prints of the violations. *)
Definition report (staged : bool) (vs : list string) : list string :=
  match vs with
  | [] => []
  | _ =>
      ["RTL rule violations:"] ++ ((λ v, "  " +:+ v) <$> vs) ++ [""]
      ++ [str_nat (length vs) +:+
          " violation(s). See CLAUDE.md `## SystemVerilog Coding Guidelines` for context."]
      ++ (if staged then ["Bypass with `git commit --no-verify` if intentional."] else [])
  end.

Definition main (a : args) : host Z :=
  vs ← gather_files a (file_violations a);
  for_each (put Stderr) (report (staged a) vs);;
  mret (match vs with [] => 0 | _ => 1 end).
End run.

Example scan_sample :
  check_file "a.sv" (Text (unlines [
    "module a;"; "  logic x;"; "  always_ff @(posedge clk_i) begin"; "    if (!rst_ni)"; "      x <= 0;"; "  end";
    "  logic y;"; "  // Fix #12: z"; "  for (genvar i = 0; i < 4; i++) begin : gen_a"; "    logic z;"; "  end";
    "  automatic int k;"; "  else if (a)"; "     b"; "endmodule"]))
  = ["a.sv:7: R1/R3: declaration after first `always_*` (must move to module-scope decl block at top of module)";
     "a.sv:8: history-prefix comment (strip `Stage NX:` / `Fix #N:` per CLAUDE.md)";
     "a.sv:12: R2: `automatic` on variable declaration";
     "a.sv:13: multi-line `if` without `begin`/`end` (wrap body or use single-line form)"].
Proof. vm_compute. reflexivity. Qed.

Example staged_sample :
  added_lines (unlines ["diff --git a b"; "@@ -3,0 +4,2 @@ module a"; "+x"; "@@ -9 +11 @@"; "@@ -12,2 +14,0 @@"])
  = {[4; 5; 11]}.
Proof. vm_compute. reflexivity. Qed.

(** ** The declaration rule on nested code

    [forest] is SystemVerilog text with its scopes as a tree; the leaves and the
    first and last lines of the scopes are lines of text.  A leaf may hold a
    whole block, or end a block and begin the next, as [end else begin] does.
    [flags] is rule R1/R3 on the tree: a declaration after the first [always_*],
    outside functions, tasks, generate regions and labelled blocks. *)

Inductive kind := KFunction | KTask | KGenerate | KBegin (named : bool).

Inductive part := Plain | Block | Turn.

Inductive forest :=
  | Done
  | Line (p : part) (l : string) (rest : forest)
  | Scope (k : kind) (open : string) (body : forest) (close : string) (rest : forest).

Fixpoint forest_lines (f : forest) : list string :=
  match f with
  | Done => []
  | Line _ l rest => l :: forest_lines rest
  | Scope _ open body close rest => open :: forest_lines body ++ close :: forest_lines rest
  end.

(** What a line does to the scopes: the six keywords, named blocks, plain
    blocks and ends. *)
Definition profile (raw : string) : list bool * list nat :=
  let line := rstrip raw in
  let code := no_comment line in
  ((λ r, matches r line) <$> [FUNCTION_RE; ENDFUNCTION_RE; TASK_RE; ENDTASK_RE; GENERATE_RE; ENDGENERATE_RE],
   (λ r, length (re_findall r code)) <$> [BEGIN_NAMED_RE; BEGIN_PLAIN_RE; END_RE]).

Definition inner_profile : list bool * list nat := ([false; false; false; false; false; false], [0; 0; 0]%nat).
Definition open_profile (k : kind) : list bool * list nat :=
  match k with
  | KFunction => ([true; false; false; false; false; false], [0; 0; 0]%nat)
  | KTask => ([false; false; true; false; false; false], [0; 0; 0]%nat)
  | KGenerate => ([false; false; false; false; true; false], [0; 0; 0]%nat)
  | KBegin true => ([false; false; false; false; false; false], [1; 0; 0]%nat)
  | KBegin false => ([false; false; false; false; false; false], [0; 1; 0]%nat)
  end.
Definition close_profile (k : kind) : list bool * list nat :=
  match k with
  | KFunction => ([false; true; false; false; false; false], [0; 0; 0]%nat)
  | KTask => ([false; false; false; true; false; false], [0; 0; 0]%nat)
  | KGenerate => ([false; false; false; false; false; true], [0; 0; 0]%nat)
  | KBegin _ => ([false; false; false; false; false; false], [0; 0; 1]%nat)
  end.

(** A line with one [begin] and one [end]. *)
Definition turn_profile (named : bool) : list bool * list nat :=
  ([false; false; false; false; false; false], [if named then 1 else 0; if named then 0 else 1; 1]%nat).

(** Where the code of a line first has a word, and whether its [end] comes before
    its [begin]. *)
Definition place (w : string) (raw : string) : option nat :=
  (λ x, String.length x.1) <$> cut_from (RSeqs [RBoundary; RStr w; RBoundary]) None (no_comment (rstrip raw)).
Definition ends_first (raw : string) : bool :=
  match place "end" raw, place "begin" raw with Some e, Some b => (e <? b)%nat | _, _ => false end.

(** A leaf plays its part: a whole block is begun and ended, in this order; a
    turn is in a block, ends it and begins another, both labelled or neither.
    [inside] is the label of the innermost scope, if that is a block. *)
Definition leaf_ok (inside : option bool) (p : part) (l : string) : bool :=
  match p with
  | Plain => bool_decide (profile l = inner_profile)
  | Block => bool_decide (profile l ∈ [turn_profile true; turn_profile false]) && negb (ends_first l)
  | Turn => match inside with Some b => bool_decide (profile l = turn_profile b) && ends_first l | None => false end
  end.

(** The lines play their parts. *)
Fixpoint well_nested (inside : option bool) (f : forest) : bool :=
  match f with
  | Done => true
  | Line p l rest => leaf_ok inside p l && well_nested inside rest
  | Scope k open body close rest =>
      bool_decide (profile open = open_profile k) &&
      well_nested (match k with KBegin b => Some b | _ => None end) body &&
      bool_decide (profile close = close_profile k) && well_nested inside rest
  end.

(** Declarations are free inside the scope. *)
Definition exempting (k : kind) : bool := match k with KBegin named => named | _ => true end.

Definition is_always (raw : string) : bool := matches ALWAYS_RE (rstrip raw).
Definition is_decl (raw : string) : bool := matches DECL_RE (rstrip raw).

Definition flag_line (seen ex : bool) (n : nat) (l : string) : list nat :=
  if seen && negb ex && is_decl l && negb (is_always l) then [n] else [].

(** The lines that break the rule: [seen] says whether there was an [always_*],
    [ex] whether an enclosing scope exempts. *)
Fixpoint flags (seen ex : bool) (n : nat) (f : forest) : list nat :=
  match f with
  | Done => []
  | Line _ l rest => flag_line seen ex n l ++ flags (seen || is_always l) ex (S n) rest
  | Scope k open body close rest =>
      let ex' := ex || exempting k in
      let seen1 := seen || is_always open in
      let seen2 := seen1 || existsb is_always (forest_lines body) in
      let m := (S n + length (forest_lines body))%nat in
      flag_line seen ex' n open ++ flags seen1 ex' (S n) body
      ++ flag_line seen2 ex m close ++ flags (seen2 || is_always close) ex (S m) rest
  end.

(** The state after a line, and the declarations reported. *)
Definition next (raw : string) (st : state) : state :=
  let st := enter (rstrip raw) st in
  State (seen_first_always st || is_always raw) (in_function st) (in_task st) (in_generate st) (begin_stack st).

Definition decls (n : nat) (st : state) (lines : list string) : list nat :=
  (filter (λ v, v.2 = R1R3) (check_lines n st lines)).*1.

Lemma check_line_next raw after st : (check_line raw after st).1 = next raw st.
Proof.
  unfold check_line, next, is_always. cbv zeta.
  destruct (matches ALWAYS_RE (rstrip raw)); cbn [fst]; [by rewrite orb_true_r|].
  rewrite orb_false_r. by destruct (enter _ st).
Qed.

Lemma check_line_decl raw after st n :
  (filter (λ v : nat * rule, v.2 = R1R3) ((λ r, (n, r)) <$> (check_line raw after st).2)).*1
  = flag_line (seen_first_always st) (exempt (next raw st)) n raw.
Proof.
  unfold check_line, flag_line, next, is_always, is_decl. cbv zeta.
  change (exempt (State _ ?f ?t ?g ?s)) with (exempt (State false f t g s)).
  change (exempt (enter (rstrip raw) st)) with (exempt (State false (in_function (enter (rstrip raw) st))
    (in_task (enter (rstrip raw) st)) (in_generate (enter (rstrip raw) st)) (begin_stack (enter (rstrip raw) st)))).
  assert (∀ b : bool, (filter (λ v : nat * rule, v.2 = R1R3) ((λ r, (n, r)) <$> if b then [R2] else [])) = []) as H2 by by intros [].
  assert (∀ b : bool, (filter (λ v : nat * rule, v.2 = R1R3) ((λ r, (n, r)) <$> if b then [History] else [])) = []) as Hh by by intros [].
  assert (∀ b : bool, (filter (λ v : nat * rule, v.2 = R1R3) ((λ r, (n, r)) <$> if b then [MultiIf] else [])) = []) as Hm by by intros [].
  destruct (matches ALWAYS_RE (rstrip raw)); cbn [snd].
  - rewrite !fmap_app, !list.filter_app, H2, Hh, Hm. by rewrite !andb_false_r.
  - rewrite !fmap_app, !list.filter_app, H2, Hh, Hm, !app_nil_r. cbn [app].
    change (seen_first_always (enter (rstrip raw) st)) with (seen_first_always st).
    rewrite andb_true_r. destruct (seen_first_always st), (matches DECL_RE (rstrip raw)), (exempt _); done.
Qed.

Lemma decls_cons n st raw after :
  decls n st (raw :: after) =
    flag_line (seen_first_always st) (exempt (next raw st)) n raw ++ decls (S n) (next raw st) after.
Proof.
  unfold decls. cbn [check_lines]. pose proof (check_line_next raw after st) as H1.
  pose proof (check_line_decl raw after st n) as H2.
  destruct (check_line raw after st) as [st' rules]. cbn [fst snd] in H1, H2. subst st'.
  by rewrite list.filter_app, fmap_app, H2.
Qed.

(** The state with [seen_first_always] set when [b]. *)
Definition seen_or (b : bool) (st : state) : state :=
  State (seen_first_always st || b) (in_function st) (in_task st) (in_generate st) (begin_stack st).

(** The state inside a scope. *)
Definition push (k : kind) (st : state) : state :=
  match k with
  | KFunction => State (seen_first_always st) (in_function st + 1) (in_task st) (in_generate st) (begin_stack st)
  | KTask => State (seen_first_always st) (in_function st) (in_task st + 1) (in_generate st) (begin_stack st)
  | KGenerate => State (seen_first_always st) (in_function st) (in_task st) (in_generate st + 1) (begin_stack st)
  | KBegin b => State (seen_first_always st) (in_function st) (in_task st) (in_generate st) (b :: begin_stack st)
  end.

Definition counters_ok (st : state) : Prop := 0 ≤ in_function st ∧ 0 ≤ in_task st ∧ 0 ≤ in_generate st.

Lemma next_profile raw st fs ns :
  profile raw = (fs, ns) →
  next raw st =
    match fs, ns with
    | [f; ef; t; et; g; eg], [named; plain; ends] =>
        let adj (o c : bool) n := let n := if o then n + 1 else n in if c then Z.max 0 (n - 1) else n in
        State (seen_first_always st || is_always raw) (adj f ef (in_function st)) (adj t et (in_task st))
          (adj g eg (in_generate st)) (drop ends (replicate plain false ++ replicate named true ++ begin_stack st))
    | _, _ => st
    end.
Proof. unfold profile. cbv zeta. cbn [fmap list_fmap]. by intros [= <- <-]. Qed.

Lemma next_turn named raw st : profile raw = turn_profile named → next raw st = seen_or (is_always raw) st.
Proof. intros H. rewrite (next_profile _ _ _ _ H). by destruct named. Qed.

Lemma next_leaf inside p raw st : leaf_ok inside p raw = true → next raw st = seen_or (is_always raw) st.
Proof.
  destruct p; cbn [leaf_ok].
  - intros H%bool_decide_eq_true. by rewrite (next_profile _ _ _ _ H).
  - intros [H%bool_decide_eq_true _]%andb_true_iff. rewrite !elem_of_cons, elem_of_nil in H.
    destruct H as [H|[H|[]]]; by eapply next_turn.
  - destruct inside as [b|]; [|done]. intros [H%bool_decide_eq_true _]%andb_true_iff. by eapply next_turn.
Qed.

Lemma next_open k raw st : profile raw = open_profile k → next raw st = seen_or (is_always raw) (push k st).
Proof.
  intros H. destruct k as [| | |[]]; cbn [open_profile] in H; by rewrite (next_profile _ _ _ _ H).
Qed.

Lemma next_close k raw st b :
  counters_ok st → profile raw = close_profile k →
  next raw (seen_or b (push k st)) = seen_or (b || is_always raw) st.
Proof.
  intros (H1 & H2 & H3) H.
  destruct k; cbn [close_profile] in H; rewrite (next_profile _ _ _ _ H); unfold seen_or; cbn;
    rewrite orb_assoc; f_equal; lia.
Qed.

Lemma exempt_seen_or b st : exempt (seen_or b st) = exempt st.
Proof. done. Qed.

Lemma exempt_push k st : counters_ok st → exempt (push k st) = exempt st || exempting k.
Proof.
  intros (H1 & H2 & H3). unfold exempt. destruct k as [| | |b]; cbn [push in_function in_task in_generate begin_stack exempting].
  - rewrite (proj2 (Z.eqb_neq (in_function st + 1) 0)) by lia. by rewrite orb_true_r.
  - rewrite (proj2 (Z.eqb_neq (in_task st + 1) 0)) by lia. by rewrite andb_false_r, orb_true_r.
  - rewrite (proj2 (Z.eqb_neq (in_generate st + 1) 0)) by lia. by rewrite andb_false_r, orb_true_r.
  - cbn [existsb id]. by destruct b, (existsb id (begin_stack st)), (negb _).
Qed.

Lemma counters_push k st : counters_ok st → counters_ok (push k st).
Proof. intros (H1 & H2 & H3). destruct k; unfold counters_ok; cbn; lia. Qed.

Lemma seen_or_or b c st : seen_or c (seen_or b st) = seen_or (b || c) st.
Proof. unfold seen_or. cbn. by rewrite orb_assoc. Qed.

Lemma push_seen_or k b st : push k (seen_or b st) = seen_or b (push k st).
Proof. by destruct k. Qed.

Lemma decls_forest f : ∀ inside n st after,
  well_nested inside f = true → counters_ok st →
  decls n st (forest_lines f ++ after) =
    flags (seen_first_always st) (exempt st) n f
    ++ decls (n + length (forest_lines f)) (seen_or (existsb is_always (forest_lines f)) st) after.
Proof.
  induction f as [|p l rest IH|k open body IHb close rest IH]; intros inside n st after Hwf Hst.
  - cbn. rewrite Nat.add_0_r. unfold seen_or. rewrite orb_false_r. by destruct st.
  - cbn [well_nested] in Hwf. apply andb_true_iff in Hwf as [Hl Hwf].
    cbn [forest_lines app flags length existsb]. rewrite decls_cons, (next_leaf inside p l st Hl).
    erewrite IH by done. rewrite exempt_seen_or, seen_or_or, <-app_assoc. by rewrite Nat.add_succ_comm.
  - cbn [well_nested] in Hwf. apply andb_true_iff in Hwf as [Hwf Hr].
    apply andb_true_iff in Hwf as [Hwf Hc%bool_decide_eq_true]. apply andb_true_iff in Hwf as [Ho%bool_decide_eq_true Hb].
    cbn [forest_lines app flags length existsb]. cbv zeta.
    rewrite <-app_assoc, decls_cons, (next_open k open st Ho). cbn [app].
    erewrite IHb by (done || by apply counters_push).
    rewrite decls_cons, seen_or_or, (next_close k close st _ Hst Hc). erewrite IH by done.
    rewrite !exempt_seen_or, !exempt_push by done. cbn [seen_first_always seen_or].
    rewrite !existsb_app. cbn [existsb]. rewrite !length_app. cbn [length].
    assert (seen_first_always (push k st) = seen_first_always st) as -> by by destruct k.
    rewrite seen_or_or, !orb_assoc, <-!app_assoc.
    replace (n + S (length (forest_lines body) + S (length (forest_lines rest))))%nat
      with (S (S n + length (forest_lines body)) + length (forest_lines rest))%nat by lia. done.
Qed.

Lemma decls_file f : well_nested None f = true → decls 1 init (forest_lines f) = flags false false 1 f.
Proof.
  intros Hf. rewrite <-(app_nil_r (forest_lines f)) at 1. erewrite decls_forest by (done || (unfold counters_ok; cbn; lia)).
  unfold decls. cbn [check_lines]. apply app_nil_r.
Qed.

(** ** The staged lines *)

(** A hunk header: what is removed and what is added, a count of one left out
    or not, and the text after it. *)
Record hunk := Hunk { h_old : Z; h_old_count : option Z; h_new : Z; h_new_count : option Z; h_tail : string }.

Definition count_text (c : option Z) : string := match c with Some c => "," +:+ str_Z c | None => "" end.
Definition hunk_text (h : hunk) : string :=
  "@@ -" +:+ str_Z (h_old h) +:+ count_text (h_old_count h) +:+ " +" +:+ str_Z (h_new h)
  +:+ count_text (h_new_count h) +:+ " @@" +:+ h_tail h.
Definition hunk_ok (h : hunk) : Prop :=
  0 ≤ h_old h ∧ 0 ≤ default 1 (h_old_count h) ∧ 0 ≤ h_new h ∧ 0 ≤ default 1 (h_new_count h).

(** A line of the diff: a hunk header, or any other line. *)
Inductive diff_line := DHunk (h : hunk) | DOther (text : string).
Definition diff_text (d : diff_line) : string := match d with DHunk h => hunk_text h | DOther text => text end.
Definition diff_ok (d : diff_line) : Prop :=
  no_linebreak (diff_text d) = true ∧
  match d with DHunk h => hunk_ok h | DOther text => re_match hunk_re text = None end.

(** The diff adds line [n]. *)
Definition adds (d : diff_line) (n : Z) : bool :=
  match d with
  | DHunk h => (h_new h <=? n) && (n <? h_new h + default 1 (h_new_count h))
  | DOther _ => false
  end.

Lemma hit_digits b n t :
  0 ≤ n → default true (negb ∘ is_digit <$> str_head t) = true →
  hit (RPlus is_digit) b (str_Z n +:+ t) (Found (str_Z n) [] (last_or b (str_Z n)) t).
Proof. intros Hn Ht. apply hit_many; [by apply str_Z_digits|apply str_Z_length|done]. Qed.

Lemma hunk_match h :
  hunk_ok h → ∃ m, re_match hunk_re (hunk_text h) = Some m ∧
    group 1 m = Some (str_Z (h_new h)) ∧ group 2 m = str_Z <$> h_new_count h.
Proof.
  intros (H1 & H2 & H3 & H4). destruct h as [o oc nw nc tail]. cbn [h_old h_old_count h_new h_new_count h_tail] in *.
  assert (∃ m, hit hunk_re None (hunk_text (Hunk o oc nw nc tail)) m ∧
    group 1 m = Some (str_Z nw) ∧ group 2 m = str_Z <$> nc) as (m & Hm & Hg); [|by exists m].
  unfold hunk_text. cbn [h_old h_old_count h_new h_new_count h_tail].
  destruct oc as [oc|], nc as [nc|]; cbn [default from_option id] in *; cbn [count_text];
    rewrite ?str_app_assoc, ?str_app_nil_l; eexists; (split; [unfold hunk_re, ROpt|]);
    repeat first
      [apply hit_digits; [done|done]
      |apply hit_alt_l; unfold RSeqs; cbn [foldr]; eapply hit_seq; [apply hit_str|]
      |apply hit_alt_r; [apply run_nil_first; done|]
      |hit_step].
  all: done.
Qed.

Lemma hunk_lines_diff d n :
  diff_ok d → n ∈ hunk_lines (diff_text d) ↔ adds d n = true.
Proof.
  intros [_ Hd]. destruct d as [h|text]; cbn [diff_text adds].
  - destruct (hunk_match h Hd) as (m & Hm & H1 & H2). unfold hunk_lines, group_nat. rewrite Hm, H1, H2.
    cbn [mbind option_bind]. rewrite int_of_str_Z.
    assert (default 1 ((str_Z <$> h_new_count h) ≫= int_of_str) = default 1 (h_new_count h)) as ->.
    { destruct (h_new_count h); [|done]. cbn. by rewrite int_of_str_Z. }
    destruct Hd as (_ & _ & H3 & H4). unfold range. rewrite list_elem_of_fmap.
    rewrite andb_true_iff, Z.leb_le, Z.ltb_lt. split.
    + intros (i & -> & Hi%elem_of_seq). lia.
    + intros [Ha Hb]. exists (Z.to_nat (n - h_new h)). split; [lia|]. apply elem_of_seq. lia.
  - unfold hunk_lines. rewrite Hd. split; [by intros ?%elem_of_nil|done].
Qed.

Lemma staged_added ds n :
  Forall diff_ok ds → n ∈ added_lines (unlines (diff_text <$> ds)) ↔ existsb (λ d, adds d n) ds = true.
Proof.
  intros Hds. unfold added_lines. rewrite splitlines_unlines.
  - rewrite elem_of_list_to_set, list_elem_of_bind. rewrite existsb_exists. rewrite list.Forall_forall in Hds. split.
    + intros (t & Hn & (d & -> & Hd)%list_elem_of_fmap). exists d. split; [by apply list_elem_of_In|].
      by apply hunk_lines_diff; [apply Hds|].
    + intros (d & Hd%list_elem_of_In & Ha). exists (diff_text d). split; [by apply hunk_lines_diff; [apply Hds|]|].
      by apply list_elem_of_fmap_2.
  - rewrite Forall_fmap. revert Hds. apply Forall_impl. by intros d [??].
Qed.

(** The line of a violation is read back from its text. *)
Lemma line_re_violation path v :
  path ≠ "" → no_char ":" path →
  re_match line_re (violation_text path v) ≫= group_nat 2 = Some (Z.of_nat v.1).
Proof.
  intros Hne Hp. unfold violation_text, str_nat.
  assert (∃ m, hit line_re None (path +:+ ":" +:+ str_Z (Z.of_nat v.1) +:+ ": " +:+ rule_text v.2) m ∧
    group 2 m = Some (str_Z (Z.of_nat v.1))) as (m & Hm & Hg).
  { eexists. split; [unfold line_re|].
    - change ": " with (":" +:+ " "). rewrite !str_app_assoc.
      repeat first [apply hit_digits; [lia|done]|apply hit_many; [exact Hp|destruct path; [done|cbn; lia]|done]|hit_step].
    - done. }
  rewrite (re_match_hit _ _ _ Hm). cbn [mbind option_bind]. unfold group_nat. rewrite Hg. cbn [mbind option_bind].
  by rewrite int_of_str_Z.
Qed.

Lemma staged_filter_violations path ds vs :
  path ≠ "" → no_char ":" path → Forall diff_ok ds →
  staged_filter (added_lines (unlines (diff_text <$> ds))) (violation_text path <$> vs) =
    violation_text path <$> filter (λ v, existsb (λ d, adds d (Z.of_nat v.1)) ds = true) vs.
Proof.
  intros Hne Hp Hds. unfold staged_filter. induction vs as [|v vs IH]; [done|].
  rewrite fmap_cons, !filter_cons, IH, line_re_violation by done.
  destruct (existsb (λ d, adds d (Z.of_nat v.1)) ds) eqn:E.
  - rewrite (bool_decide_true (Z.of_nat v.1 ∈ _)) by by apply staged_added.
    by rewrite !decide_True.
  - rewrite (bool_decide_false (Z.of_nat v.1 ∈ _)).
    + by rewrite !decide_False.
    + intros Hn. apply staged_added in Hn; [|done]. congruence.
Qed.

(** ** The run *)

Section runs.
Context `{ScandirLaws}.
Variable exec : program.

(** A run that looked at the files and printed. *)
Definition printed_only (l : list (stream * string)) (w w' : world) : Prop :=
  files w' = files w ∧ dirs w' = dirs w ∧ log w' = log w ++ l.

Lemma put_all s l w : for_each (put s) l w = (Ok tt, logged (pair s <$> l) w).
Proof.
  rewrite (for_each_prints _ (λ t, [(s, t)])) by done.
  assert (l ≫= (λ t, [(s, t)]) = pair s <$> l) as ->; [|done].
  induction l as [|x l IH]; [done|]. cbn. by rewrite <-IH.
Qed.

(** [main], once the files are gathered. *)
Lemma main_gathered a vs w w1 :
  gather_files exec a (file_violations exec a) w = (Ok vs, w1) → printed_only [] w w1 →
  ∃ w', main exec a w = (Ok (match vs with [] => 0 | _ => 1 end), w') ∧
    printed_only (pair Stderr <$> report (staged a) vs) w w'.
Proof.
  intros E (Hf & Hd & Hl). unfold main. host_step E.
  rewrite (host_bind_ok _ _ w1 tt _ (put_all Stderr (report (staged a) vs) w1)).
  eexists. split; [reflexivity|]. unfold printed_only, logged. cbn [files dirs log]. by rewrite Hl, app_nil_r.
Qed.

Lemma subprocess_files c w r :
  exec c (files w) (dirs w) = (Ok r, (files w, dirs w)) → returncode r = 0 →
  ∃ w', check_call exec c w = (Ok r, w') ∧ printed_only [] w w'.
Proof.
  intros E Hr. unfold check_call. rewrite (host_bind_ok _ _ w r _ (subprocess_ok _ _ _ _ _ _ E)), Hr.
  eexists. split; [reflexivity|]. unfold printed_only. cbn. by rewrite app_nil_r.
Qed.

Lemma printed_only_refl w : printed_only [] w w.
Proof. unfold printed_only. by rewrite app_nil_r. Qed.

Lemma printed_only_trans w1 w2 w3 : printed_only [] w1 w2 → printed_only [] w2 w3 → printed_only [] w1 w3.
Proof. unfold printed_only. rewrite !app_nil_r. intros (-> & -> & ->) (-> & -> & ->). done. Qed.

Lemma is_dir_same p w w' : printed_only [] w w' → exists_ p w' = exists_ p w ∧ is_dir p w' = is_dir p w.
Proof. intros (Hf & Hd & _). unfold exists_, is_dir. by rewrite Hf, Hd. Qed.

(** The files a scan of paths looks at. *)
Definition under (w : world) (root p : string) : Prop :=
  is_dir root w = true ∧ ∃ q x, below w root q ∧ p = path_join q x ∧ is_entry q x w ∧ ends_with ".sv" x = true.
Definition scanned (w : world) (ps : list string) (p : string) : Prop :=
  match ps with
  | [] => ∃ root, root ∈ ["rtl"; "tb"] ∧ under w root p
  | _ => ∃ raw, raw ∈ ps ∧ (under w (Path raw) p ∨
           (is_dir (Path raw) w = false ∧ suffix (Path raw) = ".sv" ∧ p = Path raw))
  end.

(** A file that can be read and breaks no rule. *)
Definition clean (w : world) (p : string) : Prop :=
  ∃ text, files w !! p = Some text ∧ check_lines 1 init (splitlines text) = [].

Lemma check_file_clean w p : check_file p (contents_of p w) = [] ↔ clean w p.
Proof.
  unfold contents_of, clean. destruct (files w !! p) as [text|]; cbn [check_file].
  - split; [intros Hn%fmap_nil_inv; by exists text|]. intros (t & [= ->] & ->). done.
  - split; [done|by intros (t & ? & _)].
Qed.

(** The files of a scan, in order. *)
Definition scan_list (ps : list string) (w : world) : list string :=
  match ps with
  | [] => ["rtl"; "tb"] ≫= λ root, rglob root ".sv" w
  | _ => ps ≫= λ raw, let p := Path raw in
      if is_dir p w then rglob p ".sv" w else if String.eqb (suffix p) ".sv" then [p] else []
  end.

Lemma elem_of_scan_list ps p w : p ∈ scan_list ps w ↔ scanned w ps p.
Proof.
  unfold scan_list, scanned. destruct ps as [|raw0 ps]; rewrite list_elem_of_bind.
  - split.
    + intros (root & Hp%elem_of_rglob & Hr). by exists root.
    + intros (root & Hr & Hp). exists root. split; [by apply elem_of_rglob|done].
  - split.
    + intros (raw & Hp & Hr). exists raw. split; [done|]. cbv zeta in Hp. destruct (is_dir (Path raw) w) eqn:Hd.
      * left. by apply elem_of_rglob.
      * destruct (String.eqb_spec (suffix (Path raw)) ".sv"); [|by apply elem_of_nil in Hp].
        apply list_elem_of_singleton in Hp. auto.
    + intros (raw & Hr & [Hp|(Hd & Hs & ->)]); exists raw; (split; [|done]); cbv zeta.
      * pose proof Hp as [-> _]. by apply elem_of_rglob.
      * rewrite Hd, Hs. by apply list_elem_of_singleton.
Qed.

Lemma gather_scan ps w :
  gather_files exec (Args ps false) (file_violations exec (Args ps false)) w =
    (Ok (scan_list ps w ≫= λ p, check_file p (contents_of p w)), w).
Proof.
  assert (∀ l, collect (file_violations exec (Args ps false)) l w = (Ok (l ≫= λ p, check_file p (contents_of p w)), w)) as Hl.
  { intros l. by apply collect_looks. }
  unfold gather_files, scan_list. cbn [staged paths]. destruct ps as [|raw0 ps].
  - rewrite (collect_looks _ (λ root, rglob root ".sv" w ≫= λ p, check_file p (contents_of p w))) by (intros; apply Hl).
    by rewrite list_bind_bind.
  - rewrite (collect_looks _ (λ raw, (let p := Path raw in
      if is_dir p w then rglob p ".sv" w else if String.eqb (suffix p) ".sv" then [p] else []) ≫= λ p, check_file p (contents_of p w))).
    { by rewrite list_bind_bind. }
    intros raw _. cbv zeta. destruct (is_dir (Path raw) w); [apply Hl|].
    destruct (String.eqb _ _); [|done]. cbn [mbind list_bind]. by rewrite app_nil_r.
Qed.

(** *** The staged files *)

(** git prints the names and the diffs, and changes no file of the work tree. *)
Definition git_answers (names : list string) (diffs : string → list diff_line) : Prop :=
  (∀ f d, exec git_names f d = (Ok (Process 0 (unlines names) ""), (f, d))) ∧
  (∀ p f d, p ∈ names → exec (git_diff p) f d = (Ok (Process 0 (unlines (diff_text <$> diffs p)) ""), (f, d))).
Definition name_ok (p : string) : Prop := no_linebreak p = true ∧ Path p = p ∧ no_char ":" p.

(** What the staged diff adds that breaks a rule, in one file. *)
Definition added_violations (diffs : string → list diff_line) (w : world) (p : string) : list string :=
  match files w !! p with
  | Some text =>
      if String.eqb (suffix p) ".sv" then
        violation_text p <$> filter (λ v, existsb (λ d, adds d (Z.of_nat v.1)) (diffs p) = true)
                               (check_lines 1 init (splitlines text))
      else []
  | None => []
  end.

Lemma staged_file names diffs ps w w1 p text :
  git_answers names diffs → name_ok p → Forall diff_ok (diffs p) → p ∈ names →
  printed_only [] w w1 → files w !! p = Some text → suffix p = ".sv" →
  ∃ w2, file_violations exec (Args ps true) p w1 = (Ok (added_violations diffs w p), w2) ∧ printed_only [] w w2.
Proof.
  intros [_ Hgit] (_ & Hpath & Hp) Hds Hin Hw Ht Hs. unfold file_violations. cbn [staged].
  pose proof Hw as (Hf & _).
  rewrite (host_bind_ok _ _ w1 (check_file p (Text text)) w1) by (unfold check_path, contents_of; by rewrite Hf, Ht).
  unfold staged_added_lines.
  destruct (subprocess_files (git_diff p) w1 (Process 0 (unlines (diff_text <$> diffs p)) "")) as (w2 & E & H2);
    [by apply Hgit|done|]. exists w2. split; [|by eapply printed_only_trans].
  rewrite (host_bind_ok _ _ w1 (added_lines (unlines (diff_text <$> diffs p))) w2).
  - unfold mret, host_ret. do 2 f_equal. cbn [check_file].
    rewrite staged_filter_violations; [|by intros ->|done|done].
    unfold added_violations. by rewrite Ht, Hs.
  - by rewrite (host_bind_ok _ _ _ _ _ E).
Qed.

Lemma gather_staged names diffs ps w :
  git_answers names diffs → Forall name_ok names → (∀ p, p ∈ names → is_dir p w = false ∧ Forall diff_ok (diffs p)) →
  ∃ w', gather_files exec (Args ps true) (file_violations exec (Args ps true)) w =
      (Ok (names ≫= added_violations diffs w), w') ∧ printed_only [] w w'.
Proof.
  intros Hgit Hnames Hds. unfold gather_files. cbn [staged].
  destruct (subprocess_files git_names w (Process 0 (unlines names) "")) as (w1 & E & H1); [apply Hgit|done|].
  rewrite (host_bind_ok _ _ _ _ _ E). cbn [stdout]. rewrite splitlines_unlines.
  2: { revert Hnames. apply Forall_impl. by intros p (? & _). }
  rewrite list.Forall_forall in Hnames. apply collect_inv; [|done].
  intros p w2 Hin Hw2. destruct (Hnames p Hin) as (_ & Hpath & _). destruct (Hds p Hin) as [Hdir Hok]. cbv zeta. rewrite Hpath.
  destruct (is_dir_same p w w2 Hw2) as [-> _]. unfold exists_. rewrite Hdir. cbn [orb].
  destruct (files w !! p) as [text|] eqn:Ht.
  - destruct (String.eqb_spec (suffix p) ".sv") as [Hs|Hs].
    + rewrite bool_decide_true by done. cbn [andb]. by eapply staged_file; [|apply Hnames|..].
    + exists w2. split; [|done]. cbn [andb]. unfold added_violations. rewrite Ht. apply String.eqb_neq in Hs. by rewrite Hs.
  - exists w2. rewrite bool_decide_false by by intros [??]. rewrite andb_false_r. unfold added_violations. by rewrite Ht.
Qed.
End runs.


(** ** The properties *)


Definition example_forest : forest :=
  Line Plain "module m;" (Line Plain "  logic a;"
  (Scope (KBegin false) "  always_ff @(posedge clk_i) begin"
    (Scope (KBegin false) "    if (!rst_ni) begin" (Line Plain "      a <= b;"
      (Line Turn "    end else begin" (Line Block "      if (c) begin d <= a; end" Done))) "    end" Done) "  end"
  (Scope KFunction "  function automatic int f(int x);" (Line Plain "    int y;" Done) "  endfunction"
  (Scope (KBegin true) "  if (N > 1) begin : g_x"
    (Line Plain "    logic c;" (Scope (KBegin false) "    always_comb begin" (Line Plain "      logic d;" Done) "    end"
    (Line Turn "  end else begin : g_y" (Line Plain "    logic e;" Done)))) "  end"
  (Line Plain "  logic e;" (Line Plain "endmodule" Done)))))).


(** C35: The pre-commit check, with a git that answers as documented, keeps
    exactly the violations on lines that the staged diffs add, hunk headers
    being read with and without counts, of the staged .sv files that are
    still there; it prints them and exits 0 exactly when there are none. *)
Theorem staged_exact `{ScandirLaws} exec names diffs ps w
  (Hgit : git_answers exec names diffs) (Hnames : Forall name_ok names)
  (Hds : ∀ p, p ∈ names → is_dir p w = false ∧ Forall diff_ok (diffs p)) :
  let vs := names ≫= added_violations diffs w in
  (∃ w', main exec (Args ps true) w = (Ok (match vs with [] => 0 | _ => 1 end), w') ∧
     printed_only (pair Stderr <$> report true vs) w w') ∧
  (vs = [] ↔ ∀ p text v, p ∈ names → suffix p = ".sv" → files w !! p = Some text →
     v ∈ check_lines 1 init (splitlines text) → existsb (λ d, adds d (Z.of_nat v.1)) (diffs p) = false).
Proof.
  intros vs. split.
  - destruct (gather_staged exec names diffs ps w Hgit Hnames Hds) as (w1 & E & H1).
    exact (main_gathered exec (Args ps true) _ _ _ E H1).
  - unfold vs. split.
    + intros Hnil p text v Hp Hs Ht Hv. apply not_true_is_false. intros Ha.
      apply (not_elem_of_nil (violation_text p v)). rewrite <-Hnil. apply list_elem_of_bind. exists p. split; [|done].
      unfold added_violations. rewrite Ht, Hs. apply list_elem_of_fmap_2, list_elem_of_filter. done.
    + intros Hno. apply elem_of_nil_inv. intros x (p & Hx & Hp)%list_elem_of_bind. unfold added_violations in Hx.
      destruct (files w !! p) as [text|] eqn:Ht; [|by apply elem_of_nil in Hx].
      destruct (String.eqb_spec (suffix p) ".sv") as [Hs|]; [|by apply elem_of_nil in Hx].
      apply list_elem_of_fmap in Hx as (v & -> & [Ha Hv]%list_elem_of_filter). by rewrite (Hno p text v) in Ha.
Qed.

Definition example_text : string := unlines ["  automatic int i;"; "module m;"; "// Stage 3b: x"].
Definition example_diff : list diff_line :=
  [DOther "+++ b/a.sv"; DHunk (Hunk 2 (Some 0) 3 None " module m;"); DOther "+// Stage 3b: x"].
Definition example_git : program := λ c f d,
  (Ok (Process 0 (if bool_decide (argv c = argv git_names) then unlines ["rtl/a.sv"; "b.v"]
                  else unlines (diff_text <$> example_diff)) ""), (f, d)).
Definition example_world : world :=
  World (list_to_map [("rtl/a.sv", example_text); ("b.v", example_text)]) {["rtl"]} [] [].

Lemma staged_exact_witness :
  ∃ w', main example_git (Args [] true) example_world = (Ok 1, w') ∧
    log w' = pair Stderr <$> ["RTL rule violations:";
      "  rtl/a.sv:3: history-prefix comment (strip `Stage NX:` / `Fix #N:` per CLAUDE.md)"; "";
      "1 violation(s). See CLAUDE.md `## SystemVerilog Coding Guidelines` for context.";
      "Bypass with `git commit --no-verify` if intentional."].
Proof.
  destruct (staged_exact example_git ["rtl/a.sv"; "b.v"] (λ _, example_diff) [] example_world) as [(w' & E & _ & _ & Hl) _].
  - split; [done|]. intros p f d Hp. unfold example_git. by rewrite bool_decide_false.
  - repeat apply Forall_cons_2; [..|apply Forall_nil_2]; (split_and!; vm_compute; reflexivity).
  - intros p Hp. split; [|unfold example_diff; repeat (apply Forall_cons_2 || apply Forall_nil_2); (split; [reflexivity|]);
      try reflexivity; unfold hunk_ok; cbn; lia].
    revert Hp. rewrite !elem_of_cons, elem_of_nil. by intros [->|[->|[]]].
  - exists w'. split; [rewrite E; vm_compute; reflexivity|rewrite Hl; vm_compute; reflexivity].
Defined.

(** C38: A scan of files and directories by the RTL checker exits 0 exactly
    when every .sv file it is given or finds below them, at any depth, can be
    read and breaks no rule; without arguments it scans rtl and tb. *)
Theorem scan_verdict `{ScandirLaws} exec ps w :
  ∃ c w', main exec (Args ps false) w = (Ok c, w') ∧ files w' = files w ∧
    (c = 0 ∨ c = 1) ∧ (c = 0 ↔ ∀ p, scanned w ps p → clean w p).
Proof.
  destruct (main_gathered exec (Args ps false) _ w w (gather_scan exec ps w) (printed_only_refl w)) as (w' & E & Hf & _).
  do 2 eexists. split; [exact E|]. split; [done|].
  assert ((scan_list ps w ≫= λ p, check_file p (contents_of p w)) = [] ↔ ∀ p, scanned w ps p → clean w p) as Hvs.
  { split.
    - intros Hnil p Hp%elem_of_scan_list. apply check_file_clean. apply elem_of_nil_inv. intros x Hx.
      apply (not_elem_of_nil x). rewrite <-Hnil. apply list_elem_of_bind. by exists p.
    - intros Hc. apply elem_of_nil_inv. intros x (p & Hx & Hp%elem_of_scan_list)%list_elem_of_bind.
      apply Hc, check_file_clean in Hp. rewrite Hp in Hx. by apply elem_of_nil in Hx. }
  destruct (scan_list ps w ≫= _) as [|v vs]; (split; [auto|]); rewrite <-Hvs; naive_solver.
Qed.

Lemma scan_verdict_witness :
  ∃ w', main example_git (Args ["./rtl/"; "x.sv"] false) example_world = (Ok 1, w') ∧
    ¬ ∀ p, scanned example_world ["./rtl/"; "x.sv"] p → clean example_world p.
Proof.
  destruct (scan_verdict example_git ["./rtl/"; "x.sv"] example_world) as (c & w' & E & _ & _ & H).
  assert ((main example_git (Args ["./rtl/"; "x.sv"] false) example_world).1 = Ok 1) as E1 by (vm_compute; reflexivity).
  rewrite E in E1. injection E1 as ->. exists w'. split; [exact E|]. intros Hc. by apply H in Hc.
Defined.

(** A line that closes one block and opens another leaves the stack of
    open blocks as it was, so an else branch inherits the label, or the lack
    of one, of the branch before it. *)
Theorem else_keeps_old_label raw st
  (Hp : ∃ named, profile raw = ([false; false; false; false; false; false],
                                [if named : bool then 1 else 0; if named then 0 else 1; 1]%nat)) :
  begin_stack (next raw st) = begin_stack st.
Proof. destruct Hp as ([] & H); by rewrite (next_profile _ _ _ _ H). Qed.

Lemma else_keeps_old_label_witness :
  begin_stack (next "  end else begin : g_b" (State true 0 0 0 [false])) = [false].
Proof. apply (else_keeps_old_label "  end else begin : g_b" (State true 0 0 0 [false])). exists true. vm_compute. reflexivity. Defined.

(** So the declaration of a labelled [else] branch is reported, and one of a
    plain [else] branch after a labelled one is not. *)
Example labelled_else_reported :
  check_file "a.sv" (Text (unlines ["  always_comb x = y;"; "  if (P) begin"; "    assign a = b;";
    "  end else begin : g_b"; "    logic c;"; "  end"]))
  = ["a.sv:5: R1/R3: declaration after first `always_*` (must move to module-scope decl block at top of module)"].
Proof. vm_compute. reflexivity. Qed.

Example plain_else_missed :
  check_file "a.sv" (Text (unlines ["  always_comb x = y;"; "  if (P) begin : g_a"; "    assign a = b;";
    "  end else begin"; "    logic c;"; "  end"])) = [].
Proof. vm_compute. reflexivity. Qed.

(** A bare [if] is missed when three statements follow it. *)
Example bare_if_missed :
  check_file "a.sv" (Text (unlines ["  if (a)"; "    b <= c;"; "    d <= e;"; "    f <= g;"])) = [].
Proof. vm_compute. reflexivity. Qed.

End check_rtl_rules.
