(* ===== verification/DocsLint.v ===== *)
(** tools/docs_lint.py: the check that every diagram says which stage it shows,
    and that an older one stands under a caption.  Its text patterns, the JSON
    sources of the diagrams, the walk over the documents and the verdict. *)
From S2P Require Export PyJson Regex Dirs.
Local Open Scope Z_scope.

Module docs_lint.

(** ** Stages *)

(** The first code points of the runs of ten decimal digits beyond Latin-1
    (category Nd). *)
Definition digit_zeros : list Z :=
  [1632; 1776; 1984; 2406; 2534; 2662; 2790; 2918; 3046; 3174; 3302; 3430; 3558; 3664; 3792; 3872; 4160; 4240; 6112;
   6160; 6470; 6608; 6784; 6800; 6992; 7088; 7232; 7248; 42528; 43216; 43264; 43472; 43504; 43600; 44016; 65296;
   66720; 68912; 69734; 69872; 69942; 70096; 70384; 70736; 70864; 71248; 71360; 71472; 71904; 72016; 72784; 73040;
   73120; 92768; 92864; 93008; 120782; 120792; 120802; 120812; 120822; 123200; 123632; 125264; 130032].

(** The value of a digit [\d] matches and [int] reads. *)
Definition digit_value (u : Z) : option Z :=
  (λ z, u - z) <$> head (filter (λ z, (z <=? u) && (u <? z + 10) = true) (48 :: digit_zeros)).

(** The leading digits. *)
Fixpoint digit_run (s : list Z) : list Z :=
  match s with
  | [] => []
  | u :: s => match digit_value u with Some d => d :: digit_run s | None => [] end
  end.

(** [re.match(r"stage(\d+)", s)], and [int] of its group. *)
Definition stage_of (s : list Z) : option Z :=
  if bool_decide (take 5 s = codes "stage") then
    match digit_run (drop 5 s) with
    | [] => None
    | ds => Some (foldl (λ n d, 10 * n + d) 0 ds)
    end
  else None.

(** [bool(v)] *)
Definition truthy (v : json) : bool :=
  match v with
  | JNull | JBool false | JInt 0 | JFloat (SpecFloat.S754_zero _) | JStr [] | JArr [] | JObj [] => false
  | _ => true
  end.

(** [stage_num] *)
Definition stage_num (v : json) : res (option Z) :=
  match v with
  | JStr s => Ok (stage_of s)
  | _ => if truthy v then Raise (TypeError "expected string or bytes-like object") else Ok None
  end.

(** [json.loads(text).get("depicts")] *)
Definition depicts (text : string) : res json :=
  d ← loads text;
  match d with
  | JObj d => Ok (default JNull (dict_get (codes "depicts") d))
  | _ => Raise (AttributeError "object has no attribute 'get'")
  end.

(** ** The patterns *)

(** One row of the table; white space may be line breaks, as in the source. *)
Definition ROW_RE : regex :=
  RSeqs [RLine; RStr "|"; RStar is_space; RGroup 1 (RPlus is_digit);
    ROpt (RClass (λ c, (97 <=? code c) && (code c <=? 122))); RStar is_space; RStr "|"; RStar not_newline; RStr "|";
    RStar is_space; RGroup 2 (RAlt (RStr "In progress") (RSeqs [RStr "Complete"; RStar (λ c, negb (Ascii.eqb c "|"))]));
    RStar is_space; RStr "|"].

Definition stage_word : regex := RSeqs [RStr "stage"; RPlus is_digit; RStar is_word].
Definition DEPICTS_RE : regex :=
  RSeqs [RStr "%%"; RStar is_space; RStr "depicts:"; RStar is_space; RGroup 1 stage_word].

Definition name_char (c : Ascii.ascii) : bool := is_word c || Ascii.eqb c "-".
Definition EMBED_RE : regex :=
  RSeqs [RStr "("; ROpt (RGroup 1 (RStr "docs/")); RStr "diagrams/svg/"; RGroup 2 (RPlus name_char); RStr ".svg)"].

(** [max(int(r[0]) for r in rows)] *)
Definition py_max (l : list Z) : res Z :=
  match l with [] => Raise (ValueError "max() arg is an empty sequence") | x :: l => Ok (foldl Z.max x l) end.
Definition active_stage (readme : string) : res Z :=
  rows ← mapM (λ m, py_int (default "" (group 1 m))) (re_findall ROW_RE readme);
  py_max rows.

(** ** The documents *)

Definition mermaid : string := "```mermaid".
Definition era : string := "(era: stage".

(** Whether a line opens a mermaid block; the line after it; the stage that line
    depicts. *)
Definition opens_mermaid (line : string) : bool := starts_with mermaid (strip line).
Definition line_after (text : list string) (i : nat) : string := strip (default "" (text !! S i)).
Definition depicted (next : string) : option (option Z) :=
  m ← re_match DEPICTS_RE next; Some (stage_of (codes (default "" (group 1 m)))).

(** ["(era: stage" in "\n".join(text[max(0, i - 3):j])] *)
Definition captioned (text : list string) (i j : nat) : bool :=
  contains era (join_lines (take (j - (i - 3)) (drop (i - 3) text))).

(** The diagram a line embeds. *)
Definition embedded (line : string) : option string :=
  if contains ".svg" line && contains "diagrams" line
  then m ← re_search EMBED_RE line; group 2 m else None.

Section run.
Context `{Scandir}.
(** The directory of the repository. *)
Variable ROOT : string.

(** [ROOT / "a/b"] *)
Definition at_root (p : string) : string := path_join ROOT p.

(** [p.relative_to(ROOT)] *)
Definition relative (p : string) : res string :=
  let prefix := if String.eqb ROOT "/" then "/" else ROOT +:+ "/" in
  if starts_with prefix p then Ok (str_drop (String.length prefix) p)
  else Raise (ValueError (py_repr p +:+ " is not in the subpath of " +:+ py_repr ROOT)).

(** The loop over the sources of the diagrams. *)
Definition lint_source (j : string) : host (list string) :=
  text ← read_text j;
  v ← lift (depicts text);
  n ← lift (stage_num v);
  match n with
  | Some _ => mret []
  | None =>
      r ← lift (relative j);
      mret [r +:+ ": missing " +:+ String "034" "depicts" +:+ String "034" ": " +:+ String "034" "stage<N>" +:+ String "034" ""]
  end.

(** The message of line [i], counted from 1. *)
Definition message (md : string) (i : nat) (t : string) : host (list string) :=
  r ← lift (relative md); mret [r +:+ ":" +:+ str_nat (S i) +:+ ": " +:+ t].

Definition old (active : Z) (n : option Z) : bool := match n with Some n => n <? active | None => false end.

(** The second half of a turn of the inner loop: the first diagram the line embeds. *)
Definition lint_embed (active : Z) (md : string) (text : list string) (i : nat) (line : string) : host (list string) := λ w,
  match embedded line with
  | Some name =>
      let src := path_join (at_root "docs/diagrams/src") (name +:+ ".json") in
      if exists_ src w then
        (t ← read_text src;
         v ← lift (depicts t);
         n ← lift (stage_num v);
         if old active n && negb (captioned text i (S i))
         then message md i ("embeds stage" +:+ str_Z (default 0 n) +:+ " diagram without era caption") else mret []) w
      else (Ok [], w)
  | None => (Ok [], w)
  end.

(** A turn of the inner loop. *)
Definition lint_line (active : Z) (md : string) (text : list string) (i : nat) (line : string) : host (list string) :=
  if opens_mermaid line then
    match depicted (line_after text i) with
    | None => message md i "mermaid block missing '%% depicts: stage<N>'"
    | Some n =>
        first ← (if old active n && negb (captioned text i i)
                 then message md i ("depicts stage" +:+ str_Z (default 0 n) +:+ " < active stage" +:+ str_Z active
                        +:+ " without an '(era: stage" +:+ str_Z (default 0 n) +:+ ")' caption")
                 else mret []);
        rest ← lint_embed active md text i line;
        mret (first ++ rest)
    end
  else lint_embed active md text i line.

Definition lint_document (active : Z) (md : string) : host (list string) :=
  t ← read_text md;
  let text := splitlines t in
  collect (λ il, lint_line active md text il.1 il.2) (zip (seq 0 (length text)) text).

(** The script. *)
Definition main : host unit :=
  readme ← read_text (at_root "README.md");
  active ← lift (active_stage readme);
  fail1 ← (λ w, collect lint_source (glob (at_root "docs/diagrams/src") ".json" w) w);
  fail2 ← (λ w, collect (lint_document active) (glob (at_root "docs") ".md" w) w);
  match fail1 ++ fail2 with
  | [] => print ("docs_lint: OK (active stage " +:+ str_Z active +:+ ")")
  | fail => print "docs_lint: FAIL";; for_each (λ f, print ("  " +:+ f)) fail;; raise (SystemExit 1)
  end.
End run.

(** ** Stages in text *)

Lemma digit_value_code c : digit_value (code c) = if is_digit c then Some (code c - 48) else None.
Proof.
  assert (forallb (λ c, bool_decide (digit_value (code c) = if is_digit c then Some (code c - 48) else None)) all_ascii = true) as H
    by (vm_compute; reflexivity).
  exact (bool_decide_eq_true_1 _ (ascii_forallb _ H c)).
Qed.

Definition no_digit (s : string) : Prop := match s with String c _ => is_digit c = false | "" => True end.

Lemma codes_app s t : codes (s +:+ t) = codes s ++ codes t.
Proof. induction s as [|c s IH]; [done|]. rewrite str_app_cons. cbn [codes app]. by rewrite IH. Qed.

Lemma digit_run_value d r n :
  str_all is_digit d = true → no_digit r →
  int_digits false n d = Some (foldl (λ n d, 10 * n + d) n (digit_run (codes (d +:+ r)))) ∧
  (d ≠ "" → digit_run (codes (d +:+ r)) ≠ []).
Proof.
  revert n. induction d as [|c d IH]; intros n Hd Hr.
  - rewrite str_app_nil_l. split; [|done]. destruct r as [|c r]; [done|]. cbn [codes digit_run]. unfold no_digit in Hr.
    by rewrite digit_value_code, Hr.
  - cbn [str_all] in Hd. apply andb_true_iff in Hd as [Hc Hd]. rewrite str_app_cons. cbn [codes digit_run int_digits].
    rewrite digit_value_code, Hc. split; [|done]. unfold is_digit in Hc.
    assert ((0 <=? code c - 48) && (code c - 48 <=? 9) = true) as -> by lia.
    cbn [foldl]. by apply IH.
Qed.

Lemma stage_of_digits d r : digits d → no_digit r → stage_of (codes ("stage" +:+ d +:+ r)) = Some (digits_value d).
Proof.
  intros [Hne Hd] Hr. unfold stage_of. rewrite codes_app.
  assert (take 5 (codes "stage" ++ codes (d +:+ r)) = codes "stage") as -> by done. rewrite bool_decide_true by done.
  assert (drop 5 (codes "stage" ++ codes (d +:+ r)) = codes (d +:+ r)) as -> by done.
  destruct (digit_run_value d r 0 Hd Hr) as [Hv Hn]. specialize (Hn Hne). unfold digits_value. rewrite Hv.
  by destruct (digit_run _).
Qed.

(** [stage_of] is the regular expression, on text below code point 256. *)
Definition STAGE_RE : regex := RSeqs [RStr "stage"; RGroup 1 (RPlus is_digit)].

Lemma stage_of_match s : stage_of (codes s) = m ← re_match STAGE_RE s; digits_value <$> group 1 m.
Proof.
  destruct (starts_with "stage" s) eqn:Hs.
  - apply starts_with_split in Hs as (t & ->). pose proof (span_digits_spec t) as Ht.
    destruct (PyNum.span_digits t) as [d r]. destruct Ht as (-> & Hd & Hr). destruct (decide (d = "")) as [->|Hne].
    + rewrite str_app_nil_l. assert (re_match STAGE_RE ("stage" +:+ r) = None) as ->.
      { unfold re_match, STAGE_RE, RSeqs. cbn [foldr]. rewrite run_str_seq. rewrite run_seq_nil; [done|].
        destruct r as [|c r]; [done|]. apply run_nil_first; [done|exact Hr]. }
      cbn [mbind option_bind]. unfold stage_of. rewrite codes_app.
      assert (drop 5 (codes "stage" ++ codes r) = codes r) as -> by done. case_bool_decide; [|done].
      destruct r as [|c r]; [done|]. cbn [codes digit_run]. by rewrite digit_value_code, Hr.
    + rewrite stage_of_digits by done.
      assert (∃ m, re_match STAGE_RE ("stage" +:+ d +:+ r) = Some m ∧ group 1 m = Some d) as (m & -> & Hm).
      { assert (∃ m, hit STAGE_RE None ("stage" +:+ d +:+ r) m ∧ group 1 m = Some d) as (m & Hm & Hg); [|by exists m].
        eexists. split; [unfold STAGE_RE|].
        - repeat first [apply hit_many; [exact Hd|destruct d; [done|cbn; lia]|by destruct r as [|c r]; [|cbn; rewrite Hr]]|hit_step].
        - done. }
      cbn [mbind option_bind]. by rewrite Hm.
  - assert (re_match STAGE_RE s = None) as ->.
    { unfold re_match, STAGE_RE, RSeqs. cbn [foldr]. by rewrite run_seq_nil by by apply run_str_nil. }
    unfold stage_of. rewrite bool_decide_false; [done|]. intros E.
    assert (∀ c d, code c = code d → c = d) as Hinj.
    { intros c d E'. unfold code in E'. apply N2Z.inj in E'. rewrite <-(ascii_N_embedding c), <-(ascii_N_embedding d). by rewrite E'. }
    do 5 (destruct s as [|? s]; [discriminate E|]). cbn [codes take] in E. injection E as E1 E2 E3 E4 E5.
    apply (Hinj _ "s"%char) in E1 as ->. apply (Hinj _ "t"%char) in E2 as ->. apply (Hinj _ "a"%char) in E3 as ->.
    apply (Hinj _ "g"%char) in E4 as ->. apply (Hinj _ "e"%char) in E5 as ->. done.
Qed.

(** The longest prefix of a class. *)
Lemma span_class (p : Ascii.ascii → bool) s :
  ∃ u v, s = u +:+ v ∧ str_all p u = true ∧ default true (negb ∘ p <$> str_head v) = true.
Proof.
  induction s as [|c s (u & v & -> & Hu & Hv)]; [by exists "", ""|].
  destruct (p c) eqn:Hc; [exists (String c u), v|exists "", (String c (u +:+ v))]; (split_and!; [done| |]); try done.
  - cbn [str_all]. by rewrite Hc.
  - cbn. by rewrite Hc.
Qed.

(** The comment that says which stage a block depicts. *)
Definition comment (next : string) (n : Z) : Prop :=
  ∃ w1 w2 ds rest, next = "%%" +:+ w1 +:+ "depicts:" +:+ w2 +:+ "stage" +:+ ds +:+ rest ∧
    str_all is_space w1 = true ∧ str_all is_space w2 = true ∧ digits ds ∧ no_digit rest ∧ n = digits_value ds.

Lemma depicted_comment next n : comment next n → depicted next = Some (Some n).
Proof.
  intros (w1 & w2 & ds & rest & -> & H1 & H2 & Hds & Hr & ->).
  destruct (span_class is_word rest) as (u & v & -> & Hu & Hv).
  assert (default true (negb ∘ is_digit <$> str_head (u +:+ v)) = true) as Hr'
    by (destruct (u +:+ v) as [|c x]; [done|cbn [no_digit] in Hr; cbn; by rewrite Hr]).
  assert (∃ m, hit DEPICTS_RE None ("%%" +:+ w1 +:+ "depicts:" +:+ w2 +:+ "stage" +:+ ds +:+ u +:+ v) m ∧
    group 1 m = Some ("stage" +:+ ds +:+ u)) as (m & Hm & Hg).
  { eexists. split; [unfold DEPICTS_RE, stage_word|].
    - destruct Hds as [Hne Hd].
      repeat first [apply hit_many; [exact H1|lia|done]|apply hit_many; [exact H2|lia|done]
        |apply hit_many; [exact Hd|destruct ds; [done|cbn; lia]|exact Hr']
        |apply hit_many; [exact Hu|lia|exact Hv]|hit_step].
    - unfold group. cbn [Nat.eqb]. cbn -[String.append]. by rewrite !str_app_nil_r. }
  unfold depicted. rewrite (re_match_hit _ _ _ Hm). cbn [mbind option_bind]. rewrite Hg. cbn [default from_option id].
  rewrite stage_of_digits; [done|done|]. destruct u; [done|]. exact Hr.
Qed.

Lemma depicted_some next o : depicted next = Some o → ∃ n, o = Some n ∧ comment next n.
Proof.
  intros Ho. assert (∃ n, comment next n) as (n & Hn).
  { unfold depicted in Ho. destruct (re_match DEPICTS_RE next) as [m|] eqn:Hm; [|done]. clear Ho.
    assert (m ∈ run DEPICTS_RE None next) as Hin
      by (unfold re_match in Hm; destruct (run _ _ _); [done|]; injection Hm as ->; constructor).
    pose proof (run_sound _ _ _ _ Hin) as [-> _]. unfold DEPICTS_RE, RSeqs in Hin. cbn [foldr] in Hin.
    apply run_seq_inv in Hin as (m1 & k1 & T1%lit_text & Hin & E1 & _). apply run_seq_inv in Hin as (m2 & k2 & [T2 _]%many_text & Hin & E2 & _).
    apply run_seq_inv in Hin as (m3 & k3 & T3%lit_text & Hin & E3 & _). apply run_seq_inv in Hin as (m4 & k4 & [T4 _]%many_text & Hin & E4 & _).
    apply run_seq_inv in Hin as (m5 & k5 & Hg & H5%lit_text & E5 & _).
    cbn [run] in Hg. apply list_elem_of_fmap in Hg as (m6 & -> & Hg). cbn [m_text] in E5.
    fold (run stage_word (m_before m4) (m_after m4)) in Hg. unfold stage_word, RSeqs in Hg. cbn [foldr] in Hg.
    apply run_seq_inv in Hg as (m7 & k7 & T7%lit_text & Hg & E7 & _). apply run_seq_inv in Hg as (m8 & k8 & [T8 L8]%many_text & Hg & E8 & _).
    pose proof (span_digits_spec (m_text m8 +:+ m_text k8 +:+ m_after m)) as Hsp.
    destruct (PyNum.span_digits _) as [ds rest]. destruct Hsp as (Es & Hd & Hr).
    exists (digits_value ds), (m_text m2), (m_text m4), ds, rest. split_and!; try done.
    - rewrite E1, E2, E3, E4, E5, H5, E7, E8, T1, T3, T7. rewrite !str_app_assoc, str_app_nil_l, <-Es. by rewrite ?str_app_assoc.
    - split; [|done]. intros ->. rewrite str_app_nil_l in Es. destruct (m_text m8) as [|c x]; [cbn in L8; lia|].
      rewrite str_app_cons in Es. subst rest. cbn [str_all] in T8. apply andb_true_iff in T8 as [T8 _]. congruence. }
  pose proof (depicted_comment _ _ Hn). exists n. split; [congruence|done].
Qed.

(** ** Captions *)

Lemma captioned_spec text i j :
  captioned text i j = true ↔ ∃ k l, (i - 3 ≤ k < j)%nat ∧ text !! k = Some l ∧ contains era l = true.
Proof.
  unfold captioned. rewrite contains_join_lines by done. rewrite existsb_exists. split.
  - intros (l & Hl & Hc). apply list_elem_of_In, list_elem_of_lookup in Hl as (k & Hk).
    apply lookup_take_Some in Hk as [Hk Hlt]. rewrite lookup_drop in Hk. exists (i - 3 + k)%nat, l. split_and!; [lia|lia|done|done].
  - intros (k & l & Hk & Hl & Hc). exists l. split; [|done]. apply list_elem_of_In, list_elem_of_lookup.
    exists (k - (i - 3))%nat. apply lookup_take_Some. rewrite lookup_drop. split; [|lia]. rewrite <-Hl. f_equal. lia.
Qed.

(** An embedded diagram is found; of several on a line, the first. *)
Lemma embedded_first pre dir name post :
  no_char "(" pre → dir ∈ [""; "docs/"] → name ≠ "" → str_all name_char name = true →
  embedded (pre +:+ "(" +:+ dir +:+ "diagrams/svg/" +:+ name +:+ ".svg)" +:+ post) = Some name.
Proof.
  intros Hpre Hdir Hne Hname. unfold embedded.
  assert (contains ".svg" (pre +:+ "(" +:+ dir +:+ "diagrams/svg/" +:+ name +:+ ".svg)" +:+ post) = true) as ->.
  { rewrite <-!str_app_assoc. change (".svg)" +:+ post) with (".svg" +:+ ")" +:+ post).
    rewrite str_app_assoc. apply contains_app. done. }
  assert (contains "diagrams" (pre +:+ "(" +:+ dir +:+ "diagrams/svg/" +:+ name +:+ ".svg)" +:+ post) = true) as ->.
  { rewrite <-(str_app_assoc "(" dir), <-str_app_assoc. apply contains_app. done. }
  cbn [andb]. unfold re_search. rewrite search_from_quiet.
  - assert (∃ m, hit EMBED_RE (last_or None pre) ("(" +:+ dir +:+ "diagrams/svg/" +:+ name +:+ ".svg)" +:+ post) m ∧
      group 2 m = Some name) as (m & Hm & Hg).
    { assert (str_all name_char name = true ∧ 1 ≤ String.length name)%nat as [Hn Hl] by (destruct name; [done|split; [done|cbn; lia]]).
      revert Hdir. rewrite !elem_of_cons, elem_of_nil. intros [->|[->|[]]]; (eexists; split; [unfold EMBED_RE, ROpt|]).
      - rewrite str_app_nil_l. repeat first [apply hit_alt_r; [reflexivity|]|apply hit_many; [exact Hn|exact Hl|done]|hit_step].
      - done.
      - repeat first [apply hit_alt_l|apply hit_many; [exact Hn|exact Hl|done]|hit_step].
      - done. }
    rewrite (search_from_hit _ _ _ _ Hm). exact Hg.
  - apply quiet_first; [done|]. unfold no_char in Hpre. revert Hpre. apply str_all_impl. apply (ascii_impl _ (λ c, negb (first EMBED_RE c))). vm_compute. reflexivity.
Qed.

Lemma embedded_name line name : embedded line = Some name → str_all name_char name = true ∧ name ≠ "".
Proof.
  unfold embedded. destruct (_ && _); [|done]. destruct (re_search EMBED_RE line) as [m|] eqn:E; [|done]. cbn [mbind option_bind].
  intros Hg. destruct (search_from_run _ _ _ _ E) as (b & s & Hm).
  destruct (run_groups _ _ _ _ Hm) as [Hshape _]. unfold group in Hg. cbn [Nat.eqb] in Hg.
  destruct (filter _ (m_groups m)) as [|[n t] l] eqn:Ef; [done|]. injection Hg as <-.
  assert ((n, t) ∈ filter (λ p : nat * string, p.1 = 2%nat) (m_groups m)) as Hin by (rewrite Ef; constructor).
  apply list_elem_of_filter in Hin as [Hn Hin]. cbn in Hn. subst n. destruct (Hshape 2%nat t Hin) as (o & Ho & Hs).
  cbn in Ho. rewrite !elem_of_cons, elem_of_nil in Ho. destruct Ho as [[=]|[[= ->]|[]]]. destruct Hs as [Ha Hl].
  split; [exact Ha|]. intros ->. cbn in Hl. lia.
Qed.

(** ** The rule *)

(** A text that is the JSON of a value, and the stage a source declares. *)
Definition json_text (text : string) (v : json) : Prop :=
  ∃ w1 s w2, text = w1 +:+ s +:+ w2 ∧ gap w1 ∧ gap w2 ∧ spells v s.
Definition declares (text : string) (n : option Z) : Prop :=
  ∃ d, json_text text (JObj d) ∧
    match dict_get (codes "depicts") d with
    | Some (JStr s) => n = stage_of s
    | Some _ => False
    | None => n = None
    end.

Lemma declares_read text n : declares text n → depicts text ≫= stage_num = Ok n.
Proof.
  intros (d & (w1 & s & w2 & -> & H1 & H2 & Hs) & Hn). unfold depicts. rewrite (loads_spells _ _ _ _ Hs H1 H2).
  cbn [mbind res_bind]. destruct (dict_get _ d) as [[]|]; try done; subst n; done.
Qed.

Section rule.
Context `{ScandirLaws}.
Variable ROOT : string.
Variable w : world.

Definition docs_dir : string := at_root ROOT "docs".
Definition source_dir : string := at_root ROOT "docs/diagrams/src".
Definition sources : list string := glob source_dir ".json" w.
Definition documents : list string := glob docs_dir ".md" w.

(** The repository can be read: the two directories are there, the sources are
    files that hold a JSON object, whose stage is a text if it is there, and the
    documents are files. *)
Record readable : Prop := {
  root_absolute : starts_with "/" ROOT = true;
  docs_there : is_dir docs_dir w = true;
  sources_there : is_dir source_dir w = true;
  sources_declare : ∀ p, p ∈ sources → ∃ text n, files w !! p = Some text ∧ declares text n;
  documents_read : ∀ p, p ∈ documents → ∃ text, files w !! p = Some text;
}.

(** The diagram of that name shows stage [n]. *)
Definition shows (p : string) (n : Z) : Prop := ∃ text, files w !! p = Some text ∧ declares text (Some n).
Definition source_of (name : string) : string := path_join source_dir (name +:+ ".json").

Definition caption (text : list string) (i j : nat) : Prop :=
  ∃ k l, (i - 3 ≤ k < j)%nat ∧ text !! k = Some l ∧ contains era l = true.

(** What can be wrong with a line of a document. *)
Inductive problem := NoStage | OldBlock (n : Z) | OldEmbed (n : Z).

(** The problems of line [i]; a block without a stage hides a diagram embedded
    on its line. *)
Inductive offence (active : Z) (text : list string) (i : nat) : problem → Prop :=
  | no_stage line :
      text !! i = Some line → opens_mermaid line = true → (∀ n, ¬ comment (line_after text i) n) →
      offence active text i NoStage
  | old_block line n :
      text !! i = Some line → opens_mermaid line = true → comment (line_after text i) n → n < active →
      ¬ caption text i i → offence active text i (OldBlock n)
  | old_embed line name n :
      text !! i = Some line → (opens_mermaid line = true → ∃ m, comment (line_after text i) m) →
      embedded line = Some name → shows (source_of name) n → n < active →
      ¬ caption text i (S i) → offence active text i (OldEmbed n).

(** Everything that is wrong in the repository. *)
Inductive finding := Source (p : string) | At (md : string) (i : nat) (pr : problem).
Definition found (active : Z) (o : finding) : Prop :=
  match o with
  | Source p => p ∈ sources ∧ ¬ ∃ n, shows p n
  | At md i pr => md ∈ documents ∧ ∃ text, files w !! md = Some text ∧ offence active (splitlines text) i pr
  end.

(** Every diagram says its stage, and no line of a document offends. *)
Definition documented (active : Z) : Prop :=
  (∀ p, p ∈ sources → ∃ n, shows p n) ∧
  (∀ p text i pr, p ∈ documents → files w !! p = Some text → ¬ offence active (splitlines text) i pr).

(** The line printed for it, with the path below the root. *)
Definition root_prefix : string := if String.eqb ROOT "/" then "/" else ROOT +:+ "/".
Definition problem_text (active : Z) (pr : problem) : string :=
  match pr with
  | NoStage => "mermaid block missing '%% depicts: stage<N>'"
  | OldBlock n => "depicts stage" +:+ str_Z n +:+ " < active stage" +:+ str_Z active
      +:+ " without an '(era: stage" +:+ str_Z n +:+ ")' caption"
  | OldEmbed n => "embeds stage" +:+ str_Z n +:+ " diagram without era caption"
  end.
Definition reports (active : Z) (o : finding) (line : string) : Prop :=
  match o with
  | Source p => ∃ x, p = root_prefix +:+ x ∧
      line = x +:+ ": missing " +:+ String "034" "depicts" +:+ String "034" ": " +:+ String "034" "stage<N>" +:+ String "034" ""
  | At md i pr => ∃ x, md = root_prefix +:+ x ∧ line = x +:+ ":" +:+ str_nat (S i) +:+ ": " +:+ problem_text active pr
  end.

(** *** The script follows it *)

Lemma caption_captioned text i j : captioned text i j = false ↔ ¬ caption text i j.
Proof.
  pose proof (captioned_spec text i j) as Hs. fold (caption text i j) in Hs.
  destruct (captioned text i j); [|split; [intros _ H'; by apply Hs in H'|done]].
  split; [done|]. intros Hn. exfalso. by apply Hn, Hs.
Qed.

Hypothesis Hw : readable.

Lemma root_not_dot : ROOT ≠ "." ∧ ROOT ≠ "".
Proof. pose proof (root_absolute Hw) as Hr. by split; intros E; rewrite E in Hr. Qed.

(** What is in a directory of the repository is below its root. *)
Lemma relative_in d x :
  starts_with "/" d = false → d ≠ "" → plain_name x →
  ∃ r, path_join (at_root ROOT d) x = root_prefix +:+ r ∧ relative ROOT (path_join (at_root ROOT d) x) = Ok r.
Proof.
  intros Hd Hne Hx. destruct root_not_dot as [H1 H2]. apply String.eqb_neq in H1.
  unfold relative, at_root, root_prefix. set (p := path_join (path_join ROOT d) x).
  assert (∃ u, p = (if String.eqb ROOT "/" then "/" else ROOT +:+ "/") +:+ u) as (u & ->).
  { assert (∃ v, path_join ROOT d = (if String.eqb ROOT "/" then "/" else ROOT +:+ "/") +:+ v) as (v & E).
    { exists d. unfold path_join. rewrite Hd, H1. destruct (String.eqb ROOT "/"); [done|]. by rewrite str_app_assoc. }
    assert (∃ u, p = path_join ROOT d +:+ u) as (u & ->).
    { unfold p. unfold path_join at 1. rewrite (plain_name_relative x Hx).
      assert (∃ c, String.length (path_join ROOT d) = S (S c)) as (c & Hlen).
      { unfold path_join. rewrite Hd, H1. destruct (String.eqb_spec ROOT "/").
        - rewrite str_length_app. destruct d; [done|]. cbn. eauto.
        - rewrite !str_length_app. destruct ROOT; [done|]. cbn. rewrite Nat.add_succ_r. eauto. }
      destruct (String.eqb_spec (path_join ROOT d) ".") as [E'|_]; [by rewrite E' in Hlen|].
      destruct (String.eqb_spec (path_join ROOT d) "/") as [E'|_]; [by rewrite E' in Hlen|]. by eexists. }
    exists (v +:+ u). by rewrite E, str_app_assoc. }
  exists u. split; [done|]. rewrite starts_with_app. by rewrite str_drop_app.
Qed.

Lemma message_ok active md i pr (Q : finding → Prop) :
  md ∈ documents → (∀ o, Q o ↔ o = At md i pr) →
  itemised (reports active) w (message ROOT md i (problem_text active pr) w) Q.
Proof.
  intros (_ & x & -> & (Hx & Hs & _) & _)%elem_of_glob HQ.
  destruct (relative_in "docs" x) as (r & Hp & Hr); [done|done|by apply is_name_plain|].
  unfold message. rewrite (host_bind_ok _ _ w r w) by (unfold lift, docs_dir; by rewrite Hr).
  eapply itemised_one; [|exact HQ]. by exists r.
Qed.

(** Reading the stage of a source. *)
Lemma read_stage {B} (p : string) text n (f : option Z → host B) :
  files w !! p = Some text → declares text n →
  (t ← read_text p; v ← lift (depicts t); m ← lift (stage_num v); f m) w = f n w.
Proof.
  intros Ht Hn%declares_read. rewrite (host_bind_ok _ _ w text w) by (unfold read_text; by rewrite Ht).
  apply res_bind_ok in Hn as (v & Hv & Hn).
  rewrite (host_bind_ok _ _ w v w) by (unfold lift; by rewrite Hv).
  by rewrite (host_bind_ok _ _ w n w) by (unfold lift; by rewrite Hn).
Qed.

Lemma declares_inj text n m : declares text n → declares text m → n = m.
Proof. intros H1%declares_read H2%declares_read. congruence. Qed.

Lemma lint_source_ok active p : p ∈ sources →
  itemised (reports active) w (lint_source ROOT p w) (λ o, o = Source p ∧ found active o).
Proof.
  intros Hp. destruct (sources_declare Hw p Hp) as (text & n & Ht & Hn). unfold lint_source. rewrite (read_stage p text n _ Ht Hn).
  destruct n as [n|]; [apply itemised_none; intros o [-> [_ Hno]]; apply Hno; by exists n, text|].
  pose proof Hp as (_ & x & -> & (Hx & Hs & _) & _)%elem_of_glob.
  destruct (relative_in "docs/diagrams/src" x) as (r & Hpre & Hr); [done|done|by apply is_name_plain|].
  rewrite (host_bind_ok _ _ w r w) by (unfold lift, source_dir; by rewrite Hr).
  apply (itemised_one _ _ _ (Source (path_join source_dir x))); [by exists r|].
  intros o. split; [by intros [-> _]|]. intros ->. split; [done|]. split; [done|].
  intros (n & text' & Ht' & Hn'). assert (text' = text) as -> by congruence. pose proof (declares_inj _ _ _ Hn Hn'). done.
Qed.

Lemma source_of_entry line name :
  embedded line = Some name → exists_ (source_of name) w = true → source_of name ∈ sources.
Proof.
  intros (Hn & Hne)%embedded_name Ht.
  assert (no_char "/" (name +:+ ".json")) as Hs.
  { apply no_char_cat; [|done]. revert Hn. apply str_all_ascii. vm_compute. reflexivity. }
  apply elem_of_glob. split; [apply (sources_there Hw)|]. exists (name +:+ ".json"). split; [done|]. split.
  - unfold is_entry. split_and!; [|done|].
    + unfold is_name. assert (∀ t, (String.length t ≤ 2)%nat → String.eqb (name +:+ ".json") t = false) as Hl.
      { intros t Hl. apply String.eqb_neq. intros E. rewrite <-E, str_length_app in Hl. cbn in Hl. lia. }
      rewrite !Hl by (cbn; lia). done.
    + exact Ht.
  - unfold ends_with. rewrite str_length_app. replace (String.length name + String.length ".json" - String.length ".json")%nat
      with (String.length name) by lia. rewrite str_drop_app by done. rewrite bool_decide_true by (cbn; lia). done.
Qed.

Definition embed_offends (active : Z) (text : list string) (i : nat) (line : string) (n : Z) : Prop :=
  ∃ name, embedded line = Some name ∧ shows (source_of name) n ∧ n < active ∧ ¬ caption text i (S i).

Lemma lint_embed_ok active md text i line :
  md ∈ documents →
  itemised (reports active) w (lint_embed ROOT active md text i line w)
    (λ o, ∃ n, o = At md i (OldEmbed n) ∧ embed_offends active text i line n).
Proof.
  intros Hmd. unfold lint_embed, embed_offends. destruct (embedded line) as [name|] eqn:He.
  2: { apply itemised_none. by intros o (n & _ & name & [=] & _). }
  cbv zeta. change (path_join (at_root ROOT "docs/diagrams/src") (name +:+ ".json")) with (source_of name).
  destruct (exists_ (source_of name) w) eqn:Hex.
  2: { apply itemised_none. intros o (n & _ & name' & [= <-] & (t & Ht' & _) & _).
    unfold exists_ in Hex. by rewrite Ht', bool_decide_true, orb_true_r in Hex by done. }
  pose proof (source_of_entry _ _ He Hex) as Hin. destruct (sources_declare Hw _ Hin) as (text' & n & Ht & Hn).
  rewrite (read_stage _ text' n _ Ht Hn).
  assert (∀ n', shows (source_of name) n' ↔ n = Some n') as Hshow.
  { intros n'. split; [|intros ->; by exists text']. intros (t & Ht' & Hn'). assert (t = text') as -> by congruence. by eapply declares_inj. }
  destruct (old active n && negb (captioned text i (S i))) eqn:Hold.
  - apply andb_true_iff in Hold as [Ho Hc%negb_true_iff%caption_captioned]. destruct n as [n|]; [|done]. cbn in Ho.
    apply (message_ok active md i (OldEmbed n)); [done|]. intros o. split.
    + intros (n' & -> & name' & [= <-] & [= <-]%Hshow & _). done.
    + intros ->. exists n. split; [done|]. exists name. split_and!; [done|by apply Hshow|lia|done].
  - apply itemised_none. intros o (n' & _ & name' & [= <-] & ->%Hshow & Hlt & Hcap%caption_captioned).
    rewrite Hcap in Hold. cbn in Hold. lia.
Qed.

Lemma lint_line_ok active md text i line :
  md ∈ documents → text !! i = Some line →
  itemised (reports active) w (lint_line ROOT active md text i line w)
    (λ o, ∃ pr, o = At md i pr ∧ offence active text i pr).
Proof.
  intros Hmd Hline. pose proof (lint_embed_ok active md text i line Hmd) as Hemb. unfold lint_line.
  assert ((opens_mermaid line = true → ∃ m, comment (line_after text i) m) →
    ∀ n, embed_offends active text i line n ↔ offence active text i (OldEmbed n)) as Hembed.
  { intros Hm n. split; [intros (name & ? & ? & ? & ?); by eapply old_embed|].
    intros Hoff. inversion Hoff; simplify_eq. eexists. split_and!; eassumption. }
  destruct (opens_mermaid line) eqn:Hopen.
  2: { eapply itemised_iff; [exact Hemb|]. intros o. specialize (Hembed ltac:(done)). split.
       - intros (n & -> & Hn). exists (OldEmbed n). split; [done|]. by apply Hembed.
       - intros (pr & -> & Hoff). destruct pr; [inversion Hoff; congruence..|]. eexists. split; [done|]. by apply Hembed. }
  destruct (depicted (line_after text i)) as [o|] eqn:Hd.
  - apply depicted_some in Hd as (n & -> & Hn). cbn [old default from_option id].
    assert (∀ n', comment (line_after text i) n' → n' = n) as Huniq
      by (intros n' H1%depicted_comment; pose proof (depicted_comment _ _ Hn); congruence).
    specialize (Hembed ltac:(eauto)).
    eapply itemised_iff; [apply (itemised_app _ _ _ _ (λ o, o = At md i (OldBlock n) ∧ offence active text i (OldBlock n)))|].
    + destruct ((n <? active) && negb (captioned text i i)) eqn:Hold.
      * apply (message_ok active md i (OldBlock n)); [done|]. intros o. split; [by intros [-> _]|]. intros ->. split; [done|].
        apply andb_true_iff in Hold as [Hlt Hc%negb_true_iff%caption_captioned]. eapply old_block; [done..|lia|done].
      * apply itemised_none. intros o [-> Hoff]. inversion Hoff as [|? ? ? ? ? Hlt Hc|]; simplify_eq.
        apply caption_captioned in Hc. rewrite Hc in Hold. cbn in Hold. lia.
    + exact Hemb.
    + intros o [-> _] (n' & [=] & _).
    + intros o. split.
      * intros [[-> Hoff]|(n' & -> & Hn')]; eexists; (split; [done|]); [done|by apply Hembed].
      * intros (pr & -> & Hoff). destruct pr as [|n'|n'].
        -- inversion Hoff as [? ? ? Hnone| |]. by apply Hnone in Hn.
        -- left. assert (n' = n) as -> by (inversion Hoff; auto). by split.
        -- right. exists n'. split; [done|]. by apply Hembed.
  - assert (∀ n, ¬ comment (line_after text i) n) as Hno by (intros n Hn%depicted_comment; congruence).
    apply (message_ok active md i NoStage); [done|]. intros o. split.
    + intros (pr & -> & Hoff). destruct Hoff as [| |? ? ? ? Hm]; [done|by apply Hno in H3|]. simplify_eq.
      destruct (Hm Hopen) as (m & Hc). by apply Hno in Hc.
    + intros ->. exists NoStage. split; [done|]. by eapply no_stage.
Qed.

Lemma elem_of_zip_seq {A} (l : list A) i x : (i, x) ∈ zip (seq 0 (length l)) l ↔ l !! i = Some x.
Proof.
  rewrite list_elem_of_lookup. setoid_rewrite lookup_zip_Some. split.
  - intros (k & Hk & Hx). apply lookup_seq in Hk as [-> _]. done.
  - intros Hx. exists i. split; [|done]. apply lookup_seq. split; [done|]. by eapply lookup_lt_Some.
Qed.

Lemma lint_document_ok active md :
  md ∈ documents →
  itemised (reports active) w (lint_document ROOT active md w) (λ o, ∃ i pr, o = At md i pr ∧ found active o).
Proof.
  intros Hmd. destruct (documents_read Hw md Hmd) as (t & Ht). unfold lint_document.
  rewrite (host_bind_ok _ _ w t w) by (unfold read_text; by rewrite Ht). cbv zeta.
  eapply itemised_iff; [apply (itemised_collect _ _ _ (λ il o, ∃ pr, o = At md il.1 pr ∧
    splitlines t !! il.1 = Some il.2 ∧ offence active (splitlines t) il.1 pr))|].
  - apply (NoDup_fmap_1 fst). rewrite fst_zip by by rewrite length_seq. apply NoDup_seq.
  - intros [i x] [j y] o (pr & -> & Hx & _) (pr' & [= -> ->] & Hy & _). cbn in *. congruence.
  - intros [i line] Hin%elem_of_zip_seq. cbn [fst snd]. eapply itemised_iff; [by apply lint_line_ok|]. naive_solver.
  - intros o. split.
    + intros ([i line] & _ & pr & -> & _ & Hoff). exists i, pr. split; [done|]. split; [done|]. by exists t.
    + intros (i & pr & -> & _ & text & Ht' & Hoff). assert (text = t) as -> by congruence.
      assert (∃ line, splitlines t !! i = Some line) as (line & Hl) by (destruct Hoff; by eexists).
      exists (i, line). split; [by apply elem_of_zip_seq|]. by exists pr.
Qed.

(** All the findings, each once. *)
Lemma findings_ok active :
  itemised (reports active) w
    ((mbind (M:=host) (λ f, mbind (M:=host) (λ g, mret (M:=host) (f ++ g))
        (λ w, collect (lint_document ROOT active) (glob (at_root ROOT "docs") ".md" w) w))
      (λ w, collect (lint_source ROOT) (glob (at_root ROOT "docs/diagrams/src") ".json" w) w)) w)
    (found active).
Proof.
  eapply itemised_iff; [apply itemised_app|].
  - apply (itemised_collect _ _ _ (λ p o, o = Source p ∧ found active o)); [apply glob_NoDup|naive_solver|by apply lint_source_ok].
  - apply (itemised_collect _ _ _ (λ p o, ∃ i pr, o = At p i pr ∧ found active o)); [apply glob_NoDup|naive_solver|by apply lint_document_ok].
  - naive_solver.
  - intros o. split; [naive_solver|]. destruct o as [p|md i pr]; intros Ho.
    + left. exists p. split; [apply Ho|done].
    + right. exists md. split; [apply Ho|]. by exists i, pr.
Qed.

(** What the script does, given the active stage. *)
Lemma main_ok readme active :
  files w !! at_root ROOT "README.md" = Some readme → active_stage readme = Ok active →
  ∃ os lines, NoDup os ∧ (∀ o, o ∈ os ↔ found active o) ∧ Forall2 (reports active) os lines ∧
    main ROOT w =
    (match lines with [] => Ok tt | _ => Raise (SystemExit 1) end,
     logged (pair Stdout <$> match lines with
       | [] => ["docs_lint: OK (active stage " +:+ str_Z active +:+ ")"]
       | _ => "docs_lint: FAIL" :: ((λ f, "  " +:+ f) <$> lines)
       end) w).
Proof.
  intros Hr Ha. destruct (findings_ok active) as (os & lines & E & Hn & Hos & Hl). exists os, lines. do 3 (split; [done|]).
  unfold main. rewrite (host_bind_ok _ _ w readme w) by (unfold read_text; by rewrite Hr).
  rewrite (host_bind_ok _ _ w active w) by (unfold lift; by rewrite Ha).
  unfold mbind in E |- *. unfold host_bind in E at 1 |- * at 1.
  destruct (collect (lint_source ROOT) _ w) as [[f1|] w1]; [|done].
  unfold host_bind in E at 1 |- * at 1. destruct (collect (lint_document ROOT active) _ w1) as [[f2|] w2]; [|done].
  injection E as <- ->. destruct (f1 ++ f2) as [|f fs]; [done|].
  rewrite (host_bind_ok _ _ w tt (logged [(Stdout, "docs_lint: FAIL")] w)) by done.
  rewrite (host_bind_ok _ _ _ tt (logged ((f :: fs) ≫= λ f, [(Stdout, "  " +:+ f)]) (logged [(Stdout, "docs_lint: FAIL")] w))).
  - rewrite logged_app. unfold raise, lift. do 2 f_equal. rewrite fmap_cons. cbn [app]. f_equal.
    generalize (f :: fs). intros l. clear. induction l as [|x l IH]; [done|]. cbn. by rewrite IH.
  - by rewrite (for_each_prints _ (λ f, [(Stdout, "  " +:+ f)])).
Qed.

Lemma documented_found active : documented active ↔ ∀ o, ¬ found active o.
Proof.
  unfold documented. split.
  - intros [H1 H2] [p|md i pr]; cbn; [|naive_solver]. intros [Hp Hn]. by apply Hn, H1.
  - intros Hnf. split.
    + intros p Hp. destruct (sources_declare Hw p Hp) as (text & [n|] & Ht & Hn); [by exists n, text|].
      exfalso. apply (Hnf (Source p)). split; [done|]. intros (n & text' & Ht' & Hn').
      assert (text' = text) as -> by congruence. pose proof (declares_inj _ _ _ Hn Hn'). done.
    + intros p text i pr Hp Ht Hoff. apply (Hnf (At p i pr)). split; [done|]. by exists text.
Qed.
End rule.

(** The active stage is the highest number of a row in progress or complete. *)
Definition highest_row (readme : string) (active : Z) : Prop :=
  (∃ m, m ∈ re_findall ROW_RE readme ∧ py_int (default "" (group 1 m)) = Ok active) ∧
  ∀ m n, m ∈ re_findall ROW_RE readme → py_int (default "" (group 1 m)) = Ok n → n ≤ active.
Lemma active_stage_max readme active : active_stage readme = Ok active → highest_row readme active.
Proof.
  unfold active_stage, highest_row. intros H. apply res_bind_ok in H as (rows & Hrows & Hmax).
  assert (Forall2 (λ m n, py_int (default "" (group 1 m)) = Ok n) (re_findall ROW_RE readme) rows) as Hall.
  { clear Hmax. revert rows Hrows. generalize (re_findall ROW_RE readme). intros l. induction l as [|m l IH]; intros rows Hrows.
    - injection Hrows as <-. constructor.
    - cbn [mapM] in Hrows. apply res_bind_ok in Hrows as (n & Hn & Hrows). apply res_bind_ok in Hrows as (ns & Hns & [= <-]).
      constructor; [done|by apply IH]. }
  assert (∀ l x, (foldl Z.max x l = x ∨ foldl Z.max x l ∈ l) ∧ x ≤ foldl Z.max x l ∧ ∀ y, y ∈ l → y ≤ foldl Z.max x l) as Hfold.
  { clear. intros l. induction l as [|y l IH]; intros x; cbn [foldl].
    - split_and!; [by left|lia|by intros y ?%elem_of_nil].
    - destruct (IH (Z.max x y)) as (H1 & H2 & H3). split_and!; [|lia|].
      + destruct H1 as [->|H1]; [|right; by constructor]. destruct (Z.max_spec x y) as [[_ ->]|[_ ->]]; [right; constructor|by left].
      + intros z [->|Hz]%elem_of_cons; [lia|by apply H3]. }
  destruct rows as [|x l]; [done|]. cbn in Hmax. injection Hmax as <-. destruct (Hfold l x) as (H1 & H2 & H3). split.
  - assert (foldl Z.max x l ∈ x :: l) as Hin by (destruct H1 as [->|H1]; by constructor).
    apply list_elem_of_lookup in Hin as (i & Hi). destruct (Forall2_lookup_r _ _ _ _ _ Hall Hi) as (m & Hm & Hn).
    exists m. split; [by eapply list_elem_of_lookup_2|done].
  - intros m n Hm Hn. apply list_elem_of_lookup in Hm as (i & Hi).
    destruct (Forall2_lookup_l _ _ _ _ _ Hall Hi) as (n' & Hn' & E). assert (n' = n) as -> by congruence.
    apply list_elem_of_lookup_2 in Hn'. apply elem_of_cons in Hn' as [->|Hn']; [done|by apply H3].
Qed.

(** C32: On a repository that can be read, docs_lint takes the highest number
    among the rows it finds in the README's table for the active stage; it
    prints it and exits 0 exactly when every diagram source declares a stage,
    every mermaid block is followed by the stage it depicts, and every block
    or first embedded diagram of a line that is older than the active stage
    has an era caption in the three lines above it or, embedded, on its line;
    otherwise it prints one line for each offence, with its file, line and
    kind, and none besides, and exits 1. It changes nothing. *)
Theorem docs_lint_verdict `{ScandirLaws} ROOT w readme active
  (Hw : readable ROOT w) (Hr : files w !! at_root ROOT "README.md" = Some readme) (Ha : active_stage readme = Ok active) :
  highest_row readme active ∧
  ∃ r os lines, NoDup os ∧ (∀ o, o ∈ os ↔ found ROOT w active o) ∧ Forall2 (reports ROOT active) os lines ∧
    main ROOT w = (r, logged (pair Stdout <$> match lines with
      | [] => ["docs_lint: OK (active stage " +:+ str_Z active +:+ ")"]
      | _ => "docs_lint: FAIL" :: ((λ f, "  " +:+ f) <$> lines)
      end) w) ∧
    exit_status r = (match lines with [] => 0 | _ => 1 end) ∧ (exit_status r = 0 ↔ documented ROOT w active).
Proof.
  split; [by apply active_stage_max|].
  destruct (main_ok ROOT w Hw readme active Hr Ha) as (os & lines & Hn & Hos & Hl & E).
  exists (match lines with [] => Ok tt | _ => Raise (SystemExit 1) end), os, lines. do 4 (split; [done|]).
  split; [by destruct lines|]. rewrite (documented_found ROOT w Hw). destruct Hl as [|o line os lines]; cbn.
  - split; [|done]. intros _ o Ho%Hos. by apply elem_of_nil in Ho.
  - split; [done|]. intros Hno. destruct (Hno o). apply Hos. left.
Qed.

Definition q (s : string) : string := String quote (s +:+ String quote "").
Definition example_source : string := "{ " +:+ q "depicts" +:+ ": " +:+ q "stage3" +:+ " }".
Definition example_readme : string := unlines ["# Core"; ""; "| Stage | What | Status |"; "|-------|------|--------|";
  "| 3     | AXI4  | Complete    |"; "| 7d    | x | y | Complete (RTL) |"; "| 7e    | z | In progress |"; "| 8     | OoO   | Planned     |"].
Definition example_doc : string := unlines ["```mermaid"; "%% depicts: stage7e"; "a --> b"; "```"; "*(era: stage3)*"; "";
  "![w](diagrams/svg/wf.svg)"; "text"; "text"; "![w](docs/diagrams/svg/wf.svg)"; "```mermaid"; "```"].
Definition example_repo : world :=
  World (list_to_map [("/r/README.md", example_readme); ("/r/docs/a.md", example_doc); ("/r/docs/diagrams/src/wf.json", example_source)])
    {["/r"; "/r/docs"; "/r/docs/diagrams"; "/r/docs/diagrams/src"]} [] [].

Example run_example :
  main "/r" example_repo = (Raise (SystemExit 1), logged (pair Stdout <$> ["docs_lint: FAIL";
    "  docs/a.md:10: embeds stage3 diagram without era caption";
    "  docs/a.md:11: mermaid block missing '%% depicts: stage<N>'"]) example_repo).
Proof. vm_compute. reflexivity. Qed.

Lemma example_declares : declares example_source (Some 3).
Proof.
  exists [(codes "depicts", JStr (codes "stage3"))]. split; [|by vm_compute].
  exists "", example_source, "". split_and!; [done|done|done|].
  apply (spells_object " " [(codes "depicts", JStr (codes "stage3"))]); [done|].
  apply (last_member (codes "depicts") "depicts" "" " " (JStr (codes "stage3")) (quoted "stage3") " ");
    [by apply spells_plain|done|done|apply spells_string; by apply spells_plain|done].
Qed.

Lemma docs_lint_verdict_witness :
  ¬ documented "/r" example_repo 7 ∧ exit_status (main "/r" example_repo).1 = 1.
Proof.
  destruct (docs_lint_verdict "/r" example_repo example_readme 7) as (_ & r & os & lines & _ & _ & _ & E & _ & Hf).
  - split; [done|by vm_compute|by vm_compute| |].
    + intros p Hp. assert (sources "/r" example_repo = ["/r/docs/diagrams/src/wf.json"]) as Es by (vm_compute; reflexivity).
      rewrite Es in Hp. apply list_elem_of_singleton in Hp as ->. exists example_source, (Some 3). split; [by vm_compute|apply example_declares].
    + intros p Hp. assert (documents "/r" example_repo = ["/r/docs/a.md"]) as Es by (vm_compute; reflexivity).
      rewrite Es in Hp. apply list_elem_of_singleton in Hp as ->. exists example_doc. by vm_compute.
  - by vm_compute.
  - by vm_compute.
  - rewrite run_example in E. injection E as <- E. rewrite run_example. split; [|done]. intros Hd. by apply Hf in Hd.
Defined.
End docs_lint.
