(* ===== verification/Mutator.v ===== *)
(** tools/cosim_fuzz/mutator.py: the [// MUTATE:] headers of a C program, the
    values drawn for them, and their substitution in the program's text. *)
From S2P Require Export PyRandom.
From S2P Require Export PyDict.
From S2P Require Export Regex.
From Stdlib Require Import DecimalString.
Local Open Scope Z_scope.

Module mutator.

Definition blank : regex := RStar is_space.
(** [-?\d+] *)
Definition number : regex := RSeqs [ROpt (RStr "-"); RPlus is_digit].

Definition _HEADER_RE_RANGE : regex :=
  RSeqs [RStr "//"; blank; RStr "MUTATE:"; blank; RGroup 1 (RPlus is_word); blank; RStr "="; blank;
    RStr "randint("; blank; RGroup 2 number; blank; RStr ","; blank; RGroup 3 number; blank; RStr ")"].
Definition _HEADER_RE_CHOICE : regex :=
  RSeqs [RStr "//"; blank; RStr "MUTATE:"; blank; RGroup 1 (RPlus is_word); blank; RStr "="; blank;
    RStr "choice("; blank; RStr "["; RGroup 2 (RPlus (λ c, negb (Ascii.eqb c "]"))); RStr "]"; blank; RStr ")"].

(** A value: an [int] of a range, a [str] of a choice. *)
Inductive value := VInt (z : Z) | VStr (s : string).
Definition value_text (v : value) : string := match v with VInt z => str_Z z | VStr s => s end.

Record Mutation := Mut { name : string; val : value }.
(** [__str__] *)
Definition Mutation_str (m : Mutation) : string := name m +:+ "=" +:+ value_text (val m).

(** [("range", [lo, hi])] and [("choice", opts)] *)
Inductive decl := range (lo hi : Z) | choice_of (opts : list string).

(** [m.group(n)] of a group that every match sets. *)
Definition group_of (n : nat) (m : found) : string := default "" (group n m).

(** [s.strip(c)] *)
Fixpoint lstrip_char (c : Ascii.ascii) (s : string) : string :=
  match s with
  | String d t => if Ascii.eqb d c then lstrip_char c t else s
  | "" => ""
  end.
Fixpoint rstrip_char (c : Ascii.ascii) (s : string) : string :=
  match s with
  | "" => ""
  | String d t =>
      match rstrip_char c t with
      | "" => if Ascii.eqb d c then "" else String d ""
      | t' => String d t'
      end
  end.
Definition strip_char (c : Ascii.ascii) (s : string) : string := rstrip_char c (lstrip_char c s).

(** The double quote, code 34. *)
Definition quote : Ascii.ascii := "034".

(** The bodies of the two loops of [parse_headers]. *)
Definition range_header (decls : list (string * decl)) (m : found) : res (list (string * decl)) :=
  lo ← py_int (group_of 2 m); hi ← py_int (group_of 3 m);
  Ok (dict_set (group_of 1 m) (range lo hi) decls).
Definition choice_header (decls : list (string * decl)) (m : found) : list (string * decl) :=
  let opts := (λ s, strip_char "'" (strip_char quote (strip s))) <$> split_all "," (group_of 2 m) in
  dict_set (group_of 1 m) (choice_of opts) decls.

Fixpoint range_headers (decls : list (string * decl)) (ms : list found) : res (list (string * decl)) :=
  match ms with
  | [] => Ok decls
  | m :: ms => decls ← range_header decls m; range_headers decls ms
  end.

Definition parse_headers (src : string) : res (list (string * decl)) :=
  decls ← range_headers [] (re_findall _HEADER_RE_RANGE src);
  Ok (foldl choice_header decls (re_findall _HEADER_RE_CHOICE src)).

(** [s.upper()], where the upper case of every character is one character
    below 256 (which leaves out three letters of Latin-1). *)
Definition upper_char (c : Ascii.ascii) : Ascii.ascii :=
  let n := code c in
  if ((97 <=? n) && (n <=? 122)) || ((224 <=? n) && (n <=? 254) && negb (n =? 247))
  then ascii_of_N (Z.to_N (n - 32)) else c.
Fixpoint upper (s : string) : string :=
  match s with "" => "" | String c t => String (upper_char c) (upper t) end.

(** [\bNAME\s*=\s*-?\d+] *)
Definition assign_re (name : string) : regex :=
  RSeqs [RBoundary; RStr name; blank; RStr "="; blank; number].

(** One turn of the loop of [apply]. *)
Definition apply_one (out : string) (m : Mutation) : res string :=
  let u := upper (name m) in
  '(out, n) ← re_subn1 (assign_re u) (u +:+ " = " +:+ value_text (val m)) out;
  if (n =? 0)%nat
  then fst <$> re_subn1 (assign_re (name m)) (name m +:+ " = " +:+ value_text (val m)) out
  else Ok out.

Fixpoint apply (src : string) (mutations : list Mutation) : res string :=
  match mutations with
  | [] => Ok src
  | m :: ms => src ← apply_one src m; apply src ms
  end.

Section rng.
Context {G : Type} `{PyRandom G}.

(** The draw for a declaration. *)
Definition pick_one (d : decl) (g : G) : res (value * G) :=
  match d with
  | range lo hi => '(z, g) ← randint lo hi g; Ok (VInt z, g)
  | choice_of opts => '(s, g) ← PyRandom.choice opts g; Ok (VStr s, g)
  end.

Fixpoint pick (decls : list (string * decl)) (g : G) : res (list Mutation) :=
  match decls with
  | [] => Ok []
  | (n, d) :: decls =>
      '(v, g) ← pick_one d g;
      ms ← pick decls g;
      Ok (Mut n v :: ms)
  end.

(** [mutate_file], on the text of the file. *)
Definition mutate_file (src : string) (seed : Z) : res (string * list Mutation) :=
  decls ← parse_headers src;
  muts ← pick decls (rng_seed seed);
  out ← apply src muts;
  Ok (out, muts).
End rng.

Definition example_c : string := unlines [
  "// MUTATE: src_pad   = randint(0, 16)";
  "// MUTATE: mode = choice([ fast, 'slow' ])";
  "// MUTATE:copy_len = randint( -8,128 )";
  "  enum { SRC_PAD = 0, COPY_LEN =64 };";
  "  mode = 7; SRC_PAD = 1;"].

Example parse_example :
  parse_headers example_c = Ok [("src_pad", range 0 16); ("copy_len", range (-8) 128); ("mode", choice_of ["fast"; "slow"])].
Proof. vm_compute. reflexivity. Qed.

Example apply_example :
  apply example_c [Mut "src_pad" (VInt 5); Mut "copy_len" (VInt (-3)); Mut "mode" (VStr "fast")] =
  Ok (unlines ["// MUTATE: src_pad   = randint(0, 16)"; "// MUTATE: mode = choice([ fast, 'slow' ])";
    "// MUTATE:copy_len = randint( -8,128 )"; "  enum { SRC_PAD = 5, COPY_LEN = -3 };"; "  mode = fast; SRC_PAD = 1;"]).
Proof. vm_compute. reflexivity. Qed.

Example mutate_example :
  snd <$> mutate_file (G := Mt19937.mt) example_c 1
  = Ok [Mut "src_pad" (VInt 4); Mut "copy_len" (VInt 8); Mut "mode" (VStr "slow")].
Proof. vm_compute. reflexivity. Qed.

(** ** The headers *)

(** [int] of a number. *)
Lemma digits_no_space t : str_all is_digit t = true → no_space t = true.
Proof. apply str_all_ascii. vm_compute. reflexivity. Qed.

(** The texts of the pattern [-?\d+]. *)
Definition number_text (t : string) : Prop :=
  ∃ sg ds, t = sg +:+ ds ∧ (sg = "" ∨ sg = "-") ∧ str_all is_digit ds = true ∧ ds ≠ "".

Lemma opt_dash_text b s m : m ∈ run (ROpt (RStr "-")) b s → m_text m = "" ∨ m_text m = "-".
Proof.
  unfold ROpt, REmpty. cbn [run]. intros [H|H]%elem_of_app.
  - right. by eapply lit_text.
  - left. by eapply lit_text.
Qed.

Lemma plus_text p b s m : m ∈ run (RPlus p) b s → str_all p (m_text m) = true ∧ m_text m ≠ "".
Proof. intros [H1 H2]%many_text. split; [done|]. intros E. rewrite E in H2. cbn in H2. lia. Qed.

Lemma empty_text b s m : m ∈ run REmpty b s → m_text m = "".
Proof. apply lit_text. Qed.

Lemma number_run b s m : m ∈ run number b s → number_text (m_text m).
Proof.
  unfold number, RSeqs. cbn [foldr]. intros (m1 & m2 & H1 & H2 & -> & _)%run_seq_inv.
  apply run_seq_inv in H2 as (m3 & m4 & H3%plus_text & H4%empty_text & -> & _).
  exists (m_text m1), (m_text m3). rewrite H4, str_app_nil_r. apply opt_dash_text in H1. by destruct H3.
Qed.

Lemma py_int_number t : number_text t → ∃ z, py_int t = Ok z.
Proof.
  intros (sg & ds & -> & Hsg & Hd & Hne). unfold py_int.
  destruct (int_digits_total ds true 0 Hd (λ _, Hne)) as (z & Hz).
  assert (ends_solid (sg +:+ ds) = true) as He.
  { apply ends_solid_app, ends_solid_nonspace; [done|by apply digits_no_space]. }
  assert (∃ c t, ds = String c t ∧ is_digit c = true) as (c & t & -> & Hc).
  { destruct ds as [|c t]; [done|]. cbn in Hd. apply andb_true_iff in Hd as [??]. by exists c, t. }
  assert (is_space c = false ∧ c ≠ "-"%char ∧ c ≠ "+"%char) as (Hs & Hm & Hp).
  { split; [by apply (ascii_excl is_digit is_space)|]. by split; intros ->. }
  destruct Hsg as [->| ->].
  - rewrite str_app_nil_l in *. rewrite strip_solid by (exact He || (unfold starts_solid; by rewrite Hs)).
    exists z. revert Hz. generalize (int_digits true 0). intros f Hz.
    destruct c as [[] [] [] [] [] [] [] []]; (by rewrite Hz) || (by destruct Hm) || (by destruct Hp).
  - rewrite strip_solid by done. rewrite str_app_cons, str_app_nil_l, Hz. by exists (- z).
Qed.

Lemma range_header_ok decls b s m :
  m ∈ run _HEADER_RE_RANGE b s → ∃ lo hi, range_header decls m = Ok (dict_set (group_of 1 m) (range lo hi) decls).
Proof.
  intros Hm. unfold range_header, group_of.
  destruct (group_sub _ _ _ _ 2 number Hm) as (? & ? & m2 & -> & H2%number_run); [done|done|by repeat constructor|].
  destruct (group_sub _ _ _ _ 3 number Hm) as (? & ? & m3 & -> & H3%number_run); [done|done|by repeat constructor|].
  destruct (py_int_number _ H2) as (lo & Hlo), (py_int_number _ H3) as (hi & Hhi).
  exists lo, hi. cbn [default from_option id]. rewrite Hlo. cbn [mbind res_bind]. by rewrite Hhi.
Qed.

Lemma header_name r b s m :
  m ∈ run r b s → group_set r 1 = true → Forall (λ x, x.1 = 1%nat → x.2 = RPlus is_word) (subgroups r) →
  group_of 1 m ≠ "" ∧ str_all is_word (group_of 1 m) = true.
Proof.
  intros Hm Hs Hq. unfold group_of.
  destruct (group_sub _ _ _ _ 1 (RPlus is_word) Hm) as (? & ? & m1 & -> & [??]%plus_text); [done..|]. by split.
Qed.

(** What the headers declare: each name once, a word; the options are there. *)
Definition well_declared (decls : list (string * decl)) : Prop :=
  NoDup decls.*1 ∧
  Forall (λ nd, nd.1 ≠ "" ∧ str_all is_word nd.1 = true ∧
    match nd.2 with range _ _ => True | choice_of opts => opts ≠ [] end) decls.

Lemma declared_set decls k d :
  well_declared decls → k ≠ "" → str_all is_word k = true →
  (match d with range _ _ => True | choice_of opts => opts ≠ [] end) → well_declared (dict_set k d decls).
Proof.
  intros [Hn Hf] Hk Hw Hd. split; [by apply dict_set_NoDup|]. clear Hn.
  induction decls as [|[k' d'] decls IH]; cbn [dict_set]; [by apply Forall_cons_2; [|apply Forall_nil_2]|].
  apply Forall_cons_iff in Hf as [H1 Hf]. case_decide; (apply Forall_cons_2; [|by try apply IH]); [|done].
  subst. by split_and!.
Qed.

Lemma range_headers_ok decls ms :
  well_declared decls → (∀ m, m ∈ ms → ∃ b s, m ∈ run _HEADER_RE_RANGE b s) →
  ∃ decls', range_headers decls ms = Ok decls' ∧ well_declared decls'.
Proof.
  revert decls. induction ms as [|m ms IH]; intros decls Hd Hms; [by exists decls|].
  destruct (Hms m) as (b & s & Hm); [constructor|].
  destruct (range_header_ok decls _ _ _ Hm) as (lo & hi & Hr).
  destruct (header_name _ _ _ _ Hm) as [??]; [done|by repeat constructor|].
  cbn [range_headers]. rewrite Hr. cbn [mbind res_bind]. apply IH; [by apply declared_set|].
  intros m' Hm'. apply Hms. by constructor.
Qed.

Lemma split_all_nonempty c s : split_all c s ≠ [].
Proof. induction s as [|d s IH]; [done|]. cbn. destruct (Ascii.eqb d c); [done|]. by destruct (split_all c s). Qed.

Lemma choice_headers_ok decls ms :
  well_declared decls → (∀ m, m ∈ ms → ∃ b s, m ∈ run _HEADER_RE_CHOICE b s) →
  well_declared (foldl choice_header decls ms).
Proof.
  revert decls. induction ms as [|m ms IH]; intros decls Hd Hms; [done|].
  destruct (Hms m) as (b & s & Hm); [constructor|].
  destruct (header_name _ _ _ _ Hm) as [??]; [done|by repeat constructor|].
  cbn [foldl]. apply IH.
  - apply declared_set; [done..|]. intros E%fmap_nil_inv. by eapply split_all_nonempty.
  - intros m' Hm'. apply Hms. by constructor.
Qed.

Lemma parse_headers_ok src : ∃ decls, parse_headers src = Ok decls ∧ well_declared decls.
Proof.
  destruct (range_headers_ok [] (re_findall _HEADER_RE_RANGE src)) as (decls & Hr & Hd).
  - split; [apply NoDup_nil_2|apply Forall_nil_2].
  - intros m. apply findall_run.
  - exists (foldl choice_header decls (re_findall _HEADER_RE_CHOICE src)). unfold parse_headers. rewrite Hr.
    split; [done|]. apply choice_headers_ok; [done|]. intros m. apply findall_run.
Qed.

(** ** The draws *)

(** A value of the declared kind and in the declared range. *)
Definition typed (d : decl) (v : value) : Prop :=
  match d, v with
  | range lo hi, VInt z => lo ≤ z ≤ hi
  | choice_of opts, VStr s => s ∈ opts
  | _, _ => False
  end.

Definition empty_range (d : decl) : bool := match d with range lo hi => hi <? lo | choice_of _ => false end.
Definition plain (d : decl) : Prop :=
  match d with range _ _ => True | choice_of opts => Forall (no_char "\") opts end.

Definition drawn (nd : string * decl) (m : Mutation) : Prop := name m = nd.1 ∧ typed nd.2 (val m).

Section draws.
Context {G : Type} `{PyRandomLaws G}.

Lemma pick_typed decls (g : G) :
  Forall (λ nd, match nd.2 with range lo hi => True | choice_of opts => opts ≠ [] end) decls →
  Forall (λ nd, empty_range nd.2 = false) decls →
  ∃ muts, pick decls g = Ok muts ∧ Forall2 drawn decls muts.
Proof.
  revert g. induction decls as [|[n d] decls IH]; intros g Hc Hr; [exists []; by split|].
  apply Forall_cons_iff in Hc as [Hc1 Hc]. apply Forall_cons_iff in Hr as [Hr1 Hr]. cbn in *.
  assert (∃ v g', pick_one d g = Ok (v, g') ∧ typed d v) as (v & g' & Hv & Ht).
  { destruct d as [lo hi|opts]; cbn [pick_one empty_range] in *.
    - apply Z.ltb_ge in Hr1. assert (res_wp (randint lo hi g) (λ x, lo ≤ x.1 ≤ hi)) as Hw by by apply randint_wp.
      apply res_wp_ok in Hw as ((z & g') & Hz & ?). exists (VInt z), g'. by rewrite Hz.
    - assert (res_wp (PyRandom.choice opts g) (λ x, x.1 ∈ opts)) as Hw by by apply choice_wp.
      apply res_wp_ok in Hw as ((z & g') & Hz & ?). exists (VStr z), g'. by rewrite Hz. }
  rewrite Hv. cbn [mbind res_bind]. destruct (IH g' Hc Hr) as (muts & -> & Hm). cbn [mbind res_bind].
  exists (Mut n v :: muts). split; [done|]. by constructor.
Qed.

Lemma pick_empty_range decls (g : G) :
  Forall (λ nd, match nd.2 with range lo hi => True | choice_of opts => opts ≠ [] end) decls →
  Exists (λ nd, empty_range nd.2 = true) decls →
  pick decls g = Raise (ValueError "empty range for randrange()").
Proof.
  revert g. induction decls as [|[n d] decls IH]; intros g Hc He; [by apply Exists_nil in He|].
  apply Forall_cons_iff in Hc as [Hc1 Hc]. cbn in *. destruct (empty_range d) eqn:E.
  - destruct d as [lo hi|]; [|done]. cbn [pick_one empty_range] in *. unfold randint. zbool.
    by rewrite (proj2 (Z.ltb_ge _ _)) by lia.
  - apply Exists_cons in He as [He|He]; [cbn in He; congruence|].
    destruct (pick_typed [(n, d)] g) as (m & Hm & _); [by repeat constructor..|].
    cbn [pick] in Hm. destruct (pick_one d g) as [[v g']|]; [|done]. cbn [mbind res_bind].
    by rewrite IH.
Qed.
End draws.

(** ** The substitution *)

Lemma word_plain s : str_all is_word s = true → no_char "\" s.
Proof. apply str_all_ascii. vm_compute. reflexivity. Qed.

Lemma upper_plain s : no_char "\" s → no_char "\" (upper s).
Proof.
  unfold no_char. induction s as [|c s IH]; [done|]. cbn [upper str_all]. rewrite !andb_true_iff.
  intros [Hc Hs]. split; [|by apply IH]. revert c Hc. apply ascii_impl. vm_compute. reflexivity.
Qed.

Lemma str_Z_plain z : no_char "\" (str_Z z).
Proof. eapply str_all_ascii, str_Z_dec. vm_compute. reflexivity. Qed.

(** One substitution without escapes. *)
Definition replace_first (n v out : string) : option string :=
  '(pre, m) ← cut_from (assign_re n) None out; Some (pre +:+ (n +:+ " = " +:+ v) +:+ m_after m).

Lemma apply_one_plain out m :
  no_char "\" (name m) → no_char "\" (value_text (val m)) →
  apply_one out m = Ok (
    match replace_first (upper (name m)) (value_text (val m)) out with
    | Some out => out
    | None => default out (replace_first (name m) (value_text (val m)) out)
    end).
Proof.
  intros Hn Hv. unfold apply_one, replace_first.
  rewrite re_subn1_plain by by repeat apply no_char_cat; [apply upper_plain| |].
  cbn [mbind res_bind]. destruct (cut_from _ None out) as [[pre m']|]; [done|]. cbn.
  rewrite re_subn1_plain by by repeat apply no_char_cat.
  by destruct (cut_from _ None out) as [[pre m']|].
Qed.

Lemma apply_plain src ms :
  Forall (λ m, no_char "\" (name m) ∧ no_char "\" (value_text (val m))) ms → ∃ out, apply src ms = Ok out.
Proof.
  intros Hms. revert src. induction Hms as [|m ms [??] _ IH]; intros src; [by exists src|].
  cbn [apply]. rewrite apply_one_plain by done. apply IH.
Qed.

Lemma drawn_plain decls muts :
  well_declared decls → Forall (λ nd, plain nd.2) decls → Forall2 drawn decls muts →
  Forall (λ m, no_char "\" (name m) ∧ no_char "\" (value_text (val m))) muts.
Proof.
  intros [_ Hw] Hp Hm. induction Hm as [|[n d] m decls muts [Hn Ht] _ IH]; [done|].
  apply Forall_cons_iff in Hw as [(_ & Hw1 & _) Hw]. apply Forall_cons_iff in Hp as [Hp1 Hp]. cbn in *.
  constructor; [|by apply IH]. rewrite Hn. split; [by apply word_plain|].
  destruct d as [lo hi|opts], (val m) as [z|t]; try done; cbn in *; [apply str_Z_plain|].
  rewrite list.Forall_forall in Hp1. by apply Hp1.
Qed.

(** *** Assignments of constants

    [ident A]: a C identifier; [assign_text A T]: [T] assigns a number to [A]. *)

Definition is_ident_start (c : Ascii.ascii) : bool := is_word c && negb (is_digit c).
Definition ident (A : string) : bool :=
  match A with "" => false | String c _ => is_ident_start c && str_all is_word A end.

Definition assign_text (A T : string) : Prop :=
  ∃ w1 w2 num, T = A +:+ w1 +:+ "=" +:+ w2 +:+ num ∧
    str_all is_space w1 = true ∧ str_all is_space w2 = true ∧ number_text num.

(** No digit follows. *)
Definition stops (s : string) : Prop := default true (negb ∘ is_digit <$> str_head s) = true.

(** The characters after the name. *)
Definition tail_char (c : Ascii.ascii) : bool := is_space c || Ascii.eqb c "=" || Ascii.eqb c "-" || is_digit c.

Lemma ident_start_tail c : is_ident_start c = true → tail_char c = false.
Proof. apply ascii_excl. vm_compute. reflexivity. Qed.

Lemma number_text_tail num : number_text num → str_all tail_char num = true.
Proof.
  intros (sg & ds & -> & Hsg & Hd & _). rewrite str_all_app, andb_true_iff. split; [by destruct Hsg as [->| ->]|].
  revert Hd. apply str_all_ascii. vm_compute. reflexivity.
Qed.

Lemma assign_text_split A T :
  assign_text A T → ∃ c t, T = A +:+ String c t ∧ (is_space c = true ∨ c = "="%char) ∧ str_all tail_char (String c t) = true.
Proof.
  intros (w1 & w2 & num & -> & H1 & H2 & Hn).
  assert (str_all tail_char (w1 +:+ "=" +:+ w2 +:+ num) = true) as Ht.
  { rewrite !str_all_app, !andb_true_iff. split_and!; [| done| |by apply number_text_tail];
      [revert H1|revert H2]; apply str_all_ascii; vm_compute; reflexivity. }
  destruct w1 as [|c w1]; [by exists "="%char, (w2 +:+ num); auto|].
  exists c, (w1 +:+ "=" +:+ w2 +:+ num). split; [done|]. split; [|done]. left.
  cbn in H1. by apply andb_true_iff in H1 as [? _].
Qed.

Lemma ident_cons A : ident A = true → ∃ c A', A = String c A' ∧ is_ident_start c = true ∧ str_all is_word A = true.
Proof. destruct A as [|c A]; [done|]. cbn [ident]. intros [??]%andb_true_iff. by exists c, A. Qed.

(** What a match of the pattern is. *)
Lemma assign_run A b s m :
  ident A = true → m ∈ run (assign_re A) b s →
  opt_word b = false ∧ assign_text A (m_text m) ∧ s = m_text m +:+ m_after m.
Proof.
  intros HA Hm. pose proof Hm as [Hs _]%run_sound.
  unfold assign_re, RSeqs in Hm. cbn [foldr] in Hm.
  apply run_seq_inv in Hm as (m0 & k0 & H0 & Hm & T0 & _). apply run_seq_inv in Hm as (m1 & k1 & H1 & Hm & T1 & _).
  apply run_seq_inv in Hm as (m2 & k2 & H2 & Hm & T2 & _). apply run_seq_inv in Hm as (m3 & k3 & H3 & Hm & T3 & _).
  apply run_seq_inv in Hm as (m4 & k4 & H4 & Hm & T4 & _).
  apply run_seq_inv in Hm as (m5 & k5 & H5%number_run & H6%empty_text & T5 & _).
  apply many_text in H2 as [H2 _], H4 as [H4 _]. apply lit_text in H3. cbn [run] in H0.
  destruct (Bool.eqb (opt_word b) (opt_word (str_head s))) eqn:Eb; [by apply elem_of_nil in H0|].
  apply list_elem_of_singleton in H0 as ->. cbn [m_text m_before m_after] in *.
  pose proof (lit_text _ _ _ _ H1) as E1. apply (run_sound (RStr A)) in H1 as [H1 _].
  destruct (ident_cons _ HA) as (c & A' & -> & Hc & Hw). rewrite E1 in *. clear HA.
  split; [|split; [|done]].
  - rewrite H1, str_app_cons in Eb. cbn [str_head opt_word] in Eb. unfold is_ident_start in Hc.
    apply andb_true_iff in Hc as [Hc _]. rewrite Hc in Eb. by destruct (opt_word b).
  - exists (m_text m2), (m_text m4), (m_text m5). split; [|split_and!; [exact H2|exact H4|exact H5]].
    rewrite T0, T1, T2, T3, T4, T5, H3, H6. by rewrite str_app_nil_r, str_app_nil_l.
Qed.

Lemma number_hit b num t :
  number_text num → stops t → ∃ m, hit number b (num +:+ t) m ∧ m_text m = num ∧ m_after m = t.
Proof.
  intros (sg & ds & -> & Hsg & Hd & Hne) Ht. unfold number, RSeqs. cbn [foldr].
  assert (1 ≤ String.length ds)%nat as Hl by (destruct ds; [done|cbn; lia]).
  assert (∀ b, hit (RPlus is_digit) b (ds +:+ t) (Found ds [] (last_or b ds) t)) as Hh by by intros; apply hit_many.
  rewrite str_app_assoc. destruct Hsg as [->| ->]; eexists; (split; [eapply hit_seq|]).
  - unfold ROpt. apply hit_alt_r; [|apply hit_empty]. rewrite str_app_nil_l. apply run_str_nil.
    destruct ds as [|d ds]; [done|]. rewrite str_app_cons. cbn [str_all] in Hd. apply andb_true_iff in Hd as [Hd _].
    cbn [starts_with]. by destruct (Ascii.eqb_spec "-" d) as [<-|].
  - eapply hit_seq; [apply Hh|apply hit_empty].
  - cbn. by rewrite str_app_nil_r.
  - unfold ROpt. apply hit_alt_l, hit_str.
  - eapply hit_seq; [apply Hh|apply hit_empty].
  - cbn. by rewrite str_app_nil_r.
Qed.

Lemma number_no_space num t : number_text num → default true (negb ∘ is_space <$> str_head (num +:+ t)) = true.
Proof.
  intros (sg & ds & -> & Hsg & Hd & Hne). destruct Hsg as [->| ->]; [|done].
  rewrite str_app_nil_l. destruct ds as [|d ds]; [done|]. cbn [str_all] in Hd. apply andb_true_iff in Hd as [Hd _].
  rewrite str_app_cons. cbn [str_head fmap option_fmap option_map default from_option compose id].
  apply (ascii_excl is_digit is_space) in Hd; [by rewrite Hd|vm_compute; reflexivity].
Qed.

(** An assignment that no digit follows is matched. *)
Lemma assign_hit A b T t :
  ident A = true → assign_text A T → stops t → opt_word b = false →
  ∃ m, hit (assign_re A) b (T +:+ t) m ∧ m_text m = T ∧ m_after m = t.
Proof.
  intros HA (w1 & w2 & num & -> & H1 & H2 & Hn) Ht Hb.
  set (b' := last_or (last_or (last_or (last_or b A) w1) "=") w2).
  destruct (number_hit b' num t Hn Ht) as (m & Hm & Em & Ea).
  assert (hit RBoundary b (A +:+ w1 +:+ "=" +:+ w2 +:+ num +:+ t) (Found "" [] b (A +:+ w1 +:+ "=" +:+ w2 +:+ num +:+ t))) as HB.
  { apply hit_boundary. rewrite Hb. destruct (ident_cons _ HA) as (c & A' & -> & Hc & _). rewrite str_app_cons.
    cbn [str_head opt_word]. unfold is_ident_start in Hc. by destruct (is_word c). }
  rewrite !str_app_assoc. eexists. split; [|split].
  - unfold assign_re, RSeqs. cbn [foldr]. eapply hit_seq; [exact HB|]. cbn [m_before m_after].
    eapply hit_seq; [apply hit_str|]. cbn [m_before m_after].
    eapply hit_seq; [apply hit_many; [done|lia|done]|]. cbn [m_before m_after].
    eapply hit_seq; [apply hit_str|]. cbn [m_before m_after].
    eapply hit_seq; [apply hit_many; [done|lia|by apply number_no_space]|]. cbn [m_before m_after].
    eapply hit_seq; [exact Hm|apply hit_empty].
  - cbn. by rewrite Em, str_app_nil_r.
  - cbn. by rewrite Ea.
Qed.

(** *** What the source declares *)

(** The text of an option between two commas: without the blanks, then the
    double quotes, then the single quotes around it. *)
Definition option_text (s : string) : string := strip_char "'" (strip_char quote (strip s)).

(** [// MUTATE: name = randint(lo, hi)] *)
Definition range_text (t : string) (nd : string * decl) : Prop :=
  ∃ w1 w2 w3 w4 w5 w6 w7 w8 lo hi zlo zhi,
    t = "//" +:+ w1 +:+ "MUTATE:" +:+ w2 +:+ nd.1 +:+ w3 +:+ "=" +:+ w4 +:+ "randint(" +:+ w5 +:+ lo +:+ w6 +:+ "," +:+
        w7 +:+ hi +:+ w8 +:+ ")" ∧
    Forall (λ w, str_all is_space w = true) [w1; w2; w3; w4; w5; w6; w7; w8] ∧
    nd.1 ≠ "" ∧ str_all is_word nd.1 = true ∧ number_text lo ∧ number_text hi ∧
    py_int lo = Ok zlo ∧ py_int hi = Ok zhi ∧ nd.2 = range zlo zhi.

(** [// MUTATE: name = choice([v1, v2, ...])] *)
Definition choice_text (t : string) (nd : string * decl) : Prop :=
  ∃ w1 w2 w3 w4 w5 w6 body,
    t = "//" +:+ w1 +:+ "MUTATE:" +:+ w2 +:+ nd.1 +:+ w3 +:+ "=" +:+ w4 +:+ "choice(" +:+ w5 +:+ "[" +:+ body +:+ "]" +:+ w6 +:+ ")" ∧
    Forall (λ w, str_all is_space w = true) [w1; w2; w3; w4; w5; w6] ∧
    nd.1 ≠ "" ∧ str_all is_word nd.1 = true ∧ body ≠ "" ∧ no_char "]" body ∧
    nd.2 = choice_of (option_text <$> split_all "," body).

(** The dictionary of the headers of a source: the ranges in their order, then
    the choices in theirs, the last of a name counting. *)
Definition declared (src : string) (decls : list (string * decl)) : Prop :=
  ∃ rs cs, leftmost range_text 0 src rs ∧ leftmost choice_text 0 src cs ∧
    decls = foldl (λ d nd, dict_set nd.1 nd.2 d) [] (rs.*2 ++ cs.*2).

Lemma blank_hit b w t :
  str_all is_space w = true → default true (negb ∘ is_space <$> str_head t) = true →
  hit blank b (w +:+ t) (Found w [] (last_or b w) t).
Proof. intros Hw Ht. apply hit_many; [done|lia|done]. Qed.

Lemma space_no_word c : is_space c = true → is_word c = false.
Proof. revert c. apply ascii_excl. vm_compute. reflexivity. Qed.

(** A word is followed by blanks or an equals sign. *)
Lemma name_hit b n w t :
  n ≠ "" → str_all is_word n = true → str_all is_space w = true →
  hit (RPlus is_word) b (n +:+ w +:+ "=" +:+ t) (Found n [] (last_or b n) (w +:+ "=" +:+ t)).
Proof.
  intros Hne Hn Hw. apply hit_many; [done|destruct n; [done|cbn; lia]|]. destruct w as [|c w]; [done|].
  cbn [str_all] in Hw. apply andb_true_iff in Hw as [Hc%space_no_word _]. change (negb (is_word c) = true). by rewrite Hc.
Qed.

Lemma word_no_space n t : n ≠ "" → str_all is_word n = true → default true (negb ∘ is_space <$> str_head (n +:+ t)) = true.
Proof.
  intros Hne Hn. destruct n as [|c n]; [done|]. cbn [str_all] in Hn. apply andb_true_iff in Hn as [Hc _].
  change (negb (is_space c) = true). destruct (is_space c) eqn:E; [|done]. apply space_no_word in E. congruence.
Qed.

Lemma blank_stops w c t : str_all is_space w = true → is_digit c = false → stops (w +:+ String c t).
Proof.
  intros Hw Hc. unfold stops. destruct w as [|d w]; [change (negb (is_digit c) = true); by rewrite Hc|]. cbn [str_all] in Hw.
  apply andb_true_iff in Hw as [Hd _]. change (negb (is_digit d) = true). apply negb_true_iff. revert Hd.
  apply ascii_excl. vm_compute. reflexivity.
Qed.

Lemma number_found b num t :
  number_text num → stops t → hit number b (num +:+ t) (Found num [] (last_or b num) t).
Proof.
  intros Hn Ht. destruct (number_hit b num t Hn Ht) as (m & Hm & <- & <-).
  assert (m ∈ run number b (m_text m +:+ m_after m)) as Hin.
  { unfold hit in Hm. destruct (run _ _ _); [done|]. injection Hm as ->. left. }
  assert (m_groups m = []) as Hg.
  { apply elem_of_nil_inv. intros [n x] Hx. destruct (run_group_sub _ _ _ _ _ _ Hin Hx) as (q & _ & _ & _ & Hq & _).
    by apply elem_of_nil in Hq. }
  pose proof (run_sound _ _ _ _ Hin) as [_ Hb]. destruct m as [mt mg mb ma]. cbn in *. by subst.
Qed.

Ltac header_step :=
  first [apply blank_hit; [done|first [done|by apply word_no_space|by apply number_no_space]]
        |apply name_hit; done
        |apply number_found; [done|by apply blank_stops]
        |hit_step].

Lemma range_complete b t nd post :
  range_text t nd → ∃ m, hit _HEADER_RE_RANGE b (t +:+ post) m ∧ m_text m = t ∧ 
    group_of 1 m = nd.1 ∧ ∃ lo hi, py_int (group_of 2 m) = Ok lo ∧ py_int (group_of 3 m) = Ok hi ∧ nd.2 = range lo hi.
Proof.
  destruct nd as [n d].
  intros (w1 & w2 & w3 & w4 & w5 & w6 & w7 & w8 & lo & hi & zlo & zhi & -> & Hw & Hne & Hn & Hlo & Hhi & Elo & Ehi & Hd).
  cbn [fst snd] in *. rewrite !Forall_cons_iff in Hw. destruct Hw as (?&?&?&?&?&?&?&?&_).
  rewrite !str_app_assoc. eexists. split; [unfold _HEADER_RE_RANGE; repeat header_step|].
  split; [cbn -[String.append]; by rewrite ?str_app_nil_r, ?str_app_assoc|]. split; [reflexivity|].
  exists zlo, zhi. split_and!; [exact Elo|exact Ehi|done].
Qed.

Lemma choice_complete b t nd post :
  choice_text t nd → ∃ m, hit _HEADER_RE_CHOICE b (t +:+ post) m ∧ m_text m = t ∧
    group_of 1 m = nd.1 ∧ nd.2 = choice_of (option_text <$> split_all "," (group_of 2 m)).
Proof.
  destruct nd as [n d].
  intros (w1 & w2 & w3 & w4 & w5 & w6 & body & -> & Hw & Hne & Hn & Hb & Hbody & Hd).
  cbn [fst snd] in *. rewrite !Forall_cons_iff in Hw. destruct Hw as (?&?&?&?&?&?&_).
  rewrite !str_app_assoc. eexists. split.
  { unfold _HEADER_RE_CHOICE. repeat first [apply (hit_many _ 1 None _ body); [exact Hbody|destruct body; [done|cbn; lia]|done]|header_step]. }
  split; [cbn -[String.append]; by rewrite ?str_app_nil_r, ?str_app_assoc|]. split; [reflexivity|exact Hd].
Qed.

(** The text of a match, piece by piece. *)
Ltac header_inv H :=
  lazymatch type of H with
  | _ ∈ run (RSeq _ _) _ _ =>
      let m := fresh "m" in let k := fresh "k" in let H' := fresh "H" in let E := fresh "E" in
      apply run_seq_inv in H as (m & k & H' & H & E & _); rewrite E; clear E; header_inv H'; header_inv H
  | _ ∈ run (RStr _) _ _ => apply lit_text in H; rewrite H
  | _ ∈ run REmpty _ _ => apply lit_text in H; rewrite H
  | _ ∈ run blank _ _ => apply many_text in H as [H _]
  | _ ∈ run (RGroup _ _) _ _ =>
      cbn [run] in H; let m := fresh "m" in let E := fresh "E" in
      apply list_elem_of_fmap in H as (m & E & H); rewrite E; clear E; cbn [m_text]
  | _ => idtac
  end.

Definition range_of (m : found) : string * decl :=
  (group_of 1 m, match py_int (group_of 2 m), py_int (group_of 3 m) with Ok lo, Ok hi => range lo hi | _, _ => range 0 0 end).
Definition choices_of (m : found) : string * decl :=
  (group_of 1 m, choice_of (option_text <$> split_all "," (group_of 2 m))).

Lemma first_same r b s m l m' : run r b s = m :: l → hit r b s m' → m' = m.
Proof. unfold hit. intros ->. by intros [= ->]. Qed.

Lemma range_sound b s m l : run _HEADER_RE_RANGE b s = m :: l → range_text (m_text m) (range_of m).
Proof.
  intros Er. assert (m ∈ run _HEADER_RE_RANGE b s) as Hm by (rewrite Er; constructor).
  pose proof (run_sound _ _ _ _ Hm) as [Es _].
  assert (∃ nd, range_text (m_text m) nd) as (nd & Hnd).
  { unfold _HEADER_RE_RANGE, RSeqs in Hm. cbn [foldr] in Hm. clear Es. header_inv Hm.
    apply plus_text in H3 as [??]. apply number_run in H9, H13.
    destruct (py_int_number _ H9) as (lo & Hlo), (py_int_number _ H13) as (hi & Hhi). eexists (_, range lo hi).
    do 8 eexists. exists (m_text m12), (m_text m17), lo, hi. split; [rewrite str_app_nil_r; reflexivity|].
    split_and!; try done. by repeat constructor. }
  destruct (range_complete b _ nd (m_after m) Hnd) as (m' & Hm' & _ & H1 & lo & hi & H2 & H3 & Hd).
  rewrite <-Es in Hm'. rewrite (first_same _ _ _ _ _ _ Er Hm') in *.
  destruct nd as [n d]. unfold range_of. cbn [fst snd] in *. by rewrite H1, H2, H3, <-Hd.
Qed.

Lemma choice_sound b s m l : run _HEADER_RE_CHOICE b s = m :: l → choice_text (m_text m) (choices_of m).
Proof.
  intros Er. assert (m ∈ run _HEADER_RE_CHOICE b s) as Hm by (rewrite Er; constructor).
  pose proof (run_sound _ _ _ _ Hm) as [Es _].
  assert (∃ nd, choice_text (m_text m) nd) as (nd & Hnd).
  { unfold _HEADER_RE_CHOICE, RSeqs in Hm. cbn [foldr] in Hm. clear Es. header_inv Hm.
    apply plus_text in H3 as [??]. apply plus_text in H10 as [??]. eexists (_, choice_of _).
    do 6 eexists. eexists (m_text _). split; [rewrite str_app_nil_r; reflexivity|].
    split_and!; try done. by repeat constructor. }
  destruct (choice_complete b _ nd (m_after m) Hnd) as (m' & Hm' & _ & H1 & Hd).
  rewrite <-Es in Hm'. rewrite (first_same _ _ _ _ _ _ Er Hm') in *.
  destruct nd as [n d]. unfold choices_of. cbn [fst snd] in *. by rewrite H1, <-Hd.
Qed.

Lemma range_headers_fold decls ms :
  (∀ m, m ∈ ms → ∃ b s, m ∈ run _HEADER_RE_RANGE b s) →
  range_headers decls ms = Ok (foldl (λ d nd, dict_set nd.1 nd.2 d) decls (range_of <$> ms)).
Proof.
  revert decls. induction ms as [|m ms IH]; intros decls Hms; [done|].
  destruct (Hms m) as (b & s & Hm); [left|]. destruct (range_header_ok decls _ _ _ Hm) as (lo & hi & Hr).
  cbn [range_headers]. rewrite Hr. cbn [mbind res_bind]. rewrite IH by (intros; apply Hms; by right).
  rewrite fmap_cons. cbn [foldl]. do 2 f_equal. revert Hr. unfold range_header, range_of. cbn [fst snd].
  destruct (py_int (group_of 2 m)); [|done]. cbn [mbind res_bind]. destruct (py_int (group_of 3 m)); [|done].
  cbn [mbind res_bind]. by intros [= ->].
Qed.

(** [parse_headers] reads what is declared, and no more. *)
Lemma parse_headers_declared src : ∃ decls, parse_headers src = Ok decls ∧ declared src decls.
Proof.
  destruct (findall_leftmost range_text _HEADER_RE_RANGE range_of range_sound) with (s := src) as (rs & Hrs & Er).
  { intros b t a post (m & Hm & Ht & H1 & lo & hi & H2 & H3 & Hd)%(range_complete b t a post). exists m. split_and!; [done..|].
    destruct a as [n d]. unfold range_of. cbn [fst snd] in *. by rewrite H1, H2, H3, <-Hd. }
  { intros t a (?&?&?&?&?&?&?&?&?&?&?&?& -> & _) E. discriminate E. }
  destruct (findall_leftmost choice_text _HEADER_RE_CHOICE choices_of choice_sound) with (s := src) as (cs & Hcs & Ec).
  { intros b t a post (m & Hm & Ht & H1 & Hd)%(choice_complete b t a post). exists m. split_and!; [done..|].
    destruct a as [n d]. unfold choices_of. cbn [fst snd] in *. by rewrite H1, <-Hd. }
  { intros t a (?&?&?&?&?&?&?& -> & _) E. discriminate E. }
  eexists. split; [|exists rs, cs; split; [exact Hrs|]; split; [exact Hcs|reflexivity]].
  unfold parse_headers. rewrite range_headers_fold by (intros m; apply findall_run). cbn [mbind res_bind].
  rewrite foldl_app. f_equal. rewrite <-Er, <-Ec. generalize (foldl (λ d nd, dict_set nd.1 nd.2 d) [] (range_of <$> re_findall _HEADER_RE_RANGE src)).
  generalize (re_findall _HEADER_RE_CHOICE src). intros l. induction l as [|m l IH]; intros d; [done|]. apply IH.
Qed.

(** Digits at the head. *)
Lemma span_digits s : ∃ ex t, s = ex +:+ t ∧ str_all is_digit ex = true ∧ stops t.
Proof.
  induction s as [|c s (ex & t & -> & He & Ht)]; [by exists "", ""|]. destruct (is_digit c) eqn:E.
  - exists (String c ex), t. split_and!; [done| |done]. cbn. by rewrite E.
  - exists "", (String c (ex +:+ t)). split_and!; [done..|]. unfold stops. cbn. by rewrite E.
Qed.

Lemma assign_text_more A T ex : assign_text A T → str_all is_digit ex = true → assign_text A (T +:+ ex).
Proof.
  intros (w1 & w2 & num & -> & H1 & H2 & sg & ds & -> & Hsg & Hd & Hne) He.
  exists w1, w2, (sg +:+ (ds +:+ ex)). split; [by rewrite !str_app_assoc|]. split_and!; [done..|].
  exists sg, (ds +:+ ex). split_and!; [done..|by rewrite str_all_app, Hd, He|by destruct ds].
Qed.

(** The first match takes all the digits. *)
Lemma assign_first A b s m l :
  ident A = true → run (assign_re A) b s = m :: l →
  opt_word b = false ∧ assign_text A (m_text m) ∧ stops (m_after m) ∧ s = m_text m +:+ m_after m.
Proof.
  intros HA E. assert (m ∈ run (assign_re A) b s) as Hm by (rewrite E; constructor).
  destruct (assign_run _ _ _ _ HA Hm) as (Hb & HT & Hs). split_and!; [done..| |done].
  destruct (span_digits (m_after m)) as (ex & t & Ea & He & Ht).
  destruct (assign_hit A b (m_text m +:+ ex) t HA) as (m' & Hh & Et & Ea'); [by apply assign_text_more|done..|].
  rewrite str_app_assoc, <-Ea, <-Hs in Hh. unfold hit in Hh. rewrite E in Hh. injection Hh as <-.
  by rewrite Ea'.
Qed.

(** *** Where the constants are: matches do not cross into a name *)

Lemma tail_prefix t u p c X :
  str_all tail_char t = true → tail_char c = false → t +:+ u = p +:+ String c X →
  ∃ p', p = t +:+ p' ∧ u = p' +:+ String c X.
Proof.
  revert p. induction t as [|d t IH]; intros p Ht Hc E; [by exists p|].
  cbn [str_all] in Ht. apply andb_true_iff in Ht as [Hd Ht]. destruct p as [|e p].
  - rewrite str_app_cons, str_app_nil_l in E. injection E as -> _. congruence.
  - rewrite !str_app_cons in E. injection E as -> E. destruct (IH p Ht Hc E) as (p' & -> & ->). by exists p'.
Qed.

Lemma word_prefix A v p c X b :
  str_all is_word A = true → p ≠ "" → opt_word (last_or b p) = false → A +:+ v = p +:+ String c X →
  ∃ p', p = A +:+ p' ∧ v = p' +:+ String c X.
Proof.
  revert p b. induction A as [|a A IH]; intros p b HA Hp Hl E; [by exists p|].
  cbn [str_all] in HA. apply andb_true_iff in HA as [Ha HA]. destruct p as [|e p]; [done|].
  rewrite !str_app_cons in E. injection E as -> E. cbn [last_or] in Hl. destruct p as [|e' p].
  - cbn in Hl. congruence.
  - destruct (IH (String e' p) (Some e) HA) as (p' & -> & ->); [done..|]. by exists p'.
Qed.

Section local.
Context (A : string) (HA : ident A = true).

Lemma assign_inside b p c X T u :
  assign_text A T → p ≠ "" → opt_word (last_or b p) = false → is_ident_start c = true →
  T +:+ u = p +:+ String c X → ∃ p', p = T +:+ p' ∧ u = p' +:+ String c X.
Proof.
  intros HT Hp Hl Hc E. destruct (assign_text_split A T HT) as (e & t & -> & _ & Ht).
  destruct (ident_cons _ HA) as (_ & _ & _ & _ & Hw). rewrite str_app_assoc in E.
  destruct (word_prefix _ _ _ _ _ _ Hw Hp Hl E) as (p1 & -> & E1).
  destruct (tail_prefix _ _ _ _ _ Ht (ident_start_tail _ Hc) E1) as (p2 & -> & ->).
  exists p2. by rewrite str_app_assoc.
Qed.

Lemma assign_transfer b p c X d Y m l :
  p ≠ "" → opt_word (last_or b p) = false → is_ident_start c = true → is_ident_start d = true →
  run (assign_re A) b (p +:+ String c X) = m :: l →
  ∃ m', hit (assign_re A) b (p +:+ String d Y) m' ∧ m_text m' = m_text m.
Proof.
  intros Hp Hl Hc Hd E. destruct (assign_first _ _ _ _ _ HA E) as (Hb & HT & Hst & Es).
  destruct (assign_inside _ _ _ _ _ _ HT Hp Hl Hc (eq_sym Es)) as (p' & -> & Ea).
  rewrite str_app_assoc. destruct (assign_hit A b (m_text m) (p' +:+ String d Y) HA HT) as (m' & ? & ? & _); [|done|by exists m'].
  rewrite Ea in Hst. destruct p' as [|e p']; [|exact Hst]. unfold stops. rewrite str_app_nil_l.
  cbn [str_head fmap option_fmap option_map default from_option compose id].
  unfold is_ident_start in Hd. by apply andb_true_iff in Hd as [_ ->].
Qed.

Lemma quiet_transfer b p c X d Y :
  opt_word (last_or b p) = false → is_ident_start c = true → is_ident_start d = true →
  quiet (assign_re A) b p (String c X) → quiet (assign_re A) b p (String d Y).
Proof.
  intros Hl Hc Hd. revert b Hl. induction p as [|e p IH]; intros b Hl; [done|]. cbn [quiet]. intros [Hn Hq].
  split; [|by apply IH]. destruct (run (assign_re A) b (String e (p +:+ String d Y))) as [|m l] eqn:E; [done|exfalso].
  destruct (assign_transfer b (String e p) d Y c X m l) as (m' & Hm' & _); [done..|].
  unfold hit in Hm'. rewrite str_app_cons, Hn in Hm'. done.
Qed.

(** The text of the first assignment. *)
Definition cut_text (b : option Ascii.ascii) (s : string) : option string :=
  (λ x, m_text x.2) <$> cut_from (assign_re A) b s.

Lemma cut_text_cons b c s :
  cut_text b (String c s) =
    match run (assign_re A) b (String c s) with m :: _ => Some (m_text m) | [] => cut_text (Some c) s end.
Proof.
  unfold cut_text. cbn [cut_from]. destruct (run _ b _); [|done]. by destruct (cut_from _ (Some c) s) as [[??]|].
Qed.

Lemma cut_text_local b p c X d Y :
  opt_word (last_or b p) = false → is_ident_start c = true → is_ident_start d = true →
  cut_text (last_or b p) (String c X) = cut_text (last_or b p) (String d Y) →
  cut_text b (p +:+ String c X) = cut_text b (p +:+ String d Y).
Proof.
  intros Hl Hc Hd. revert b Hl. induction p as [|e p IH]; intros b Hl E; [done|].
  rewrite !str_app_cons, !cut_text_cons.
  destruct (run (assign_re A) b (String e (p +:+ String c X))) as [|m l] eqn:E1.
  - destruct (run (assign_re A) b (String e (p +:+ String d Y))) as [|m l] eqn:E2; [by apply IH|exfalso].
    destruct (assign_transfer b (String e p) d Y c X m l) as (m' & Hm' & _); [done..|].
    unfold hit in Hm'. rewrite str_app_cons, E1 in Hm'. done.
  - destruct (assign_transfer b (String e p) c X d Y m l) as (m' & Hm' & <-); [done..|].
    revert Hm'. unfold hit. rewrite str_app_cons. destruct (run _ b (String e (p +:+ String d Y))); [done|]. by intros [= ->].
Qed.

Lemma cut_text_quiet b s t :
  quiet (assign_re A) b s t → cut_text b (s +:+ t) = cut_text (last_or b s) t.
Proof.
  revert b. induction s as [|c s IH]; intros b; [done|]. cbn [quiet]. intros [Hn Hq].
  rewrite str_app_cons, cut_text_cons, Hn. by apply IH.
Qed.

(** Only whether a word character comes before matters. *)
Lemma cut_text_before b b' s : opt_word b = opt_word b' → cut_text b s = cut_text b' s.
Proof.
  intros Hb. assert (∀ m l b b', opt_word b = opt_word b' → run (assign_re A) b s = m :: l →
    ∃ m', hit (assign_re A) b' s m' ∧ m_text m' = m_text m) as Hr.
  { clear b b' Hb. intros m l b b' Hb E. destruct (assign_first _ _ _ _ _ HA E) as (Hb1 & HT & Hst & Es).
    destruct (assign_hit A b' (m_text m) (m_after m) HA HT Hst) as (m' & ? & ? & _); [congruence|].
    exists m'. by rewrite Es. }
  destruct s as [|c s]; [unfold cut_text; cbn [cut_from]; by rewrite !run_nil_empty by (by destruct A)|].
  rewrite !cut_text_cons. destruct (run (assign_re A) b (String c s)) as [|m l] eqn:E1.
  - destruct (run (assign_re A) b' (String c s)) as [|m l] eqn:E2; [done|exfalso].
    destruct (Hr m l b' b) as (m' & Hm' & _); [done..|]. unfold hit in Hm'. by rewrite E1 in Hm'.
  - destruct (Hr m l b b') as (m' & Hm' & <-); [done..|]. revert Hm'. unfold hit.
    destruct (run _ b' (String c s)); [done|]. by intros [= ->].
Qed.

(** An assignment of another constant is passed over. *)
Lemma quiet_other B b T t :
  ident B = true → A ≠ B → opt_word b = false → assign_text B T → quiet (assign_re A) b T t.
Proof.
  intros HB Hne Hb HT. destruct (assign_text_split B T HT) as (e & u & -> & He & Hu).
  destruct (ident_cons _ HA) as (a & A' & EA & Ha & Hw).
  assert (∀ b, quiet (assign_re A) b (String e u) t) as Hq.
  { intros b'. apply quiet_first; [by rewrite EA|]. revert Hu. apply str_all_impl. intros c Hc.
    apply negb_true_iff. unfold assign_re. rewrite EA. cbn. destruct (Ascii.eqb_spec a c) as [<-|]; [|done].
    by rewrite ident_start_tail in Hc. }
  apply quiet_app; [|apply Hq]. clear Hq.
  destruct (ident_cons _ HB) as (c & B' & -> & _ & HwB). cbn [quiet]. split.
  - destruct (run _ b _) as [|m l] eqn:E; [done|exfalso]. apply Hne.
    destruct (assign_first _ _ _ _ _ HA E) as (_ & HTA & _ & Es).
    destruct (assign_text_split A _ HTA) as (e' & u' & Em & He' & _). rewrite Em in Es.
    assert (is_word e = false ∧ is_word e' = false) as [We We'].
    { assert (∀ x, is_space x = true ∨ x = "="%char → is_word x = false) as Hx; [|by split; apply Hx].
      intros x [Hx| ->]; [|done]. revert x Hx. apply ascii_excl. vm_compute. reflexivity. }
    clear -HwB Hw Es We We'. rewrite !str_app_assoc, !str_app_cons in Es.
    change (String c (B' +:+ ?x)) with (String c B' +:+ x) in Es.
    revert A Hw Es. induction (String c B') as [|x B IH]; intros A Hw Es; destruct A as [|y A]; [done|..].
    + rewrite str_app_nil_l, str_app_cons in Es. injection Es as -> _. cbn in Hw. by rewrite We in Hw.
    + rewrite str_app_nil_l, str_app_cons in Es. injection Es as -> _. cbn in HwB. by rewrite We' in HwB.
    + rewrite !str_app_cons in Es. injection Es as -> Es. cbn in Hw, HwB. apply andb_true_iff in Hw as [_ Hw], HwB as [_ HwB].
      f_equal. by apply IH.
  - clear Hne Hb. cbn [str_all] in HwB. apply andb_true_iff in HwB as [Hc HwB]. clear HT HB.
    assert (opt_word (Some c) = true) as Hb by done. revert Hb. generalize (Some c). clear Hc c b.
    induction B' as [|x B IH]; intros b Hb; [done|]. cbn [str_all] in HwB. apply andb_true_iff in HwB as [Hx HwB].
    split; [|by apply IH]. destruct (run _ b _) as [|m l] eqn:E; [done|exfalso].
    destruct (assign_first _ _ _ _ _ HA E) as (Hb' & _). congruence.
Qed.
End local.

(** The number the first assignment to [A] in the text assigns. *)
Definition constant (A s : string) : option Z :=
  T ← cut_text A None s; '(_, v) ← split_at "=" T; int_of_str (lstrip v).

Lemma str_Z_number z : number_text (str_Z z).
Proof.
  destruct (Z_le_gt_dec 0 z).
  - exists "", (str_Z z). rewrite str_app_nil_l. split_and!; [done|by left|by apply str_Z_digits|apply str_Z_nonempty].
  - exists "-", (str_Z (- z)). split_and!; [|by right|apply str_Z_digits; lia|apply str_Z_nonempty].
    destruct z as [|p|p]; [lia|lia|]. unfold str_Z, NilZero.string_of_int. cbn [Z.to_int Z.opp].
    destruct p; done.
Qed.

Lemma assigned_value A z :
  ident A = true → assign_text A (A +:+ " = " +:+ str_Z z) ∧
  ('(_, v) ← split_at "=" (A +:+ " = " +:+ str_Z z); int_of_str (lstrip v)) = Some z.
Proof.
  intros HA. split.
  - exists " ", " ", (str_Z z). split; [done|]. split_and!; [done..|apply str_Z_number].
  - destruct (ident_cons _ HA) as (_ & _ & _ & _ & Hw).
    change (A +:+ " = " +:+ str_Z z) with (A +:+ " " +:+ String "=" (" " +:+ str_Z z)).
    rewrite <-str_app_assoc, split_at_app.
    + cbn [mbind option_bind]. rewrite lstrip_spaces by done. rewrite lstrip_solid; [apply int_of_str_Z|].
      pose proof (str_Z_dec z) as Hd. pose proof (str_Z_nonempty z) as Hne. destruct (str_Z z) as [|c t]; [done|].
      cbn [str_all] in Hd. apply andb_true_iff in Hd as [Hd _]. cbn [starts_solid].
      apply negb_true_iff. revert Hd. apply ascii_excl. vm_compute. reflexivity.
    + rewrite str_all_app, andb_true_iff. split; [|done]. revert Hw. apply str_all_ascii. vm_compute. reflexivity.
Qed.

(** Replacing an assignment sets its constant and no other. *)
Lemma replace_constant u z src :
  ident u = true → cut_text u None src ≠ None →
  ∃ out, replace_first u (str_Z z) src = Some out ∧ constant u out = Some z ∧
    ∀ B, ident B = true → B ≠ u → cut_text B None out = cut_text B None src.
Proof.
  intros Hu Hc. unfold replace_first, cut_text in *.
  destruct (cut_from (assign_re u) None src) as [[pre m]|] eqn:E; [|done]. clear Hc.
  destruct (cut_from_sound _ _ _ _ _ E) as (-> & Hq & Hh). cbn [mbind option_bind]. eexists. split; [done|].
  assert (∃ l, run (assign_re u) (last_or None pre) (m_text m +:+ m_after m) = m :: l) as (l & Er).
  { unfold hit in Hh. destruct (run _ _ _) as [|m' l]; [done|]. injection Hh as ->. by exists l. }
  destruct (assign_first _ _ _ _ _ Hu Er) as (Hb & HT & Hst & _).
  destruct (assigned_value u z Hu) as [HT' Hv]. set (T' := u +:+ " = " +:+ str_Z z) in *.
  assert (∃ c X Y, m_text m = String c X ∧ T' = String c Y ∧ is_ident_start c = true) as (c & X & Y & EX & EY & Hc).
  { destruct (ident_cons _ Hu) as (c & u' & -> & Hc & _). destruct (assign_text_split _ _ HT) as (e & t & -> & _).
    by exists c, (u' +:+ String e t), (u' +:+ " = " +:+ str_Z z). }
  split.
  - destruct (assign_hit u (last_or None pre) T' (m_after m) Hu HT' Hst Hb) as (m' & Hh' & Em & _).
    unfold constant, cut_text. rewrite (cut_from_hit _ _ _ _ m'); [|by rewrite EX, EY in *; eapply quiet_transfer|done].
    cbn [fmap option_fmap option_map snd mbind option_bind]. by rewrite Em.
  - intros B HB Hne. fold (cut_text B None (pre +:+ T' +:+ m_after m)).
    fold (cut_text B None (pre +:+ m_text m +:+ m_after m)).
    assert (∀ T, assign_text u T → cut_text B (last_or None pre) (T +:+ m_after m) = cut_text B (last_or (last_or None pre) T) (m_after m)) as Hs.
    { intros T HTT. apply cut_text_quiet. by apply (quiet_other B HB u). }
    pose proof (Hs _ HT) as H1. pose proof (Hs _ HT') as H2.
    assert (∀ T b, assign_text u T → opt_word (last_or b T) = true) as Hw.
    { intros T b (w1 & w2 & num & -> & _ & _ & sg & ds & -> & _ & Hd & Hn). rewrite !last_or_app.
      destruct (last_or_all is_digit (last_or (last_or (last_or (last_or (last_or b u) w1) "=") w2) sg) ds) as (d & -> & Hdd); [done..|].
      cbn. revert d Hdd. apply ascii_impl. vm_compute. reflexivity. }
    rewrite EX, EY in *. symmetry. apply cut_text_local; [done..|].
    rewrite <-!str_app_cons, H1, H2. apply cut_text_before; [done|]. by rewrite !Hw.
Qed.

Lemma constant_cut u s : constant u s ≠ None → cut_text u None s ≠ None.
Proof. unfold constant. by destruct (cut_text u None s). Qed.

(** The substitutions of integer values set their constants and no other. *)
Lemma apply_constants (ms : list (string * Z)) src :
  Forall (λ nz, ident (upper nz.1) = true ∧ no_char "\" nz.1 ∧ constant (upper nz.1) src ≠ None) ms →
  NoDup ((λ nz, upper nz.1) <$> ms) →
  ∃ out, apply src ((λ nz, Mut nz.1 (VInt nz.2)) <$> ms) = Ok out ∧
    (∀ n z, (n, z) ∈ ms → constant (upper n) out = Some z) ∧
    (∀ B, ident B = true → B ∉ ((λ nz, upper nz.1) <$> ms) → constant B out = constant B src).
Proof.
  revert src. induction ms as [|[n z] ms IH]; intros src Hms Hnd.
  { exists src. split; [done|]. split; [by intros ? ? ?%elem_of_nil|done]. }
  apply Forall_cons_iff in Hms as [(Hi & Hn & Hc) Hms]. rewrite fmap_cons in Hnd.
  apply list.NoDup_cons in Hnd as [Hnin Hnd]. cbn [fst] in *.
  destruct (replace_constant (upper n) z src Hi (constant_cut _ _ Hc)) as (out & Ho & Hz & Hf).
  rewrite fmap_cons. cbn [apply fst snd]. rewrite apply_one_plain by (done || apply str_Z_plain).
  cbn [name val value_text]. rewrite Ho. cbn [mbind res_bind].
  assert (∀ B, ident B = true → B ≠ upper n → constant B out = constant B src) as Hf'.
  { intros B HB Hne. unfold constant. by rewrite Hf. }
  destruct (IH out) as (out' & Ha & Hs & Hr); [|done|].
  - apply list.Forall_forall. intros [n' z'] Hin. rewrite list.Forall_forall in Hms.
    destruct (Hms _ Hin) as (Hi' & Hn' & Hc'). cbn [fst] in *. split_and!; [done..|].
    rewrite Hf'; [done..|]. intros E. apply Hnin. rewrite <-E. by apply (list_elem_of_fmap_2 (λ nz : string * Z, upper nz.1)) in Hin.
  - exists out'. split; [exact Ha|]. split.
    + intros n' z' [[= -> ->]|Hin]%elem_of_cons; [|by apply Hs]. by rewrite Hr.
    + intros B HB [Hne HB']%not_elem_of_cons. by rewrite Hr, Hf'.
Qed.

(** ** The properties *)

Section claims.
Context {G : Type} `{PyRandomLaws G}.

(** C33: On any source text the headers parse, each name declared once: the
    declarations are what the range headers of the text, from left to right,
    and then its choice headers say, the last of a name counting; an empty
    range is a ValueError, and otherwise, when no option holds a backslash,
    mutate_file returns one mutation for each declaration, in order, with a
    value of the declared kind: an integer in the range or one of the
    options. *)
Theorem mutate_file_typed (src : string) (seed : Z) :
  ∃ decls, parse_headers src = Ok decls ∧ declared src decls ∧ well_declared decls ∧
    (Exists (λ nd, empty_range nd.2 = true) decls →
      mutate_file src seed = Raise (ValueError "empty range for randrange()")) ∧
    (Forall (λ nd, empty_range nd.2 = false) decls → Forall (λ nd, plain nd.2) decls →
      ∃ out muts, mutate_file src seed = Ok (out, muts) ∧ Forall2 drawn decls muts).
Proof.
  destruct (parse_headers_ok src) as (decls & Hp & Hd). exists decls. split; [done|].
  split; [destruct (parse_headers_declared src) as (decls' & Hp' & ?); congruence|]. split; [done|].
  assert (Forall (λ nd : string * decl, match nd.2 with range lo hi => True | choice_of opts => opts ≠ [] end) decls) as Hc.
  { destruct Hd as [_ Hd]. revert Hd. apply Forall_impl. by intros nd (_ & _ & ?). }
  unfold mutate_file. rewrite Hp. cbn [mbind res_bind]. split.
  - intros He. by rewrite pick_empty_range.
  - intros Hr Hpl. destruct (pick_typed decls (rng_seed seed) Hc Hr) as (muts & -> & Hm). cbn [mbind res_bind].
    destruct (apply_plain src muts) as (out & ->); [by eapply drawn_plain|]. by exists out, muts.
Qed.

(** C9: When every declared constant is defined, mutate_file draws a value in
    each declared range, the first assignment to the constant reads back as
    that value in the mutated program, and every other constant is what it
    was. *)
Theorem mutate_sets_constants (src : string) (seed : Z) decls
  (Hp : parse_headers src = Ok decls)
  (Hr : Forall (λ nd, ∃ lo hi, nd.2 = range lo hi ∧ lo ≤ hi) decls)
  (Hc : Forall (λ nd, ident (upper nd.1) = true ∧ constant (upper nd.1) src ≠ None) decls)
  (Hn : NoDup ((λ nd, upper nd.1) <$> decls)) :
  ∃ out muts, mutate_file src seed = Ok (out, muts) ∧
    (∀ n lo hi, (n, range lo hi) ∈ decls →
      ∃ z, lo ≤ z ≤ hi ∧ Mut n (VInt z) ∈ muts ∧ constant (upper n) out = Some z) ∧
    (∀ B, ident B = true → B ∉ ((λ nd, upper nd.1) <$> decls) → constant B out = constant B src).
Proof.
  unfold mutate_file. rewrite Hp. cbn [mbind res_bind].
  destruct (parse_headers_ok src) as (decls' & Hp' & Hd). rewrite Hp in Hp'. injection Hp' as <-.
  assert (Forall (λ nd, empty_range nd.2 = false) decls) as He.
  { revert Hr. apply Forall_impl. intros nd (lo & hi & -> & ?). cbn. by apply Z.ltb_ge. }
  destruct (pick_typed decls (rng_seed seed)) as (muts & -> & Hm); [|done|].
  { destruct Hd as [_ Hd]. revert Hd. apply Forall_impl. by intros nd (_ & _ & ?). }
  cbn [mbind res_bind].
  assert (∃ zs : list (string * Z), muts = (λ nz, Mut nz.1 (VInt nz.2)) <$> zs ∧
    Forall2 (λ nd nz, nz.1 = nd.1 ∧ typed nd.2 (VInt nz.2)) decls zs) as (zs & -> & Hz).
  { clear -Hm Hr. induction Hm as [|nd [n v] decls muts [Hn Ht] _ IH]; [by exists []; split|].
    apply Forall_cons_iff in Hr as [(lo & hi & E & _) Hr]. destruct (IH Hr) as (zs & -> & Hz).
    destruct v as [z|s]; [|by rewrite E in Ht]. exists ((n, z) :: zs). split; [done|]. by constructor. }
  assert ((λ nz : string * Z, upper nz.1) <$> zs = (λ nd : string * decl, upper nd.1) <$> decls) as Eu.
  { clear -Hz. induction Hz as [|nd nz decls zs [E _] _ IH]; [done|]. rewrite !fmap_cons, IH. by rewrite E. }
  destruct (apply_constants zs src) as (out & -> & Hs & Hf).
  - destruct Hd as [_ Hd]. clear -Hz Hc Hd. induction Hz as [|nd nz decls zs [E _] _ IH]; [done|].
    apply Forall_cons_iff in Hc as [[? ?] Hc]. apply Forall_cons_iff in Hd as [(_ & ? & _) Hd].
    constructor; [|by apply IH]. rewrite E. split_and!; [done|by apply word_plain|done].
  - by rewrite Eu.
  - cbn [mbind res_bind]. eexists _, _. split; [done|]. rewrite Eu in Hf. split; [|done].
    intros n lo hi Hin. apply list_elem_of_lookup in Hin as (i & Hi).
    destruct (Forall2_lookup_l _ _ _ _ _ Hz Hi) as ([n' z] & Hi' & En & Ht). cbn in En, Ht. subst n'.
    apply list_elem_of_lookup_2 in Hi'. exists z. split; [done|]. split; [|by apply Hs].
    by apply (list_elem_of_fmap_2 (λ nz : string * Z, Mut nz.1 (VInt nz.2))) in Hi'.
Qed.
End claims.

Lemma mutate_file_typed_witness :
  ∃ out muts, mutate_file (G := Mt19937.mt) example_c 1 = Ok (out, muts) ∧
    Forall2 drawn [("src_pad", range 0 16); ("copy_len", range (-8) 128); ("mode", choice_of ["fast"; "slow"])] muts.
Proof.
  destruct (mutate_file_typed (G := Mt19937.mt) example_c 1) as (decls & Hp & _ & _ & _ & Hok).
  rewrite parse_example in Hp. injection Hp as <-. apply Hok.
  - repeat (apply Forall_cons_2 || apply Forall_nil_2); reflexivity.
  - repeat (apply Forall_cons_2 || apply Forall_nil_2); reflexivity || exact I.
Defined.

Lemma mutate_sets_constants_witness :
  let src := unlines ["// MUTATE: src_pad = randint(0, 16)"; "// MUTATE: copy_len = randint(8, 128)";
    "  enum { SRC_PAD = 0, COPY_LEN = 64, N = 3 };"] in
  ∃ out muts, mutate_file (G := Mt19937.mt) src 0 = Ok (out, muts) ∧
    (∀ n lo hi, (n, range lo hi) ∈ [("src_pad", range 0 16); ("copy_len", range 8 128)] →
      ∃ z, lo ≤ z ≤ hi ∧ Mut n (VInt z) ∈ muts ∧ constant (upper n) out = Some z) ∧
    (∀ B, ident B = true → B ∉ ["SRC_PAD"; "COPY_LEN"] → constant B out = constant B src).
Proof.
  intros src. apply (mutate_sets_constants (G := Mt19937.mt) src 0 [("src_pad", range 0 16); ("copy_len", range 8 128)]).
  - vm_compute. reflexivity.
  - repeat (apply Forall_cons_2 || apply Forall_nil_2); eexists _, _; (split; [reflexivity|lia]).
  - repeat (apply Forall_cons_2 || apply Forall_nil_2); (split; [reflexivity|vm_compute; discriminate]).
  - by_decide.
Defined.

End mutator.
