(* ===== verification/CrvRunner.v ===== *)
(** tools/crv/runner.py: generate a program, build it, run it on the core and
    on Sail, compare the traces.  The compilers, the simulators and the scripts
    it starts are the parameter [exec] of [Host]. *)
From S2P Require Export Host.
From S2P Require Export Generator.
From S2P Require Export TracePipeline.
Local Open Scope Z_scope.

Module runner.

(** The path arguments of [run]. *)
Record config := Config {
  build_dir : string;
  kronos_bin : string;
  link_script : string;
  common_s : string;
  sail_trace_script : string;
  diff_script : string;
}.

(** [f"{scenario}_{seed}"], its directory, and the paths in it. *)
Definition run_name (scenario : string) (seed : Z) : string := scenario +:+ "_" +:+ str_Z seed.
Definition work_dir (c : config) (name : string) : string := path_join (build_dir c) name.

Definition s_path (work : string) : string := path_join work "prog.S".
Definition elf_path (work : string) : string := path_join work "prog.elf".
Definition hex_path (work : string) : string := path_join work "prog.hex".
Definition vmem_path (work : string) : string := path_join work "prog.vmem".
Definition kronos_trace (work : string) : string := path_join work "kronos.trace".
Definition sail_trace (work : string) : string := path_join work "sail.trace".
Definition diff_out (work : string) : string := path_join work "diff.txt".

(** The processes. *)
Definition gcc (c : config) (work : string) : command := cmd
  ["riscv64-unknown-elf-gcc"; "-march=rv64imafdc_zicsr"; "-mabi=lp64"; "-nostdlib"; "-static";
   "-T" +:+ link_script c; s_path work; common_s c; "-o"; elf_path work].
Definition objcopy (work : string) : command := cmd
  ["riscv64-unknown-elf-objcopy"; "-O"; "ihex"; elf_path work; hex_path work].
Definition objcopy_vmem (work : string) : command := cmd
  ["riscv64-unknown-elf-objcopy"; "-O"; "verilog"; "--verilog-data-width"; "4"; elf_path work; vmem_path work].
Definition kronos (c : config) (work : string) : command :=
  Command [kronos_bin c; hex_path work] [("SIM_TRACE", kronos_trace work)] None None.
Definition sail (c : config) (work : string) : command := cmd [sail_trace_script c; elf_path work].
Definition differ (c : config) (work : string) : command :=
  cmd [diff_script c; kronos_trace work; sail_trace work].

Section run.
Variable exec : program.

(** [if rc.returncode != 0: write; return 2] *)
Definition failed (what name text : string) : host Z :=
  put Stderr ("[crv-runner] " +:+ what +:+ " failed for " +:+ name +:+ ":" +:+ newline +:+ text +:+ newline);;
  mret 2.

(** Steps 5 and 6: the comparison, and the clean-up when it passes. *)
Definition compare_traces (c : config) (name work : string) : host Z :=
  diff ← subprocess exec (differ c work);
  write_text (diff_out work)
    (stdout diff +:+ newline +:+ "--- stderr ---" +:+ newline +:+ stderr diff);;
  if negb (returncode diff =? 0) then
    put Stderr ("[crv-runner] DIVERGENCE in " +:+ name +:+ newline);;
    put Stderr ("  artefacts: " +:+ work +:+ newline);;
    mret 1
  else
    unlink (kronos_trace work);;
    unlink (sail_trace work);;
    unlink (diff_out work);;
    mret 0.

Definition run {G} `{PyRandom G} (c : config) (scenario : string) (seed length : Z) : host Z :=
  let name := run_name scenario seed in
  let work := work_dir c name in
  mkdir work;;
  text ← Host.lift (generate_program (G:=G) scenario seed length);
  mkdir (parent (s_path work));;
  write_text (s_path work) text;;
  rc ← subprocess exec (gcc c work);
  if negb (returncode rc =? 0) then failed "gcc" name (stderr rc) else
  rc ← subprocess exec (objcopy work);
  if negb (returncode rc =? 0) then failed "objcopy" name (stderr rc) else
  rc ← subprocess exec (objcopy_vmem work);
  if negb (returncode rc =? 0) then failed "objcopy (vmem)" name (stderr rc) else
  rc ← subprocess exec (kronos c work);
  if negb (returncode rc =? 0) then failed "kronos run" name (str_take 500 (stderr rc)) else
  sail_out ← subprocess exec (sail c work);
  if negb (returncode sail_out =? 0) then failed "sail run" name (str_take 500 (stderr sail_out)) else
  write_text (sail_trace work) (stdout sail_out);;
  compare_traces c name work.

(** [main] after the arguments are parsed: [sys.exit(rc)]. *)
Definition main {G} `{PyRandom G} (c : config) (scenario : string) (seed length : Z) : host unit :=
  rc ← run (G:=G) c scenario seed length;
  Host.raise (SystemExit rc).
End run.

(** ** The verdict

    The trace of the core is [K], Sail's log is [pre] then [commits]; the tools
    are the ones the repository uses, and [exec] runs them as documented. *)

Section verdict.
Context (exec : program) (c : config) (work : string).
Context (K : list event) (pre : list string) (commits : list sail_trace_normalize.commit).

(** The compilers write what they are asked to, the core its trace. *)
Definition builds (cmd : command) : Prop := ∀ f d, ∃ out err f',
  exec cmd f d = (Ok (Process 0 out err), (f', d)) ∧ leaves [elf_path work; hex_path work; vmem_path work] f f'.

Definition simulates : Prop := ∀ f d, ∃ out err f',
  exec (kronos c work) f d = (Ok (Process 0 out err), (f', d)) ∧
  f' !! kronos_trace work = Some (unlines (event_text <$> K)) ∧ leaves [kronos_trace work] f f'.

(** tools/sail_trace.sh normalises Sail's log on its standard output. *)
Definition normalises : Prop := ∀ f d, ∃ lines err,
  sail_trace_normalize.main (sail_trace_normalize.log_stdin pre commits) = Ok lines ∧
  exec (sail c work) f d = (Ok (Process 0 (unlines lines) err), (f, d)).

Record tools_ok : Prop := {
  tool_gcc : builds (gcc c work);
  tool_objcopy : builds (objcopy work);
  tool_vmem : builds (objcopy_vmem work);
  tool_kronos : simulates;
  tool_sail : normalises;
  tool_diff : compares exec (differ c work);
}.
End verdict.

(** ** The run on such tools *)

(** The files of a run. *)
Definition names : list string :=
  ["prog.S"; "prog.elf"; "prog.hex"; "prog.vmem"; "kronos.trace"; "sail.trace"; "diff.txt"].

Lemma names_plain x : x ∈ names → plain_name x.
Proof. unfold names. intros Hx. repeat (apply elem_of_cons in Hx as [->|Hx]; [done|]). by apply elem_of_nil in Hx. Qed.

Lemma path_ne work x y : x ∈ names → y ∈ names → x ≠ y → path_join work x ≠ path_join work y.
Proof. intros Hx Hy Hne E. apply Hne. by apply (path_join_inj work); [apply names_plain..|]. Qed.

Lemma path_not_flag work x : x ∈ names → x ≠ trace_diff.flag → path_join work x ≠ trace_diff.flag.
Proof.
  intros Hx Hne. by apply path_join_ne; [apply names_plain|..].
Qed.

(** Prove that two of the files are different. *)
Ltac path_ne := apply path_ne; [by_decide..|discriminate].

Section verdict_proof.
Context {G : Type} `{PyRandomLaws G}.
Context (exec : program) (c : config) (scenario : string) (seed length : Z).
Context (K : list event) (pre : list string) (commits : list sail_trace_normalize.commit).

Let work := work_dir c (run_name scenario seed).
Let agreed : Prop := trace_diff.agree (trace_diff.observed false K)
  (trace_diff.observed false (sail_trace_normalize.norm_commit <$> commits)).

Lemma compare_traces_agrees name w ta tb :
  (∀ x, x ∈ names → parent (path_join work x) = work ∧ is_dir (path_join work x) w = false) → is_dir work w = true →
  compares exec (differ c work) → Host.files w !! kronos_trace work = Some ta → Host.files w !! sail_trace work = Some tb →
  ∃ rc w', compare_traces exec c name work w = (Ok rc, w') ∧ (rc = 0 ∨ rc = 1) ∧
    (rc = 0 ↔ exit_code (trace_diff.compare (trace_diff.load ta false) (trace_diff.load tb false)) = 0) ∧
    Host.files w' !! s_path work = Host.files w !! s_path work ∧
    (rc = 0 → Host.files w' !! kronos_trace work = None ∧ Host.files w' !! sail_trace work = None ∧
      Host.files w' !! diff_out work = None) ∧
    (rc = 1 → is_Some (Host.files w' !! kronos_trace work) ∧ is_Some (Host.files w' !! sail_trace work) ∧
      is_Some (Host.files w' !! diff_out work)) ∧
    ran w' = ran w ++ [differ c work].
Proof.
  intros Hx Hw Hd Ha Hb. unfold compare_traces.
  assert (trace_diff.main (read_from (Host.files w)) (argv (differ c work)) =
    Ok (trace_diff.compare (trace_diff.load ta false) (trace_diff.load tb false))) as Hm.
  { apply (trace_diff.main_command _ false); [apply path_not_flag; [by_decide|discriminate]..| |];
      unfold read_from; [by rewrite Ha|by rewrite Hb]. }
  set (o := trace_diff.compare _ _) in *.
  pose proof (subprocess_ok exec (differ c work) w _ _ _ (Hd _ (dirs w) _ Hm)) as Hs. host_step Hs.
  match type of Hs with _ = (_, ?w) => set (w1 := w) end. cbn [stdout stderr returncode process_of].
  match goal with |- context [write_text _ ?t] => set (report := t) end.
  assert (write_text (diff_out work) report w1 = (Ok tt, set_files (<[diff_out work := report]> (Host.files w1)) w1)) as Hr.
  { destruct (Hx "diff.txt"%string) as [Hp Hn]; [by_decide|].
    by apply write_text_ok; rewrite (is_dir_dirs _ w) by done; [unfold diff_out; rewrite Hp|]. }
  host_step Hr. clear Hr. change (Host.files w1) with (Host.files w).
  assert (diff_out work ≠ kronos_trace work ∧ diff_out work ≠ sail_trace work ∧ diff_out work ≠ s_path work ∧
    kronos_trace work ≠ s_path work ∧ sail_trace work ≠ s_path work ∧ sail_trace work ≠ kronos_trace work) as (N1 & N2 & N3 & N4 & N5 & N6) by (split_and!; path_ne).
  destruct (Z.eqb_spec (exit_code o) 0) as [E|E]; cbn [negb].
  - assert (∀ x f, x ∈ names → unlink (path_join work x) (set_files f w1) = (Ok tt, set_files (delete (path_join work x) f) w1)) as Hu.
    { intros x f Hin. rewrite unlink_ok; [done|]. rewrite (is_dir_dirs _ w) by done. by apply Hx. }
    assert ("kronos.trace" ∈ names ∧ "sail.trace" ∈ names ∧ "diff.txt" ∈ names) as (I1 & I2 & I3) by by_decide.
    host_step (Hu _ (<[diff_out work := report]> (Host.files w)) I1). host_step (Hu _ (delete (kronos_trace work) (<[diff_out work := report]> (Host.files w))) I2).
    host_step (Hu _ (delete (sail_trace work) (delete (kronos_trace work) (<[diff_out work := report]> (Host.files w)))) I3).
    eexists 0, _. split; [done|]. split_and!; [by left|by split|..|done]; cbn [set_files Host.files].
    + by rewrite !lookup_delete_ne, lookup_insert_ne.
    + intros _. split_and!; [by rewrite 2!lookup_delete_ne, lookup_delete_eq
        |by rewrite lookup_delete_ne, lookup_delete_eq|by rewrite lookup_delete_eq].
    + done.
  - eexists 1, _. split; [reflexivity|]. split_and!; [by right|by split|..|done]; cbn [set_files Host.files].
    + by rewrite lookup_insert_ne.
    + done.
    + intros _. split_and!; [|by rewrite lookup_insert_ne, Hb|by rewrite lookup_insert_eq].
      by rewrite lookup_insert_ne, Ha.
Qed.

Lemma run_tools w w0 :
  scenario ∈ all_scenarios → work ≠ "" →
  mkdir work w = (Ok tt, w0) → (∀ x, x ∈ names → is_dir (path_join work x) w0 = false) →
  tools_ok exec c work K pre commits →
  ∃ text, generate_program (G:=G) scenario seed length = Ok text ∧
  ∃ lines w7, sail_trace_normalize.main (sail_trace_normalize.log_stdin pre commits) = Ok lines ∧
    run exec (G:=G) c scenario seed length w = compare_traces exec c (run_name scenario seed) work w7 ∧
    dirs w7 = dirs w0 ∧ Host.files w7 !! s_path work = Some text ∧
    Host.files w7 !! kronos_trace work = Some (unlines (event_text <$> K)) ∧
    Host.files w7 !! sail_trace work = Some (unlines lines) ∧
    ran w7 = ran w ++ [gcc c work; objcopy work; objcopy_vmem work; kronos c work; sail c work].
Proof.
  intros Hscn Hne Hmk Hnew [Tg To Tv Tk Ts _].
  destruct (generate_program_ok scenario seed length Hscn) as (text & _ & Htext & _).
  exists text. split; [done|]. unfold run. fold work. cbv zeta.
  assert (∀ x, x ∈ names → parent (path_join work x) = work) as Hpar by (intros x Hx; apply parent_join; [done|by apply names_plain]).
  assert (is_dir work w0 = true) as Hw0 by by eapply mkdir_is_dir.
  host_step Hmk. rewrite Htext. host_step (eq_refl : Host.lift (Ok text) w0 = (Ok text, w0)).
  unfold s_path. rewrite Hpar by by_decide. host_step (mkdir_again _ _ _ Hmk).
  set (w1 := set_files (<[path_join work "prog.S" := text]> (Host.files w0)) w0).
  assert (write_text (path_join work "prog.S") text w0 = (Ok tt, w1)) as Hws.
  { apply write_text_ok; [rewrite Hpar; [done|by_decide]|apply Hnew; by_decide]. }
  host_step Hws.
  destruct (Tg (Host.files w1) (dirs w1)) as (o1 & e1 & f1 & E1 & L1). apply subprocess_ok in E1. host_step E1.
  cbn [returncode Z.eqb negb].
  match type of E1 with _ = (_, ?w) => set (w2 := w) end.
  destruct (To (Host.files w2) (dirs w2)) as (o2 & e2 & f2 & E2 & L2). apply subprocess_ok in E2. host_step E2.
  cbn [returncode Z.eqb negb].
  match type of E2 with _ = (_, ?w) => set (w3 := w) end.
  destruct (Tv (Host.files w3) (dirs w3)) as (o3 & e3 & f3 & E3 & L3). apply subprocess_ok in E3. host_step E3.
  cbn [returncode Z.eqb negb].
  match type of E3 with _ = (_, ?w) => set (w4 := w) end.
  destruct (Tk (Host.files w4) (dirs w4)) as (o4 & e4 & f4 & E4 & Hk & L4). apply subprocess_ok in E4. host_step E4.
  cbn [returncode Z.eqb negb].
  match type of E4 with _ = (_, ?w) => set (w5 := w) end.
  destruct (Ts (Host.files w5) (dirs w5)) as (lines & e5 & Hl & E5). apply subprocess_ok in E5. host_step E5.
  cbn [returncode Z.eqb negb stdout].
  match type of E5 with _ = (_, ?w) => set (w6 := w) end.
  set (w7 := set_files (<[sail_trace work := unlines lines]> (Host.files w6)) w6).
  assert (write_text (sail_trace work) (unlines lines) w6 = (Ok tt, w7)) as Hwt.
  { by apply write_text_ok; rewrite (is_dir_dirs _ w0) by done; [unfold sail_trace; rewrite Hpar; [|by_decide]|apply Hnew; by_decide]. }
  host_step Hwt.
  assert (Host.files w7 !! s_path work = Some text) as Hs7.
  { cbn [w7 w6 w5 set_files Host.files]. rewrite lookup_insert_ne by path_ne.
    rewrite L4 by (rewrite list_elem_of_singleton; path_ne). cbn [w4 Host.files].
    assert (s_path work ∉ [elf_path work; hex_path work; vmem_path work]) as Hn.
    { rewrite !not_elem_of_cons. split_and!; [path_ne|path_ne|path_ne|apply not_elem_of_nil]. }
    rewrite L3, L2, L1 by done. apply lookup_insert_eq. }
  exists lines, w7. split; [done|]. split; [done|]. split; [done|]. split; [done|].
  cbn [w7 set_files Host.files ran w6 w5 w4 w3 w2 w1]. rewrite lookup_insert_ne by path_ne.
  rewrite lookup_insert_eq. split_and!; [done..|]. rewrite <-!app_assoc. f_equal.
  unfold mkdir in Hmk. destruct (existsb _ _); [done|]. by injection Hmk as <-.
Qed.

Lemma run_agrees w w0 :
  scenario ∈ all_scenarios → work ≠ "" →
  mkdir work w = (Ok tt, w0) → (∀ x, x ∈ names → is_dir (path_join work x) w0 = false) →
  tools_ok exec c work K pre commits → Forall event_ok K →
  Forall (λ r, sail_trace_normalize.is_commit r = false) pre → Forall sail_trace_normalize.commit_ok commits →
  ∃ text rc w', generate_program (G:=G) scenario seed length = Ok text ∧
    run exec (G:=G) c scenario seed length w = (Ok rc, w') ∧
    (rc = 0 ∨ rc = 1) ∧ (rc = 0 ↔ agreed) ∧
    Host.files w' !! s_path work = Some text ∧
    (rc = 0 → Host.files w' !! kronos_trace work = None ∧ Host.files w' !! sail_trace work = None ∧
      Host.files w' !! diff_out work = None) ∧
    (rc = 1 → is_Some (Host.files w' !! kronos_trace work) ∧ is_Some (Host.files w' !! sail_trace work) ∧
      is_Some (Host.files w' !! diff_out work)) ∧
    ran w' = ran w ++ [gcc c work; objcopy work; objcopy_vmem work; kronos c work; sail c work; differ c work].
Proof.
  intros Hscn Hne Hmk Hnew Ht HK Hpre Hcom.
  destruct (run_tools w w0 Hscn Hne Hmk Hnew Ht) as (text & Htext & lines & w7 & Hl & Hrun & Hd & Hs & Hk & Hsl & Hran).
  rewrite sail_trace_normalize.main_log in Hl by done. injection Hl as <-.
  edestruct (compare_traces_agrees (run_name scenario seed) w7) as (rc & w' & Hc & H01 & Hrc & Hs' & Hc0 & Hc1 & Hran').
  - intros x Hx. rewrite (is_dir_dirs _ w0) by done. split; [|by apply Hnew].
    apply parent_join; [done|by apply names_plain].
  - rewrite (is_dir_dirs _ w0) by done. by eapply mkdir_is_dir.
  - by destruct Ht.
  - exact Hk.
  - exact Hsl.
  - exists text, rc, w'. rewrite Hrun, Hc, Hs', Hs, Hran', Hran. split_and!; [done..| |done|done|done|].
    + rewrite Hrc, !trace_diff.load_events by (done || (apply Forall_fmap; revert Hcom; apply Forall_impl;
        apply sail_trace_normalize.norm_commit_ok)).
      apply trace_diff.compare_events; apply trace_diff.observed_ok; [done|].
      apply Forall_fmap. revert Hcom. apply Forall_impl. apply sail_trace_normalize.norm_commit_ok.
    + by rewrite <-app_assoc.
Qed.
End verdict_proof.

(** A tool that is not installed ends the script with the status of a
    divergence, although nothing was compared. *)
Lemma missing_gcc {G} `{PyRandom G} exec c scenario seed length text w w0 w1 :
  let work := work_dir c (run_name scenario seed) in
  mkdir work w = (Ok tt, w0) → generate_program (G:=G) scenario seed length = Ok text →
  mkdir (parent (s_path work)) w0 = (Ok tt, w0) → write_text (s_path work) text w0 = (Ok tt, w1) →
  (∀ f d, exec (gcc c work) f d = (Raise (OSError "riscv64-unknown-elf-gcc"), (f, d))) →
  exit_status (main exec (G:=G) c scenario seed length w).1 = 1.
Proof.
  intros work Hmk Ht Hmk' Hw Hg.
  pose proof (subprocess_ok exec _ w1 _ _ _ (Hg (Host.files w1) (dirs w1))) as Hs.
  match type of Hs with _ = (_, ?w') => assert (run exec (G:=G) c scenario seed length w = (Raise (OSError "riscv64-unknown-elf-gcc"), w')) as Hr end.
  { unfold run. fold work. cbv zeta. host_step Hmk. rewrite Ht.
    host_step (eq_refl : Host.lift (Ok text) w0 = (Ok text, w0)). host_step Hmk'. host_step Hw. by apply host_bind_raise. }
  unfold main. by rewrite (host_bind_raise _ _ _ _ _ Hr).
Qed.

(** ** Whatever the tools do *)

(** The processes before the current one succeeded. *)
Ltac all_succeeded := repeat (apply Forall_cons_2; [by eexists|]); by apply Forall_nil_2.

(** The last one did not. *)
Ltac not_all := intros Hall; repeat apply Forall_cons_1 in Hall as [? Hall];
  match goal with Hp : returncode ?p ≠ 0, H : succeeded (_, Ok ?p) |- _ => destruct H as (? & [= <-] & ?); done end.

Section any_tools.
Context (exec : program) (c : config) (work : string).

(** The processes of a run, in order. *)
Definition steps : list command :=
  [gcc c work; objcopy work; objcopy_vmem work; kronos c work; sail c work; differ c work].

(** A run starts a first part of these, each after the success of the one
    before; which part, its status says. *)
Definition ends (l : trail) (r : res Z) (w : world) : Prop :=
  l.*1 `prefix_of` steps ∧ Forall succeeded (removelast l) ∧
  match r with
  | Ok 0 => l.*1 = steps ∧ Forall succeeded l ∧
      Host.files w !! kronos_trace work = None ∧ Host.files w !! sail_trace work = None ∧
      Host.files w !! diff_out work = None
  | Ok 1 => l.*1 = steps ∧ ¬ Forall succeeded l
  | Ok 2 => l.*1 ≠ steps ∧ ¬ Forall succeeded l
  | Ok _ => False
  | Raise e => (∃ m, e = OSError m) ∨ (∃ m, e = KeyError m) ∨ (∃ l' cmd, l = l' ++ [(cmd, Raise e)])
  end.

Lemma not_succeeded cmd p l : returncode p ≠ 0 → ¬ Forall succeeded (l ++ [(cmd, Ok p)]).
Proof. intros Hp [_ H%Forall_cons_1]%list.Forall_app. destruct H as [(p' & [= <-] & ?) _]. done. Qed.

(** A process whose status is looked at. *)
Lemma leads_checked cmd (bad rest : process → host Z) (Q : trail → res Z → world → Prop) w :
  (∀ p w', returncode p ≠ 0 → leads exec (bad p) (λ k, Q ((cmd, Ok p) :: k)) w') →
  (∀ p w', returncode p = 0 → leads exec (rest p) (λ k, Q ((cmd, Ok p) :: k)) w') →
  (∀ e w', Q [(cmd, Raise e)] (Raise e) w') →
  leads exec (p ← subprocess exec cmd; if negb (returncode p =? 0) then bad p else rest p) Q w.
Proof.
  intros Hbad Hrest He. apply leads_subprocess_bind; [|auto]. intros p w' _.
  destruct (Z.eqb_spec (returncode p) 0); cbn [negb]; auto.
Qed.

Lemma failed_leads what name t (Q : trail → res Z → world → Prop) w :
  (∀ w', Q [] (Ok 2) w') → leads exec (failed what name t) Q w.
Proof.
  intros H. apply leads_quiet; [unfold failed; auto with quiet|]. by intros r w' [= <- <-].
Qed.

Lemma ends_raise l r w m : l.*1 `prefix_of` steps → Forall succeeded (removelast l) →
  r = Raise (OSError m) → ends l r w.
Proof. intros Hp Hl ->. split_and!; [done..|]. left. by exists m. Qed.

Lemma ends_start w m : ends [] (Raise (OSError m)) w.
Proof. split_and!; [apply prefix_nil|constructor|]. left. by exists m. Qed.

Lemma compare_traces_ends name p1 p2 p3 p4 p5 w :
  returncode p1 = 0 → returncode p2 = 0 → returncode p3 = 0 → returncode p4 = 0 → returncode p5 = 0 →
  leads exec (compare_traces exec c name work) (λ k, ends ((gcc c work, Ok p1) :: (objcopy work, Ok p2) ::
    (objcopy_vmem work, Ok p3) :: (kronos c work, Ok p4) :: (sail c work, Ok p5) :: k)) w.
Proof.
  intros H1 H2 H3 H4 H5.
  assert (∀ r, Forall succeeded (removelast [(gcc c work, Ok p1); (objcopy work, Ok p2);
    (objcopy_vmem work, Ok p3); (kronos c work, Ok p4); (sail c work, Ok p5); (differ c work, r)])) as Hs
    by (intros r; all_succeeded).
  unfold compare_traces. apply leads_subprocess_bind.
  2: { intros e w' _. split_and!; [done|done|]. right. right. by eexists [_; _; _; _; _], _. }
  intros p w' _. apply leads_write_text; [|intros w1; by eapply ends_raise]. intros w1.
  destruct (Z.eqb_spec (returncode p) 0) as [Hp|Hp]; cbn [negb].
  - do 3 (apply leads_unlink; [|by eapply ends_raise]). apply leads_ret. split_and!; [done|done|done| |..].
    + all_succeeded.
    + cbn [set_files Host.files]. by rewrite !lookup_delete_None; auto.
    + cbn [set_files Host.files]. by rewrite !lookup_delete_None; auto.
    + cbn [set_files Host.files]. by rewrite !lookup_delete_None; auto.
  - do 2 (apply leads_put; intros ?). apply leads_ret. split_and!; [done|done|done|].
    by apply (not_succeeded _ _ [_; _; _; _; _]).
Qed.
End any_tools.

Lemma run_ends {G} `{PyRandomLaws G} exec c scenario seed length w :
  leads exec (run exec (G:=G) c scenario seed length) (ends c (work_dir c (run_name scenario seed))) w.
Proof.
  unfold run. set (work := work_dir c _). set (name := run_name _ _). cbv zeta.
  apply leads_mkdir; [|intros; apply ends_start]. intros w1.
  assert ((∃ t, generate_program (G:=G) scenario seed length = Ok t) ∨
    generate_program (G:=G) scenario seed length = Raise (KeyError scenario)) as [[t ->]|E].
  { destruct (decide (scenario ∈ all_scenarios)) as [Hin|Hn].
    - left. destruct (generate_program_ok scenario seed length Hin) as (t & _ & Ht & _). by exists t.
    - right. by apply generate_program_unknown. }
  2: { rewrite E. apply leads_quiet_bind; [apply quiet_lift|done|]. intros e w' [= <- <-].
       split_and!; [apply prefix_nil|constructor|]. right. left. by exists scenario. }
  apply leads_quiet_bind; [apply quiet_lift| |done]. intros ? w2 [= <- <-].
  apply leads_mkdir; [|intros; apply ends_start]. intros w3.
  apply leads_write_text; [|intros; apply ends_start]. intros w4.
  do 5 (apply leads_checked;
    [intros ? ? Hp; apply failed_leads; intros ?; split_and!; [by eexists|all_succeeded|done|by not_all]
    |intros ? ? ?
    |intros ? ?; split_and!; [by eexists|all_succeeded|right; right; first [by eexists [], _|by eexists [_], _
       |by eexists [_; _], _|by eexists [_; _; _], _|by eexists [_; _; _; _], _]]]).
  apply leads_write_text; [|intros; eapply ends_raise; [by eexists|all_succeeded|done]]. intros w5.
  by apply compare_traces_ends.
Qed.

(** ** The properties *)

Section claims.
Context {G : Type} `{PyRandomLaws G}.

(** C8: The constrained-random runner, end to end, on tools that build,
    simulate, normalise and compare as documented: for every registered
    scenario it writes the generated program, runs the six processes in
    order, and returns 0 exactly when the core's trace agrees with Sail's log
    and 1 otherwise; the traces and the report are gone after a pass and kept
    after a divergence. *)
Theorem crv_run_agrees (exec : program) (c : config) (scenario : string) (seed length : Z)
    (K : list event) (pre : list string) (commits : list sail_trace_normalize.commit) (w w0 : world)
  (work := work_dir c (run_name scenario seed))
  (Hscn : scenario ∈ all_scenarios) (Hne : work ≠ "")
  (Hmk : mkdir work w = (Ok tt, w0)) (Hnew : ∀ x, x ∈ names → is_dir (path_join work x) w0 = false)
  (Htools : tools_ok exec c work K pre commits)
  (HK : Forall event_ok K) (Hpre : Forall (λ r, sail_trace_normalize.is_commit r = false) pre)
  (Hlog : Forall sail_trace_normalize.commit_ok commits) :
  ∃ text rc w', generate_program (G:=G) scenario seed length = Ok text ∧
    run exec (G:=G) c scenario seed length w = (Ok rc, w') ∧
    (rc = 0 ∨ rc = 1) ∧
    (rc = 0 ↔ trace_diff.agree (trace_diff.observed false K)
      (trace_diff.observed false (sail_trace_normalize.norm_commit <$> commits))) ∧
    Host.files w' !! s_path work = Some text ∧
    (rc = 0 → Host.files w' !! kronos_trace work = None ∧ Host.files w' !! sail_trace work = None ∧
      Host.files w' !! diff_out work = None) ∧
    (rc = 1 → is_Some (Host.files w' !! kronos_trace work) ∧ is_Some (Host.files w' !! sail_trace work) ∧
      is_Some (Host.files w' !! diff_out work)) ∧
    ran w' = ran w ++ [gcc c work; objcopy work; objcopy_vmem work; kronos c work; sail c work; differ c work].
Proof. by eapply run_agrees. Qed.
End claims.

(** Tools whose core writes [K], with Sail's log of [sail_trace_normalize]. *)
Definition example_config : config :=
  Config "obj/crv" "sim/Vsim_top" "link.ld" "common.S" "tools/sail_trace.sh" "tools/trace_diff.py".
Definition example_work : string := "obj/crv/traps_3".
Definition example_K : list event := [Event 0x80000000 0x00000013 []; Event 0x80000004 0x00100093 [XWrite 1 1]].

Definition example_tools : program := λ c f d,
  match argv c with
  | tool :: _ =>
      if String.eqb tool "sim/Vsim_top" then
        (Ok (Process 0 "" ""), (<[kronos_trace example_work := unlines (event_text <$> example_K)]> f, d))
      else if String.eqb tool "tools/sail_trace.sh" then
        match sail_trace_normalize.main (sail_trace_normalize.log_stdin ["boot"] sail_trace_normalize.example_log) with
        | Ok lines => (Ok (Process 0 (unlines lines) ""), (f, d))
        | Raise e => (Raise e, (f, d))
        end
      else if String.eqb tool "tools/trace_diff.py" then
        match trace_diff.main (read_from f) (argv c) with
        | Ok o => (Ok (Process (exit_code o) (on_stream Stdout o) (on_stream Stderr o)), (f, d))
        | Raise e => (Raise e, (f, d))
        end
      else (Ok (Process 0 "" ""), (f, d))
  | [] => (Raise (IndexError "list index out of range"), (f, d))
  end.

Lemma example_tools_ok : tools_ok example_tools example_config example_work example_K ["boot"] sail_trace_normalize.example_log.
Proof.
  assert (∀ cmd tool args, argv cmd = tool :: args → tool = "riscv64-unknown-elf-gcc" ∨ tool = "riscv64-unknown-elf-objcopy" →
    builds example_tools example_work cmd) as Hb.
  { intros cmd tool args E Ht f d. exists "", "", f. split; [|done]. unfold example_tools. rewrite E.
    by destruct Ht as [->| ->]. }
  split.
  - by eapply Hb; [reflexivity|left].
  - by eapply Hb; [reflexivity|right].
  - by eapply Hb; [reflexivity|right].
  - intros f d. exists "", "", (<[kronos_trace example_work := unlines (event_text <$> example_K)]> f).
    split; [done|]. split; [apply lookup_insert_eq|]. intros p Hp. apply lookup_insert_ne.
    intros <-. apply Hp. constructor.
  - intros f d. eexists _, "". split; [vm_compute; reflexivity|]. vm_compute. reflexivity.
  - intros f d o Ho. unfold example_tools. cbn [differ cmd argv example_config diff_script] in *.
    change (String.eqb "tools/trace_diff.py" "sim/Vsim_top") with false.
    change (String.eqb "tools/trace_diff.py" "tools/sail_trace.sh") with false.
    change (String.eqb "tools/trace_diff.py" "tools/trace_diff.py") with true. cbv iota. by rewrite Ho.
Qed.

Lemma crv_run_agrees_witness :
  ∃ text rc w', generate_program (G:=Mt19937.mt) "traps" 3 4 = Ok text ∧
    run example_tools (G:=Mt19937.mt) example_config "traps" 3 4 (World ∅ ∅ [] []) = (Ok rc, w') ∧
    (rc = 0 ↔ trace_diff.agree (trace_diff.observed false example_K)
      (trace_diff.observed false (sail_trace_normalize.norm_commit <$> sail_trace_normalize.example_log))) ∧
    Host.files w' !! s_path example_work = Some text.
Proof.
  destruct (crv_run_agrees (G:=Mt19937.mt) example_tools example_config "traps" 3 4 example_K ["boot"]
    sail_trace_normalize.example_log (World ∅ ∅ [] []) (World ∅ (∅ ∪ list_to_set [example_work; "obj"; "obj/crv"]) [] []))
    as (text & rc & w' & Ht & Hr & _ & Ha & Hf & _).
  - by_decide.
  - discriminate.
  - reflexivity.
  - intros x Hx. unfold names in Hx. repeat (apply elem_of_cons in Hx as [->|Hx]; [reflexivity|]). by apply elem_of_nil in Hx.
  - assert (work_dir example_config (run_name "traps" 3) = example_work) as -> by reflexivity. exact example_tools_ok.
  - repeat (apply Forall_cons_2 || apply Forall_nil_2); split_and!; cbn; try lia; try split;
      repeat (apply Forall_cons_2 || apply Forall_nil_2); cbn; unfold word64; lia.
  - apply Forall_cons_2; [vm_compute; reflexivity|apply Forall_nil_2].
  - apply sail_trace_normalize.example_log_ok.
  - exists text, rc, w'. split; [exact Ht|]. split; [exact Hr|]. split; [exact Ha|].
    assert (work_dir example_config (run_name "traps" 3) = example_work) as <- by reflexivity. exact Hf.
Defined.

End runner.
