(* ===== verification/CosimRunner.v ===== *)
(** tools/cosim_fuzz/runner.py: mutate a C program, compile it, run it on the
    core and on Sail, compare the traces.  The processes are the parameter
    [exec] of [Host], and [sha256_hex] is [hashlib.sha256(...).hexdigest()]. *)
From S2P Require Export Host.
From S2P Require Export Mutator.
From S2P Require Export TracePipeline.
Local Open Scope Z_scope.

Module cosim_runner.
Import mutator.

Definition CFLAGS : list string := ["-march=rv64imafdc_zicsr"; "-mabi=lp64"; "-nostdlib"; "-static"; "-Os"].
Definition TOOLCHAIN : string := "riscv64-unknown-elf".
Definition HALT_TIMEOUT_S : Z := 30.

(** The last [n] of a list. *)
Definition last_of (n : nat) (l : list string) : list string := drop (length l - n) l.

(** What comes after the first occurrence of [sub], and before it. *)
Fixpoint after_sub (sub s : string) : option string :=
  if starts_with sub s then Some (str_drop (String.length sub) s)
  else match s with "" => None | String _ t => after_sub sub t end.
Fixpoint until_sub (sub s : string) : string :=
  if starts_with sub s then ""
  else match s with "" => "" | String c t => String c (until_sub sub t) end.

(** [try: return int(line.split("x10 = ")[1].split()[0]) except: pass] *)
Definition line_x10 (line : string) : option Z :=
  t ← after_sub "x10 = " line;
  match words (until_sub "x10 = " t) with
  | w :: _ => match py_int w with Ok z => Some z | Raise _ => None end
  | [] => None
  end.

Fixpoint first_x10 (lines : list string) : option Z :=
  match lines with
  | [] => None
  | line :: lines => match line_x10 line with Some z => Some z | None => first_x10 lines end
  end.

(** [p.stem] *)
Fixpoint last_dot (s : string) : option (string * string) :=
  match s with
  | "" => None
  | String c t =>
      match last_dot t with
      | Some (d, b) => Some (String c d, b)
      | None => if Ascii.eqb c "." then Some ("", t) else None
      end
  end.
Definition stem (p : string) : string :=
  let name := match last_slash p with Some (_, b) => b | None => p end in
  match last_dot name with
  | Some ("", _) | Some (_, "") | None => name
  | Some (s, _) => s
  end.

(** [str] of a list of strings without quotes and escapes. *)
Fixpoint list_text (l : list string) : string :=
  match l with
  | [] => ""
  | [s] => "'" +:+ s +:+ "'"
  | s :: l => "'" +:+ s +:+ "', " +:+ list_text l
  end.

(** The path arguments of [main]. *)
Record args := Args {
  program_c : string;
  seed : Z;
  arg_out_dir : string;
  kronos_bin : string;
  sail_trace_script : string;
  diff_script : string;
  common_s : string;
  link_ld : string;
}.

Definition src_path (dir name : string) : string := path_join dir (name +:+ ".c").
Definition elf_path (dir name : string) : string := path_join dir (name +:+ ".elf").
Definition hex_path (dir name : string) : string := path_join dir (name +:+ ".hex").
Definition kronos_trace (dir : string) : string := path_join dir "kronos.trace".
Definition sail_trace (dir : string) : string := path_join dir "sail.trace".

(** The processes. *)
Definition gcc (a : args) (dir name : string) : command := cmd
  ((TOOLCHAIN +:+ "-gcc") :: CFLAGS ++ ["-T"; link_ld a; "-o"; elf_path dir name; src_path dir name; common_s a]).
Definition objcopy (dir name : string) : command := cmd
  [TOOLCHAIN +:+ "-objcopy"; "-O"; "ihex"; elf_path dir name; hex_path dir name].
Definition kronos (bin hex trace : string) : command :=
  Command [bin; hex] [("SIM_TRACE", trace); ("SIM_MAX_CYCLES", "2000000")] None (Some HALT_TIMEOUT_S).
Definition sail (script elf trace : string) : command :=
  Command [script; elf] [] (Some trace) (Some HALT_TIMEOUT_S).
Definition differ (script k_trace s_trace : string) : command :=
  cmd [script; "--strip-noeffect"; k_trace; s_trace].

(** [print] of each line. *)
Fixpoint print_all (l : list string) : host unit :=
  match l with [] => mret tt | s :: l => print s;; print_all l end.
Definition if_exists (p : string) (yes no : host unit) : host unit := λ w, if exists_ p w then yes w else no w.

(** [try: m except subprocess.TimeoutExpired as exc: h(exc.stderr)] *)
Definition on_timeout {A} (m : host A) (k : A → host Z) (h : string → host Z) : host Z := λ w,
  match m w with
  | (Ok a, w) => k a w
  | (Raise (TimeoutExpired err), w) => h err w
  | (Raise e, w) => (Raise e, w)
  end.

Section script.
Variable exec : program.
Variable sha256_hex : string → string.

Definition _hash (src : string) : string := str_take 12 (sha256_hex src).

Definition compile_program (src : string) (a : args) (out_dir name : string) : host (string * string) :=
  mkdir out_dir;;
  write_text (src_path out_dir name) src;;
  _ ← check_call exec (gcc a out_dir name);
  _ ← check_call exec (objcopy out_dir name);
  mret (elf_path out_dir name, hex_path out_dir name).

(** The simulator timed out. *)
Definition kronos_hangs (trace_path err : string) : host Z :=
  print ("  [run_kronos] subprocess timeout after " +:+ str_Z HALT_TIMEOUT_S +:+ "s");;
  if_exists trace_path
    (t ← read_text trace_path;
     let tail := last_of 15 (splitlines t) in
     print ("  trace tail (" +:+ str_nat (length tail) +:+ " of " +:+ str_nat (length (file_lines t)) +:+ " lines):");;
     print_all ((λ l, "    " +:+ l) <$> tail)) (mret tt);;
  (if negb (String.eqb err "") then
     print "  stderr tail:";; print_all ((λ l, "    " +:+ l) <$> last_of 15 (splitlines err))
   else mret tt);;
  mret (-2).

(** It ended without a halt line. *)
Definition no_halt_line (trace_path err : string) : host Z :=
  print "  [run_kronos] no halt-x10 line (sim self-terminated or crashed)";;
  if_exists trace_path
    (t ← read_text trace_path;
     print "  trace tail:";;
     print_all ((λ l, "    " +:+ l) <$> last_of 10 (splitlines t))) (mret tt);;
  (if negb (String.eqb err "") then print_all ((λ l, "  stderr: " +:+ l) <$> last_of 10 (splitlines err)) else mret tt);;
  mret (-1).

Definition run_kronos (bin hex_path trace_path : string) : host Z :=
  on_timeout (subprocess exec (kronos bin hex_path trace_path))
    (λ res, match first_x10 (splitlines (stdout res) ++ splitlines (stderr res)) with
            | Some z => mret z
            | None => no_halt_line trace_path (stderr res)
            end)
    (kronos_hangs trace_path).

(** The file is opened, and so emptied, before the script writes it. *)
Definition run_sail (script elf_path trace_path : string) : host unit :=
  write_text trace_path "";;
  _ ← check_call exec (sail script elf_path trace_path);
  mret tt.

Definition diff_traces (script k_trace s_trace : string) : host (bool * string) :=
  res ← subprocess exec (differ script k_trace s_trace);
  mret (returncode res =? 0, stdout res +:+ stderr res).

(** The sizes and the ends of a trace (the number of bytes of ASCII text). *)
Definition dump_trace (label p : string) : host unit :=
  if_exists p
    (t ← read_text p;
     let lines := splitlines t in
     print ("  [" +:+ label +:+ "] " +:+ str_nat (length lines) +:+ " lines, " +:+ str_nat (String.length t) +:+ " bytes");;
     print_all ((λ l, "    " +:+ label +:+ " head: " +:+ l) <$> take 3 lines);;
     print_all ((λ l, "    " +:+ label +:+ " tail: " +:+ l) <$> last_of 3 lines))
    (print ("  [" +:+ label +:+ "] trace file MISSING")).

Definition case_name (a : args) (src_mut : string) : string :=
  stem (program_c a) +:+ "_seed" +:+ str_Z (seed a) +:+ "_" +:+ _hash src_mut.

(** [main] from the two runs on. *)
Definition run_case (a : args) (name out_dir elf hex : string) : host unit :=
  let k_trace := kronos_trace out_dir in
  let s_trace := sail_trace out_dir in
  kronos_x10 ← run_kronos (kronos_bin a) hex k_trace;
  if negb (kronos_x10 =? 0) then
    print ("[cosim_fuzz] FAIL " +:+ name +:+ " (kronos x10 = " +:+ str_Z kronos_x10 +:+ ")");;
    raise (SystemExit 1)
  else
    run_sail (sail_trace_script a) elf s_trace;;
    '(ok, diff) ← diff_traces (diff_script a) k_trace s_trace;
    if negb ok then
      print ("[cosim_fuzz] FAIL " +:+ name +:+ " (trace diff)");;
      dump_trace "kronos" k_trace;; dump_trace "sail" s_trace;;
      print (str_take 4000 diff);;
      raise (SystemExit 1)
    else print ("[cosim_fuzz] PASS " +:+ name).

Definition main {G} `{PyRandom G} (a : args) : host unit :=
  src ← read_text (program_c a);
  '(src_mut, muts) ← lift (mutate_file (G:=G) src (seed a));
  let name := case_name a src_mut in
  print ("[cosim_fuzz] " +:+ name +:+ " mutations=[" +:+ list_text (Mutation_str <$> muts) +:+ "]");;
  let out_dir := path_join (arg_out_dir a) name in
  '(elf, hex) ← compile_program src_mut a out_dir name;
  run_case a name out_dir elf hex.
End script.

Example stem_example : stem "sw/cosim/crc8_byte.c" = "crc8_byte" ∧ stem ".c" = ".c" ∧ stem "a/b." = "b." ∧ stem "x.y.c" = "x.y".
Proof. done. Qed.
Example x10_example : line_x10 "[sim] halt at cycle 5, x10 = 0" = Some 0 ∧ line_x10 "x10 = zz x10 = 3" = None
  ∧ line_x10 "x10 = -3 (fail)" = Some (-3).
Proof. done. Qed.

(** ** The x10 of a halt line *)

Definition halt_line (cycles x10 : Z) : string :=
  "[sim] halt at cycle " +:+ str_Z cycles +:+ ", x10 = " +:+ str_Z x10.

Lemma after_sub_first c sub pre t :
  no_char c pre → after_sub (String c sub) (pre +:+ String c sub +:+ t) = Some t.
Proof.
  unfold no_char. induction pre as [|d pre IH]; intros Hp.
  - assert (∀ p s, after_sub p s = if starts_with p s then Some (str_drop (String.length p) s)
      else match s with "" => None | String _ t => after_sub p t end) as -> by (by intros p []).
    rewrite str_app_nil_l, starts_with_app. f_equal. by apply str_drop_app.
  - cbn [str_all] in Hp. apply andb_true_iff in Hp as [Hd Hp]. apply negb_true_iff in Hd.
    rewrite str_app_cons. cbn [after_sub starts_with]. rewrite Ascii.eqb_sym, Hd. cbn [andb]. by apply IH.
Qed.

Lemma until_sub_none c sub s : no_char c s → until_sub (String c sub) s = s.
Proof.
  unfold no_char. induction s as [|d s IH]; [done|]. cbn [str_all]. intros [Hd Hs]%andb_true_iff.
  apply negb_true_iff in Hd. cbn [until_sub starts_with]. rewrite Ascii.eqb_sym, Hd. cbn [andb]. by rewrite IH.
Qed.

Lemma str_Z_no_x z : no_char "x" (str_Z z).
Proof. pose proof (str_Z_dec z) as Hd. revert Hd. apply str_all_ascii. vm_compute. reflexivity. Qed.

Lemma line_x10_halt n z : line_x10 (halt_line n z) = Some z.
Proof.
  unfold line_x10, halt_line. change ", x10 = " with (", " +:+ "x10 = "). rewrite !str_app_assoc, <-!str_app_assoc.
  rewrite (str_app_assoc _ "x10 = "). rewrite after_sub_first.
  - cbn [mbind option_bind]. rewrite until_sub_none by apply str_Z_no_x.
    by rewrite words_str_Z, py_int_str_Z.
  - apply no_char_cat; [apply no_char_cat; [done|apply str_Z_no_x]|done].
Qed.

(** The last line tells it when no line before does. *)
Lemma first_x10_last l s z : Forall (λ t, line_x10 t = None) l → line_x10 s = Some z → ∀ k, first_x10 ((l ++ [s]) ++ k) = Some z.
Proof. intros Hl Hs k. induction Hl as [|t l Ht _ IH]; cbn; [by rewrite Hs|]. by rewrite Ht. Qed.

(** ** The verdict

    The case is [name] in [dir]; the core writes the trace [K] and halts with
    [x10]; Sail's log is [pre] then [commits]. *)

Section verdict.
Context (exec : program) (a : args) (name dir : string).
Context (K : list event) (x10 : Z) (pre : list string) (commits : list sail_trace_normalize.commit).

Definition builds (c : command) : Prop := ∀ f d, ∃ out err f', exec c f d = (Ok (Process 0 out err), (f', d)).

(** The core prints what it likes about other things, then the halt line. *)
Definition simulates : Prop := ∀ f d, ∃ rc lines cycles err f',
  exec (kronos (kronos_bin a) (hex_path dir name) (kronos_trace dir)) f d
    = (Ok (Process rc (unlines (lines ++ [halt_line cycles x10])) err), (f', d)) ∧
  Forall (λ l, line_x10 l = None ∧ no_linebreak l = true) lines ∧
  f' !! kronos_trace dir = Some (unlines (event_text <$> K)).

(** tools/sail_trace.sh writes the normalised log to the file it is given. *)
Definition normalises : Prop := ∀ f d, ∃ lines out err,
  sail_trace_normalize.main (sail_trace_normalize.log_stdin pre commits) = Ok lines ∧
  exec (sail (sail_trace_script a) (elf_path dir name) (sail_trace dir)) f d
    = (Ok (Process 0 out err), (<[sail_trace dir := unlines lines]> f, d)).

Record tools_ok : Prop := {
  tool_gcc : builds (gcc a dir name);
  tool_objcopy : builds (objcopy dir name);
  tool_kronos : simulates;
  tool_sail : normalises;
  tool_diff : compares exec (differ (diff_script a) (kronos_trace dir) (sail_trace dir));
}.

Lemma halt_line_no_linebreak cycles z : no_linebreak (halt_line cycles z) = true.
Proof.
  assert (∀ z, no_linebreak (str_Z z) = true) as Hz.
  { intros n. pose proof (str_Z_dec n) as Hd. revert Hd. apply str_all_ascii. vm_compute. reflexivity. }
  unfold halt_line, no_linebreak in *. by rewrite !str_all_app, !Hz.
Qed.

Context (Ht : tools_ok).

Lemma run_kronos_halts w : ∃ w',
  run_kronos exec (kronos_bin a) (hex_path dir name) (kronos_trace dir) w = (Ok x10, w') ∧
  dirs w' = dirs w ∧ files w' !! kronos_trace dir = Some (unlines (event_text <$> K)).
Proof.
  destruct (tool_kronos Ht (files w) (dirs w)) as (rc & lines & cycles & err & f' & Hx & Hl & Hk).
  apply subprocess_ok in Hx. unfold run_kronos, on_timeout. rewrite Hx. cbn [stdout stderr].
  rewrite splitlines_unlines.
  - rewrite (first_x10_last lines _ x10); [| |apply line_x10_halt].
    { eexists. split; [reflexivity|]. split; [reflexivity|exact Hk]. }
    revert Hl. apply Forall_impl. by intros l [? _].
  - apply Forall_app_2; [revert Hl; apply Forall_impl; by intros l [_ ?]|].
    apply Forall_cons_2; [apply halt_line_no_linebreak|apply Forall_nil_2].
Qed.

(** What is printed of a trace cannot fail. *)
Lemma print_all_ok l w : ∃ w', print_all l w = (Ok tt, w') ∧ files w' = files w ∧ dirs w' = dirs w.
Proof.
  revert w. induction l as [|s l IH]; intros w; [by exists w|].
  destruct (IH (World (files w) (dirs w) (log w ++ [(Stdout, s)]) (ran w))) as (w' & Hw & ? & ?). by exists w'.
Qed.

Lemma dump_trace_ok label p w t : files w !! p = Some t →
  ∃ w', dump_trace label p w = (Ok tt, w') ∧ files w' = files w ∧ dirs w' = dirs w.
Proof.
  intros Hp. unfold dump_trace, if_exists, exists_. rewrite Hp, (bool_decide_true (is_Some _)) by done.
  rewrite orb_true_r. assert (read_text p w = (Ok t, w)) as Hr by (unfold read_text; by rewrite Hp).
  host_step Hr. cbv zeta.
  match goal with |- context [print ?s] => rewrite (host_bind_ok (print s) _ w tt (World (files w) (dirs w) (log w ++ [(Stdout, s)]) (ran w))) by done end.
  match goal with |- context [(print_all ?l ≫= _) ?w1] => destruct (print_all_ok l w1) as (w2 & H2 & F2 & D2) end.
  host_step H2.
  match goal with |- context [print_all ?l w2] => destruct (print_all_ok l w2) as (w3 & -> & F3 & D3) end.
  exists w3. split; [done|]. rewrite F3, F2, D3, D2. done.
Qed.

Context (Hne : kronos_trace dir ≠ trace_diff.flag) (Hns : sail_trace dir ≠ trace_diff.flag).
Context (Hks : sail_trace dir ≠ kronos_trace dir).

Lemma run_case_verdict w :
  is_dir (parent (sail_trace dir)) w = true → is_dir (sail_trace dir) w = false →
  Forall event_ok K → Forall (λ r, sail_trace_normalize.is_commit r = false) pre →
  Forall sail_trace_normalize.commit_ok commits →
  let status := exit_status (run_case exec a name dir (elf_path dir name) (hex_path dir name) w).1 in
  (status = 0 ∨ status = 1) ∧
  (status = 0 ↔ x10 = 0 ∧ trace_diff.agree (trace_diff.observed true K)
    (trace_diff.observed true (sail_trace_normalize.norm_commit <$> commits))).
Proof.
  intros Hp Hd HK Hpre Hcom. unfold run_case. cbv zeta.
  destruct (run_kronos_halts w) as (w1 & Hk & Hd1 & Hf1). host_step Hk.
  destruct (Z.eqb_spec x10 0) as [Hx|Hx]; cbn [negb]; [|split; [by right|split; [done|by intros [? _]]]].
  set (w2 := set_files (<[sail_trace dir := ""]> (files w1)) w1).
  assert (write_text (sail_trace dir) "" w1 = (Ok tt, w2)) as Hw by by apply write_text_ok; rewrite (is_dir_dirs _ w).
  destruct (tool_sail Ht (files w2) (dirs w2)) as (lines & out & err & Hl & Hs). apply subprocess_ok in Hs.
  match type of Hs with _ = (_, ?w') => set (w3 := w') in Hs end.
  assert (run_sail exec (sail_trace_script a) (elf_path dir name) (sail_trace dir) w1 = (Ok tt, w3)) as Hr.
  { unfold run_sail. host_step Hw. unfold check_call. erewrite host_bind_ok; [reflexivity|]. by host_step Hs. }
  host_step Hr.
  assert (files w3 !! kronos_trace dir = Some (unlines (event_text <$> K))) as Hk3.
  { cbn [w3 files w2 set_files]. by rewrite !lookup_insert_ne. }
  assert (files w3 !! sail_trace dir = Some (unlines lines)) as Hs3 by apply lookup_insert_eq.
  set (o := trace_diff.compare (trace_diff.load (unlines (event_text <$> K)) true) (trace_diff.load (unlines lines) true)).
  assert (exec (differ (diff_script a) (kronos_trace dir) (sail_trace dir)) (files w3) (dirs w3) = (Ok (process_of o), (files w3, dirs w3))) as Hc.
  { apply (tool_diff Ht). apply (trace_diff.main_command _ true); [done..| |]; unfold read_from; by rewrite ?Hk3, ?Hs3. }
  apply subprocess_ok in Hc. match type of Hc with _ = (_, ?w') => set (w4 := w') in Hc end.
  assert (exit_code o = 0 ↔ trace_diff.agree (trace_diff.observed true K)
    (trace_diff.observed true (sail_trace_normalize.norm_commit <$> commits))) as Ho.
  { assert (Forall event_ok (sail_trace_normalize.norm_commit <$> commits)) as HS.
    { apply Forall_fmap. revert Hcom. apply Forall_impl. apply sail_trace_normalize.norm_commit_ok. }
    rewrite sail_trace_normalize.main_log in Hl by done. injection Hl as <-.
    unfold o. rewrite !trace_diff.load_events by done. by apply trace_diff.compare_events; apply trace_diff.observed_ok. }
  rewrite <-Ho. unfold diff_traces.
  match goal with |- context [(subprocess exec ?c ≫= ?k)] =>
    pose proof (host_bind_ok (subprocess exec c) k w3 _ _ Hc) as Hdt end.
  host_step Hdt. cbn [returncode process_of].
  destruct (Z.eqb_spec (exit_code o) 0) as [E|E]; cbn [negb].
  - split; [by left|by split].
  - match goal with |- context [(print ?s ≫= _) ?wx] => rewrite (host_bind_ok (print s) _ wx tt (World (files wx) (dirs wx) (log wx ++ [(Stdout, s)]) (ran wx))) by done end.
    match goal with |- context [(dump_trace "kronos" _ ≫= _) ?wx] => destruct (dump_trace_ok "kronos" _ wx _ Hk3) as (w5 & H5 & F5 & _) end.
    host_step H5. destruct (dump_trace_ok "sail" (sail_trace dir) w5 (unlines lines)) as (w6 & H6 & _ & _); [by rewrite F5|].
    host_step H6. split; [by right|]. split; [done|by intros [_ ?]].
Qed.
End verdict.

(** ** From the program to the verdict *)

Section main_verdict.
Context {G : Type} `{PyRandomLaws G} (exec : program) (sha : string → string) (a : args).

Lemma compile_program_ok src name dir w :
  (∀ c, c = gcc a dir name ∨ c = objcopy dir name → builds exec c) →
  dir ≠ "" → plain_name (name +:+ ".c") → can_mkdir dir w = true →
  is_dir (src_path dir name) (made dir w) = false →
  ∃ w', compile_program exec src a dir name w = (Ok (elf_path dir name, hex_path dir name), w') ∧
    dirs w' = dirs (made dir w).
Proof.
  intros Hb Hne Hn Hmk Hd. unfold compile_program. destruct (mkdir_ok dir w Hmk) as [Hm Hdir]. host_step Hm.
  set (w1 := set_files (<[src_path dir name := src]> (files (made dir w))) (made dir w)).
  assert (write_text (src_path dir name) src (made dir w) = (Ok tt, w1)) as Hw.
  { apply write_text_ok; [|done]. unfold src_path. by rewrite parent_join. }
  host_step Hw.
  destruct (Hb (gcc a dir name) (or_introl eq_refl) (files w1) (dirs w1)) as (o1 & e1 & f1 & E1). apply subprocess_ok in E1.
  match type of E1 with _ = (_, ?w') => set (w2 := w') in E1 end.
  assert (check_call exec (gcc a dir name) w1 = (Ok (Process 0 o1 e1), w2)) as C1 by (unfold check_call; by host_step E1).
  host_step C1.
  destruct (Hb (objcopy dir name) (or_intror eq_refl) (files w2) (dirs w2)) as (o2 & e2 & f2 & E2). apply subprocess_ok in E2.
  match type of E2 with _ = (_, ?w') => set (w3 := w') in E2 end.
  assert (check_call exec (objcopy dir name) w2 = (Ok (Process 0 o2 e2), w3)) as C2 by (unfold check_call; by host_step E2).
  host_step C2. by exists w3.
Qed.

Lemma trace_paths dir : kronos_trace dir ≠ trace_diff.flag ∧ sail_trace dir ≠ trace_diff.flag ∧ sail_trace dir ≠ kronos_trace dir.
Proof.
  assert (plain_name "kronos.trace" ∧ plain_name "sail.trace") as [H1 H2] by done.
  split_and!; [by apply path_join_ne|by apply path_join_ne|].
  intros E. by apply path_join_inj in E.
Qed.

Lemma main_verdict src src_mut muts K x10 pre commits w
  (name := case_name sha a src_mut) (dir := path_join (arg_out_dir a) name) :
  files w !! program_c a = Some src → mutate_file (G:=G) src (seed a) = Ok (src_mut, muts) →
  dir ≠ "" → plain_name (name +:+ ".c") → can_mkdir dir w = true →
  is_dir (src_path dir name) (made dir w) = false → is_dir (sail_trace dir) (made dir w) = false →
  tools_ok exec a name dir K x10 pre commits →
  Forall event_ok K → Forall (λ r, sail_trace_normalize.is_commit r = false) pre →
  Forall sail_trace_normalize.commit_ok commits →
  let status := exit_status (main exec sha (G:=G) a w).1 in
  (status = 0 ∨ status = 1) ∧
  (status = 0 ↔ x10 = 0 ∧ trace_diff.agree (trace_diff.observed true K)
    (trace_diff.observed true (sail_trace_normalize.norm_commit <$> commits))).
Proof.
  intros Hsrc Hmut Hne Hn Hmk Hd1 Hd2 Ht HK Hpre Hcom. unfold main.
  assert (read_text (program_c a) w = (Ok src, w)) as Hr by (unfold read_text; by rewrite Hsrc).
  host_step Hr. rewrite Hmut.
  match goal with |- context [(lift ?r ≫= ?k) w] => change ((lift r ≫= k) w) with (k (src_mut, muts) w) end.
  cbv beta iota zeta. fold name dir.
  match goal with |- context [(print ?s ≫= _) w] => set (w1 := World (files w) (dirs w) (log w ++ [(Stdout, s)]) (ran w));
    rewrite (host_bind_ok (print s) _ w tt w1) by done end.
  destruct (compile_program_ok src_mut name dir w1) as (w2 & Hc & Hd); [|done..|].
  { intros c [-> | ->]; apply Ht. }
  host_step Hc. destruct (trace_paths dir) as (N1 & N2 & N3).
  assert (dirs w2 = dirs (made dir w)) as Hd' by exact Hd.
  apply run_case_verdict with (K := K) (pre := pre); try done; rewrite (is_dir_dirs _ (made dir w)) by done; [|done].
  unfold sail_trace. rewrite parent_join by done. by apply mkdir_ok.
Qed.
End main_verdict.

(** ** Whatever the tools do *)

Section any_tools.
Context (exec : program) (a : args) (name dir : string).

Lemma quiet_print_all l : quiet (print_all l).
Proof. induction l as [|s l IH]; [apply quiet_ret|]. cbn [print_all]. apply quiet_bind; [apply quiet_put|done]. Qed.
Lemma quiet_if_exists p yes no : quiet yes → quiet no → quiet (if_exists p yes no).
Proof. intros Hy Hn w. unfold if_exists. by destruct (exists_ p w). Qed.
Lemma quiet_print t : quiet (print t).
Proof. apply quiet_put. Qed.
#[local] Hint Resolve quiet_print_all quiet_if_exists quiet_print : quiet.

Lemma quiet_kronos_hangs p err : quiet (kronos_hangs p err).
Proof. unfold kronos_hangs. destruct (negb _); auto 12 with quiet. Qed.
Lemma quiet_no_halt_line p err : quiet (no_halt_line p err).
Proof. unfold no_halt_line. destruct (negb _); auto 12 with quiet. Qed.
Lemma quiet_dump_trace label p : quiet (dump_trace label p).
Proof. unfold dump_trace. auto 12 with quiet. Qed.

(** Neither of the two answers 0. *)
Definition never_zero (m : host Z) : Prop := ∀ w, (m w).1 ≠ Ok 0.
Lemma never_zero_bind {A} (m : host A) f : (∀ x, never_zero (f x)) → never_zero (m ≫= f).
Proof. intros H w. unfold mbind, host_bind. destruct (m w) as [[x|e] w']; [apply H|done]. Qed.
Lemma never_zero_ret z : z ≠ 0 → never_zero (mret z).
Proof. intros Hz w. by intros [= ?]. Qed.
Lemma kronos_hangs_status p err : never_zero (kronos_hangs p err).
Proof. unfold kronos_hangs. do 3 (apply never_zero_bind; intros []). by apply never_zero_ret. Qed.
Lemma no_halt_line_status p err : never_zero (no_halt_line p err).
Proof. unfold no_halt_line. do 3 (apply never_zero_bind; intros []). by apply never_zero_ret. Qed.

(** The simulator printed a halt line, the first one with x10 = 0. *)
Definition halted (x : command * res process) : Prop :=
  ∃ p, x.2 = Ok p ∧ first_x10 (splitlines (stdout p) ++ splitlines (stderr p)) = Some 0.

(** The processes of a case that passed. *)
Definition case_passed (l : trail) : Prop := ∃ g o k s d,
  l = [(gcc a dir name, g); (objcopy dir name, o);
       (kronos (kronos_bin a) (hex_path dir name) (kronos_trace dir), k);
       (sail (sail_trace_script a) (elf_path dir name) (sail_trace dir), s);
       (differ (diff_script a) (kronos_trace dir) (sail_trace dir), d)] ∧
  Forall succeeded [(gcc a dir name, g); (objcopy dir name, o);
    (sail (sail_trace_script a) (elf_path dir name) (sail_trace dir), s);
    (differ (diff_script a) (kronos_trace dir) (sail_trace dir), d)] ∧
  halted (kronos (kronos_bin a) (hex_path dir name) (kronos_trace dir), k).

Notation k_cmd := (kronos (kronos_bin a) (hex_path dir name) (kronos_trace dir)).
Notation s_cmd := (sail (sail_trace_script a) (elf_path dir name) (sail_trace dir)).
Notation d_cmd := (differ (diff_script a) (kronos_trace dir) (sail_trace dir)).

Lemma run_kronos_leads w :
  leads exec (run_kronos exec (kronos_bin a) (hex_path dir name) (kronos_trace dir))
    (λ l r _, ∃ k, l = [(k_cmd, k)] ∧ (r = Ok 0 → halted (k_cmd, k))) w.
Proof.
  assert (leads exec (subprocess exec k_cmd) (λ l r _, l = [(k_cmd, r)]) w) as (l & Hl & E) by by apply leads_subprocess.
  unfold leads, run_kronos, on_timeout in *. destruct (subprocess exec k_cmd w) as [[p|e] w1] eqn:Es; cbn [fst snd] in *; subst l.
  - exists [(k_cmd, Ok p)]. destruct (first_x10 _) as [z|] eqn:Ex.
    + split; [done|]. eexists. split; [done|]. cbn. intros [= ->]. by exists p.
    + pose proof (quiet_no_halt_line (kronos_trace dir) (stderr p) w1) as Hq.
      pose proof (no_halt_line_status (kronos_trace dir) (stderr p) w1) as Hz.
      destruct (no_halt_line _ _ w1) as [r w2]. cbn [fst snd] in *. split; [by destruct Hl as [? ?]; split; [rewrite Hq|]|].
      eexists. split; [done|]. by intros ->.
  - exists [(k_cmd, Raise e)]. destruct e; try (split; [done|]; by eexists).
    pose proof (quiet_kronos_hangs (kronos_trace dir) stderr w1) as Hq.
    pose proof (kronos_hangs_status (kronos_trace dir) stderr w1) as Hz.
    destruct (kronos_hangs _ _ w1) as [r w2]. cbn [fst snd] in *. split; [by destruct Hl as [? ?]; split; [rewrite Hq|]|].
    eexists. split; [done|]. by intros ->.
Qed.

Lemma run_case_leads w (g o : process) :
  returncode g = 0 → returncode o = 0 →
  leads exec (run_case exec a name dir (elf_path dir name) (hex_path dir name)) (λ l r _, r = Ok tt →
    case_passed ((gcc a dir name, Ok g) :: (objcopy dir name, Ok o) :: l)) w.
Proof.
  intros Hg Ho. unfold run_case. cbv zeta. apply leads_bind. eapply leads_mono; [apply run_kronos_leads|].
  intros l [x10|e] w1 (k & -> & Hk); [|done]. destruct (Z.eqb_spec x10 0) as [->|Hx]; cbn [negb].
  2: { apply leads_put. intros w2. by apply leads_quiet; [intros ?|intros r w3 [= <- <-]]. }
  specialize (Hk eq_refl). unfold run_sail. apply leads_bind, leads_write_text; [|done]. intros w2.
  apply leads_check_call; [|done]. intros s w3 Hs. apply leads_ret. unfold diff_traces.
  apply leads_bind, leads_subprocess_bind; [|done]. intros d w4 _. apply leads_ret.
  destruct (Z.eqb_spec (returncode d) 0) as [Hd|Hd]; cbn [negb].
  - apply leads_quiet; [apply quiet_print|]. intros r w5 _ _. exists (Ok g), (Ok o), k, (Ok s), (Ok d).
    split; [done|]. split; [|done]. repeat (apply Forall_cons_2; [by eexists|]). by apply Forall_nil_2.
  - apply leads_put. intros w5. do 2 (apply leads_quiet_bind; [apply quiet_dump_trace|intros [] ? _|done]).
    apply leads_put. intros w6. by apply leads_quiet; [intros ?|intros r w7 [= <- <-]].
Qed.
End any_tools.

Lemma main_leads {G} `{PyRandom G} exec sha (a : args) w :
  leads exec (main exec sha (G:=G) a) (λ l r _, r = Ok tt →
    ∃ src src_mut muts, files w !! program_c a = Some src ∧ mutate_file (G:=G) src (seed a) = Ok (src_mut, muts) ∧
      let name := case_name sha a src_mut in case_passed a name (path_join (arg_out_dir a) name) l) w.
Proof.
  unfold main. apply leads_quiet_bind; [apply quiet_read_text| |done]. intros src w0.
  unfold read_text. destruct (files w !! program_c a) as [t|]; [|done]. intros [= <- <-].
  apply leads_quiet_bind; [apply quiet_lift| |done]. intros [src_mut muts] w1 [= E <-].
  apply leads_put. intros w2. cbv zeta. set (name := case_name _ _ _). set (dir := path_join _ name).
  unfold compile_program. apply leads_bind, leads_mkdir; [|done]. intros w3. apply leads_write_text; [|done]. intros w4.
  apply leads_check_call; [|done]. intros g w5 Hg. apply leads_check_call; [|done]. intros o w6 Ho. apply leads_ret.
  eapply leads_mono; [exact (run_case_leads exec a name dir w6 g o Hg Ho)|]. intros l r w7 Hl Hr. exists t, src_mut, muts. split; [done|]. split; [done|]. exact (Hl Hr).
Qed.

(** ** The property *)

(** C10: The co-simulation runner, end to end, on tools that behave as
    documented: its exit status is 0 exactly when the core halted with x10 =
    0 and its trace agrees with Sail's log on the lines with an effect, and 1
    otherwise. *)
Theorem cosim_main_verdict {G : Type} `{PyRandomLaws G} (exec : program) (sha : string → string) (a : args)
    src src_mut muts (K : list event) (x10 : Z) (pre : list string) (commits : list sail_trace_normalize.commit) (w : world)
  (name := case_name sha a src_mut) (dir := path_join (arg_out_dir a) name)
  (Hsrc : files w !! program_c a = Some src) (Hmut : mutate_file (G:=G) src (seed a) = Ok (src_mut, muts))
  (Hne : dir ≠ "") (Hname : plain_name (name +:+ ".c")) (Hmk : can_mkdir dir w = true)
  (Hd1 : is_dir (src_path dir name) (made dir w) = false) (Hd2 : is_dir (sail_trace dir) (made dir w) = false)
  (Htools : tools_ok exec a name dir K x10 pre commits)
  (HK : Forall event_ok K) (Hpre : Forall (λ r, sail_trace_normalize.is_commit r = false) pre)
  (Hlog : Forall sail_trace_normalize.commit_ok commits) :
  let status := exit_status (main exec sha (G:=G) a w).1 in
  (status = 0 ∨ status = 1) ∧
  (status = 0 ↔ x10 = 0 ∧ trace_diff.agree (trace_diff.observed true K)
    (trace_diff.observed true (sail_trace_normalize.norm_commit <$> commits))).
Proof. by eapply main_verdict. Qed.

(** A program with one constant, on tools whose core writes what Sail's log
    says. *)
Definition example_args : args :=
  Args "sw/cosim/fact.c" 7 "obj/cosim" "sim/Vsim_top" "tools/sail_trace.sh" "tools/trace_diff.py" "c.S" "l.ld".
Definition example_src : string := unlines ["// MUTATE: n = randint(2, 12)"; "enum { N = 5 };"].
Definition example_sha (_ : string) : string := "0123456789abcdef".
Definition example_name : string := "fact_seed7_0123456789ab".
Definition example_dir : string := "obj/cosim/fact_seed7_0123456789ab".
Definition example_K : list event := [Event 0x80000004 0x00100093 [XWrite 1 1]].

Definition example_tools : program := λ c f d,
  let tool := hd "" (argv c) in
  if String.eqb tool "sim/Vsim_top" then
    (Ok (Process 0 (unlines ["boot"; halt_line 900 0]) ""), (<[kronos_trace example_dir := unlines (event_text <$> example_K)]> f, d))
  else if String.eqb tool "tools/sail_trace.sh" then
    match sail_trace_normalize.main (sail_trace_normalize.log_stdin ["boot"] sail_trace_normalize.example_log) with
    | Ok lines => (Ok (Process 0 "" ""), (<[sail_trace example_dir := unlines lines]> f, d))
    | Raise e => (Raise e, (f, d))
    end
  else if String.eqb tool "tools/trace_diff.py" then
    match trace_diff.main (read_from f) (argv c) with
    | Ok o => (Ok (process_of o), (f, d))
    | Raise e => (Raise e, (f, d))
    end
  else (Ok (Process 0 "" ""), (f, d)).

Lemma cosim_example_tools_ok :
  tools_ok example_tools example_args example_name example_dir example_K 0 ["boot"] sail_trace_normalize.example_log.
Proof.
  split.
  - intros f d. by exists "", "", f.
  - intros f d. by exists "", "", f.
  - intros f d. exists 0, ["boot"], 900, "", (<[kronos_trace example_dir := unlines (event_text <$> example_K)]> f).
    split; [reflexivity|]. split; [|apply lookup_insert_eq].
    apply Forall_cons_2; [by split|apply Forall_nil_2].
  - intros f d. eexists _, "", "". split; [vm_compute; reflexivity|]. vm_compute. reflexivity.
  - intros f d o Ho. unfold example_tools. cbn [differ cmd argv hd example_args diff_script] in *.
    change (String.eqb "tools/trace_diff.py" "sim/Vsim_top") with false.
    change (String.eqb "tools/trace_diff.py" "tools/sail_trace.sh") with false.
    change (String.eqb "tools/trace_diff.py" "tools/trace_diff.py") with true. cbv iota zeta. by rewrite Ho.
Qed.

Lemma cosim_main_verdict_witness :
  let w := World {[ "sw/cosim/fact.c" := example_src ]} ∅ [] [] in
  let status := exit_status (main example_tools example_sha (G:=Mt19937.mt) example_args w).1 in
  (status = 0 ∨ status = 1) ∧
  (status = 0 ↔ 0 = 0 ∧ trace_diff.agree (trace_diff.observed true example_K)
    (trace_diff.observed true (sail_trace_normalize.norm_commit <$> sail_trace_normalize.example_log))).
Proof.
  intros w.
  assert (∃ src_mut muts, mutate_file (G:=Mt19937.mt) example_src 7 = Ok (src_mut, muts)) as (src_mut & muts & Hm).
  { eexists _, _. vm_compute. reflexivity. }
  apply (cosim_main_verdict (G:=Mt19937.mt) example_tools example_sha example_args example_src src_mut muts example_K 0
    ["boot"] sail_trace_normalize.example_log w).
  - reflexivity.
  - exact Hm.
  - discriminate.
  - split; [discriminate|vm_compute; reflexivity].
  - vm_compute. reflexivity.
  - vm_compute. reflexivity.
  - vm_compute. reflexivity.
  - assert (case_name example_sha example_args src_mut = example_name) as -> by reflexivity.
    assert (path_join (arg_out_dir example_args) example_name = example_dir) as -> by reflexivity. exact cosim_example_tools_ok.
  - repeat (apply Forall_cons_2 || apply Forall_nil_2); split_and!; cbn; try lia; try split;
      repeat (apply Forall_cons_2 || apply Forall_nil_2); cbn; unfold word64; lia.
  - apply Forall_cons_2; [vm_compute; reflexivity|apply Forall_nil_2].
  - apply sail_trace_normalize.example_log_ok.
Defined.

End cosim_runner.
