(* ===== verification/CycleDiff.v ===== *)
(** tools/cycle_diff.py: the cycles of one program on two builds of the
    simulator, and the work tree the older build is made in.  git, make and the
    simulators are the parameter [exec] of [Host]. *)
From S2P Require Export Host.
From S2P Require Export PyNum.
From S2P Require Export Regex.
From Stdlib Require Import SpecFloat.
Local Open Scope Z_scope.

Module cycle_diff.

Definition space1 : regex := RPlus is_space.
Definition HALT_RE : regex :=
  RSeqs [RStr "[sim]"; space1; RStr "halt"; space1; RStr "at"; space1; RStr "cycle"; space1;
    RGroup 1 (RPlus is_digit); RStr ","; space1; RStr "x10"; RStar is_space; RStr "="; RStar is_space;
    RGroup 2 (RSeqs [ROpt (RStr "-"); RPlus is_digit])].

Definition DEFAULT_PULP_AXI_ROOT : string := "/home/popes/opensoc/hw/ip/pulp_axi".

(** [m.group(n)] of a group that every match sets. *)
Definition group_of (n : nat) (m : found) : string := default "" (group n m).

(** [f"{x * 100:+.2f}"] and [f"{x * 100:.0f}"] *)
Definition percent_signed (x : pyfloat) : string := fmt_signed 2 (float_mul x (float_of_Z 100)).
Definition percent_whole (x : pyfloat) : string := fmt_fixed 0 (float_mul x (float_of_Z 100)).

Record args := Args {
  baseline_bin : option string;
  baseline_commit : option string;
  candidate_bin : option string;
  prog : string;
  max_delta : pyfloat;
  ignore_x10 : bool;
}.

Section script.
Variable exec : program.
(** [os.environ.get("PULP_AXI_ROOT")] *)
Variable pulp_axi_root_env : option string.

(** The last [n] lines. *)
Definition last_lines (n : nat) (l : list string) : list string := drop (length l - n) l.

Definition run_sim (sim_bin prog_hex : string) : host (Z * Z * string) :=
  proc ← subprocess exec (Command [sim_bin; prog_hex] [] None (Some 300));
  let out := stdout proc in
  match re_search HALT_RE out with
  | None =>
      raise (RuntimeError ("Could not parse '[sim] halt at cycle ..., x10 = ...' from " +:+ sim_bin +:+ ":" +:+ newline
        +:+ join_lines (last_lines 20 (splitlines out))))
  | Some m =>
      cycles ← lift (py_int (group_of 1 m));
      x10 ← lift (py_int (group_of 2 m));
      mret (cycles, x10, group_of 0 m)
  end.

Definition repo_root : host string :=
  out ← check_call exec (cmd ["git"; "rev-parse"; "--show-toplevel"]);
  mret (strip (stdout out)).

(** [git rev-parse sha^{commit}]; its failure is a [RuntimeError] (the message
    for a [sha] that [repr] only quotes). *)
Definition verify_commit (sha : string) : host string :=
  out ← subprocess exec (cmd ["git"; "rev-parse"; sha +:+ "^{commit}"]);
  if returncode out =? 0 then mret (strip (stdout out))
  else raise (RuntimeError ("baseline commit '" +:+ sha +:+ "' not found in local git history (git rev-parse failed: "
    +:+ (if String.eqb (stderr out) "" then
           "Command '['git', 'rev-parse', '" +:+ sha +:+ "^{commit}']' returned non-zero exit status "
           +:+ str_Z (returncode out) +:+ "."
         else strip (stderr out)) +:+ ")")).

Definition sim_dir (root : string) : string := path_join root "sim".

Definition build_s7a (work_root pulp_axi_root : string) : host string :=
  let sim_bin := path_join (path_join (path_join (sim_dir work_root) "obj_dir") "s7a") "Vsim_top" in
  print ("[cycle_diff] building s7a in " +:+ work_root +:+ " (PULP_AXI_ROOT=" +:+ pulp_axi_root +:+ ") ...");;
  _ ← check_call exec (Command ["make"; "-C"; sim_dir work_root; "build-s7a"; "PULP_AXI_ROOT=" +:+ pulp_axi_root]
    [("PULP_AXI_ROOT", pulp_axi_root)] None None);
  there ← (λ w, (Ok (exists_ sim_bin w), w)) : host bool;
  if there : bool then mret sim_bin else raise (RuntimeError ("build succeeded but " +:+ sim_bin +:+ " is missing")).

Definition git_remove (worktree : string) : command := cmd ["git"; "worktree"; "remove"; "--force"; worktree].
Definition git_prune : command := cmd ["git"; "worktree"; "prune"].

Definition cleanup_worktree (worktree : string) : host unit :=
  there ← (λ w, (Ok (exists_ worktree w), w)) : host bool;
  if negb there then mret tt else
  print ("[cycle_diff] removing worktree " +:+ worktree);;
  rc ← subprocess exec (git_remove worktree);
  there ← (λ w, (Ok (exists_ worktree w), w)) : host bool;
  if negb (returncode rc =? 0) || there then
    rmtree worktree;;
    _ ← subprocess exec git_prune;
    mret tt
  else mret tt.

Definition worktree_path (full_sha : string) : string := "/tmp/kronos-baseline-" +:+ str_take 12 full_sha.

Definition build_baseline (sha pulp_axi_root : string) : host (string * string) :=
  full_sha ← verify_commit sha;
  let worktree := worktree_path full_sha in
  there ← (λ w, (Ok (exists_ worktree w), w)) : host bool;
  (if there : bool then cleanup_worktree worktree else mret tt);;
  print ("[cycle_diff] creating worktree " +:+ worktree +:+ " at " +:+ str_take 12 full_sha +:+ " ...");;
  _ ← check_call exec (cmd ["git"; "worktree"; "add"; worktree; full_sha]);
  sim_bin ← build_s7a worktree pulp_axi_root;
  mret (worktree, sim_bin).

(** The line of a cycle delta, up to the bracket. *)
Definition delta_line (a : args) (delta : pyfloat) (base cand : Z) : string :=
  "  cycle delta: " +:+ percent_signed delta +:+ "% (" +:+ str_Z base +:+ " -> " +:+ str_Z cand
  +:+ "; budget +" +:+ percent_whole (max_delta a) +:+ "%)".

(** What follows the two runs: their results printed, and the exit code. *)
Definition verdict (a : args) (base cand : Z * Z * string) : host Z :=
  let '(base_cyc, base_x10, base_line) := base in
  let '(cand_cyc, cand_x10, cand_line) := cand in
  print ("baseline:  " +:+ base_line);;
  print ("candidate: " +:+ cand_line);;
  if negb (ignore_x10 a) && negb (base_x10 =? 0) then
    print ("FAIL: baseline reported x10=" +:+ str_Z base_x10 +:+ " (expected 0).");; mret 1
  else if negb (ignore_x10 a) && negb (cand_x10 =? 0) then
    print ("FAIL: candidate reported x10=" +:+ str_Z cand_x10 +:+ " (expected 0).");;
    delta ← lift (int_div (cand_cyc - base_cyc) base_cyc);
    print (delta_line a delta base_cyc cand_cyc);;
    mret 1
  else
    (if negb (base_x10 =? 0) then print ("note: baseline x10=" +:+ str_Z base_x10 +:+ " (ignored, --ignore-x10).") else mret tt);;
    (if negb (cand_x10 =? 0) then print ("note: candidate x10=" +:+ str_Z cand_x10 +:+ " (ignored, --ignore-x10).") else mret tt);;
    delta ← lift (int_div (cand_cyc - base_cyc) base_cyc);
    print ("baseline cycles:  " +:+ str_Z base_cyc);;
    print ("candidate cycles: " +:+ str_Z cand_cyc);;
    print ("cycle delta: " +:+ percent_signed delta +:+ "% (budget +" +:+ percent_whole (max_delta a) +:+ "%)");;
    if float_lt (max_delta a) delta then print "FAIL: cycle/IPC regression exceeds budget";; mret 1
    else print "PASS";; mret 0.

(** The two runs at the end of the [try]. *)
Definition run_both (a : args) (baseline candidate : string) : host ((Z * Z * string) * (Z * Z * string)) :=
  base ← run_sim baseline (prog a);
  cand ← run_sim candidate (prog a);
  mret (base, cand).

(** [main], after the arguments are parsed; [ap.error] ends with status 2.  The
    variable [worktree] is set when [build_baseline] returns, so what it raises
    passes the [finally] with nothing to clean up. *)
Definition main (a : args) : host Z :=
  let pulp_axi_root := default DEFAULT_PULP_AXI_ROOT pulp_axi_root_env in
  match baseline_bin a, baseline_commit a with
  | Some _, Some (String _ _) => raise (SystemExit 2)
  | None, (None | Some "") => raise (SystemExit 2)
  | _, Some (String _ _ as sha) =>
      '(worktree, baseline) ← build_baseline sha pulp_axi_root;
      '(base, cand) ← finally
        (candidate ← match candidate_bin a with
                     | None => root ← repo_root; build_s7a root pulp_axi_root
                     | Some b => mret b
                     end;
         run_both a baseline candidate)
        (cleanup_worktree worktree);
      verdict a base cand
  | Some baseline, _ =>
      match candidate_bin a with
      | None => raise (SystemExit 2)
      | Some candidate => '(base, cand) ← run_both a baseline candidate; verdict a base cand
      end
  end.
End script.

(** ** The work tree *)

Section worktree.
Context (exec : program).

(** The work trees are not regular files, and nothing makes them so. *)
Definition no_file (w : world) : Prop := ∀ s, files w !! worktree_path s = None.
Definition makes_no_file : Prop := ∀ c f d r f' d',
  exec c f d = (r, (f', d')) → (∀ s, f !! worktree_path s = None) → ∀ s, f' !! worktree_path s = None.
(** git can be run, and its [prune] creates no work tree. *)
Definition git_runs : Prop := ∀ s f d, ∃ p f' d', exec (git_remove (worktree_path s)) f d = (Ok p, (f', d')).
Definition prune_keeps : Prop := ∀ f d, ∃ p f' d', exec git_prune f d = (Ok p, (f', d')) ∧
  ∀ s, worktree_path s ∈ d' → worktree_path s ∈ d.

Context (Hfile : makes_no_file) (Hgit : git_runs) (Hprune : prune_keeps).

(** What a step of the script leaves true. *)
Definition keeps {A} (m : host A) : Prop := ∀ w, no_file w → no_file (m w).2.

Lemma keeps_ret {A} (a : A) : keeps (mret a).
Proof. by intros w. Qed.
Lemma keeps_lift {A} (r : res A) : keeps (lift r).
Proof. by intros w. Qed.
Lemma keeps_raise {A} e : keeps (raise (A := A) e).
Proof. by intros w. Qed.
Lemma keeps_print t : keeps (print t).
Proof. by intros w. Qed.
Lemma keeps_ask {A} (f : world → A) : keeps (λ w, (Ok (f w), w)).
Proof. by intros w. Qed.

Lemma keeps_bind {A B} (m : host A) (f : A → host B) : keeps m → (∀ a, keeps (f a)) → keeps (m ≫= f).
Proof.
  intros Hm Hf w Hw. specialize (Hm w Hw). unfold mbind, host_bind.
  destruct (m w) as [[a|e] w']; [by apply Hf|done].
Qed.

Lemma keeps_subprocess c : keeps (subprocess exec c).
Proof.
  intros w Hw. unfold subprocess. destruct (exec c (files w) (dirs w)) as [r [f d]] eqn:E.
  intros s. cbn [snd files]. by eapply Hfile.
Qed.

Lemma keeps_rmtree p : keeps (rmtree p).
Proof.
  intros w Hw s. unfold rmtree. case_bool_decide; [|apply Hw]. cbn [snd files].
  apply map_lookup_filter_None_2. left. apply Hw.
Qed.

Create HintDb keeps.
Hint Resolve keeps_ret keeps_lift keeps_raise keeps_print keeps_ask keeps_subprocess keeps_rmtree : keeps.

(** Take a script apart into its steps. *)
Ltac keeps_steps :=
  repeat first
    [solve [auto with keeps]
    |apply keeps_bind; [|intros ?]
    |progress cbv zeta
    |case_match].

Lemma keeps_check_call c : keeps (check_call exec c).
Proof. unfold check_call. keeps_steps. Qed.
Hint Resolve keeps_check_call : keeps.

Lemma keeps_cleanup t : keeps (cleanup_worktree exec t).
Proof. unfold cleanup_worktree. keeps_steps. Qed.
Hint Resolve keeps_cleanup : keeps.

Lemma keeps_build_s7a r p : keeps (build_s7a exec r p).
Proof. unfold build_s7a. keeps_steps. Qed.
Hint Resolve keeps_build_s7a : keeps.

Lemma keeps_build_baseline sha p : keeps (build_baseline exec sha p).
Proof. unfold build_baseline, verify_commit. keeps_steps. Qed.

Lemma keeps_run_both a b c : keeps (run_both exec a b c).
Proof. unfold run_both, run_sim. keeps_steps. Qed.
Hint Resolve keeps_run_both : keeps.

Lemma keeps_repo_root : keeps (repo_root exec).
Proof. unfold repo_root. keeps_steps. Qed.
Hint Resolve keeps_repo_root : keeps.

(** The clean-up returns, and the work tree is gone. *)
Lemma worktree_exists s w : no_file w → exists_ (worktree_path s) w = bool_decide (worktree_path s ∈ dirs w).
Proof.
  intros Hw. unfold exists_. rewrite (Hw s).
  assert (is_dir (worktree_path s) w = bool_decide (worktree_path s ∈ dirs w)) as -> by done.
  rewrite (bool_decide_false (is_Some None)) by by intros [? [=]]. apply orb_false_r.
Qed.

Lemma cleanup_gone s w : no_file w →
  ∃ w', cleanup_worktree exec (worktree_path s) w = (Ok tt, w') ∧ exists_ (worktree_path s) w' = false.
Proof.
  intros Hw. unfold cleanup_worktree. set (t := worktree_path s).
  rewrite (host_bind_ok _ _ w (exists_ t w) w) by done. destruct (exists_ t w) eqn:Ht; cbn [negb]; [|by exists w].
  set (w1 := World (files w) (dirs w) (log w ++ [(Stdout, "[cycle_diff] removing worktree " +:+ t)]) (ran w)).
  rewrite (host_bind_ok _ _ w tt w1) by done.
  destruct (Hgit s (files w1) (dirs w1)) as (p & f & d & Hr). apply subprocess_ok in Hr as Hs.
  host_step Hs. match type of Hs with _ = (_, ?w') => set (w2 := w') end.
  assert (no_file w2) as Hw2 by (intros s'; by eapply Hfile).
  rewrite (host_bind_ok _ _ w2 (exists_ t w2) w2) by done.
  destruct (negb (returncode p =? 0) || exists_ t w2) eqn:E; [|apply orb_false_iff in E as [_ E]; by exists w2].
  set (w3 := (rmtree t w2).2). pose proof (keeps_rmtree t w2 Hw2) as Hw3. fold w3 in Hw3.
  assert (rmtree t w2 = (Ok tt, w3)) as Hrm by (unfold w3, rmtree; by case_bool_decide).
  host_step Hrm.
  destruct (Hprune (files w3) (dirs w3)) as (p' & f' & d' & Hp & Hd). apply subprocess_ok in Hp as Hp'.
  host_step Hp'. eexists. split; [done|]. unfold t. rewrite worktree_exists by (intros s'; by eapply Hfile).
  apply bool_decide_eq_false_2. intros Hin%Hd. unfold w3, rmtree in Hin. case_bool_decide as Hi; [|done].
  cbn [snd dirs] in Hin. apply elem_of_filter in Hin as [Hb _]. unfold beneath in Hb.
  by rewrite String.eqb_refl in Hb.
Qed.

(** Printing the verdict changes no file. *)
Definition only_prints {A} (m : host A) : Prop := ∀ w, files (m w).2 = files w ∧ dirs (m w).2 = dirs w.

Lemma only_prints_bind {A B} (m : host A) (f : A → host B) :
  only_prints m → (∀ a, only_prints (f a)) → only_prints (m ≫= f).
Proof.
  intros Hm Hf w. specialize (Hm w). unfold mbind, host_bind.
  destruct (m w) as [[a|e] w']; [|done]. destruct (Hf a w') as [-> ->]. done.
Qed.

Lemma only_prints_verdict a base cand : only_prints (verdict a base cand).
Proof.
  unfold verdict. destruct base as [[? ?] ?], cand as [[? ?] ?].
  repeat first [by intros w|apply only_prints_bind; [|intros ?]|case_match].
Qed.

Lemma exists_prints {A} (m : host A) p w : only_prints m → exists_ p (m w).2 = exists_ p w.
Proof. intros Hm. unfold exists_, is_dir. by destruct (Hm w) as [-> ->]. Qed.

(** After the [finally] the work tree is gone, whatever happened in the [try]. *)
Lemma finally_gone {A} (m : host A) s w : no_file w → keeps m →
  ∃ r w', finally m (cleanup_worktree exec (worktree_path s)) w = (r, w') ∧ exists_ (worktree_path s) w' = false.
Proof.
  intros Hw Hm. specialize (Hm w Hw). unfold finally. destruct (m w) as [r w1].
  destruct (cleanup_gone s w1 Hm) as (w2 & -> & H2). by exists r, w2.
Qed.

Lemma build_baseline_path sha root w t b w' :
  build_baseline exec sha root w = (Ok (t, b), w') → ∃ s, t = worktree_path s.
Proof.
  unfold build_baseline. intros H. apply host_bind_inv in H as (full & w1 & _ & H). exists full. cbv zeta in H.
  do 4 apply host_bind_inv in H as (? & ? & _ & H). apply host_bind_inv in H as (sim & ? & _ & H). by injection H as -> _ _.
Qed.

Lemma main_worktree penv a sha w :
  baseline_bin a = None → baseline_commit a = Some sha → sha ≠ "" → no_file w →
  let root := default DEFAULT_PULP_AXI_ROOT penv in
  match build_baseline exec sha root w with
  | (Ok (t, _), _) => exists_ t (main exec penv a w).2 = false
  | (Raise e, w') => main exec penv a w = (Raise e, w')
  end.
Proof.
  intros Hb Hc Hne Hw root. unfold main. rewrite Hb, Hc. destruct sha as [|ch sha]; [done|]. fold root.
  set (k := λ x : string * string, _ : host Z).
  destruct (build_baseline exec (String ch sha) root w) as [[[t b]|e] w'] eqn:E.
  - change (exists_ t ((build_baseline exec (String ch sha) root ≫= k) w).2 = false).
    rewrite (host_bind_ok _ _ _ _ _ E).
    pose proof (keeps_build_baseline (String ch sha) root w Hw) as Hw'. rewrite E in Hw'. cbn [snd] in Hw'.
    destruct (build_baseline_path _ _ _ _ _ _ E) as (s & ->).
    match goal with |- context [k ?x w'] => change (k x w') with (('(base, cand) ← finally (candidate ← match candidate_bin a with
       | None => root ← repo_root exec; build_s7a exec root (default DEFAULT_PULP_AXI_ROOT penv) | Some b => mret b end;
       run_both exec a b candidate) (cleanup_worktree exec (worktree_path s)); verdict a base cand) w') end.
    edestruct (finally_gone (candidate ← match candidate_bin a with
       | None => root ← repo_root exec; build_s7a exec root (default DEFAULT_PULP_AXI_ROOT penv) | Some b => mret b end;
       run_both exec a b candidate)) as ([[base cand]|e] & w2 & Hf & Hg); [exact Hw'| | |].
    + keeps_steps.
    + rewrite (host_bind_ok _ _ _ _ _ Hf). rewrite exists_prints by apply only_prints_verdict. exact Hg.
    + by rewrite (host_bind_raise _ _ _ _ _ Hf).
  - change ((build_baseline exec (String ch sha) root ≫= k) w = (Raise e, w')). by apply host_bind_raise.
Qed.

End worktree.

(** ** Examples *)

(** A simulator that halts after [n] cycles. *)
Definition halts_after (n : Z) : string := unlines ["boot"; "[sim] halt at cycle " +:+ str_Z n +:+ ", x10 = 0"].
Definition example_sims : program := λ c f d,
  (Ok (Process 0 (halts_after (if bool_decide (head (argv c) = Some "old") then 1000 else 1040)) ""), (f, d)).

Example within_budget :
  main example_sims None (Args (Some "old") None (Some "new") "p.hex" (float_div (float_of_Z 5) (float_of_Z 100)) false)
    (World ∅ ∅ [] [])
  = (Ok 0, World ∅ ∅ (pair Stdout <$>
      ["baseline:  [sim] halt at cycle 1000, x10 = 0"; "candidate: [sim] halt at cycle 1040, x10 = 0";
       "baseline cycles:  1000"; "candidate cycles: 1040"; "cycle delta: +4.00% (budget +5%)"; "PASS"])
     [Command ["old"; "p.hex"] [] None (Some 300); Command ["new"; "p.hex"] [] None (Some 300)]).
Proof. vm_compute. reflexivity. Qed.

Example over_budget :
  (main example_sims None (Args (Some "old") None (Some "new") "p.hex" (float_div (float_of_Z 3) (float_of_Z 100)) false)
    (World ∅ ∅ [] [])).1 = Ok 1.
Proof. vm_compute. reflexivity. Qed.

(** A repository whose baseline does not build. *)
Definition example_git (make_rc : Z) : program := λ c f d,
  let a := argv c in
  if bool_decide (take 2 a = ["git"; "rev-parse"]) then (Ok (Process 0 ("0123456789abcdef" +:+ newline) ""), (f, d))
  else if bool_decide (take 3 a = ["git"; "worktree"; "add"]) then
    (Ok (Process 0 "" ""), (f, {[ nth 3 a "" ]} ∪ d))
  else if bool_decide (take 3 a = ["git"; "worktree"; "remove"]) then
    (Ok (Process 0 "" ""), (f, d ∖ {[ nth 4 a "" ]}))
  else (Ok (Process (if bool_decide (head a = Some "make") then make_rc else 0) "" ""), (f, d)).

Lemma example_git_ok rc : makes_no_file (example_git rc) ∧ git_runs (example_git rc) ∧ prune_keeps (example_git rc).
Proof.
  split; [|split].
  - intros c f d r f' d'. unfold example_git. cbv zeta.
    destruct (bool_decide _); [by intros [= _ <- _]|]. destruct (bool_decide _); [by intros [= _ <- _]|].
    destruct (bool_decide _); [by intros [= _ <- _]|]. by intros [= _ <- _].
  - intros s f d. by eexists _, _, _.
  - intros f d. by eexists _, f, d.
Qed.

(** ** The property *)

(** C34: Once the baseline is built, its work tree is gone when the cycle
    comparison ends, whatever the candidate's build, the simulators or the
    verdict do; but when the baseline does not build, the exception leaves
    main with nothing cleaned up. *)
Theorem worktree_removed (exec : program) (penv : option string) (a : args) (sha : string) (w : world)
  (Hfile : makes_no_file exec) (Hgit : git_runs exec) (Hprune : prune_keeps exec)
  (Hb : baseline_bin a = None) (Hc : baseline_commit a = Some sha) (Hne : sha ≠ "") (Hw : no_file w) :
  match build_baseline exec sha (default DEFAULT_PULP_AXI_ROOT penv) w with
  | (Ok (t, _), _) => exists_ t (main exec penv a w).2 = false
  | (Raise e, w') => main exec penv a w = (Raise e, w')
  end.
Proof. by apply main_worktree. Qed.

(** The build of the baseline fails, and the work tree made for it stays. *)
Lemma worktree_removed_witness :
  let a := Args None (Some "HEAD~1") None "p.hex" (float_of_Z 0) false in
  ∃ w', main (example_git 2) None a (World ∅ ∅ [] []) = (Raise (CalledProcessError 2 ""), w') ∧
    exists_ "/tmp/kronos-baseline-0123456789ab" w' = true.
Proof.
  intros a. destruct (example_git_ok 2) as (H1 & H2 & H3).
  pose proof (worktree_removed (example_git 2) None a "HEAD~1" (World ∅ ∅ [] []) H1 H2 H3 eq_refl eq_refl
    ltac:(discriminate) ltac:(done)) as H.
  match type of H with match ?m with _ => _ end =>
    assert (∃ w', m = (Raise (CalledProcessError 2 ""), w') ∧ exists_ "/tmp/kronos-baseline-0123456789ab" w' = true) as (w' & E & Hx) end.
  { eexists. split; vm_compute; reflexivity. }
  rewrite E in H. exists w'. split; [exact H|exact Hx].
Defined.

End cycle_diff.
