(* ===== verification/RetireCsv.v ===== *)
(** tools/trace/diff_retire.py and tools/trace/trace_to_text.py: two readers of
    the retire trace that the simulator writes as CSV.  [retired] is a row of
    that trace and [trace_text] the file, as sim/sim_main.cpp prints it. *)
From S2P Require Export Host.
From S2P Require Export PyCsv.
From S2P Require Export PyNum.
Local Open Scope Z_scope.

(** [list(csv.DictReader(open(path, newline="")))] *)
Definition load_rows (path : string) : host (list row) :=
  t ← read_text path;
  let '(rows, e) := dict_rows t in
  lift e;; mret rows.

Module diff_retire.

Definition diff_key (r : row) : res (option string * option string * option string * option string) :=
  pc ← column "pc" r; rd ← column "rd_wdata" r; fp ← column "fp_wdata" r; mem ← column "mem_wdata" r;
  Ok (pc, rd, fp, mem).

(** The first row, counted from [i], at which the keys differ. *)
Fixpoint first_diff (i : nat) (a b : list row) : res (option nat) :=
  match a, b with
  | ra :: a, rb :: b =>
      ka ← diff_key ra; kb ← diff_key rb;
      if bool_decide (ka = kb) then first_diff (S i) a b else Ok (Some i)
  | _, _ => Ok None
  end.

(** A line of the context. *)
Definition side_line (i j : Z) (side : string) (r : row) : res string :=
  pc ← column_text "pc" r; mn ← column_padded "mnemonic" 8 r;
  rd ← column_text "rd_wdata" r; mem ← column_text "mem_wdata" r;
  Ok ((if j =? i then ">>" else "  ") +:+ pad_left 6 (str_Z j) +:+ " | " +:+ side +:+ " pc=" +:+ pc +:+ " mn=" +:+ mn
      +:+ " rd=" +:+ rd +:+ " mem=" +:+ mem).

Definition item (l : list row) (j : Z) : res row :=
  match l !! Z.to_nat j with Some r => Ok r | None => Raise (IndexError "list index out of range") end.

Definition print_sides (a b : list row) (i j : Z) : host unit :=
  ar ← lift (item a j); br ← lift (item b j);
  la ← lift (side_line i j "A" ar); print la;;
  lb ← lift (side_line i j "B" br); print lb.

(** [range(lo, hi)] *)
Definition window (n i context : Z) : list Z :=
  let lo := Z.max 0 (i - context / 2) in let hi := Z.min n (i + context / 2 + 1) in seqZ lo (hi - lo).

(** What follows the two loads. *)
Definition compare (a b : list row) (context : Z) : host Z :=
  let n := Nat.min (length a) (length b) in
  d ← lift (first_diff 0 a b);
  match d with
  | Some i =>
      print ("DIVERGE at row " +:+ str_nat i +:+ ":");;
      for_each (print_sides a b (Z.of_nat i)) (window (Z.of_nat n) (Z.of_nat i) context);;
      mret 1
  | None =>
      if negb (length a =? length b)%nat then
        print ("DIVERGE at end: a=" +:+ str_nat (length a) +:+ " rows, b=" +:+ str_nat (length b) +:+ " rows");; mret 1
      else print ("OK " +:+ em_dash +:+ " " +:+ str_nat n +:+ " rows identical on diff key");; mret 0
  end.

(** [except (OSError, csv.Error) as e], and [str(e)]. *)
Definition caught (e : exn) (w : world) : option string :=
  match e with
  | OSError p => Some (if is_dir p w then "[Errno 21] Is a directory: '" +:+ p +:+ "'"
                       else "[Errno 2] No such file or directory: '" +:+ p +:+ "'")
  | CsvError m => Some m
  | _ => None
  end.

(** [main], after the arguments are parsed. *)
Definition main (a b : string) (context : Z) : host Z := λ w,
  match (ra ← load_rows a; rb ← load_rows b; mret (ra, rb)) w with
  | (Ok (ra, rb), w) => compare ra rb context w
  | (Raise e, w) =>
      match caught e w with
      | Some m => (put Stderr ("error: " +:+ m);; mret 2) w
      | None => (Raise e, w)
      end
  end.

End diff_retire.

Module trace_to_text.

Definition TRAP_NAMES : list (string * string) :=
  [("0", ""); ("1", "INSTR_ACCESS_FAULT"); ("2", "ILLEGAL_INSTR"); ("3", "BREAKPOINT");
   ("4", "LOAD_ADDR_MISALIGNED"); ("11", "ECALL_M")].

Definition hex_column (k : string) (r : row) : res Z := column_of no_int16 py_int16 k r.

(** [if int(r[wen]): extras.append(text)] *)
Definition extra_if (wen : string) (more : res bool) (text : res string) (r : row) : res (list string) :=
  w ← column_int wen r;
  if w =? 0 then Ok [] else b ← more; if b : bool then t ← text; Ok [t] else Ok [].

Definition trap_name (cause : option string) : string :=
  default "None" (c ← cause; Some (default c (dict_get c TRAP_NAMES))).

Definition extras (r : row) : res (list string) :=
  x ← extra_if "rd_wen" (rd ← column_int "rd" r; Ok (negb (rd =? 0)))
    (rd ← column_int "rd" r; v ← hex_column "rd_wdata" r; Ok ("x" +:+ str_Z rd +:+ " = 0x" +:+ fmt_hex 0 v)) r;
  f ← extra_if "fp_wen" (Ok true)
    (rd ← column_int "fp_rd" r; v ← hex_column "fp_wdata" r; Ok ("f" +:+ str_Z rd +:+ " = 0x" +:+ fmt_hex 0 v)) r;
  m ← extra_if "mem_wen" (Ok true)
    (a ← hex_column "mem_addr" r; v ← hex_column "mem_wdata" r; Ok ("mem[0x" +:+ fmt_hex 0 a +:+ "] = 0x" +:+ fmt_hex 0 v)) r;
  c ← extra_if "csr_wen" (Ok true)
    (a ← hex_column "csr_addr" r; v ← hex_column "csr_wdata" r; Ok ("csr[0x" +:+ fmt_hex 3 a +:+ "] = 0x" +:+ fmt_hex 0 v)) r;
  t ← extra_if "trap_taken" (Ok true) (cause ← column "trap_cause" r; Ok ("trap=" +:+ trap_name cause)) r;
  Ok (x ++ f ++ m ++ c ++ t).

Definition fmt_row (r : row) : res string :=
  pc ← hex_column "pc" r; cycle ← column_int "cycle" r; mn ← column_padded "mnemonic" 10 r;
  e ← extras r;
  Ok (pad_left 8 (str_Z cycle) +:+ ": 0x" +:+ fmt_hex 0 pc +:+ "  " +:+ mn
      +:+ (match e with [] => "" | _ => "  " +:+ String.concat "  " e end)).

(** [main], after the arguments are parsed: the rows are printed as they are
    read, so those before a fault are out. *)
Definition main (path : string) : host Z :=
  t ← read_text path;
  let '(rows, e) := dict_rows t in
  print_lines fmt_row rows;;
  lift e;; mret 0.

End trace_to_text.

(** ** The trace *)

Module retire_csv.

(** A row as the simulator prints it: one instruction retired. *)
Record retired := Retired {
  cycle : Z; pc : Z; instr : Z; mnemonic : string;
  rd_wen : bool; rd : Z; rd_wdata : Z;
  fp_wen : bool; fp_rd : Z; fp_wdata : Z;
  csr_wen : bool; csr_addr : Z; csr_wdata : Z;
  mem_wen : bool; mem_addr : Z; mem_wdata : Z; mem_funct3 : Z;
  trap_taken : bool; trap_cause : Z;
}.

Definition flag_text (b : bool) : string := if b then "1" else "0".
Definition header : list string :=
  ["cycle"; "pc"; "instr"; "mnemonic"; "rd_wen"; "rd"; "rd_wdata"; "fp_wen"; "fp_rd"; "fp_wdata";
   "csr_wen"; "csr_addr"; "csr_wdata"; "mem_wen"; "mem_addr"; "mem_wdata"; "mem_funct3"; "trap_taken"; "trap_cause"].
Definition fields (r : retired) : list string :=
  [str_Z (cycle r); fmt_hex 16 (pc r); fmt_hex 8 (instr r); mnemonic r;
   flag_text (rd_wen r); str_Z (rd r); fmt_hex 16 (rd_wdata r);
   flag_text (fp_wen r); str_Z (fp_rd r); fmt_hex 16 (fp_wdata r);
   flag_text (csr_wen r); fmt_hex 3 (csr_addr r); fmt_hex 16 (csr_wdata r);
   flag_text (mem_wen r); fmt_hex 16 (mem_addr r); fmt_hex 16 (mem_wdata r); str_Z (mem_funct3 r);
   flag_text (trap_taken r); str_Z (trap_cause r)].
Definition trace_text (l : list retired) : string := csv_text (header :: (fields <$> l)).

Definition word (n v : Z) : Prop := 0 ≤ v < 2 ^ n.
Definition retired_ok (r : retired) : Prop :=
  Forall (word 64) [cycle r; pc r; rd_wdata r; fp_wdata r; csr_wdata r; mem_addr r; mem_wdata r; rd r; fp_rd r; mem_funct3 r; trap_cause r]
  ∧ word 32 (instr r) ∧ word 12 (csr_addr r) ∧ plain_field (mnemonic r).

(** What is compared, and what a line of the text shows. *)
Definition key (r : retired) : Z * Z * Z * Z := (pc r, rd_wdata r, fp_wdata r, mem_wdata r).

Inductive write := WriteX (rd v : Z) | WriteF (rd v : Z) | WriteMem (a v : Z) | WriteCsr (a v : Z) | Trap (cause : Z).
Definition writes (r : retired) : list write :=
  (if rd_wen r && negb (rd r =? 0) then [WriteX (rd r) (rd_wdata r)] else []) ++
  (if fp_wen r then [WriteF (fp_rd r) (fp_wdata r)] else []) ++
  (if mem_wen r then [WriteMem (mem_addr r) (mem_wdata r)] else []) ++
  (if csr_wen r then [WriteCsr (csr_addr r) (csr_wdata r)] else []) ++
  (if trap_taken r then [Trap (trap_cause r)] else []).
Definition write_text (w : write) : string :=
  match w with
  | WriteX rd v => "x" +:+ str_Z rd +:+ " = 0x" +:+ fmt_hex 0 v
  | WriteF rd v => "f" +:+ str_Z rd +:+ " = 0x" +:+ fmt_hex 0 v
  | WriteMem a v => "mem[0x" +:+ fmt_hex 0 a +:+ "] = 0x" +:+ fmt_hex 0 v
  | WriteCsr a v => "csr[0x" +:+ fmt_hex 3 a +:+ "] = 0x" +:+ fmt_hex 0 v
  | Trap c => "trap=" +:+ default (str_Z c) (dict_get (str_Z c) trace_to_text.TRAP_NAMES)
  end.
Definition retired_line (r : retired) : string :=
  pad_left 8 (str_Z (cycle r)) +:+ ": 0x" +:+ fmt_hex 0 (pc r) +:+ "  " +:+ pad_right 10 (mnemonic r)
  +:+ (match writes r with [] => "" | l => "  " +:+ String.concat "  " (write_text <$> l) end).

Definition row_of (r : retired) : row := Row (zip header (Some <$> fields r)) None.

Lemma flag_int b : py_int (flag_text b) = Ok (if b then 1 else 0).
Proof. by destruct b. Qed.


(** *** The trace is read back *)

Lemma dec_char_plain c : is_dec_char c = true → plain_char c = true.
Proof. revert c. apply ascii_impl. vm_compute. reflexivity. Qed.
Lemma hex_char_plain c : is_hex c = true → plain_char c = true.
Proof. revert c. apply ascii_impl. vm_compute. reflexivity. Qed.

Lemma plain_str_Z z : word 64 z → plain_field (str_Z z).
Proof.
  intros Hz. split.
  - generalize (str_Z_dec z). apply str_all_impl. exact dec_char_plain.
  - pose proof (length_str_Z z 64 Hz). unfold field_limit. lia.
Qed.

Lemma plain_fmt_hex w z : (0 < w)%nat → Z.of_nat w ≤ field_limit → word (4 * Z.of_nat w) z → plain_field (fmt_hex w z).
Proof.
  intros Hw Hl Hz. unfold word in Hz. split.
  - generalize (fmt_hex_hex w z (proj1 Hz)). apply str_all_impl. exact hex_char_plain.
  - rewrite length_fmt_hex; [done|done|]. change 16 with (2 ^ 4). by rewrite <-Z.pow_mul_r by lia.
Qed.

Lemma plain_flag b : plain_field (flag_text b).
Proof. by destruct b. Qed.

Lemma retired_fields_plain r : retired_ok r → plain_record (fields r) ∧ length (fields r) = length header.
Proof.
  intros (Hw & Hi & Hc & Hm). split; [|done]. unfold plain_record. do 2 (split; [done|]).
  rewrite !Forall_cons_iff in Hw. destruct Hw as (?&?&?&?&?&?&?&?&?&?&?&_).
  unfold fields. repeat (apply Forall_cons_iff; split);
    first [apply plain_flag|by apply plain_str_Z|apply plain_fmt_hex; [lia|by vm_compute|done]|done].
Qed.

Lemma dict_rows_trace l : Forall retired_ok l → dict_rows (trace_text l) = (row_of <$> l, Ok tt).
Proof.
  intros Hl. unfold trace_text. rewrite dict_rows_plain.
  - by rewrite <-list_fmap_compose.
  - by_decide.
  - by_decide.
  - apply Forall_fmap. eapply Forall_impl; [|exact Hl]. exact retired_fields_plain.
Qed.

Lemma load_rows_trace p l w :
  files w !! p = Some (trace_text l) → Forall retired_ok l → load_rows p w = (Ok (row_of <$> l), w).
Proof.
  intros Hp Hl. unfold load_rows, read_text, mbind, host_bind. rewrite Hp.
  by rewrite dict_rows_trace.
Qed.

(** *** diff_retire.py *)

Definition side_text (i j : nat) (side : string) (r : retired) : string :=
  (if (j =? i)%nat then ">>" else "  ") +:+ pad_left 6 (str_nat j) +:+ " | " +:+ side +:+ " pc=" +:+ fmt_hex 16 (pc r)
  +:+ " mn=" +:+ pad_right 8 (mnemonic r) +:+ " rd=" +:+ fmt_hex 16 (rd_wdata r) +:+ " mem=" +:+ fmt_hex 16 (mem_wdata r).

(** A row is near [i] when it is at most half of [context] rows before or after. *)
Definition near (i : nat) (context : Z) (j : nat) : Prop := 2 * Z.abs (Z.of_nat j - Z.of_nat i) ≤ context.
#[export] Instance near_dec i context j : Decision (near i context j).
Proof. unfold near. apply _. Defined.

(** The rows near [i] that both sides have, in order, from both sides. *)
Definition context_lines (a b : list retired) (i : nat) (context : Z) : list (stream * string) :=
  filter (near i context) (seq 0 (Nat.min (length a) (length b))) ≫= λ j,
    match a !! j, b !! j with
    | Some x, Some y => [(Stdout, side_text i j "A" x); (Stdout, side_text i j "B" y)]
    | _, _ => []
    end.

Definition key_of (r : retired) : option string * option string * option string * option string :=
  (Some (fmt_hex 16 (pc r)), Some (fmt_hex 16 (rd_wdata r)), Some (fmt_hex 16 (fp_wdata r)), Some (fmt_hex 16 (mem_wdata r))).

Lemma diff_key_row r : diff_retire.diff_key (row_of r) = Ok (key_of r).
Proof. reflexivity. Qed.

Lemma fmt_hex_inj w x y : 0 ≤ x → 0 ≤ y → fmt_hex w x = fmt_hex w y → x = y.
Proof. intros Hx Hy E%(f_equal int_of_hex). rewrite !int_of_hex_fmt in E by done. by injection E. Qed.

Lemma key_of_eq x y : retired_ok x → retired_ok y → key_of x = key_of y ↔ key x = key y.
Proof.
  intros (Hx & _) (Hy & _). rewrite !Forall_cons_iff in Hx, Hy. unfold word in *. unfold key_of, key.
  split; [|by intros [= -> -> -> ->]].
  intros [= E1%fmt_hex_inj E2%fmt_hex_inj E3%fmt_hex_inj E4%fmt_hex_inj]; [congruence|tauto..].
Qed.

(** The first rows whose keys differ, or none in the rows that both have. *)
Definition differ_at (a b : list retired) (k : nat) : Prop :=
  ∃ x y, a !! k = Some x ∧ b !! k = Some y ∧ key x ≠ key y ∧ take k (key <$> a) = take k (key <$> b).
Definition agree (a b : list retired) : Prop :=
  let n := Nat.min (length a) (length b) in take n (key <$> a) = take n (key <$> b).

Lemma first_diff_trace i a b : Forall retired_ok a → Forall retired_ok b →
  (∃ k, diff_retire.first_diff i (row_of <$> a) (row_of <$> b) = Ok (Some (i + k)%nat) ∧ differ_at a b k) ∨
  (diff_retire.first_diff i (row_of <$> a) (row_of <$> b) = Ok None ∧ agree a b).
Proof.
  intros Ha. revert i b. induction Ha as [|x a Hx Ha IH]; intros i b Hb; [by right|].
  destruct Hb as [|y b Hy Hb]; [by right|]. rewrite !fmap_cons. cbn [diff_retire.first_diff].
  rewrite !diff_key_row. cbn [mbind res_bind]. case_bool_decide as E.
  - apply key_of_eq in E; [|done..]. destruct (IH (S i) b Hb) as [(k & Hk & Hd)|[Hk Hd]].
    + left. exists (S k). rewrite Hk. split; [do 2 f_equal; lia|].
      destruct Hd as (x' & y' & ? & ? & ? & Ht). exists x', y'. rewrite !fmap_cons. cbn [take]. by rewrite E, Ht.
    + right. split; [done|]. unfold agree in *. rewrite !fmap_cons. cbn [length Nat.min take]. by rewrite E, Hd.
  - left. exists 0%nat. rewrite Nat.add_0_r. split; [done|]. exists x, y. do 2 (split; [done|]). split; [|done].
    intros Hk. by apply E, key_of_eq.
Qed.

Lemma side_line_row i j side r : 0 ≤ j →
  diff_retire.side_line (Z.of_nat i) j side (row_of r) = Ok (side_text i (Z.to_nat j) side r).
Proof.
  intros Hj. unfold side_text, str_nat. rewrite Z2Nat.id by done.
  assert ((Z.to_nat j =? i)%nat = (j =? Z.of_nat i)) as ->; [|reflexivity].
  destruct (Nat.eqb_spec (Z.to_nat j) i), (Z.eqb_spec j (Z.of_nat i)); (done || lia).
Qed.

Lemma print_sides_trace a b i j w x y : 0 ≤ j → a !! Z.to_nat j = Some x → b !! Z.to_nat j = Some y →
  diff_retire.print_sides (row_of <$> a) (row_of <$> b) (Z.of_nat i) j w =
    (Ok tt, logged [(Stdout, side_text i (Z.to_nat j) "A" x); (Stdout, side_text i (Z.to_nat j) "B" y)] w).
Proof.
  intros Hj Hx Hy.
  assert (∀ l r, l !! Z.to_nat j = Some r → diff_retire.item (row_of <$> l) j = Ok (row_of r)) as Hi.
  { intros l r Hr. unfold diff_retire.item. by rewrite list_lookup_fmap, Hr. }
  unfold diff_retire.print_sides. rewrite (Hi a x Hx), (Hi b y Hy).
  rewrite (host_bind_ok _ _ w (row_of x) w), (host_bind_ok _ _ w (row_of y) w), !side_line_row by done.
  unfold mbind, host_bind, lift, print, put, logged. cbn [files dirs log ran]. by rewrite <-app_assoc.
Qed.

Lemma window_bounds n i context j : j ∈ diff_retire.window n i context → 0 ≤ j < n.
Proof. unfold diff_retire.window. intros H%elem_of_seqZ. lia. Qed.

Lemma filter_seq (lo hi n : nat) : filter (λ j, (lo ≤ j < hi)%nat) (seq 0 n) = seq lo (Nat.min hi n - lo).
Proof.
  induction n as [|n IH]; [by rewrite Nat.min_0_r|]. rewrite seq_S, list.filter_app, IH, filter_cons. cbn [Nat.add].
  case_decide as H.
  - replace (Nat.min hi (S n) - lo)%nat with (S (n - lo)) by lia. rewrite seq_S.
    replace (Nat.min hi n - lo)%nat with (n - lo)%nat by lia. by replace (lo + (n - lo))%nat with n by lia.
  - rewrite filter_nil, app_nil_r. f_equal. lia.
Qed.

Lemma window_near n i context :
  Z.to_nat <$> diff_retire.window (Z.of_nat n) (Z.of_nat i) context = filter (near i context) (seq 0 n).
Proof.
  unfold diff_retire.window. set (lo := Z.max 0 (Z.of_nat i - context / 2)). set (hi := Z.of_nat i + context / 2 + 1).
  trans (filter (λ j, (Z.to_nat lo ≤ j < Z.to_nat hi)%nat) (seq 0 n)).
  - rewrite filter_seq. unfold seqZ. rewrite <-list_fmap_compose.
    replace (Z.to_nat (Z.min (Z.of_nat n) hi - lo)) with (Nat.min (Z.to_nat hi) n - Z.to_nat lo)%nat by lia.
    generalize (Nat.min (Z.to_nat hi) n - Z.to_nat lo)%nat. intros m. rewrite <-(Nat.add_0_r (Z.to_nat lo)), <-fmap_add_seq.
    apply list_fmap_ext. intros ? j _. unfold compose. lia.
  - apply list_filter_iff. intros j. unfold near, lo, hi. pose proof (Z.div_mod context 2 ltac:(done)).
    pose proof (Z.mod_pos_bound context 2 ltac:(done)). lia.
Qed.

Lemma print_context a b k context w :
  for_each (diff_retire.print_sides (row_of <$> a) (row_of <$> b) (Z.of_nat k))
    (diff_retire.window (Z.of_nat (Nat.min (length a) (length b))) (Z.of_nat k) context) w
  = (Ok tt, logged (context_lines a b k context) w).
Proof.
  unfold context_lines. rewrite <-window_near, list_fmap_bind.
  apply for_each_prints. intros j w' Hj%window_bounds.
  destruct (lookup_lt_is_Some_2 a (Z.to_nat j)) as [x Hx]; [lia|].
  destruct (lookup_lt_is_Some_2 b (Z.to_nat j)) as [y Hy]; [lia|].
  unfold compose. rewrite Hx, Hy. apply print_sides_trace; [lia|done..].
Qed.

Lemma agree_same a b : agree a b → length a = length b → key <$> a = key <$> b.
Proof.
  unfold agree. intros H E. rewrite E, Nat.min_id in H.
  by rewrite !take_ge in H by (rewrite ?length_fmap; lia).
Qed.

Lemma differ_at_keys a b k : differ_at a b k → key <$> a ≠ key <$> b.
Proof.
  intros (x & y & Hx & Hy & Hne & _) E. apply (f_equal (lookup k)) in E.
  rewrite !list_lookup_fmap, Hx, Hy in E. by apply (inj Some) in E.
Qed.

Lemma compare_trace ra rb context w : Forall retired_ok ra → Forall retired_ok rb →
  ∃ code lines, diff_retire.compare (row_of <$> ra) (row_of <$> rb) context w = (Ok code, logged lines w) ∧
    (code = 0 ↔ key <$> ra = key <$> rb) ∧
    ((code = 0 ∧ lines = [(Stdout, "OK " +:+ em_dash +:+ " " +:+ str_nat (length ra) +:+ " rows identical on diff key")]) ∨
     (code = 1 ∧ ∃ k, differ_at ra rb k ∧
        lines = (Stdout, "DIVERGE at row " +:+ str_nat k +:+ ":") :: context_lines ra rb k context) ∨
     (code = 1 ∧ agree ra rb ∧ length ra ≠ length rb ∧
        lines = [(Stdout, "DIVERGE at end: a=" +:+ str_nat (length ra) +:+ " rows, b=" +:+ str_nat (length rb) +:+ " rows")])).
Proof.
  intros Hra Hrb. unfold diff_retire.compare. rewrite !length_fmap.
  destruct (first_diff_trace 0 ra rb Hra Hrb) as [(k & -> & Hd)|[-> Hag]].
  - exists 1, ((Stdout, "DIVERGE at row " +:+ str_nat k +:+ ":") :: context_lines ra rb k context).
    split; [|split; [split; [done|by intros ?%(differ_at_keys ra rb k Hd)]|right; left; eauto]].
    rewrite (host_bind_ok _ _ w (Some (0 + k)%nat) w) by done. cbn [Nat.add].
    rewrite (host_bind_ok _ _ w tt (logged [(Stdout, "DIVERGE at row " +:+ str_nat k +:+ ":")] w)) by done.
    rewrite (host_bind_ok _ _ _ _ _ (print_context ra rb k context _)). by rewrite logged_app.
  - destruct (Nat.eqb_spec (length ra) (length rb)) as [E|E].
    + eexists 0, [_]. split; [|split; [split; [intros _; by apply agree_same|done]|left; split; [done|reflexivity]]].
      by rewrite E, Nat.min_id.
    + eexists 1, [_]. split; [reflexivity|]. split; [split; [done|]|right; right; eauto].
      intros Hk. destruct E. by rewrite <-(length_fmap key ra), Hk, length_fmap.
Qed.

(** *** trace_to_text.py *)

Lemma word_pos n v : word n v → 0 ≤ v.
Proof. by intros []. Qed.

(** The columns of a row, as the script converts them. *)
Lemma int_columns r :
  column_int "cycle" (row_of r) = Ok (cycle r) ∧ column_int "rd" (row_of r) = Ok (rd r) ∧
  column_int "fp_rd" (row_of r) = Ok (fp_rd r) ∧
  column_int "rd_wen" (row_of r) = Ok (if rd_wen r then 1 else 0) ∧
  column_int "fp_wen" (row_of r) = Ok (if fp_wen r then 1 else 0) ∧
  column_int "mem_wen" (row_of r) = Ok (if mem_wen r then 1 else 0) ∧
  column_int "csr_wen" (row_of r) = Ok (if csr_wen r then 1 else 0) ∧
  column_int "trap_taken" (row_of r) = Ok (if trap_taken r then 1 else 0).
Proof.
  repeat split;
    first [transitivity (py_int (str_Z (cycle r))); [reflexivity|apply py_int_str_Z]
          |transitivity (py_int (str_Z (rd r))); [reflexivity|apply py_int_str_Z]
          |transitivity (py_int (str_Z (fp_rd r))); [reflexivity|apply py_int_str_Z]
          |transitivity (py_int (flag_text (rd_wen r))); [reflexivity|by destruct (rd_wen r)]
          |transitivity (py_int (flag_text (fp_wen r))); [reflexivity|by destruct (fp_wen r)]
          |transitivity (py_int (flag_text (mem_wen r))); [reflexivity|by destruct (mem_wen r)]
          |transitivity (py_int (flag_text (csr_wen r))); [reflexivity|by destruct (csr_wen r)]
          |transitivity (py_int (flag_text (trap_taken r))); [reflexivity|by destruct (trap_taken r)]].
Qed.

Lemma hex_columns r : retired_ok r →
  trace_to_text.hex_column "pc" (row_of r) = Ok (pc r) ∧
  trace_to_text.hex_column "rd_wdata" (row_of r) = Ok (rd_wdata r) ∧
  trace_to_text.hex_column "fp_wdata" (row_of r) = Ok (fp_wdata r) ∧
  trace_to_text.hex_column "mem_addr" (row_of r) = Ok (mem_addr r) ∧
  trace_to_text.hex_column "mem_wdata" (row_of r) = Ok (mem_wdata r) ∧
  trace_to_text.hex_column "csr_addr" (row_of r) = Ok (csr_addr r) ∧
  trace_to_text.hex_column "csr_wdata" (row_of r) = Ok (csr_wdata r).
Proof.
  intros (Hw & _ & Hc & _). rewrite !Forall_cons_iff in Hw. destruct Hw as (?&?&?&?&?&?&?&_).
  assert (∀ k n v w, word n v → column k (row_of r) = Ok (Some (fmt_hex w v)) →
    trace_to_text.hex_column k (row_of r) = Ok v) as H7.
  { intros k n v w Hv Hk. unfold trace_to_text.hex_column, column_of. rewrite Hk. cbn [mbind res_bind].
    apply py_int16_fmt. by apply word_pos in Hv. }
  repeat split; (eapply H7; [eassumption|reflexivity]).
Qed.

Lemma extras_trace r : retired_ok r → trace_to_text.extras (row_of r) = Ok (write_text <$> writes r).
Proof.
  intros Hr. destruct (int_columns r) as (_ & H1 & H2 & H3 & H4 & H5 & H6 & H7).
  destruct (hex_columns r Hr) as (_ & K1 & K2 & K3 & K4 & K5 & K6).
  unfold trace_to_text.extras, trace_to_text.extra_if.
  rewrite H1, H2, H3, H4, H5, H6, H7, K1, K2, K3, K4, K5, K6.
  assert (column "trap_cause" (row_of r) = Ok (Some (str_Z (trap_cause r)))) as -> by reflexivity.
  unfold writes. rewrite !fmap_app. cbn [mbind res_bind].
  by destruct (rd_wen r), (rd r =? 0), (fp_wen r), (mem_wen r), (csr_wen r), (trap_taken r).
Qed.

Lemma fmt_row_trace r : retired_ok r → trace_to_text.fmt_row (row_of r) = Ok (retired_line r).
Proof.
  intros Hr. unfold trace_to_text.fmt_row. destruct (int_columns r) as (-> & _).
  destruct (hex_columns r Hr) as (-> & _). rewrite extras_trace by done.
  assert (column_padded "mnemonic" 10 (row_of r) = Ok (pad_right 10 (mnemonic r))) as -> by reflexivity.
  cbn [mbind res_bind]. unfold retired_line. by destruct (writes r).
Qed.

(** *** What the scripts print *)

(** C31: On two retire traces as the simulator writes them, diff_retire.py
    exits 0 exactly when they have the same keys row for row; otherwise it
    exits 1 and reports the first row whose keys differ, followed by the rows
    at most half of the context before or after it, in order and from both
    files, or the different lengths when one is the beginning of the other. *)
Theorem retire_diff_verdict (a b : string) (context : Z) (w : world) (ra rb : list retired)
    (Ha : files w !! a = Some (trace_text ra)) (Hb : files w !! b = Some (trace_text rb))
    (Hra : Forall retired_ok ra) (Hrb : Forall retired_ok rb) :
  ∃ code lines, diff_retire.main a b context w = (Ok code, logged lines w) ∧
    (code = 0 ↔ key <$> ra = key <$> rb) ∧
    ((code = 0 ∧ lines = [(Stdout, "OK " +:+ em_dash +:+ " " +:+ str_nat (length ra) +:+ " rows identical on diff key")]) ∨
     (code = 1 ∧ ∃ k, differ_at ra rb k ∧
        lines = (Stdout, "DIVERGE at row " +:+ str_nat k +:+ ":") :: context_lines ra rb k context) ∨
     (code = 1 ∧ agree ra rb ∧ length ra ≠ length rb ∧
        lines = [(Stdout, "DIVERGE at end: a=" +:+ str_nat (length ra) +:+ " rows, b=" +:+ str_nat (length rb) +:+ " rows")])).
Proof.
  unfold diff_retire.main. rewrite (host_bind_ok _ _ _ _ _ (load_rows_trace a ra w Ha Hra)).
  rewrite (host_bind_ok _ _ _ _ _ (load_rows_trace b rb w Hb Hrb)). by apply compare_trace.
Qed.

(** A file that is not there is status 2, and nothing is compared. *)
Theorem retire_diff_missing a b context w :
  files w !! a = None → is_dir a w = false →
  diff_retire.main a b context w =
    (Ok 2, logged [(Stderr, "error: [Errno 2] No such file or directory: '" +:+ a +:+ "'")] w).
Proof.
  intros Ha Hd. unfold diff_retire.main, load_rows, read_text, mbind, host_bind. rewrite Ha.
  unfold diff_retire.caught. by rewrite Hd.
Qed.

Theorem trace_to_text_lines (p : string) (w : world) (l : list retired)
    (Hp : files w !! p = Some (trace_text l)) (Hl : Forall retired_ok l) :
  trace_to_text.main p w = (Ok 0, logged ((λ r, (Stdout, retired_line r)) <$> l) w).
Proof.
  unfold trace_to_text.main. rewrite (host_bind_ok _ _ w (trace_text l) w) by (unfold read_text; by rewrite Hp).
  cbv beta. rewrite dict_rows_trace by done.
  rewrite (host_bind_ok _ _ w tt (logged ((λ r, (Stdout, retired_line r)) <$> l) w)); [done|].
  rewrite (print_lines_ok _ _ (retired_line <$> l)); [by rewrite <-list_fmap_compose|].
  apply Forall2_fmap_2. clear Hp. induction Hl as [|r l Hr _ IH]; constructor; [by apply fmt_row_trace|done].
Qed.

(** Two runs of three instructions that part at the second. *)
Definition alu_row (cycle pc instr : Z) (mn : string) (rd v : Z) : retired :=
  Retired cycle pc instr mn true rd v false 0 0 false 0 0 false 0 0 0 false 0.
Definition example_a : list retired :=
  [alu_row 10 128 5244179 "addi" 10 5; alu_row 12 132 1050003 "addi" 11 1; alu_row 14 136 11863603 "add" 12 6].
Definition example_b : list retired :=
  [alu_row 10 128 5244179 "addi" 10 5; alu_row 12 132 1050003 "addi" 11 153; alu_row 14 136 11863603 "add" 12 6].
Definition example_csvs : world := World {["a.csv" := trace_text example_a; "b.csv" := trace_text example_b]} ∅ [] [].

Example example_row : record_line (fields (alu_row 12 132 1050003 "addi" 11 153)) =
  "12,0000000000000084,00100593,addi,1,11,0000000000000099,0,0,0000000000000000,0,000,0000000000000000,0,0000000000000000,0000000000000000,0,0,0".
Proof. vm_compute. reflexivity. Qed.
Example example_line : retired_line (alu_row 12 132 1050003 "addi" 11 153) = "      12: 0x84  addi        x11 = 0x99".
Proof. vm_compute. reflexivity. Qed.
Example example_diff : (diff_retire.main "a.csv" "b.csv" 2 example_csvs).1 = Ok 1 ∧
  take 2 (log (diff_retire.main "a.csv" "b.csv" 2 example_csvs).2) =
    [(Stdout, "DIVERGE at row 1:"); (Stdout, "       0 | A pc=0000000000000080 mn=addi     rd=0000000000000005 mem=0000000000000000")].
Proof. vm_compute. done. Qed.

Lemma example_ok : Forall retired_ok example_a ∧ Forall retired_ok example_b.
Proof. split; by_decide. Qed.

Lemma retire_diff_verdict_witness :
  ∃ code lines, diff_retire.main "a.csv" "b.csv" 10 example_csvs = (Ok code, logged lines example_csvs) ∧
    (code = 0 ↔ key <$> example_a = key <$> example_b) ∧ code = 1.
Proof.
  destruct (retire_diff_verdict "a.csv" "b.csv" 10 example_csvs example_a example_b)
    as (code & lines & Hrun & Hcode & _); [vm_compute; reflexivity|vm_compute; reflexivity|apply example_ok|apply example_ok|].
  exists code, lines. split; [exact Hrun|]. split; [exact Hcode|].
  assert ((diff_retire.main "a.csv" "b.csv" 10 example_csvs).1 = Ok 1) as H by (vm_compute; reflexivity).
  rewrite Hrun in H. by injection H.
Defined.
End retire_csv.
