(* ===== verification/Profiles.v ===== *)
(** tools/trace/profile_pc.py and tools/trace/stall_taxonomy.py: the bar charts of
    the hottest program counters (or cache lines) and of the causes of stalls, of
    the CSV files the simulator writes at its end. *)
From S2P Require Export RetireCsv.
From S2P Require Export PySort.
From Stdlib Require Import SpecFloat.
Local Open Scope Z_scope.

(** [x or 1] *)
Definition or_one (x : Z) : Z := if x =? 0 then 1 else x.
Definition sum_Z (l : list Z) : Z := foldr Z.add 0 l.
(** [max(l)] *)
Definition max_Z (l : list Z) : res Z :=
  match l with [] => Raise (ValueError "max() iterable argument is empty") | x :: l => Ok (foldl Z.max x l) end.
(** [l[:n]] *)
Definition py_prefix {A} (n : Z) (l : list A) : list A :=
  take (if 0 <=? n then Z.to_nat n else (length l - Z.to_nat (- n))%nat) l.

(** [f"{v:<n}"] and [f"{v:>n}"] of a column. *)
Definition padded (pad : string → string) (v : option string) : res string :=
  match v with Some s => Ok (pad s) | None => Raise (TypeError no_format) end.

Module profile_pc.

Definition BAR_WIDTH : Z := 40.

(** A bar of the chart: what is counted, a mnemonic, the count. *)
Record entry := Entry { at_pc : option string; mnemonic : option string; count : Z }.

(** [--cacheline]: the lines of 64 bytes, in the order they are met. *)
Definition line_of (pc : Z) : Z := Z.land pc (Z.lnot 63).
Definition group_step (agg : list (Z * (Z * option string))) (r : row) : res (list (Z * (Z * option string))) :=
  pc ← column_of no_int16 py_int16 "pc" r;
  mn ← column "mnemonic" r;
  let line := line_of pc in
  let '(c, m) := default (0, mn) (dict_get line agg) in
  n ← column_int "count" r;
  Ok (dict_set line (c + n, m) agg).
Fixpoint group_rows (agg : list (Z * (Z * option string))) (rows : list row) : res (list (Z * (Z * option string))) :=
  match rows with [] => Ok agg | r :: rows => agg ← group_step agg r; group_rows agg rows end.

Definition line_entry (g : Z * (Z * option string)) : entry := Entry (Some (fmt_hex 16 g.1)) g.2.2 g.2.1.
Definition row_entry (r : row) : res entry :=
  pc ← column "pc" r; mn ← column "mnemonic" r; c ← column_int "count" r; Ok (Entry pc mn c).

Definition flat (cacheline : bool) (rows : list row) : res (list entry) :=
  if cacheline then fmap (M:=list) line_entry <$> group_rows [] rows else mapM (M:=res) row_entry rows.

Definition head_line : string :=
  pad_left 16 "pc" +:+ " " +:+ pad_right 10 "mnemonic" +:+ " " +:+ pad_left 10 "count" +:+ "  fraction  bar".
Definition entry_line (total max_count : Z) (e : entry) : res string :=
  frac ← int_div (count e) total;
  n ← bar_length BAR_WIDTH (count e) max_count;
  pc ← padded (pad_left 16) (at_pc e);
  mn ← padded (pad_right 10) (mnemonic e);
  Ok (pc +:+ " " +:+ mn +:+ " " +:+ pad_left 10 (str_Z (count e)) +:+ "  " +:+ fmt_percent 6 frac +:+ "%  "
      +:+ repeat_str full_block n).

(** [main], after the arguments are parsed. *)
Definition main (path : string) (top : Z) (cacheline : bool) : host Z :=
  rows ← load_rows path;
  match rows with
  | [] => print "(empty profile)";; mret 0
  | _ =>
      flat ← lift (flat cacheline rows);
      let flat := py_prefix top (sort_desc count flat) in
      let total := or_one (sum_Z (count <$> flat)) in
      m ← lift (max_Z (count <$> flat));
      print head_line;;
      print_lines (entry_line total (or_one m)) flat;;
      mret 0
  end.

End profile_pc.

Module stall_taxonomy.

Definition BAR_WIDTH : Z := 30.

Definition keyed (r : row) : res (Z * row) := c ← column_int "cycle_count" r; Ok (c, r).

Definition head_line : string :=
  pad_right 22 "event" +:+ " " +:+ pad_left 10 "cycles" +:+ " " +:+ pad_left 10 "fraction" +:+ "  bar".
Definition stall_line (max_c : Z) (r : row) : res string :=
  c ← column_int "cycle_count" r;
  frac ← column_of no_float py_float "fraction" r;
  n ← bar_length BAR_WIDTH c max_c;
  name ← column_padded "event_name" 22 r;
  Ok (name +:+ " " +:+ pad_left 10 (str_Z c) +:+ " " +:+ fmt_percent 9 frac +:+ "%  " +:+ repeat_str full_block n).

(** [main], after the arguments are parsed. *)
Definition main (path : string) : host Z :=
  rows ← load_rows path;
  keys ← lift (mapM (M:=res) keyed rows);
  let rows := sort_desc fst keys in
  let max_c := or_one (match rows with [] => 1 | (c, _) :: l => foldl Z.max c (fst <$> l) end) in
  print head_line;;
  print_lines (stall_line max_c) (snd <$> rows);;
  mret 0.

End stall_taxonomy.

(** ** The profile *)

Module profile_csv.

(** A line of the profile: an address, its instruction, how often it retired,
    and the simulator's own fraction, which the script does not read. *)
Record sample := Sample { pc : Z; mnemonic : string; count : Z; fraction : string }.
Definition header : list string := ["pc"; "mnemonic"; "count"; "fraction"].
Definition fields (s : sample) : list string := [fmt_hex 16 (pc s); mnemonic s; str_Z (count s); fraction s].
Definition profile_text (l : list sample) : string := csv_text (header :: (fields <$> l)).
Definition total (l : list sample) : Z := sum_Z (count <$> l).

Definition sample_ok (s : sample) : Prop :=
  retire_csv.word 64 (pc s) ∧ retire_csv.word 64 (count s) ∧ plain_field (mnemonic s) ∧ plain_field (fraction s).
(** The simulator adds the counts up in 64 bits. *)
Definition profile_ok (l : list sample) : Prop := Forall sample_ok l ∧ total l < 2 ^ 64.

Definition row_of (s : sample) : row := Row (zip header (Some <$> fields s)) None.

(** A bar of the chart: an address, a mnemonic, a count. *)
Definition bar : Type := Z * string * Z.
Definition height (b : bar) : Z := b.2.
Definition bar_entry (b : bar) : profile_pc.entry :=
  let '(a, m, c) := b in profile_pc.Entry (Some (fmt_hex 16 a)) (Some m) c.

(** Where the 64-byte line of an address starts. *)
Definition line_start (a : Z) : Z := 64 * (a / 64).

Definition on_line (k : Z) (l : list sample) : list sample := filter (λ s, line_start (pc s) = k) l.

(** The bars of cache lines: one for each line that was met, with the mnemonic
    first met there and all the counts. *)
Definition line_bar (l : list sample) (b : bar) : Prop :=
  ∃ s rest, on_line (b.1.1) l = s :: rest ∧ b = (b.1.1, mnemonic s, total (s :: rest)).
Definition line_bars (l : list sample) (bars : list bar) : Prop :=
  NoDup (fst ∘ fst <$> bars) ∧ Forall (line_bar l) bars ∧ sum_Z (height <$> bars) = total l ∧
  ∀ s, s ∈ l → line_start (pc s) ∈ (fst ∘ fst <$> bars).
Definition bars_of (cacheline : bool) (l : list sample) (bars : list bar) : Prop :=
  if cacheline then line_bars l bars else bars = (λ s, (pc s, mnemonic s, count s)) <$> l.

(** What is shown of a list of bars: the [top] highest, highest first, those of
    equal height in their order. *)
Definition top_of (top : Z) (bars shown : list bar) : Prop :=
  ∃ rest, bars ≡ₚ shown ++ rest ∧ descending height (shown ++ rest) ∧
    (∀ h, filter (λ b, height b = h) (shown ++ rest) = filter (λ b, height b = h) bars) ∧
    Z.of_nat (length shown) = Z.min top (Z.of_nat (length bars)).

(** A line of the chart: the blocks are between none and all of the width, and all
    of it for the highest bar. *)
Inductive chart_line (all highest : Z) (b : bar) : string → Prop :=
  | ChartLine frac n :
      int_div (height b) all = Ok frac → 0 ≤ n ≤ 40 → (0 < height b → height b = highest → n = 40) →
      chart_line all highest b
        (pad_left 16 (fmt_hex 16 (b.1.1)) +:+ " " +:+ pad_right 10 (b.1.2) +:+ " " +:+ pad_left 10 (str_Z (height b))
         +:+ "  " +:+ fmt_percent 6 frac +:+ "%  " +:+ repeat_str full_block n).

(** *** The file is read back *)

Lemma sample_fields_plain s : sample_ok s → plain_record (fields s) ∧ length (fields s) = length header.
Proof.
  intros (Hp & Hc & Hm & Hf). split; [|done]. unfold plain_record. do 2 (split; [done|]). unfold fields.
  repeat (apply Forall_cons_iff; split);
    first [by apply retire_csv.plain_str_Z|apply retire_csv.plain_fmt_hex; [lia|by vm_compute|done]|done].
Qed.

Lemma load_rows_profile p l w :
  files w !! p = Some (profile_text l) → Forall sample_ok l → load_rows p w = (Ok (row_of <$> l), w).
Proof.
  intros Hp Hl. unfold load_rows, read_text, mbind, host_bind. rewrite Hp.
  unfold profile_text. rewrite dict_rows_plain.
  - by rewrite <-list_fmap_compose.
  - by_decide.
  - by_decide.
  - apply Forall_fmap. eapply Forall_impl; [|exact Hl]. exact sample_fields_plain.
Qed.

Lemma columns_of s : sample_ok s →
  column_of no_int16 py_int16 "pc" (row_of s) = Ok (pc s) ∧ column "pc" (row_of s) = Ok (Some (fmt_hex 16 (pc s))) ∧
  column "mnemonic" (row_of s) = Ok (Some (mnemonic s)) ∧ column_int "count" (row_of s) = Ok (count s).
Proof.
  intros ([Hp _] & _). split_and!; [|reflexivity..|].
  - transitivity (py_int16 (fmt_hex 16 (pc s))); [reflexivity|by apply py_int16_fmt].
  - transitivity (py_int (str_Z (count s))); [reflexivity|apply py_int_str_Z].
Qed.

(** *** The counts of cache lines *)

Definition summary (l : list sample) : option (Z * option string) :=
  match l with [] => None | s :: _ => Some (total l, Some (mnemonic s)) end.
Definition agg_sum (agg : list (Z * (Z * option string))) : Z := sum_Z ((λ g, g.2.1) <$> agg).
(** What the dictionary holds when [l] has been read. *)
Definition aggregates (l : list sample) (agg : list (Z * (Z * option string))) : Prop :=
  NoDup agg.*1 ∧ (∀ k, dict_get k agg = summary (on_line k l)) ∧ agg_sum agg = total l.

Lemma sum_Z_app l k : sum_Z (l ++ k) = sum_Z l + sum_Z k.
Proof. unfold sum_Z. induction l as [|x l IH]; cbn; [done|]. rewrite IH. lia. Qed.

Lemma sum_Z_perm l k : l ≡ₚ k → sum_Z l = sum_Z k.
Proof. unfold sum_Z. induction 1; cbn [foldr]; lia. Qed.

Lemma agg_sum_set k c m agg :
  agg_sum (dict_set k (c, m) agg) = agg_sum agg + c - default 0 (fst <$> dict_get k agg).
Proof.
  unfold agg_sum, sum_Z. induction agg as [|[k' [c' m']] agg IH]; cbn [dict_set dict_get fmap list_fmap foldr fst snd].
  - cbn. lia.
  - case_decide as E; cbn [fmap list_fmap foldr fst snd]; [cbn; lia|].
    rewrite IH. lia.
Qed.

Lemma on_line_snoc k l s :
  on_line k (l ++ [s]) = on_line k l ++ (if decide (line_start (pc s) = k) then [s] else []).
Proof. unfold on_line. rewrite list.filter_app. cbn. by case_decide. Qed.

Lemma total_snoc l s : total (l ++ [s]) = total l + count s.
Proof. unfold total. rewrite fmap_app, sum_Z_app. cbn. lia. Qed.

Lemma line_of_start a : profile_pc.line_of a = line_start a.
Proof.
  unfold profile_pc.line_of, line_start. rewrite <-Z.ldiff_land. change 63 with (Z.ones 6).
  rewrite Z.ldiff_ones_r, Z.shiftl_mul_pow2, Z.shiftr_div_pow2 by lia. apply Z.mul_comm.
Qed.

Lemma group_step_ok l agg s : sample_ok s → aggregates l agg →
  ∃ agg', profile_pc.group_step agg (row_of s) = Ok agg' ∧ aggregates (l ++ [s]) agg'.
Proof.
  intros Hs (Hnd & Hget & Hsum). destruct (columns_of s Hs) as (H1 & _ & H2 & H3).
  unfold profile_pc.group_step. rewrite H1, H2, H3. cbn [mbind res_bind]. rewrite line_of_start.
  set (k := line_start (pc s)). pose proof (agg_sum_set k) as Hset.
  destruct (default (0, Some (mnemonic s)) (dict_get k agg)) as [c m] eqn:Hd. rewrite Hget in Hd.
  eexists. split; [reflexivity|]. split; [by apply dict_set_NoDup|]. split.
  - intros k'. rewrite on_line_snoc. fold k. destruct (decide (k = k')) as [<-|Hne].
    + rewrite dict_get_set_eq. destruct (on_line k l) as [|s' rest] eqn:El; cbn in Hd; injection Hd as <- <-.
      * cbn. unfold total. cbn. do 2 f_equal. lia.
      * cbn [app summary]. rewrite app_comm_cons, total_snoc. done.
    + by rewrite dict_get_set_ne, app_nil_r.
  - rewrite Hset, total_snoc, Hsum, Hget. destruct (on_line k l); cbn in Hd |- *; injection Hd as <- <-; lia.
Qed.

Lemma group_rows_ok l l' agg : Forall sample_ok l' → aggregates l agg →
  ∃ agg', profile_pc.group_rows agg (row_of <$> l') = Ok agg' ∧ aggregates (l ++ l') agg'.
Proof.
  intros Hl. revert l agg. induction Hl as [|s l' Hs _ IH]; intros l agg Hagg.
  - exists agg. split; [done|]. by rewrite app_nil_r.
  - rewrite fmap_cons. cbn [profile_pc.group_rows]. destruct (group_step_ok l agg s Hs Hagg) as (agg1 & -> & H1).
    cbn [mbind res_bind]. destruct (IH (l ++ [s]) agg1 H1) as (agg2 & H2 & H3). exists agg2. split; [done|].
    by rewrite <-app_assoc in H3.
Qed.

Lemma group_rows_all l : Forall sample_ok l →
  ∃ agg, profile_pc.group_rows [] (row_of <$> l) = Ok agg ∧ aggregates l agg.
Proof. intros Hl. apply (group_rows_ok [] l []); [done|]. split_and!; [constructor|by intros|done]. Qed.

(** The bars before they are sorted. *)
Definition entry_bar (g : Z * (Z * option string)) : bar := (g.1, default "" g.2.2, g.2.1).

Lemma aggregates_bars l agg : aggregates l agg →
  line_bars l (entry_bar <$> agg) ∧ profile_pc.line_entry <$> agg = bar_entry <$> (entry_bar <$> agg).
Proof.
  intros (Hnd & Hget & Hsum).
  assert (∀ g, g ∈ agg → ∃ s rest, on_line g.1 l = s :: rest ∧ g.2 = (total (s :: rest), Some (mnemonic s))) as Hg.
  { intros [k v] Hin. apply dict_get_NoDup in Hin; [|done]. rewrite Hget in Hin.
    unfold summary in Hin. cbn [fst snd]. destruct (on_line k l) as [|s rest]; [done|]. injection Hin as <-. by exists s, rest. }
  assert (fst ∘ fst <$> (entry_bar <$> agg) = agg.*1) as Hk by by rewrite <-list_fmap_compose.
  split; [split_and!|].
  - by rewrite Hk.
  - apply Forall_fmap, list.Forall_forall. intros g (s & rest & Hl & Hv)%Hg. exists s, rest.
    split; [done|]. unfold entry_bar, compose. by rewrite Hv.
  - rewrite <-Hsum. unfold agg_sum. by rewrite <-list_fmap_compose.
  - intros s Hs. rewrite Hk. destruct (decide (line_start (pc s) ∈ agg.*1)) as [|Hn]; [done|exfalso].
    apply dict_get_None in Hn. rewrite Hget in Hn. unfold summary in Hn.
    assert (s ∈ on_line (line_start (pc s)) l) as Hin by (by apply list_elem_of_filter).
    destruct (on_line _ l); [by apply elem_of_nil in Hin|done].
  - rewrite <-list_fmap_compose. apply list_fmap_ext. intros i g Hi%list_elem_of_lookup_2.
    destruct (Hg g Hi) as (s & rest & _ & Hv). unfold profile_pc.line_entry, entry_bar, bar_entry, compose. by rewrite Hv.
Qed.

Lemma rows_bars l : Forall sample_ok l →
  mapM (M:=res) profile_pc.row_entry (row_of <$> l) = Ok (bar_entry <$> ((λ s, (pc s, mnemonic s, count s)) <$> l)).
Proof.
  induction 1 as [|s l Hs _ IH]; [done|]. rewrite !fmap_cons.
  assert (profile_pc.row_entry (row_of s) = Ok (bar_entry (pc s, mnemonic s, count s))) as He.
  { unfold profile_pc.row_entry. destruct (columns_of s Hs) as (_ & -> & -> & ->). done. }
  cbn [mapM]. rewrite He. cbn [mbind res_bind]. by rewrite IH.
Qed.

Lemma total_nonneg l : Forall sample_ok l → 0 ≤ total l ∧ ∀ s, s ∈ l → 0 ≤ count s.
Proof.
  induction 1 as [|s l (_ & [Hc _] & _) _ [IH1 IH2]]; [by split; [|by intros s ?%elem_of_nil]|].
  split; [unfold total, sum_Z in *; cbn [fmap list_fmap foldr]; lia|]. intros s' [->|H]%elem_of_cons; [done|by apply IH2].
Qed.

Lemma flat_bars cacheline l : Forall sample_ok l →
  ∃ bars, profile_pc.flat cacheline (row_of <$> l) = Ok (bar_entry <$> bars) ∧ bars_of cacheline l bars ∧
    sum_Z (height <$> bars) = total l ∧ Forall (λ b, 0 ≤ height b) bars ∧ (l ≠ [] → bars ≠ []).
Proof.
  intros Hl. destruct cacheline; unfold profile_pc.flat, bars_of.
  - destruct (group_rows_all l Hl) as (agg & -> & Hagg). destruct (aggregates_bars l agg Hagg) as [Hb He].
    exists (entry_bar <$> agg). destruct Hb as (Hnd & Hbar & Hsum & Hin). split_and!; [|done|done| |].
    + cbn [fmap res_fmap]. by rewrite <-He.
    + eapply Forall_impl; [|exact Hbar]. intros b (s & rest & Hs & ->). unfold height. cbn [snd].
      apply total_nonneg. rewrite <-Hs. apply list.Forall_forall. intros x [_ Hx]%list_elem_of_filter. rewrite list.Forall_forall in Hl. by apply Hl.
    + intros Hne. destruct l as [|s l]; [done|]. specialize (Hin s ltac:(left)).
      intros E. rewrite E in Hin. by apply elem_of_nil in Hin.
  - eexists. split; [by apply rows_bars|]. split_and!; [done|by rewrite <-list_fmap_compose| |by destruct l].
    apply Forall_fmap, list.Forall_forall. intros s Hs. by apply total_nonneg in Hs.
Qed.

Lemma top_shown top bars : 0 < top → top_of top bars (take (Z.to_nat top) (sort_desc height bars)).
Proof.
  intros Ht. exists (drop (Z.to_nat top) (sort_desc height bars)). rewrite take_drop. split_and!.
  - by rewrite sort_desc_perm.
  - apply sort_desc_sorted.
  - intros h. apply sort_desc_stable.
  - rewrite length_take, (Permutation_length (sort_desc_perm height bars)). lia.
Qed.

Lemma max_Z_spec x l : ∃ m, max_Z (x :: l) = Ok m ∧ m ∈ x :: l ∧ ∀ y, y ∈ x :: l → y ≤ m.
Proof.
  exists (foldl Z.max x l). split; [done|]. revert x. induction l as [|y l IH]; intros x; cbn [foldl].
  - split; [left|]. intros y [->|?%elem_of_nil]%elem_of_cons; done.
  - destruct (IH (Z.max x y)) as [H1 H2]. split.
    + apply elem_of_cons in H1 as [->|H1]; [|set_solver].
      destruct (Z.max_spec x y) as [[_ ->]|[_ ->]]; set_solver.
    + intros z Hz. assert (x ≤ foldl Z.max (Z.max x y) l ∧ y ≤ foldl Z.max (Z.max x y) l) as [? ?]
        by (pose proof (H2 (Z.max x y) ltac:(left)); lia).
      apply elem_of_cons in Hz as [->|[->|Hz]%elem_of_cons]; [done|done|]. apply H2. by right.
Qed.

Lemma sum_Z_elem l : Forall (λ x, 0 ≤ x) l → 0 ≤ sum_Z l ∧ ∀ x, x ∈ l → x ≤ sum_Z l.
Proof.
  unfold sum_Z. induction 1 as [|x l Hx _ [IH1 IH2]]; [by split; [|by intros x ?%elem_of_nil]|]. cbn [foldr].
  split; [lia|]. intros y [->|H%IH2]%elem_of_cons; lia.
Qed.

(** The lines of the bars shown. *)
Lemma chart_lines shown highest : Forall (λ b, 0 ≤ height b) shown → sum_Z (height <$> shown) < 2 ^ 64 →
  (∀ b, b ∈ shown → height b ≤ highest) → highest ∈ height <$> shown →
  let all := or_one (sum_Z (height <$> shown)) in
  ∃ lines, Forall2 (chart_line all highest) shown lines ∧
    Forall2 (λ e t, profile_pc.entry_line all (or_one highest) e = Ok t) (bar_entry <$> shown) lines.
Proof.
  intros Hpos Hsum Hmax Hin all. pose proof (sum_Z_elem (height <$> shown)) as [Hs Hle]; [by apply Forall_fmap|].
  pose proof (Hle _ Hin) as Hh.
  assert (0 ≤ highest) as H0.
  { apply list_elem_of_fmap in Hin as (b & -> & Hb). rewrite list.Forall_forall in Hpos. by apply Hpos. }
  assert (∀ b, b ∈ shown → ∃ t, chart_line all highest b t ∧
    profile_pc.entry_line all (or_one highest) (bar_entry b) = Ok t) as Hline.
  { intros [[a m] c] Hb. rewrite list.Forall_forall in Hpos. pose proof (Hpos _ Hb). pose proof (Hmax _ Hb).
    assert (height (a, m, c) ≤ sum_Z (height <$> shown)) by (apply Hle, list_elem_of_fmap; by eexists).
    change (height (a, m, c)) with c in *.
    destruct (int_div_below c all) as [frac Hf]; [unfold all, or_one; case_match; zbool; lia..|].
    destruct (bar_bounds 40 c (or_one highest)) as (n & Hn & Hb1 & Hb2);
      [lia|unfold or_one; case_match; zbool; lia..|].
    eexists. split; [eapply (ChartLine all highest (a, m, c) frac n); [exact Hf|lia|]|].
    - unfold height. cbn [snd]. intros Hc ->. apply Hb2. unfold or_one. by rewrite (proj2 (Z.eqb_neq _ _)) by lia.
    - unfold profile_pc.entry_line, profile_pc.BAR_WIDTH, bar_entry.
      cbn [profile_pc.count profile_pc.at_pc profile_pc.mnemonic]. rewrite Hf, Hn. done. }
  clearbody all. clear -Hline. induction shown as [|b shown IH]; [by exists []; split; constructor|].
  destruct (Hline b) as (t & H1 & H2); [left|]. destruct IH as (ts & H3 & H4); [intros; apply Hline; by right|].
  exists (t :: ts). by split; constructor.
Qed.

Lemma sum_Z_top top bars : Forall (λ b, 0 ≤ height b) bars →
  sum_Z (height <$> take top (sort_desc height bars)) ≤ sum_Z (height <$> bars) ∧
  Forall (λ b, 0 ≤ height b) (take top (sort_desc height bars)).
Proof.
  intros Hb. rewrite <-(sort_desc_perm height bars) in Hb.
  rewrite <-(sum_Z_perm (height <$> sort_desc height bars) (height <$> bars)) by (by rewrite sort_desc_perm).
  rewrite <-(take_drop top (sort_desc height bars)) in Hb. apply Forall_app in Hb as [H1 H2]. split; [|done].
  rewrite <-(take_drop top (sort_desc height bars)) at 2. rewrite fmap_app, sum_Z_app.
  destruct (sum_Z_elem (height <$> drop top (sort_desc height bars))) as [H _]; [by apply Forall_fmap|]. lia.
Qed.

Lemma nonempty_rows {A} l (x y : A) : l ≠ [] → match row_of <$> l with [] => x | _ => y end = y.
Proof. by destruct l. Qed.

(** C37: The hot-PC chart shows the N highest bars, highest first and ties in
    order; with cache lines each 64-byte line that was met has one bar with
    all of its counts, none lost; no bar is longer than 40 blocks in spite of
    the rounded quotients, and the highest has exactly 40. *)
Theorem profile_chart (path : string) (top : Z) (cacheline : bool) (w : world) (l : list sample)
    (Hp : files w !! path = Some (profile_text l)) (Hl : profile_ok l) (Hne : l ≠ []) (Htop : 0 < top) :
  ∃ bars shown highest lines,
    bars_of cacheline l bars ∧ top_of top bars shown ∧
    highest ∈ height <$> shown ∧ (∀ b, b ∈ shown → height b ≤ highest) ∧
    Forall2 (chart_line (or_one (sum_Z (height <$> shown))) highest) shown lines ∧
    profile_pc.main path top cacheline w = (Ok 0, logged ((λ t, (Stdout, t)) <$> (profile_pc.head_line :: lines)) w).
Proof.
  destruct Hl as [Hl Htot].
  destruct (flat_bars cacheline l Hl) as (bars & Hf & Hb & Hsum & Hpos & Hnb). specialize (Hnb Hne).
  set (shown := take (Z.to_nat top) (sort_desc height bars)). exists bars, shown.
  destruct (sum_Z_top (Z.to_nat top) bars Hpos) as [Hle Hps]. fold shown in Hle, Hps.
  pose proof (top_shown top bars Htop) as Htop_of. fold shown in Htop_of.
  assert (∃ x t, height <$> shown = x :: t) as (x & t & Hsh).
  { destruct Htop_of as (_ & _ & _ & _ & Hlen). destruct (height <$> shown) as [|x t] eqn:E; [|by exists x, t].
    apply (f_equal length) in E. rewrite length_fmap in E. cbn in E. destruct bars; [done|cbn in Hlen; lia]. }
  destruct (max_Z_spec x t) as (highest & Hm & Hin & Hmax). rewrite <-Hsh in Hin, Hmax.
  assert (∀ b, b ∈ shown → height b ≤ highest) as Hmax' by (intros b Hbs; apply Hmax, list_elem_of_fmap; by eexists).
  destruct (chart_lines shown highest Hps) as (lines & Hlines & Hrun); [lia|done|done|].
  exists highest, lines. do 5 (split; [done|]).
  unfold profile_pc.main. rewrite (host_bind_ok _ _ _ _ _ (load_rows_profile path l w Hp Hl)). cbv beta.
  rewrite nonempty_rows by done.
  rewrite (host_bind_ok _ _ w (bar_entry <$> bars) w) by (by rewrite Hf). cbv beta.
  assert (py_prefix top (sort_desc profile_pc.count (bar_entry <$> bars)) = bar_entry <$> shown) as ->.
  { unfold py_prefix. rewrite (proj2 (Z.leb_le 0 top)) by lia.
    rewrite (sort_desc_fmap bar_entry profile_pc.count height) by (by intros [[??]?]). by rewrite <-fmap_take. }
  assert (profile_pc.count <$> (bar_entry <$> shown) = height <$> shown) as ->.
  { rewrite <-list_fmap_compose. apply list_fmap_ext. by intros i [[??]?] _. }
  cbv zeta. rewrite (host_bind_ok _ _ w highest w) by (by rewrite Hsh, Hm). cbv beta.
  rewrite (host_bind_ok _ _ w tt (logged [(Stdout, profile_pc.head_line)] w)) by done.
  rewrite (host_bind_ok _ _ _ _ _ (print_lines_ok _ _ lines _ Hrun)). by rewrite logged_app.
Qed.

(** No bar is asked for: [max] of nothing. *)
Theorem profile_top_zero path cacheline w l :
  files w !! path = Some (profile_text l) → Forall sample_ok l → l ≠ [] →
  profile_pc.main path 0 cacheline w = (Raise (ValueError "max() iterable argument is empty"), w).
Proof.
  intros Hp Hl Hne. destruct (flat_bars cacheline l Hl) as (bars & Hf & _).
  unfold profile_pc.main. rewrite (host_bind_ok _ _ _ _ _ (load_rows_profile path l w Hp Hl)). cbv beta.
  rewrite nonempty_rows by done.
  by rewrite (host_bind_ok _ _ w (bar_entry <$> bars) w) by (by rewrite Hf).
Qed.

(** Three addresses, two of them in one cache line. *)
Definition example_profile : list sample :=
  [Sample 128 "addi" 5000 "0.500000"; Sample 192 "bne" 3000 "0.300000"; Sample 136 "add" 2000 "0.200000"].
Definition example_prof : world := World {["p.csv" := profile_text example_profile]} ∅ [] [].

Example example_cachelines :
  log (profile_pc.main "p.csv" 20 true example_prof).2 =
    [(Stdout, "              pc mnemonic        count  fraction  bar");
     (Stdout, "0000000000000080 addi             7000   70.00%  " +:+ repeat_str full_block 40);
     (Stdout, "00000000000000c0 bne              3000   30.00%  " +:+ repeat_str full_block 17)].
Proof. vm_compute. reflexivity. Qed.

Lemma profile_chart_witness :
  ∃ bars shown highest lines, bars_of true example_profile bars ∧ top_of 1 bars shown ∧
    Forall2 (chart_line (or_one (sum_Z (height <$> shown))) highest) shown lines ∧
    profile_pc.main "p.csv" 1 true example_prof
      = (Ok 0, logged ((λ t, (Stdout, t)) <$> (profile_pc.head_line :: lines)) example_prof).
Proof.
  destruct (profile_chart "p.csv" 1 true example_prof example_profile)
    as (bars & shown & highest & lines & H1 & H2 & _ & _ & H3 & H4).
  - vm_compute. reflexivity.
  - split; [by_decide|vm_compute; reflexivity].
  - discriminate.
  - lia.
  - exists bars, shown, highest, lines. split; [exact H1|]. split; [exact H2|]. split; [exact H3|exact H4].
Defined.
End profile_csv.

(** ** The stalls *)

Module stalls_csv.

(** A line of the stall counters: an event, its cycles, their fraction as text. *)
Record stall := Stall { event_id : string; event_name : string; cycle_count : Z; fraction : string }.
Definition header : list string := ["event_id"; "event_name"; "cycle_count"; "fraction"].
Definition fields (s : stall) : list string := [event_id s; event_name s; str_Z (cycle_count s); fraction s].
Definition stalls_text (l : list stall) : string := csv_text (header :: (fields <$> l)).
Definition stall_ok (s : stall) : Prop :=
  plain_field (event_id s) ∧ plain_field (event_name s) ∧ retire_csv.word 64 (cycle_count s) ∧
  plain_field (fraction s) ∧ res_wp (py_float (fraction s)) (λ _, True).
Definition row_of (s : stall) : row := Row (zip header (Some <$> fields s)) None.

(** A line of the chart; the bar as in the other one. *)
Inductive chart_line (highest : Z) (s : stall) : string → Prop :=
  | ChartLine x n :
      py_float (fraction s) = Ok x → 0 ≤ n ≤ 30 → (0 < cycle_count s → cycle_count s = highest → n = 30) →
      chart_line highest s
        (pad_right 22 (event_name s) +:+ " " +:+ pad_left 10 (str_Z (cycle_count s)) +:+ " " +:+ fmt_percent 9 x
         +:+ "%  " +:+ repeat_str full_block n).

Lemma stall_fields_plain s : stall_ok s → plain_record (fields s) ∧ length (fields s) = length header.
Proof.
  intros (Hi & Hn & Hc & Hf & _). split; [|done]. unfold plain_record. do 2 (split; [done|]). unfold fields.
  repeat (apply Forall_cons_iff; split); first [by apply retire_csv.plain_str_Z|done].
Qed.

Lemma load_rows_stalls p l w :
  files w !! p = Some (stalls_text l) → Forall stall_ok l → load_rows p w = (Ok (row_of <$> l), w).
Proof.
  intros Hp Hl. unfold load_rows, read_text, mbind, host_bind. rewrite Hp.
  unfold stalls_text. rewrite dict_rows_plain.
  - by rewrite <-list_fmap_compose.
  - by_decide.
  - by_decide.
  - apply Forall_fmap. eapply Forall_impl; [|exact Hl]. exact stall_fields_plain.
Qed.

Lemma count_column s : column_int "cycle_count" (row_of s) = Ok (cycle_count s).
Proof. transitivity (py_int (str_Z (cycle_count s))); [reflexivity|apply py_int_str_Z]. Qed.

Lemma keyed_rows l : mapM (M:=res) stall_taxonomy.keyed (row_of <$> l) = Ok ((λ s, (cycle_count s, row_of s)) <$> l).
Proof.
  induction l as [|s l IH]; [done|]. rewrite !fmap_cons.
  assert (stall_taxonomy.keyed (row_of s) = Ok (cycle_count s, row_of s)) as Hs.
  { unfold stall_taxonomy.keyed. by rewrite count_column. }
  cbn [mapM]. rewrite Hs. cbn [mbind res_bind]. by rewrite IH.
Qed.

Lemma stall_line_ok highest s : stall_ok s → cycle_count s ≤ highest → highest < 2 ^ 64 →
  ∃ t, chart_line highest s t ∧ stall_taxonomy.stall_line (or_one highest) (row_of s) = Ok t.
Proof.
  intros (_ & _ & [Hc _] & _ & Hf) Hle Hlt. apply res_wp_ok in Hf as (x & Hx & _).
  destruct (bar_bounds 30 (cycle_count s) (or_one highest)) as (n & Hn & Hb1 & Hb2);
    [lia|unfold or_one; case_match; zbool; lia..|].
  eexists. split; [eapply (ChartLine highest s x n); [exact Hx|lia|]|].
  - intros Hpos E. apply Hb2. unfold or_one. by rewrite (proj2 (Z.eqb_neq _ _)) by lia.
  - unfold stall_taxonomy.stall_line, stall_taxonomy.BAR_WIDTH. rewrite count_column. cbn [mbind res_bind].
    assert (column_of no_float py_float "fraction" (row_of s) = py_float (fraction s)) as -> by reflexivity.
    rewrite Hx. cbn [mbind res_bind]. by rewrite Hn.
Qed.

(** The chart of the stalls: every event, the one with most cycles first. *)
Theorem stall_chart p w l :
  files w !! p = Some (stalls_text l) → Forall stall_ok l →
  ∃ highest lines, (∀ s, s ∈ l → cycle_count s ≤ highest) ∧
    Forall2 (chart_line highest) (sort_desc cycle_count l) lines ∧
    stall_taxonomy.main p w = (Ok 0, logged ((λ t, (Stdout, t)) <$> (stall_taxonomy.head_line :: lines)) w).
Proof.
  intros Hp Hl. set (k := sort_desc cycle_count l).
  set (highest := match cycle_count <$> k with [] => 1 | c :: t => foldl Z.max c t end).
  assert (∀ s, s ∈ k → cycle_count s ≤ highest ∧ highest < 2 ^ 64) as Hmax.
  { intros s Hs. assert (∃ c t, cycle_count <$> k = c :: t) as (c & t & E).
    { destruct (cycle_count <$> k) as [|c t] eqn:E; [|by exists c, t]. destruct k; [by apply elem_of_nil in Hs|done]. }
    destruct (profile_csv.max_Z_spec c t) as (m & [= Hm] & Hin & Hle). unfold highest. rewrite E, Hm, <-E in *.
    split; [apply Hle, list_elem_of_fmap; by eexists|].
    apply list_elem_of_fmap in Hin as (s' & -> & Hs'). unfold k in Hs'. rewrite sort_desc_perm in Hs'.
    rewrite list.Forall_forall in Hl. apply (Hl s' Hs'). }
  assert (∃ lines, Forall2 (chart_line highest) k lines ∧
    Forall2 (λ r t, stall_taxonomy.stall_line (or_one highest) r = Ok t) (row_of <$> k) lines) as (lines & H1 & H2).
  { assert (Forall stall_ok k) as Hk by (unfold k; by rewrite sort_desc_perm).
    clearbody highest k. induction Hk as [|s k Hs _ IH]; [by exists []; split; constructor|].
    destruct (stall_line_ok highest s) as (t & Ht1 & Ht2); [done|apply (Hmax s); left..|].
    destruct IH as (ts & ? & ?); [intros; apply Hmax; by right|]. exists (t :: ts). by split; constructor. }
  exists highest, lines. split; [|split; [done|]].
  { intros s Hs. apply Hmax. unfold k. by rewrite sort_desc_perm. }
  unfold stall_taxonomy.main. rewrite (host_bind_ok _ _ _ _ _ (load_rows_stalls p l w Hp Hl)). cbv beta.
  rewrite (host_bind_ok _ _ w _ w) by (rewrite keyed_rows; reflexivity). cbv beta zeta.
  rewrite (sort_desc_fmap _ fst cycle_count) by done. fold k.
  rewrite (host_bind_ok _ _ w tt (logged [(Stdout, stall_taxonomy.head_line)] w)) by done.
  rewrite <-list_fmap_compose. unfold compose.
  assert (match (λ s, (cycle_count s, row_of s)) <$> k with [] => 1 | (c, _) :: l => foldl Z.max c (fst <$> l) end = highest) as ->.
  { unfold highest. destruct k as [|s k']; [done|]. cbn. f_equal. by rewrite <-list_fmap_compose. }
  rewrite (host_bind_ok _ _ _ _ _ (print_lines_ok _ _ lines _ H2)). by rewrite logged_app.
Qed.

Example example_stalls :
  log (stall_taxonomy.main "s.csv" (World {["s.csv" := stalls_text
    [Stall "0x14" "load_use_stall" 10 "0.082000"; Stall "0x1A" "mem_busy_stall" 40 "0.681000"]]} ∅ [] [])).2 =
    [(Stdout, "event                      cycles   fraction  bar");
     (Stdout, "mem_busy_stall                 40     68.10%  " +:+ repeat_str full_block 30);
     (Stdout, "load_use_stall                 10      8.20%  " +:+ repeat_str full_block 7)].
Proof. vm_compute. reflexivity. Qed.
End stalls_csv.
