(* ===== verification/SynthWns.v ===== *)
(** tools/check_synth_wns.py: the worst slack of a timing report against a floor. *)
From S2P Require Export Host.
From S2P Require Export Regex.
From S2P Require Export PyDecimal.
From Stdlib Require Import SpecFloat.
Local Open Scope Z_scope.

Module check_synth_wns.

Definition blanks : regex := RStar is_space.
(** [([+\-]?\d+\.\d+)] *)
Definition slack_re : regex :=
  RSeqs [ROpt (RClass (one_of "+-")); RPlus is_digit; RStr "."; RPlus is_digit].
Definition pattern : regex :=
  RSeqs [RStr "Setup"; blanks; RStr ":"; blanks; RPlus is_digit; blanks; RStr "Failing Endpoints,"; blanks;
    RStr "Worst Slack"; blanks; RGroup 1 slack_re; RStr "ns"].

(** The lines, to the first with a match. *)
Fixpoint find_wns (path : string) (lines : list string) : res pyfloat :=
  match lines with
  | [] => Raise (RuntimeError ("No 'Setup ... Worst Slack' line found in " +:+ path))
  | l :: lines =>
      match re_search pattern l with
      | Some m => py_float (default "" (group 1 m))
      | None => find_wns path lines
      end
  end.
Definition parse_wns (path : string) : host pyfloat :=
  t ← read_text path; lift (find_wns path (file_lines t)).

(** [main], after the arguments are parsed. *)
Definition main (report : string) (floor : pyfloat) : host Z :=
  wns ← parse_wns report;
  print ("Post-synth WNS: " +:+ fmt_signed 3 wns +:+ " ns (floor " +:+ fmt_signed 3 floor +:+ " ns)");;
  if float_lt wns floor then
    print ("FAIL: WNS regressed below floor by " +:+ fmt_fixed 3 (float_sub floor wns) +:+ " ns");; mret 1
  else print "PASS";; mret 0.

(** ** A timing summary *)

(** The line of the summary, as Vivado prints it, for [n] thousandths; the columns
    are as wide as they come. *)
Definition setup_line (w1 w2 w3 w4 : nat) (endpoints n : Z) (rest : string) : string :=
  "Setup :" +:+ spaces w1 +:+ str_Z endpoints +:+ spaces w2 +:+ "Failing Endpoints," +:+ spaces w3 +:+ "Worst Slack"
  +:+ spaces w4 +:+ thousandths_text n +:+ "ns" +:+ rest.

(** A line that says nothing of the set-up. *)
Definition other_line (s : string) : Prop := no_char "010" s ∧ contains "Setup" s = false.

Lemma pattern_setup b s : starts_with "Setup" s = false → run pattern b s = [].
Proof. intros H. unfold pattern, RSeqs. cbn [foldr]. by apply run_seq_nil, run_str_nil. Qed.

Lemma search_other b s : contains "Setup" s = false → search_from pattern b s = None.
Proof.
  revert b. induction s as [|c s IH]; intros b H.
  - cbn [search_from]. by rewrite pattern_setup.
  - cbn [search_from]. cbn [contains] in H. apply orb_false_iff in H as [H1 H2].
    rewrite pattern_setup by done. by apply IH.
Qed.

Lemma starts_with_newline p s : no_char "010" p → starts_with p (s +:+ newline) = starts_with p s.
Proof.
  unfold no_char. revert s. induction p as [|c p IH]; intros s Hp; [by destruct s|].
  cbn [str_all] in Hp. apply andb_true_iff in Hp as [Hc Hp]. apply negb_true_iff in Hc.
  destruct s as [|d s]; [rewrite str_app_nil_l; unfold newline; cbn [starts_with]; by rewrite Hc|]. rewrite str_app_cons. cbn [starts_with]. by rewrite IH.
Qed.

Lemma contains_newline p s : p ≠ "" → no_char "010" p → contains p (s +:+ newline) = contains p s.
Proof.
  intros Hne Hp. induction s as [|c s IH].
  - rewrite str_app_nil_l. destruct p as [|d p]; [done|]. unfold no_char in Hp. cbn [str_all] in Hp.
    apply andb_true_iff in Hp as [Hc _]. apply negb_true_iff in Hc.
    unfold newline. cbn [contains starts_with]. by rewrite Hc.
  - rewrite str_app_cons. cbn [contains]. rewrite IH. f_equal. by apply (starts_with_newline p (String c s)).
Qed.

(** The slack is what the group holds. *)
Lemma hit_unsigned b n t : 0 ≤ n →
  hit (RSeqs [RPlus is_digit; RStr "."; RPlus is_digit]) b (fmt_scaled 3 n +:+ String "n" t)
    (Found (fmt_scaled 3 n) [] (last_or b (fmt_scaled 3 n)) (String "n" t)).
Proof.
  intros Hn. unfold fmt_scaled. change (10 ^ Z.of_nat 3) with 1000. cbn [Nat.eqb].
  pose proof (Z.mod_pos_bound n 1000 ltac:(lia)) as Hr. rewrite zero_pad_three by done.
  assert (0 ≤ n / 1000) as Hq by (apply Z.div_pos; lia).
  rewrite !str_app_assoc, !last_or_app.
  eapply eq_ind_r with (P := λ m, hit _ _ _ m).
  - repeat first [apply hit_many; [by apply str_Z_digits|apply str_Z_length|done]
      |apply hit_many; [by apply three_digits_all|cbn; lia|done]|hit_step].
  - unfold found_app. cbn [m_text m_groups m_before m_after]. by rewrite !str_app_nil_r.
Qed.

Lemma hit_slack b n t :
  hit slack_re b (thousandths_text n +:+ String "n" t)
    (Found (thousandths_text n) [] (last_or b (thousandths_text n)) (String "n" t)).
Proof.
  unfold thousandths_text. set (u := fmt_scaled 3 (Z.abs n)).
  change slack_re with (RSeq (ROpt (RClass (one_of "+-"))) (RSeqs [RPlus is_digit; RStr "."; RPlus is_digit])).
  destruct (n <? 0).
  - rewrite str_app_assoc, last_or_app. eapply eq_ind_r with (P := λ m, hit _ _ _ m).
    + eapply hit_seq; [by apply hit_alt_l, hit_many|]. apply hit_unsigned. lia.
    + done.
  - rewrite str_app_nil_l. eapply eq_ind_r with (P := λ m, hit _ _ _ m).
    + eapply hit_seq; [apply hit_alt_r; [|apply hit_empty]|apply hit_unsigned; lia].
      destruct (fmt_scaled_digit (Z.abs n)) as (c & t' & E & Hc); [lia|]. unfold u. rewrite E, str_app_cons.
      apply run_nil_first; [done|]. revert Hc. apply ascii_excl. vm_compute. reflexivity.
    + done.
Qed.

Lemma spaces_many b k t : default true (negb ∘ is_space <$> str_head t) = true →
  hit blanks b (spaces k +:+ t) (Found (spaces k) [] (last_or b (spaces k)) t).
Proof. intros Ht. apply hit_many; [apply spaces_space|lia|done]. Qed.

Lemma head_digit_no_space n t : 0 ≤ n → default true (negb ∘ is_space <$> str_head (str_Z n +:+ t)) = true.
Proof.
  intros Hn. pose proof (str_Z_digits n Hn) as Hd. pose proof (str_Z_nonempty n).
  destruct (str_Z n) as [|c s]; [done|]. cbn [str_all] in Hd. apply andb_true_iff in Hd as [Hc _].
  cbn. apply negb_true_iff. revert Hc. apply ascii_excl. vm_compute. reflexivity.
Qed.

Lemma head_slack_no_space n t : default true (negb ∘ is_space <$> str_head (thousandths_text n +:+ t)) = true.
Proof.
  unfold thousandths_text. destruct (n <? 0); [done|]. destruct (fmt_scaled_digit (Z.abs n)) as (c & t' & E & Hc); [lia|].
  rewrite E. cbn. apply negb_true_iff. revert Hc. apply ascii_excl. vm_compute. reflexivity.
Qed.

Lemma search_setup w1 w2 w3 w4 e n rest : 0 ≤ e →
  re_search pattern (setup_line w1 w2 w3 w4 e n rest) ≫= group 1 = Some (thousandths_text n).
Proof.
  intros He.
  assert (∃ m, hit pattern None (setup_line w1 w2 w3 w4 e n rest) m ∧ group 1 m = Some (thousandths_text n)) as (m & Hm & Hg).
  { eexists. split; [unfold pattern, setup_line|].
    - change "Setup :" with ("Setup" +:+ spaces 1 +:+ ":"). rewrite !str_app_assoc.
      repeat first [apply spaces_many; first [by apply head_digit_no_space|apply head_slack_no_space|reflexivity]
        |apply hit_many; [by apply str_Z_digits|apply str_Z_length|by destruct w2]
        |apply hit_slack|exact (hit_str "ns" _ rest)|hit_step].
    - done. }
  unfold re_search. by rewrite (search_from_hit _ _ _ _ Hm).
Qed.

Lemma setup_line_one_line w1 w2 w3 w4 e n rest :
  no_char "010" rest → no_char "010" (setup_line w1 w2 w3 w4 e n rest).
Proof.
  intros Hr. assert (∀ k, no_char "010" (spaces k)) as Hs by (induction k; [done|exact IHk]).
  assert (no_char "010" (str_Z e)) by (pose proof (str_Z_dec e) as Hd; revert Hd; apply str_all_ascii; vm_compute; reflexivity).
  assert (no_char "010" (thousandths_text n))
    by (pose proof (thousandths_chars n) as Hd; revert Hd; apply str_all_ascii; vm_compute; reflexivity).
  unfold setup_line. repeat first [done|apply Hs|apply no_char_cat].
Qed.

(** The first set-up line of the report tells. *)
Lemma find_wns_report path before w1 w2 w3 w4 e n rest after :
  Forall other_line before → 0 ≤ e → no_char "010" rest → Forall (no_char "010") after →
  find_wns path (file_lines (unlines (before ++ setup_line w1 w2 w3 w4 e n rest :: after))) = Ok (thousandths n).
Proof.
  intros Hb He Hr Ha. rewrite file_lines_unlines.
  - rewrite fmap_app, fmap_cons. induction Hb as [|s before [Hs Hc] _ IH].
    + change (((λ s, s +:+ newline) <$> []) ++ ?l) with l.
      assert (setup_line w1 w2 w3 w4 e n rest +:+ newline = setup_line w1 w2 w3 w4 e n (rest +:+ newline)) as ->
        by (unfold setup_line; by rewrite !str_app_assoc).
      pose proof (search_setup w1 w2 w3 w4 e n (rest +:+ newline) He) as Hm. cbn [find_wns].
      destruct (re_search pattern _) as [m|]; [|done]. cbn [mbind option_bind] in Hm. rewrite Hm.
      apply py_float_thousandths.
    + rewrite fmap_cons. cbn [app find_wns]. unfold re_search.
      rewrite search_other by by rewrite contains_newline. exact IH.
  - apply Forall_app. split; [eapply Forall_impl; [|exact Hb]; by intros s [? _]|].
    constructor; [by apply setup_line_one_line|done].
Qed.

Definition shown (n : Z) : string := (if n <? 0 then "-" else "+") +:+ fmt_scaled 3 (Z.abs n).

(** C39: On a timing report whose first set-up line states a slack in
    thousandths of a nanosecond, the WNS check prints slack and floor as they
    are written and exits 1 exactly when the slack is below the floor: binary
    rounding of the two decimals never decides otherwise. *)
Theorem synth_wns_verdict (report : string) (w : world) (before after : list string)
    (w1 w2 w3 w4 : nat) (endpoints slack floor : Z) (rest : string)
    (Hreport : files w !! report = Some (unlines (before ++ setup_line w1 w2 w3 w4 endpoints slack rest :: after)))
    (Hbefore : Forall other_line before) (Hafter : Forall (no_char "010") after) (Hrest : no_char "010" rest)
    (Hend : 0 ≤ endpoints) (Hslack : Z.abs slack < 2 ^ 40) (Hfloor : Z.abs floor < 2 ^ 40) :
  ∃ last, (f ← lift (py_float (thousandths_text floor)); main report f) w =
    (Ok (if slack <? floor then 1 else 0),
     logged [(Stdout, "Post-synth WNS: " +:+ shown slack +:+ " ns (floor " +:+ shown floor +:+ " ns)"); (Stdout, last)] w)
    ∧ (floor ≤ slack → last = "PASS").
Proof.
  exists (if slack <? floor then "FAIL: WNS regressed below floor by " +:+ fmt_fixed 3 (float_sub (thousandths floor) (thousandths slack)) +:+ " ns"
          else "PASS").
  rewrite (host_bind_ok _ _ w (thousandths floor) w) by (by rewrite py_float_thousandths). cbv beta.
  assert (parse_wns report w = (Ok (thousandths slack), w)) as Hp.
  { unfold parse_wns, read_text, mbind, host_bind. rewrite Hreport. unfold lift. by rewrite find_wns_report. }
  split; [|by intros Hle%Z.ltb_ge; rewrite Hle]. unfold main.
  rewrite (host_bind_ok _ _ _ _ _ Hp). rewrite !fmt_thousandths, thousandths_lt by done. fold (shown slack) (shown floor).
  unfold print, put, mbind, host_bind, logged. cbn [files dirs log ran].
  by destruct (slack <? floor); cbn; rewrite <-app_assoc.
Qed.

(** A report without such a line is an error. *)
Theorem synth_wns_missing report floor w lines :
  files w !! report = Some (unlines lines) → Forall other_line lines →
  main report floor w = (Raise (RuntimeError ("No 'Setup ... Worst Slack' line found in " +:+ report)), w).
Proof.
  intros Hr Hl. unfold main, parse_wns, read_text, mbind, host_bind. rewrite Hr. unfold lift.
  rewrite file_lines_unlines by (eapply Forall_impl; [|exact Hl]; by intros s [? _]).
  assert (find_wns report ((λ s, s +:+ newline) <$> lines)
    = Raise (RuntimeError ("No 'Setup ... Worst Slack' line found in " +:+ report))) as ->; [|done].
  clear Hr. induction Hl as [|s lines [Hs Hc] _ IH]; [done|]. rewrite fmap_cons. cbn [find_wns]. unfold re_search.
  rewrite search_other by by rewrite contains_newline. exact IH.
Qed.

(** A report whose slack misses the floor by a thousandth. *)
Definition example_report : string :=
  unlines (["Timing Summary"] ++ setup_line 12 2 2 8 3 (-501) ",  Total Violation       -1.204ns" :: ["Hold  : none"]).
Definition example_timing : world := World {["t.txt" := example_report]} ∅ [] [].

Example example_run : log (main "t.txt" (thousandths (-500)) example_timing).2 =
  [(Stdout, "Post-synth WNS: -0.501 ns (floor -0.500 ns)"); (Stdout, "FAIL: WNS regressed below floor by 0.001 ns")].
Proof. vm_compute. reflexivity. Qed.

Lemma synth_wns_verdict_witness :
  ∃ last, (f ← lift (py_float "-0.500"); main "t.txt" f) example_timing =
    (Ok 1, logged [(Stdout, "Post-synth WNS: " +:+ shown (-501) +:+ " ns (floor " +:+ shown (-500) +:+ " ns)"); (Stdout, last)] example_timing).
Proof.
  destruct (synth_wns_verdict "t.txt" example_timing ["Timing Summary"] ["Hold  : none"] 12 2 2 8 3 (-501) (-500)
    ",  Total Violation       -1.204ns") as (last & H & _);
    [vm_compute; reflexivity|apply Forall_cons_2; [split; vm_compute; reflexivity|apply Forall_nil_2]
    |apply Forall_cons_2; [vm_compute; reflexivity|apply Forall_nil_2]|vm_compute; reflexivity|lia|lia|lia|].
  exists last. exact H.
Defined.
End check_synth_wns.
