(* ===== verification/TestFloat.v ===== *)
(** tools/gen_testfloat_vectors.py: the stimulus files of the floating-point test
    benches, from the output of Berkeley's testfloat_gen. *)
From S2P Require Export Host.
Local Open Scope Z_scope.

Module gen_testfloat_vectors.

Definition OPS_2OP_S : list string := ["f32_add"; "f32_sub"; "f32_mul"].
Definition OPS_2OP_D : list string := ["f64_add"; "f64_sub"; "f64_mul"].
Definition OPS_3OP_S : list string := ["f32_mulAdd"].
Definition OPS_3OP_D : list string := ["f64_mulAdd"].
Definition CVT_OPS : list string :=
  ["f32_to_i32"; "f32_to_ui32"; "f32_to_i64"; "f32_to_ui64";
   "f64_to_i32"; "f64_to_ui32"; "f64_to_i64"; "f64_to_ui64";
   "i32_to_f32"; "ui32_to_f32"; "i64_to_f32"; "ui64_to_f32";
   "i32_to_f64"; "ui32_to_f64"; "i64_to_f64"; "ui64_to_f64";
   "f32_to_f64"; "f64_to_f32"].

(** The rounding modes: the name, the flag of testfloat_gen, the byte put into
    the lines. *)
Definition mode : Type := string * (string * Z).
Definition RMS : list mode :=
  [("rne", ("-rnear_even", 0)); ("rtz", ("-rminMag", 1)); ("rdn", ("-rmin", 2)); ("rup", ("-rmax", 3));
   ("rmm", ("-rnear_maxMag", 4))].

Definition all_ops : list string := OPS_2OP_S ++ OPS_2OP_D ++ OPS_3OP_S ++ OPS_3OP_D ++ CVT_OPS.

(** [l.insert(n, x)] for [n] at most the length. *)
Definition insert_at {A} (n : nat) (x : A) (l : list A) : list A := take n l ++ x :: drop n l.

Definition with_rm (rm_byte : Z) (line : string) : string :=
  let parts := words line in
  String.concat " " (if (2 <=? length parts)%nat then insert_at (length parts - 1) (fmt_hex 2 rm_byte) parts else parts).

Section script.
(** The programs installed, and the directory above the script's own. *)
Variable exec : program.
Variable root : string.

Definition OUT : string := path_join (path_join (path_join root "tb") "stage5") "testfloat_vectors".
Definition gen_cmd (op rm_flag : string) : command :=
  cmd ["testfloat_gen"; "-tininessafter"; rm_flag; "-level"; "1"; op].
Definition out_name (op rm_name : string) : string := op +:+ "_" +:+ rm_name +:+ ".txt".

Definition run (op : string) (rm : mode) : host unit :=
  let '(rm_name, (rm_flag, rm_byte)) := rm in
  p ← check_call exec (gen_cmd op rm_flag);
  let lines := with_rm rm_byte <$> splitlines (stdout p) in
  write_text (path_join OUT (out_name op rm_name)) (join_lines lines +:+ newline);;
  print ("  wrote " +:+ out_name op rm_name +:+ "  (" +:+ str_nat (length lines) +:+ " lines)").

Definition main : host unit := for_each (λ op, for_each (run op) RMS) all_ops.

(** The module and its [main]. *)
Definition script : host unit := mkdir OUT;; main.
End script.

(** ** The files *)

Lemma words_concat v : Forall (λ s, s ≠ "" ∧ no_space s = true) v → words (String.concat " " v) = v.
Proof.
  unfold words. induction 1 as [|s v [Hne Hs] Hv IH]; [done|]. destruct v as [|s' v].
  - cbn [String.concat]. rewrite <-(str_app_nil_r s) at 1. rewrite words_from_word, str_app_nil_l by done.
    by destruct s.
  - change (String.concat " " (s :: s' :: v)) with (s +:+ spaces 1 +:+ String.concat " " (s' :: v)).
    rewrite words_from_word, str_app_nil_l, words_from_space by done. by rewrite IH.
Qed.

Section files.
Context (exec : program) (root : string).
(** What testfloat_gen prints for an operation and a rounding mode: vectors of
    operands, result and flags. *)
Context (V : string → mode → list (list string)).

Definition vector_ok (v : list string) : Prop :=
  (2 ≤ length v)%nat ∧ Forall (λ s, s ≠ "" ∧ no_space s = true) v.
Definition generates : Prop := ∀ op rm, op ∈ all_ops → rm ∈ RMS →
  V op rm ≠ [] ∧ Forall vector_ok (V op rm) ∧
  ∀ f d, ∃ err, exec (gen_cmd op rm.2.1) f d = (Ok (Process 0 (unlines (String.concat " " <$> V op rm)) err), (f, d)).

(** A line of a file: the rounding mode before the flags. *)
Definition rm_words (rm : mode) (v : list string) : list string := insert_at (length v - 1) (fmt_hex 2 rm.2.2) v.
Definition file_text (op : string) (rm : mode) : string :=
  unlines ((λ v, String.concat " " (rm_words rm v)) <$> V op rm).
Definition file_path (op : string) (rm : mode) : string := path_join (OUT root) (out_name op rm.1).
Definition jobs : list (string * mode) := op ← all_ops; rm ← RMS; [(op, rm)].


Lemma with_rm_vector rm v : vector_ok v → with_rm rm.2.2 (String.concat " " v) = String.concat " " (rm_words rm v).
Proof. intros [Hlen Hv]. unfold with_rm. rewrite words_concat by done. by rewrite (proj2 (Nat.leb_le _ _)). Qed.

Lemma rm_words_ok rm v : rm ∈ RMS → vector_ok v → vector_ok (rm_words rm v).
Proof.
  intros Hrm [Hlen Hv]. unfold vector_ok, rm_words, insert_at. split.
  - rewrite length_app. cbn [length]. rewrite length_take, length_drop. lia.
  - apply Forall_app. split; [by apply Forall_take|]. constructor; [|by apply Forall_drop].
    assert (Forall (λ rm : mode, fmt_hex 2 rm.2.2 ≠ "" ∧ no_space (fmt_hex 2 rm.2.2) = true) RMS) as H by by_decide.
    rewrite list.Forall_forall in H. by apply H.
Qed.

Lemma vector_line v : vector_ok v → no_linebreak (String.concat " " v) = true.
Proof.
  intros [_ Hv]. unfold no_linebreak. induction Hv as [|s v [_ Hs] _ IH]; [done|].
  assert (str_all (λ c, negb (is_linebreak c)) s = true) as Hl by (revert Hs; apply str_all_ascii; vm_compute; reflexivity).
  destruct v as [|s' v]; [done|].
  change (String.concat " " (s :: s' :: v)) with (s +:+ " " +:+ String.concat " " (s' :: v)).
  rewrite !str_all_app, Hl, IH. done.
Qed.

Lemma join_lines_end l : l ≠ [] → join_lines l +:+ newline = unlines l.
Proof.
  induction l as [|s l IH]; [done|]. intros _. destruct l as [|s' l].
  - unfold unlines. cbn. by rewrite str_app_nil_r.
  - change (join_lines (s :: s' :: l)) with (s +:+ newline +:+ join_lines (s' :: l)).
    change (unlines (s :: s' :: l)) with ((s +:+ newline) +:+ unlines (s' :: l)).
    by rewrite !str_app_assoc, IH.
Qed.

Lemma jobs_in op rm : (op, rm) ∈ jobs → op ∈ all_ops ∧ rm ∈ RMS.
Proof. unfold jobs. rewrite list_elem_of_bind. intros (op' & (rm' & [= -> ->]%list_elem_of_singleton & ?)%list_elem_of_bind & ?). done. Qed.

Lemma out_name_plain op rm : op ∈ all_ops → rm ∈ RMS → plain_name (out_name op rm.1).
Proof.
  intros Hop Hrm.
  assert (Forall (λ j : string * mode, out_name j.1 j.2.1 ≠ "" ∧ no_char "/" (out_name j.1 j.2.1)) jobs) as H by by_decide.
  rewrite list.Forall_forall in H. apply (H (op, rm)). unfold jobs. apply list_elem_of_bind. exists op. split; [|done].
  apply list_elem_of_bind. exists rm. split; [|done]. by apply list_elem_of_singleton.
Qed.

(** What one job does. *)
Definition written (w : world) (j : string * mode) : world :=
  World (<[file_path j.1 j.2 := file_text j.1 j.2]> (files w)) (dirs w)
    (log w ++ [(Stdout, "  wrote " +:+ out_name j.1 j.2.1 +:+ "  (" +:+ str_nat (length (V j.1 j.2)) +:+ " lines)")])
    (ran w ++ [gen_cmd j.1 j.2.2.1]).

Lemma OUT_nonempty : OUT root ≠ "".
Proof.
  unfold OUT. generalize (path_join (path_join root "tb") "stage5"). intros a. unfold path_join.
  change (starts_with "/" "testfloat_vectors") with false. cbv iota.
  destruct (String.eqb a "."); [done|]. destruct (String.eqb a "/"); [done|]. by destruct a.
Qed.

Context (Hgen : generates).
Definition ready (w : world) : Prop := is_dir (OUT root) w = true ∧ ∀ op rm, (op, rm) ∈ jobs → is_dir (file_path op rm) w = false.

Lemma run_ok op rm w : op ∈ all_ops → rm ∈ RMS → (op, rm) ∈ jobs → ready w → run exec root op rm w = (Ok tt, written w (op, rm)).
Proof.
  intros Hop Hrm Hin [Hd Hf]. destruct (Hgen op rm Hop Hrm) as (Hne & Hok & Hex). specialize (Hf op rm Hin).
  destruct rm as [rm_name [rm_flag rm_byte]]. unfold run. destruct (Hex (files w) (dirs w)) as [err He]. cbn [fst snd] in He.
  set (w1 := World (files w) (dirs w) (log w) (ran w ++ [gen_cmd op rm_flag])).
  set (p := Process 0 (unlines (String.concat " " <$> V op (rm_name, (rm_flag, rm_byte)))) err) in He.
  rewrite (host_bind_ok _ _ w p w1).
  2:{ unfold check_call. rewrite (host_bind_ok _ _ _ _ _ (subprocess_ok _ _ _ _ _ _ He)). done. }
  cbv beta zeta. unfold p. cbn [stdout].
  rewrite splitlines_unlines by (apply Forall_fmap; eapply Forall_impl; [|exact Hok]; exact vector_line).
  rewrite <-list_fmap_compose, length_fmap.
  assert ((λ v, with_rm rm_byte (String.concat " " v)) <$> V op (rm_name, (rm_flag, rm_byte)) =
    (λ v, String.concat " " (rm_words (rm_name, (rm_flag, rm_byte)) v)) <$> V op (rm_name, (rm_flag, rm_byte))) as E.
  { apply list_fmap_ext. intros i v Hv. apply (with_rm_vector (rm_name, (rm_flag, rm_byte))).
    eapply Forall_lookup_1 in Hok; done. }
  unfold compose. rewrite E, join_lines_end by by destruct (V op _).
  pose proof (out_name_plain op _ Hop Hrm) as Hn. cbn [fst] in Hn.
  rewrite (host_bind_ok _ _ w1 tt (set_files (<[file_path op (rm_name, (rm_flag, rm_byte)) := file_text op (rm_name, (rm_flag, rm_byte))]> (files w1)) w1)).
  - done.
  - apply write_text_ok; [unfold file_path; rewrite parent_join by (apply OUT_nonempty || done); exact Hd|exact Hf].
Qed.

(** The loops run the jobs one after the other. *)
Lemma for_each_nested {A B} (f : A → B → host unit) l k w :
  for_each (λ a, for_each (f a) k) l w = for_each (λ j, f j.1 j.2) (a ← l; b ← k; [(a, b)]) w.
Proof.
  revert w. induction l as [|a l IH]; intros w; [done|]. cbn [for_each mbind list_bind]. rewrite for_each_app.
  apply host_bind_ext; [|intros _; exact IH]. clear IH w.
  induction k as [|b k IH]; intros w; [done|]. cbn [for_each mbind list_bind app fst snd].
  by apply host_bind_ext.
Qed.

Lemma jobs_ok js w : (∀ j, j ∈ js → j ∈ jobs) → ready w →
  for_each (λ j, run exec root j.1 j.2) js w = (Ok tt, foldl written w js).
Proof.
  revert w. induction js as [|[op rm] js IH]; intros w Hjs Hw; [done|]. cbn [for_each foldl fst snd].
  pose proof (Hjs (op, rm) ltac:(left)) as Hin. destruct (jobs_in op rm Hin) as [Hop Hrm].
  rewrite (host_bind_ok _ _ _ _ _ (run_ok op rm w Hop Hrm Hin Hw)). apply IH; [intros; apply Hjs; by right|].
  exact Hw.
Qed.

(** What all the jobs leave. *)
Lemma written_files js w : NoDup ((λ j, file_path j.1 j.2) <$> js) →
  (∀ j, j ∈ js → files (foldl written w js) !! file_path j.1 j.2 = Some (file_text j.1 j.2)) ∧
  leaves ((λ j, file_path j.1 j.2) <$> js) (files w) (files (foldl written w js)) ∧
  ran (foldl written w js) = ran w ++ ((λ j, gen_cmd j.1 j.2.2.1) <$> js).
Proof.
  revert w. induction js as [|j js IH]; intros w Hnd.
  { split_and!; [by intros j ?%elem_of_nil|done|by rewrite app_nil_r]. }
  rewrite fmap_cons in Hnd. apply list.NoDup_cons in Hnd as [Hj Hnd]. cbn [foldl].
  destruct (IH (written w j) Hnd) as (H1 & H2 & H3). split_and!.
  - intros j' [->|Hin]%elem_of_cons; [|by apply H1]. rewrite (H2 _ Hj). apply lookup_insert_eq.
  - intros p [Hne Hp]%not_elem_of_cons. rewrite (H2 p Hp). by apply lookup_insert_ne.
  - rewrite H3. cbn [written ran]. by rewrite <-app_assoc.
Qed.

Lemma paths_distinct : NoDup ((λ j, file_path j.1 j.2) <$> jobs).
Proof.
  assert (NoDup ((λ j : string * mode, out_name j.1 j.2.1) <$> jobs)) as Hn by by_decide.
  assert (∀ js, (∀ j, j ∈ js → j ∈ jobs) → NoDup ((λ j : string * mode, out_name j.1 j.2.1) <$> js) →
    NoDup ((λ j, file_path j.1 j.2) <$> js)) as H.
  { clear Hn. induction js as [|j js IH]; intros Hjs Hnd; [constructor|]. rewrite !fmap_cons in *.
    apply list.NoDup_cons in Hnd as [Hj Hnd]. constructor; [|apply IH; [intros; apply Hjs; by right|done]].
    intros (j' & E & Hj')%list_elem_of_fmap. apply Hj, list_elem_of_fmap. exists j'. split; [|done].
    destruct j as [op rm], j' as [op' rm']. cbn [fst snd] in *.
    destruct (jobs_in op rm (Hjs _ ltac:(left))), (jobs_in op' rm' (Hjs _ ltac:(by right))).
    apply path_join_inj in E; [done|by apply out_name_plain..]. }
  by apply H.
Qed.

(** The lines of a file, taken apart. *)
Lemma file_words op rm : op ∈ all_ops → rm ∈ RMS →
  words <$> splitlines (file_text op rm) = rm_words rm <$> V op rm.
Proof.
  intros Hop Hrm. destruct (Hgen op rm Hop Hrm) as (_ & Hok & _). unfold file_text.
  rewrite splitlines_unlines.
  - rewrite <-list_fmap_compose. apply list_fmap_ext. intros i v Hv. eapply Forall_lookup_1 in Hok; [|exact Hv].
    by apply words_concat, rm_words_ok.
  - apply Forall_fmap. eapply Forall_impl; [|exact Hok]. intros v Hv. by apply vector_line, rm_words_ok.
Qed.
End files.

(** C40: With a testfloat_gen that prints vectors as documented, the
    generator runs it 130 times and writes one file for each operation and
    rounding mode, every line of which is the vector with the rounding-mode
    byte just before the flags, and changes no other file. *)
Theorem testfloat_files (exec : program) (root : string) (V : string → mode → list (list string)) (w : world)
    (Hgen : generates exec V) (Hmk : can_mkdir (OUT root) w = true)
    (Hdirs : ∀ op rm, (op, rm) ∈ jobs → is_dir (file_path root op rm) (made (OUT root) w) = false) :
  ∃ w', script exec root w = (Ok tt, w') ∧
    (∀ op rm, op ∈ all_ops → rm ∈ RMS → ∃ text, files w' !! file_path root op rm = Some text ∧
       words <$> splitlines text = rm_words rm <$> V op rm) ∧
    leaves ((λ j, file_path root j.1 j.2) <$> jobs) (files w) (files w') ∧
    ran w' = ran w ++ ((λ j, gen_cmd j.1 j.2.2.1) <$> jobs) ∧ length jobs = 130%nat.
Proof.
  destruct (mkdir_ok (OUT root) w Hmk) as [Hm Hd]. set (w0 := made (OUT root) w) in *.
  exists (foldl (written root V) w0 jobs).
  destruct (written_files root V jobs w0 (paths_distinct root)) as (H1 & H2 & H3). split_and!; [| |done|done|done].
  - unfold script. rewrite (host_bind_ok _ _ _ _ _ Hm). unfold main. rewrite for_each_nested.
    by apply jobs_ok.
  - intros op rm Hop Hrm. exists (file_text V op rm). split; [|by eapply file_words].
    apply (H1 (op, rm)). unfold jobs. apply list_elem_of_bind. exists op. split; [|done].
    apply list_elem_of_bind. exists rm. split; [|done]. by apply list_elem_of_singleton.
Qed.

(** A testfloat_gen that prints two vectors for every operation. *)
Definition example_vectors (op : string) (rm : mode) : list (list string) :=
  [["3F800000"; "BF800000"; "00000000"; "00"]; ["3F800000"; "3F800000"; "40000000"; "01"]].
Definition example_gen : program := λ c f d,
  (Ok (Process 0 (unlines (String.concat " " <$> example_vectors "" ("", ("", 0)))) ""), (f, d)).

Lemma example_generates : generates example_gen example_vectors.
Proof. intros op rm _ _. split; [done|]. split; [by_decide|]. intros f d. by exists "". Qed.

Lemma testfloat_files_witness :
  ∃ w', script example_gen "/k" (World ∅ ∅ [] []) = (Ok tt, w') ∧
    files w' !! "/k/tb/stage5/testfloat_vectors/f64_mulAdd_rmm.txt" =
      Some (unlines ["3F800000 BF800000 00000000 04 00"; "3F800000 3F800000 40000000 04 01"]) ∧
    length (ran w') = 130%nat.
Proof.
  destruct (testfloat_files example_gen "/k" example_vectors (World ∅ ∅ [] [])) as (w' & Hrun & _ & _ & Hran & Hlen).
  - exact example_generates.
  - vm_compute. reflexivity.
  - intros op rm Hin. assert (Forall (λ j, is_dir (file_path "/k" j.1 j.2) (made (OUT "/k") (World ∅ ∅ [] [])) = false) jobs) as H
      by (apply (bool_decide_unpack _); vm_compute; exact I).
    rewrite list.Forall_forall in H. exact (H (op, rm) Hin).
  - exists w'. split; [exact Hrun|]. split; [|rewrite Hran, length_app, length_fmap; exact Hlen].
    assert (w' = (script example_gen "/k" (World ∅ ∅ [] [])).2) as -> by by rewrite Hrun.
    vm_compute. reflexivity.
Defined.
End gen_testfloat_vectors.
