(* ===== verification/CommandLine.v ===== *)
(** The tools from their command lines: for each script its argument parser, the
    arguments its [main] reads from the namespace, and the script itself, which
    parses and runs.  A value given as [--name=--] leaves an empty list in the
    namespace, which no script can use; here it is a [TypeError] at once. *)
From S2P Require RtlRules Coverage CrvRunner CosimRunner CycleDiff Profiles RetireCsv SynthWns.
From S2P Require Import Generator.
From S2P Require Import Host PyArgs.
Local Open Scope Z_scope.

(** ** What a script reads from the namespace *)

Section fields.
Variable ns : list (string * value).

Definition ill_typed {A} : res A := Raise (TypeError "").

Definition text (name : string) : res string :=
  match dict_get name ns with Some (VText s) => Ok s | _ => ill_typed end.
Definition int (name : string) : res Z :=
  match dict_get name ns with Some (VInt z) => Ok z | _ => ill_typed end.
Definition float (name : string) : res pyfloat :=
  match dict_get name ns with Some (VFloat x) => Ok x | _ => ill_typed end.
Definition flag (name : string) : res bool :=
  match dict_get name ns with Some (VBool b) => Ok b | _ => ill_typed end.
Definition or_none {A} (field : string → res A) (name : string) : res (option A) :=
  match dict_get name ns with Some VNone => Ok None | _ => Some <$> field name end.
Definition texts (name : string) : res (list string) :=
  match dict_get name ns with
  | Some (VList l) => mapM (M:=res) (λ v, match v with VText s => Ok s | _ => ill_typed end) l
  | _ => ill_typed
  end.
End fields.

(** A field that cannot be read is a [TypeError]. *)
Definition legible {A} (r : res A) : Prop := match r with Ok _ => True | Raise e => e = TypeError "" end.
Lemma text_legible ns name : legible (text ns name).
Proof. unfold text. by destruct (dict_get name ns) as [[]|]. Qed.
Lemma int_legible ns name : legible (int ns name).
Proof. unfold int. by destruct (dict_get name ns) as [[]|]. Qed.

Lemma lift_bind {A B} (r : res A) (f : A → host B) w :
  (lift r ≫= f) w = match r with Ok a => f a w | Raise e => (Raise e, w) end.
Proof. by destruct r. Qed.

(** ** scripts/check_rtl_rules.py *)

Module check_rtl_rules_cli.
Import RtlRules.

Definition p : parser := Parser [Flag "--staged"] [Pos "paths" Any AsStr].

Definition script `{Scandir} (exec : program) (argv : list string) : host Z :=
  ns ← lift (parse_args p argv);
  paths ← lift (texts ns "paths");
  staged ← lift (flag ns "--staged");
  check_rtl_rules.main exec (check_rtl_rules.Args paths staged).
End check_rtl_rules_cli.

(** ** tools/trace/ *)

Module stall_taxonomy_cli.
Definition p : parser := Parser [] [Pos "path" One AsStr].
Definition script (argv : list string) : host Z :=
  ns ← lift (parse_args p argv);
  path ← lift (text ns "path");
  Profiles.stall_taxonomy.main path.
End stall_taxonomy_cli.

Module trace_to_text_cli.
Definition p : parser := Parser [] [Pos "path" One AsStr].
Definition script (argv : list string) : host Z :=
  ns ← lift (parse_args p argv);
  path ← lift (text ns "path");
  RetireCsv.trace_to_text.main path.
End trace_to_text_cli.

Module profile_pc_cli.
Definition p : parser := Parser [Default "--top" AsInt (VInt 20); Flag "--cacheline"] [Pos "path" One AsStr].
Definition script (argv : list string) : host Z :=
  ns ← lift (parse_args p argv);
  path ← lift (text ns "path");
  top ← lift (int ns "--top");
  cacheline ← lift (flag ns "--cacheline");
  Profiles.profile_pc.main path top cacheline.
End profile_pc_cli.

Module diff_retire_cli.
Definition p : parser := Parser [Default "--context" AsInt (VInt 10)] [Pos "a" One AsStr; Pos "b" One AsStr].
Definition script (argv : list string) : host Z :=
  ns ← lift (parse_args p argv);
  a ← lift (text ns "a");
  b ← lift (text ns "b");
  context ← lift (int ns "--context");
  RetireCsv.diff_retire.main a b context.
End diff_retire_cli.

(** ** tools/check_synth_wns.py *)

Module check_synth_wns_cli.
Definition ap : parser := Parser [Required "--floor" AsFloat] [Pos "report" One AsStr].
Definition script (argv : list string) : host Z :=
  ns ← lift (parse_args ap argv);
  report ← lift (text ns "report");
  floor ← lift (float ns "--floor");
  SynthWns.check_synth_wns.main report floor.
End check_synth_wns_cli.

(** ** tools/coverage_gate.py and tools/crv_cov_merge.py *)

Module coverage_gate_cli.
Import Coverage.
Definition ap : parser := Parser
  [Default "--functional" AsStr VNone; Default "--exclude-bins" AsStr VNone; Default "--threshold" AsFloat VNone]
  [Pos "info_file" Optional AsStr].
Definition script (open : string → res (list string)) (argv : list string) : res outcome :=
  ns ← parse_args ap argv;
  functional ← or_none ns (text ns) "--functional";
  exclude_bins ← or_none ns (text ns) "--exclude-bins";
  threshold ← or_none ns (float ns) "--threshold";
  info_file ← or_none ns (text ns) "info_file";
  coverage_gate.main open (coverage_gate.Args functional exclude_bins threshold info_file).
End coverage_gate_cli.

Module crv_cov_merge_cli.
Definition ap : parser :=
  Parser [Default "--out" AsPath (VText "merged.txt")] [Pos "inputs" AtLeastOne AsPath].
Definition script (argv : list string) : host Z :=
  ns ← lift (parse_args ap argv);
  inputs ← lift (texts ns "inputs");
  out ← lift (text ns "--out");
  Coverage.crv_cov_merge.main inputs out.
End crv_cov_merge_cli.

(** ** tools/cycle_diff.py *)

Module cycle_diff_cli.
Import CycleDiff.
Definition ap : parser := Parser
  [Default "--baseline-bin" AsPath VNone; Default "--baseline-commit" AsStr VNone;
   Default "--candidate-bin" AsPath VNone; Required "--prog" AsPath;
   Default "--max-delta" AsFloat (VFloat (decimal false 5 (-2))); Flag "--ignore-x10"] [].
Definition script (exec : program) (pulp_axi_root_env : option string) (argv : list string) : host Z :=
  ns ← lift (parse_args ap argv);
  baseline_bin ← lift (or_none ns (text ns) "--baseline-bin");
  baseline_commit ← lift (or_none ns (text ns) "--baseline-commit");
  candidate_bin ← lift (or_none ns (text ns) "--candidate-bin");
  prog ← lift (text ns "--prog");
  max_delta ← lift (float ns "--max-delta");
  ignore_x10 ← lift (flag ns "--ignore-x10");
  cycle_diff.main exec pulp_axi_root_env
    (cycle_diff.Args baseline_bin baseline_commit candidate_bin prog max_delta ignore_x10).
End cycle_diff_cli.

(** ** tools/crv/generator.py and tools/crv/runner.py *)

Module generator_cli.
Definition p : parser := Parser
  [Opt "--scenario" (Some AsStr) (Some all_scenarios) true VNone; Required "--seed" AsInt;
   Default "--length" AsInt (VInt 200); Required "--out" AsPath] [].

(** [generate_program]: nothing is written before the body is there. *)
Definition write_program {G} `{PyRandom G} (scenario : string) (seed length : Z) (out : string) : host unit :=
  program ← lift (generate_program (G:=G) scenario seed length);
  mkdir (parent out);;
  write_text out program.

Definition script {G} `{PyRandom G} (argv : list string) : host unit :=
  ns ← lift (parse_args p argv);
  scenario ← lift (text ns "--scenario");
  seed ← lift (int ns "--seed");
  length ← lift (int ns "--length");
  out ← lift (text ns "--out");
  write_program (G:=G) scenario seed length out.
End generator_cli.

Module runner_cli.
Import CrvRunner.
Definition p : parser := Parser
  [Required "--scenario" AsStr; Required "--seed" AsInt; Default "--length" AsInt (VInt 200);
   Required "--build-dir" AsPath; Required "--kronos-bin" AsPath; Required "--link-script" AsPath;
   Required "--common-s" AsPath; Required "--sail-trace-script" AsPath; Required "--diff-script" AsPath] [].

(** What [run] is called with. *)
Definition arguments (ns : list (string * value)) : res (runner.config * string * Z * Z) :=
  scenario ← text ns "--scenario";
  seed ← int ns "--seed";
  length ← int ns "--length";
  build_dir ← text ns "--build-dir";
  kronos_bin ← text ns "--kronos-bin";
  link_script ← text ns "--link-script";
  common_s ← text ns "--common-s";
  sail_trace_script ← text ns "--sail-trace-script";
  diff_script ← text ns "--diff-script";
  Ok ({| runner.build_dir := build_dir; runner.kronos_bin := kronos_bin; runner.link_script := link_script;
         runner.common_s := common_s; runner.sail_trace_script := sail_trace_script;
         runner.diff_script := diff_script |}, scenario, seed, length).

Definition script {G} `{PyRandom G} (exec : program) (argv : list string) : host unit :=
  ns ← lift (parse_args p argv);
  '(c, scenario, seed, length) ← lift (arguments ns);
  runner.main (G:=G) exec c scenario seed length.
End runner_cli.

(** ** tools/cosim_fuzz/runner.py *)

Module cosim_runner_cli.
Import CosimRunner.
Definition ap : parser := Parser
  [Required "--program" AsPath; Required "--seed" AsInt; Required "--out-dir" AsPath;
   Required "--kronos-bin" AsPath; Required "--sail-trace-script" AsPath; Required "--diff-script" AsPath;
   Default "--common-s" AsPath (VText "sw/cosim/cosim_common.S");
   Default "--link-ld" AsPath (VText "sw/stage0/link.ld")] [].

Definition arguments (ns : list (string * value)) : res cosim_runner.args :=
  program_c ← text ns "--program";
  seed ← int ns "--seed";
  out_dir ← text ns "--out-dir";
  kronos_bin ← text ns "--kronos-bin";
  sail_trace_script ← text ns "--sail-trace-script";
  diff_script ← text ns "--diff-script";
  common_s ← text ns "--common-s";
  link_ld ← text ns "--link-ld";
  Ok (cosim_runner.Args program_c seed out_dir kronos_bin sail_trace_script diff_script common_s link_ld).

Definition script {G} `{PyRandom G} (exec : program) (sha256_hex : string → string) (argv : list string) : host unit :=
  ns ← lift (parse_args ap argv);
  a ← lift (arguments ns);
  cosim_runner.main (G:=G) exec sha256_hex a.
End cosim_runner_cli.

(** The value of an option whose text is an argument. *)
Ltac meaning_step P :=
  etrans; [eapply (meaning_converted P); [first [by apply argument_plain|by apply argument_int]|done|done]|];
  cbn [convert]; by rewrite ?py_int_str_Z.

(** ** The generator, whatever it is given *)

Section generator.
Context {G : Type} `{PyRandomLaws G}.
Import generator_cli.

(** The value of an option of the parser: of its kind, or the empty list. *)
Lemma generator_value argv ns o : parse_args p argv = Ok ns → o ∈ options p →
  ∃ v, dict_get (o_name o) ns = Some v ∧ (fits o v ∨ o_required o = false ∧ v = o_default o).
Proof. intros Hp Ho. apply parse_typed in Hp as [Hv _]; [|by_decide]. by apply Hv. Qed.

Definition emptied (ns : list (string * value)) (name : string) : Prop := dict_get name ns = Some (VList []).

Lemma generator_scenario argv ns : parse_args p argv = Ok ns →
  (∃ scenario, text ns "--scenario" = Ok scenario ∧ scenario ∈ all_scenarios) ∨
  text ns "--scenario" = ill_typed ∧ emptied ns "--scenario".
Proof.
  intros Hp. destruct (generator_value argv ns (Opt "--scenario" (Some AsStr) (Some all_scenarios) true VNone) Hp)
    as (v & Hg & [Hf|[? _]]); [by left| |done].
  apply fits_inv in Hf. cbn [o_conv o_choices o_name] in *. unfold text. rewrite Hg.
  destruct Hf as [->|(s & -> & Hs)]; [by right|]. left. by exists s.
Qed.
Lemma generator_int argv ns o : parse_args p argv = Ok ns → o ∈ options p → o_conv o = Some AsInt →
  (o_required o = false → o_default o = VInt 200) →
  (∃ z, int ns (o_name o) = Ok z) ∨ int ns (o_name o) = ill_typed ∧ emptied ns (o_name o).
Proof.
  intros Hp Ho Hc Hd. destruct (generator_value argv ns o Hp Ho) as (v & Hg & Hv). unfold int, emptied. rewrite Hg.
  destruct Hv as [Hf|[Hr ->]]; [|rewrite (Hd Hr); left; by eexists].
  apply fits_inv in Hf. rewrite Hc in Hf. destruct Hf as [->|(z & ->)]; [by right|left; by exists z].
Qed.
Lemma generator_out argv ns : parse_args p argv = Ok ns →
  (∃ out, text ns "--out" = Ok out) ∨ text ns "--out" = ill_typed ∧ emptied ns "--out".
Proof.
  intros Hp. destruct (generator_value argv ns (Required "--out" AsPath) Hp) as (v & Hg & [Hf|[? _]]);
    [do 3 right; left| |done].
  apply fits_inv in Hf. cbn [o_conv o_name Required] in *. unfold text. rewrite Hg.
  destruct Hf as [->|(s & ->)]; [by right|left; by exists s].
Qed.

(** The program can be put there: the directories above can be made, and there
    is no directory in its place. *)
Definition writable (out : string) (w : world) : Prop :=
  can_mkdir (parent out) w = true ∧ is_dir out (made (parent out) w) = false.

Lemma write_program_ok scenario seed length out w : scenario ∈ all_scenarios →
  ∃ program, generate_program (G:=G) scenario seed length = Ok program ∧
    match write_program (G:=G) scenario seed length out w with
    | (Ok _, w') => files w' = <[out := program]> (files w) ∧ writable out w
    | (Raise e, w') => (∃ m, e = OSError m) ∧ files w' = files w ∧ ¬ writable out w
    end.
Proof.
  intros Hs. destruct (generate_program_ok scenario seed length Hs) as (program & _ & Hg & _).
  exists program. split; [done|]. unfold write_program. rewrite Hg.
  rewrite (host_bind_ok _ _ _ _ _ (eq_refl : lift (Ok program) w = (Ok program, w))). unfold writable.
  destruct (can_mkdir (parent out) w) eqn:Hmk.
  - destruct (mkdir_ok (parent out) w Hmk) as [Em Hpar]. rewrite (host_bind_ok _ _ _ _ _ Em).
    destruct (is_dir out (made (parent out) w)) eqn:Hd.
    + unfold write_text. rewrite Hd, andb_false_r. split; [by eexists|]. split; [done|]. by intros [_ ?].
    + by rewrite (write_text_ok _ _ _ Hpar Hd).
  - assert (existsb (λ d, bool_decide (is_Some (files w !! d))) (parent out :: ancestors (parent out)) = true) as He.
    { apply not_false_iff_true. intros He. apply not_true_iff_false in Hmk. apply Hmk. unfold can_mkdir.
      apply forallb_forall. intros d Hd. apply bool_decide_eq_true, eq_None_not_Some. intros Hs'.
      enough (existsb (λ d, bool_decide (is_Some (files w !! d))) (parent out :: ancestors (parent out)) = true) by congruence.
      apply existsb_exists. exists d. split; [done|]. by apply bool_decide_eq_true. }
    unfold mbind at 1, host_bind. unfold mkdir. rewrite He. split; [by eexists|]. split; [done|]. by intros [[=] _].
Qed.

(** How a run may end. *)
Definition ends_well (argv : list string) (w : world) (end_ : res unit * world) : Prop :=
  match end_ with
  | (Ok _, w') => ∃ ns scenario seed length out program p,
      parse_args generator_cli.p argv = Ok ns ∧ text ns "--scenario" = Ok scenario ∧ int ns "--seed" = Ok seed ∧
      int ns "--length" = Ok length ∧ text ns "--out" = Ok out ∧
      generate_program (G:=G) scenario seed length = Ok program ∧ files w' = <[out := program]> (files w) ∧
      mapM decode_insn (read_program program) = Some p ∧ Forall imm_ok p ∧
      def_before_use (entry_live scenario) p ∧ preserves frame p
  | (Raise (SystemExit c), w') =>
      parse_args generator_cli.p argv = Raise (SystemExit c) ∧ w' = w ∧
      (c = 2 ∨ c = 0 ∧ ∃ arg, arg ∈ argv ∧ help_request arg)
  | (Raise (TypeError _), w') =>
      w' = w ∧ ∃ ns o, parse_args generator_cli.p argv = Ok ns ∧ o ∈ options generator_cli.p ∧ emptied ns (o_name o)
  | (Raise (OSError _), w') =>
      files w' = files w ∧ ∃ ns out, parse_args generator_cli.p argv = Ok ns ∧ text ns "--out" = Ok out ∧ ¬ writable out w
  | _ => False
  end.

(** The four options, each once and in any order. *)
Definition four_options (scenario : string) (seed length : Z) (out : string) (argv : list string) : Prop :=
  ∃ gs, gs ≡ₚ [["--scenario"; scenario]; ["--seed"; str_Z seed]; ["--length"; str_Z length]; ["--out"; out]] ∧ argv = concat gs.

(** A run that is asked for a program writes it. *)
Definition obeys (argv : list string) (w : world) (end_ : res unit * world) : Prop :=
  ∀ scenario seed length out,
    scenario ∈ all_scenarios → starts_with "-" out = false → four_options scenario seed length out argv →
    writable (Path out) w →
    ∃ program, generate_program (G:=G) scenario seed length = Ok program ∧
      end_.1 = Ok tt ∧ files end_.2 = <[Path out := program]> (files w).

Lemma generator_ends_well argv w : ends_well argv w (script (G:=G) argv w).
Proof.
  unfold script. rewrite lift_bind. unfold ends_well. pose proof (parse_help generator_cli.p argv) as Hhelp.
  pose proof (parse_args_settled generator_cli.p argv) as Hset.
  destruct (parse_args generator_cli.p argv) as [ns|e] eqn:Hp; [|by destruct Hset as [->| ->]; auto 6].
  cbn [settled] in Hset. clear Hset Hhelp.
  destruct (generator_scenario argv ns Hp) as [(scenario & Hs & Hin)|[Hs Hl]]; rewrite lift_bind, Hs;
    [|split; [done|]; exists ns; eexists; split; [done|]; split; [left|exact Hl]].
  rewrite lift_bind.
  destruct (generator_int argv ns (Required "--seed" AsInt) Hp) as [[seed E1]|[E1 Hl]];
    [right; left|done|done| |cbn [o_name Required] in *; rewrite E1; split; [done|]; exists ns; eexists; split; [done|]; split; [right; left|exact Hl]].
  cbn [o_name Required] in E1. rewrite E1, lift_bind.
  destruct (generator_int argv ns (Default "--length" AsInt (VInt 200)) Hp) as [[length E2]|[E2 Hl]];
    [do 2 right; left|done|done| |cbn [o_name Default] in *; rewrite E2; split; [done|]; exists ns; eexists; split; [done|]; split; [do 2 right; left|exact Hl]].
  cbn [o_name Default] in E2. rewrite E2, lift_bind.
  destruct (generator_out argv ns Hp) as [[out E3]|[E3 Hl]]; rewrite E3;
    [|split; [done|]; exists ns; eexists; split; [done|]; split; [do 3 right; left|exact Hl]].
  destruct (write_program_ok scenario seed length out w Hin) as (program & Hg & Hw).
  destruct (generate_program_ok scenario seed length Hin) as (program' & p & Hg' & Hd & Hi & Hdu & Hpr).
  rewrite Hg in Hg'. injection Hg' as <-.
  destruct (write_program scenario seed length out w) as [[[]|e] w'].
  - destruct Hw as [Hw _]. by exists ns, scenario, seed, length, out, program, p.
  - destruct Hw as ([m ->] & Hw & Hn). split; [done|]. by exists ns, out.
Qed.

Lemma generator_obeys argv w : obeys argv w (script (G:=G) argv w).
Proof.
  intros scenario seed length out Hin Hout (gs & Hgs & ->) Hw.
  assert (well_formed p) as HP by by_decide.
  set (cl := zip (options p) [scenario; str_Z seed; str_Z length; out]).
  assert (starts_with "-" scenario = false) as Hsc.
  { unfold all_scenarios in Hin. repeat (apply elem_of_cons in Hin as [->|Hin]; [done|]). by apply elem_of_nil in Hin. }
  assert (∃ gs', gs = written <$> gs' ∧ cl ≡ₚ gs') as (gs' & -> & Hp) by by apply (Permutation_map_inv written).
  assert (Forall (given_ok p) cl) as Hok.
  { apply given_ok_zip. repeat (apply Forall_cons_2; [first [by apply argument_plain|by apply argument_int]|]). by apply Forall_nil_2. }
  assert (concat (written <$> gs') = (gs' ≫= written) ++ []) as ->.
  { rewrite app_nil_r. clear. induction gs' as [|g gs' IH]; [done|]. rewrite fmap_cons. cbn [concat mbind list_bind]. by rewrite IH. }
  unfold script. rewrite <-(parse_order p HP cl gs');
    [|done|unfold cl; rewrite given_names_zip by done; apply HP|done|done].
  rewrite parse_given by done.
  rewrite (given_state_values _ [VText scenario; VInt seed; VInt length; VText (Path out)]).
  2: { unfold cl, p. cbn [zip zip_with options]. repeat (apply Forall2_cons; [|]); [|meaning_step p..|by constructor].
       unfold meaning. cbn [fst snd o_conv o_choices]. unfold get_values. cbn [remove_first].
       destruct (String.eqb_spec "--" scenario) as [<-|_]; [done|]. cbn [mbind res_bind convert check_choice].
       by rewrite bool_decide_true. }
  destruct (write_program_ok scenario seed length (Path out) w Hin) as (program & Hg & Hwp). exists program. split; [done|].
  revert Hw Hwp. unfold cl. generalize (Path out). intros out' Hw Hwp.
  match goal with |- (?e).1 = _ ∧ _ => assert (e = write_program (G:=G) scenario seed length out' w) as -> by reflexivity end.
  destruct (write_program scenario seed length out' w) as [[[]|e] w']; [by destruct Hwp|]. by destruct Hwp as (_ & _ & Hn).
Qed.

(** C24: The test generator from its command line. On the four options, in
    any order, with a registered scenario and a path that can be written and
    does not begin with a dash, it writes the program of that scenario, seed
    and length there. Whatever the arguments, it ends with status 2, because
    they do not parse, or 0, because one of them asks for help, and nothing
    is changed; with a TypeError, because an option was given as `--name=--`,
    and nothing is changed; with an OSError, because the path cannot be
    written, and no file is changed; or else it has written exactly one file,
    at the path given by --out, holding the well-formed program of the
    scenario, seed and length that the arguments name. *)
Theorem generator_script_safe (argv : list string) (w : world) :
  ends_well argv w (script (G:=G) argv w) ∧ obeys argv w (script (G:=G) argv w).
Proof. split; [apply generator_ends_well|apply generator_obeys]. Qed.
End generator.

(** ** The runner, as the Makefile calls it *)

Section runner.
Context {G : Type} `{PyRandom G}.
Import CrvRunner runner_cli.

(** [--scenario S --seed N --length N ...] *)
Definition command_line (c : runner.config) (scenario : string) (seed length : Z) : list given :=
  zip (options p)
    [scenario; str_Z seed; str_Z length; runner.build_dir c; runner.kronos_bin c; runner.link_script c;
     runner.common_s c; runner.sail_trace_script c; runner.diff_script c].
(** The paths as [Path] writes them. *)
Definition normal (c : runner.config) : runner.config :=
  {| runner.build_dir := Path (runner.build_dir c); runner.kronos_bin := Path (runner.kronos_bin c);
     runner.link_script := Path (runner.link_script c); runner.common_s := Path (runner.common_s c);
     runner.sail_trace_script := Path (runner.sail_trace_script c); runner.diff_script := Path (runner.diff_script c) |}.

(** The options in any order, with texts that are no options, run the scenario
    with the seed and the length that are written. *)
Lemma runner_command_line (exec : program) (c : runner.config) (scenario : string) (seed length : Z)
    (gs : list given) (w : world)
  (Hgs : gs ≡ₚ command_line c scenario seed length)
  (Harg : Forall (λ s, starts_with "-" s = false)
    [scenario; runner.build_dir c; runner.kronos_bin c; runner.link_script c; runner.common_s c;
     runner.sail_trace_script c; runner.diff_script c]) :
  script (G:=G) exec (gs ≫= written) w = runner.main (G:=G) exec (normal c) scenario seed length w.
Proof.
  assert (well_formed p) as HP by by_decide.
  rewrite !Forall_cons_iff in Harg. destruct Harg as (A1 & A2 & A3 & A4 & A5 & A6 & A7 & _).
  assert (Forall (given_ok p) (command_line c scenario seed length)) as Hok.
  { apply given_ok_zip. repeat (apply Forall_cons_2; [first [by apply argument_plain|by apply argument_int]|]). by apply Forall_nil_2. }
  unfold script. rewrite <-(app_nil_r (gs ≫= written)).
  rewrite (parse_order p HP gs (command_line c scenario seed length));
    [|done|rewrite Hgs; unfold command_line; rewrite given_names_zip by done; apply HP|by rewrite Hgs|done].
  rewrite parse_given by done.
  rewrite (given_state_values _ [VText scenario; VInt seed; VInt length; VText (Path (runner.build_dir c));
    VText (Path (runner.kronos_bin c)); VText (Path (runner.link_script c)); VText (Path (runner.common_s c));
    VText (Path (runner.sail_trace_script c)); VText (Path (runner.diff_script c))]).
  2: { unfold command_line, p. cbn [zip zip_with options].
       repeat (apply Forall2_cons; [meaning_step p|]). by constructor. }
  unfold command_line, normal.
  generalize (Path (runner.build_dir c)) (Path (runner.kronos_bin c)) (Path (runner.link_script c))
    (Path (runner.common_s c)) (Path (runner.sail_trace_script c)) (Path (runner.diff_script c)).
  intros p1 p2 p3 p4 p5 p6. reflexivity.
Qed.
End runner.

(** ** The runner never passes by mistake *)

Section no_false_pass.
Context {G : Type} `{PyRandomLaws G}.
Import CrvRunner runner_cli.

Lemma arguments_legible ns : legible (arguments ns).
Proof.
  unfold arguments.
  repeat match goal with
  | |- legible (text ns ?n ≫= _) =>
      pose proof (text_legible ns n); destruct (text ns n); cbn [mbind res_bind]; [|done]
  | |- legible (int ns ?n ≫= _) =>
      pose proof (int_legible ns n); destruct (int ns n); cbn [mbind res_bind]; [|done]
  end. done.
Qed.

(** A run that passed: the six processes in order, each with status 0. *)
Definition passed (exec : program) (c : runner.config) (scenario : string) (seed : Z) (w w' : world) : Prop :=
  let work := runner.work_dir c (runner.run_name scenario seed) in
  ∃ l, attempted exec l w w' ∧ l.*1 = runner.steps c work ∧ Forall succeeded l ∧
    files w' !! runner.kronos_trace work = None ∧ files w' !! runner.sail_trace work = None ∧
    files w' !! runner.diff_out work = None.

(** What the status of a run says. *)
Definition honest (exec : program) (argv : list string) (w : world) (end_ : res unit * world) : Prop :=
  let status := exit_status end_.1 in
  (status = 0 ∨ status = 1 ∨ status = 2)%Z ∧
  (status = 0%Z →
    (parse_args p argv = Raise (SystemExit 0) ∧ end_.2 = w) ∨
    ∃ c scenario seed length, parse_args p argv ≫= arguments = Ok (c, scenario, seed, length) ∧
      passed exec c scenario seed w end_.2).

(** C21: The constrained-random runner never passes by mistake: whatever the
    command line and whatever the tools do, its status is 0, 1 or 2, and 0
    means that help was asked for and nothing was done, or that the six
    processes of the run it was asked for were started in their order, each
    ended with status 0, and the traces and the report are gone. *)
Theorem runner_no_false_pass (exec : program) (argv : list string) (w : world)
  (Hexec : ∀ c f d n, (exec c f d).1 ≠ Raise (SystemExit n)) :
  honest exec argv w (script (G:=G) exec argv w).
Proof.
  unfold honest, script. rewrite lift_bind. pose proof (parse_args_settled p argv) as Hset.
  destruct (parse_args p argv) as [ns|e]; [|destruct Hset as [-> | ->]; cbn; auto; by split; [auto|]].
  rewrite lift_bind. pose proof (arguments_legible ns) as Har. cbn [mbind res_bind].
  destruct (arguments ns) as [[[[c scenario] seed] length]|e]; [|cbn in Har; subst e; cbn; by split; [auto|]].
  unfold runner.main. destruct (runner.run_ends (G:=G) exec c scenario seed length w) as (l & Hl & Hp & _ & He).
  unfold mbind, host_bind. destruct (runner.run exec c scenario seed length w) as [[rc|e] w']; cbn [fst snd] in *.
  - cbn. destruct (decide (rc = 0%Z)) as [->|Hrc].
    + split; [by left|]. intros _. right. exists c, scenario, seed, length. split; [done|]. by exists l.
    + split; [|done]. destruct rc as [|[[|[]|]|[[]|[]|]|]|]; try done; auto.
  - assert (∀ n, e ≠ SystemExit n) as Hn.
    { intros n ->. destruct He as [(m & ?)|[(m & ?)|(l' & cmd & ->)]]; [done..|].
      destruct Hl as [_ [_ Hx]%list.Forall_app]. apply Forall_cons_1 in Hx as [(f & d & Hx) _]. by eapply Hexec. }
    assert (exit_status (A:=unit) (Raise e) = 1%Z) as -> by (destruct e; try done; by destruct (Hn code)).
    split; [auto|done].
Qed.

(** What the success of a co-simulation says. *)
Definition honest_case (exec : program) (sha : string → string) (argv : list string) (w : world)
    (end_ : res unit * world) : Prop :=
  end_.1 = Ok tt →
  ∃ a src src_mut muts, parse_args cosim_runner_cli.ap argv ≫= cosim_runner_cli.arguments = Ok a ∧
    files w !! CosimRunner.cosim_runner.program_c a = Some src ∧
    Mutator.mutator.mutate_file (G:=G) src (CosimRunner.cosim_runner.seed a) = Ok (src_mut, muts) ∧
    let name := CosimRunner.cosim_runner.case_name sha a src_mut in
    let dir := path_join (CosimRunner.cosim_runner.arg_out_dir a) name in
    ∃ l, attempted exec l w end_.2 ∧ CosimRunner.cosim_runner.case_passed a name dir l.

(** C27: The co-simulation runner passes only what passed: whatever the
    command line and whatever the tools do, when it returns, the compiler,
    objcopy, the simulator, Sail and the comparison of the mutated program it
    was asked for were started in this order, the first halt line of the
    simulator said x10 = 0, and the other four ended with status 0. *)
Theorem cosim_no_false_pass (exec : program) (sha : string → string) (argv : list string) (w : world) :
  honest_case exec sha argv w (cosim_runner_cli.script (G:=G) exec sha argv w).
Proof.
  unfold honest_case, cosim_runner_cli.script. rewrite lift_bind.
  destruct (parse_args _ argv) as [ns|e]; [|done]. rewrite lift_bind. cbn [mbind res_bind].
  destruct (cosim_runner_cli.arguments ns) as [a|e]; [|done].
  destruct (CosimRunner.cosim_runner.main_leads (G:=G) exec sha a w) as (l & Hl & HQ).
  destruct (CosimRunner.cosim_runner.main exec sha a w) as [r w']. cbn [fst snd] in *. intros ->.
  destruct (HQ eq_refl) as (src & src_mut & muts & Hs & Hm & Hc). exists a, src, src_mut, muts.
  split_and!; [done..|]. by exists l.
Qed.
End no_false_pass.

(** ** Concrete command lines *)

(** An abbreviated option, one with [=], and a directory to be made; and the
    four options in an order of their own. *)
Lemma generator_script_safe_witness :
  let w := World ∅ {["."]} [] [] in
  let argv := ["--seed=4"; "--scen"; "branch_pred"; "--out"; "build//a.S"; "--len"; "12"] in
  let argv' := ["--seed"; "-4"; "--out"; "build/a.S"; "--length"; "12"; "--scenario"; "branch_pred"] in
  let script := generator_cli.script (G:=Mt19937.mt) in
  (ends_well (G:=Mt19937.mt) argv w (script argv w) ∧ (script argv w).1 = Ok tt) ∧
  four_options "branch_pred" (-4) 12 "build/a.S" argv' ∧ writable "build/a.S" w ∧
  ∃ program, generate_program (G:=Mt19937.mt) "branch_pred" (-4) 12 = Ok program ∧
    (script argv' w).1 = Ok tt ∧ files (script argv' w).2 = <["build/a.S" := program]> ∅.
Proof.
  intros w argv argv' script. split; [split; [exact (proj1 (generator_script_safe argv w))|vm_compute; reflexivity]|].
  assert (four_options "branch_pred" (-4) 12 "build/a.S" argv') as Hgs.
  { exists [["--seed"; "-4"]; ["--out"; "build/a.S"]; ["--length"; "12"]; ["--scenario"; "branch_pred"]].
    split; [apply (bool_decide_unpack _); vm_compute; exact I|reflexivity]. }
  assert (writable "build/a.S" w) as Hw by (split; vm_compute; reflexivity).
  split; [exact Hgs|]. split; [exact Hw|].
  apply (proj2 (generator_script_safe argv' w) "branch_pred" (-4) 12 "build/a.S"); [|reflexivity|exact Hgs|exact Hw].
  apply (bool_decide_unpack _). vm_compute. exact I.
Defined.

(** Tools that do nothing, and say so with status 0. *)
Definition idle : program := λ c f d, (Ok (Process 0 "" ""), (f, d)).

Lemma runner_no_false_pass_witness :
  let w := World ∅ {["."]} [] [] in
  let argv := ["--diff-script=d"; "--scenario"; "traps"; "--seed"; "-2"; "--length=3"; "--build-dir"; "crv/"; "--kronos-bin";
               "V"; "--link-script"; "l.ld"; "--common-s"; "c.S"; "--sail-trace-script"; "s"] in
  (∀ c f d n, (idle c f d).1 ≠ Raise (SystemExit n)) ∧
  honest idle argv w (runner_cli.script (G:=Mt19937.mt) idle argv w).
Proof.
  intros w argv. assert (∀ c f d n, (idle c f d).1 ≠ Raise (SystemExit n)) as Hexec by done.
  split; [exact Hexec|]. exact (runner_no_false_pass (G:=Mt19937.mt) idle argv w Hexec).
Defined.

(** With such tools the runner passes: nothing was divergent. *)
Example idle_tools_pass :
  exit_status (runner_cli.script (G:=Mt19937.mt) idle
    ["--diff-script=d"; "--scenario"; "traps"; "--seed"; "-2"; "--length=3"; "--build-dir"; "crv/"; "--kronos-bin";
     "V"; "--link-script"; "l.ld"; "--common-s"; "c.S"; "--sail-trace-script"; "s"] (World ∅ {["."]} [] [])).1 = 0%Z.
Proof. vm_compute. reflexivity. Qed.

(** A simulator that halts with x10 = 0, among tools that say they succeed. *)
Definition obliging : program := λ c f d,
  (Ok (Process 0 (if String.eqb (hd "" (argv c)) "sim/Vsim_top"
                  then unlines [CosimRunner.cosim_runner.halt_line 9 0] else "") ""), (f, d)).

Lemma cosim_no_false_pass_witness :
  let w := World {[ "sw/cosim/fact.c" := CosimRunner.cosim_runner.example_src ]} ∅ [] [] in
  let argv := ["--program"; "sw/cosim//fact.c"; "--seed"; "7"; "--out-dir"; "obj/cosim"; "--kronos-bin"; "sim/Vsim_top";
               "--sail-trace-script"; "tools/sail_trace.sh"; "--diff-script"; "tools/trace_diff.py"] in
  let script := cosim_runner_cli.script (G:=Mt19937.mt) obliging
    CosimRunner.cosim_runner.example_sha argv w in
  honest_case (G:=Mt19937.mt) obliging CosimRunner.cosim_runner.example_sha argv w script
  ∧ script.1 = Ok tt.
Proof.
  intros w argv script. split; [|vm_compute; reflexivity].
  exact (cosim_no_false_pass (G:=Mt19937.mt) obliging CosimRunner.cosim_runner.example_sha argv w).
Defined.

Example generator_refuses :
  let w := World ∅ {["."]} [] [] in
  let run argv := generator_cli.script (G:=Mt19937.mt) argv w in
  run ["--scenario"; "csr_stress"; "--seed"; "1"; "--out"; "a.S"] = (Raise (SystemExit 2), w)
  ∧ run ["--scenario"; "traps"; "--seed"; "one"; "--out"; "a.S"] = (Raise (SystemExit 2), w)
  ∧ run ["--s"; "traps"; "--seed"; "1"; "--out"; "a.S"] = (Raise (SystemExit 2), w)
  ∧ run ["--scenario"; "traps"; "--seed"; "1"] = (Raise (SystemExit 2), w)
  ∧ run ["--scenario"; "traps"; "--help"] = (Raise (SystemExit 0), w).
Proof. vm_compute. split_and!; reflexivity. Qed.

(** The nightly comparison of cycles. *)
Example cycle_diff_nightly :
  parse_args cycle_diff_cli.ap
    ["--baseline-commit"; "ef7378e"; "--prog"; "sw/perf/dhrystone/build/dhrystone.hex"; "--max-delta"; "0.05"; "--ignore-x10"]
  = Ok [("--baseline-bin", VNone); ("--baseline-commit", VText "ef7378e"); ("--candidate-bin", VNone);
        ("--prog", VText "sw/perf/dhrystone/build/dhrystone.hex"); ("--max-delta", VFloat (decimal false 5 (-2)));
        ("--ignore-x10", VBool true)].
Proof. vm_compute. reflexivity. Qed.

(** Options between positionals, and what follows [--]. *)
Example diff_retire_interleaved :
  parse_args diff_retire_cli.p ["a.csv"; "--context"; "-3"; "--"; "--b.csv"]
  = Ok [("--context", VInt (-3)); ("a", VText "a.csv"); ("b", VText "--b.csv")].
Proof. vm_compute. reflexivity. Qed.

Example merge_needs_an_input :
  parse_args crv_cov_merge_cli.ap ["--out"; "m.txt"] = Raise (SystemExit 2)
  ∧ parse_args crv_cov_merge_cli.ap ["a"; "./b//c"; "--out=cov/m.txt"]
    = Ok [("--out", VText "cov/m.txt"); ("inputs", VList [VText "a"; VText "b/c"])].
Proof. vm_compute. by split. Qed.

(** A negative floor is not taken for an option. *)
Example wns_negative_floor :
  parse_args check_synth_wns_cli.ap ["--floor"; "-0.5"; "timing.rpt"]
  = Ok [("--floor", VFloat (decimal true 5 (-1))); ("report", VText "timing.rpt")].
Proof. vm_compute. reflexivity. Qed.

(** The threshold is an option: as a second positional, which the Makefile
    writes, it is refused. *)
Example gate_threshold_positional open :
  coverage_gate_cli.script open ["merged.info"; "100"] = Raise (SystemExit 2).
Proof. vm_compute. reflexivity. Qed.

Example gate_without_a_file :
  coverage_gate_cli.script (λ _, Raise (OSError "")) [] = Ok (PyText.Outcome 2 [])
  ∧ coverage_gate_cli.script (λ _, Raise (OSError "")) ["--threshold"; "high"; "merged.info"] = Raise (SystemExit 2).
Proof. vm_compute. by split. Qed.
